(** * Trips API: itinerary persistence and the regeneration lock

    A shallow embedding of [backend/src/routes/trips.routes.ts] (the
    [POST /] and [POST /:id/regenerate] handlers, then the handlers that
    list, read and delete trips), of the authentication middleware and
    routes and of the deletion of a catalog activity, over a small model
    of the Prisma store, together with the allocation engine of the
    design document, and the properties of the design document checked
    against them. *)

From Stdlib Require Import List ZArith QArith Bool String Ascii Lia.
From Stdlib Require Import Permutation Sorted DecimalString.
From ExtLib Require Import Structures.Monad.
Import ListNotations.
Import MonadNotation.

Local Open Scope monad_scope.
Local Open Scope string_scope.
Local Open Scope list_scope.
Local Open Scope Z_scope.

Set Implicit Arguments.

(* ===================================================================== *)
(** ** JavaScript values the handlers look at *)
(* ===================================================================== *)

Module Js.

(** A JavaScript number: a finite double is a rational, which is exact
  for [Number.isInteger] and for the comparisons the handlers make. *)
Inductive Number : Type :=
  | NaN
  | Infinity (negative : bool)
  | Finite (q : Q).

Definition ofZ (z : Z) : Number := Finite (inject_Z z).

(** [Number.isNaN] *)
Definition isNaN (n : Number) : bool :=
  match n with NaN => true | _ => false end.

(** [Number.isInteger] *)
Definition isInteger (n : Number) : bool :=
  match n with
  | Finite q => (Z.pos (Qden (Qred q)) =? 1)
  | _ => false
  end.

(** The integer an integral number stands for (0 for the others). *)
Definition toZ (n : Number) : Z :=
  match n with
  | Finite q => Qnum (Qred q)
  | _ => 0
  end.

(** [a < b]; every comparison with [NaN] is false. *)
Definition lt (a b : Number) : bool :=
  match a, b with
  | NaN, _ | _, NaN => false
  | Infinity true, Infinity true => false
  | Infinity true, _ => true
  | _, Infinity true => false
  | Infinity false, _ => false
  | _, Infinity false => true
  | Finite p, Finite q => negb (Qle_bool q p)
  end.

(** [a > b] *)
Definition gt (a b : Number) : bool := lt b a.

(** [a <= b] *)
Definition le (a b : Number) : bool :=
  match a, b with
  | NaN, _ | _, NaN => false
  | _, _ => negb (lt b a)
  end.

(** A request field typed [number | string] in the handler. *)
Inductive NumberOrString : Type :=
  | Num (n : Number)
  | Str (s : string).

(** A JavaScript string is held as the bytes of its UTF-8 encoding, the
    form in which a request carries it (a surrogate that stands alone is
    encoded like any other code point of three bytes).  Equality, prefixes
    and the search for an ASCII character are then those of the bytes. *)

(** ECMAScript white space and line terminators of one byte: TAB, LF, VT,
    FF, CR and SP. *)
Definition isWhiteSpace1 (a : nat) : bool :=
  ((9 <=? a) && (a <=? 13))%nat || (a =? 32)%nat.

(** ... of two bytes: U+00A0, the no-break space. *)
Definition isWhiteSpace2 (a b : nat) : bool :=
  ((a =? 194) && (b =? 160))%nat.

(** ... of three bytes: U+1680; U+2000 to U+200A, U+2028, U+2029 and
    U+202F; U+205F; U+3000; U+FEFF. *)
Definition isWhiteSpace3 (a b c : nat) : bool :=
  ((a =? 225) && (b =? 154) && (c =? 128))%nat
  || ((a =? 226) && (b =? 128)
      && (((128 <=? c) && (c <=? 138)) || (c =? 168) || (c =? 169)
          || (c =? 175)))%nat
  || ((a =? 226) && (b =? 129) && (c =? 159))%nat
  || ((a =? 227) && (b =? 128) && (c =? 128))%nat
  || ((a =? 239) && (b =? 187) && (c =? 191))%nat.

(** [s] without the white space it starts with.  With [backwards] the
    bytes of [s] come last byte first, as in a reversed string. *)
Fixpoint strip (backwards : bool) (s : string) : string :=
  match s with
  | String a s1 =>
      if isWhiteSpace1 (nat_of_ascii a) then strip backwards s1
      else
        match s1 with
        | String b s2 =>
            if (if backwards
                then isWhiteSpace2 (nat_of_ascii b) (nat_of_ascii a)
                else isWhiteSpace2 (nat_of_ascii a) (nat_of_ascii b))
            then strip backwards s2
            else
              match s2 with
              | String c s3 =>
                  if (if backwards
                      then isWhiteSpace3 (nat_of_ascii c) (nat_of_ascii b)
                                         (nat_of_ascii a)
                      else isWhiteSpace3 (nat_of_ascii a) (nat_of_ascii b)
                                         (nat_of_ascii c))
                  then strip backwards s3
                  else s
              | EmptyString => s
              end
        | EmptyString => s
        end
  | EmptyString => EmptyString
  end.

Fixpoint rev_append (s acc : string) : string :=
  match s with
  | String c s' => rev_append s' (String c acc)
  | EmptyString => acc
  end.

Definition reverse (s : string) : string := rev_append s EmptyString.

Definition lowerAscii (c : ascii) : ascii :=
  let n := nat_of_ascii c in
  if ((65 <=? n) && (n <=? 90))%nat then ascii_of_nat (n + 32) else c.

(** The lower case of the letters A to Z, which is
    [String.prototype.toLowerCase] on ASCII text. *)
Fixpoint toLowerCase (s : string) : string :=
  match s with
  | String c s' => String (lowerAscii c) (toLowerCase s')
  | EmptyString => EmptyString
  end.

(** [String.prototype.trim] *)
Definition trim (s : string) : string :=
  reverse (strip true (reverse (strip false s))).

(** The UTF-16 code units a byte opens: none for a continuation byte, two
    (a surrogate pair) for the first byte of a code point of four bytes,
    one for any other. *)
Definition codeUnits (a : nat) : Z :=
  if ((128 <=? a) && (a <=? 191))%nat then 0
  else if (240 <=? a)%nat then 2
  else 1.

(** [s.length], the number of UTF-16 code units. *)
Fixpoint length (s : string) : Z :=
  match s with
  | String a s' => codeUnits (nat_of_ascii a) + length s'
  | EmptyString => 0
  end.

(** [s.startsWith(p)] *)
Definition startsWith (s p : string) : bool := String.prefix p s.

(** [s.split(sep)] for a separator of one character. *)
Fixpoint split (sep : ascii) (s : string) : list string :=
  match s with
  | EmptyString => [EmptyString]
  | String c s' =>
      if Ascii.eqb c sep then EmptyString :: split sep s'
      else match split sep s' with
           | part :: parts => String c part :: parts
           | [] => [String c EmptyString]
           end
  end.

End Js.

(* ===================================================================== *)
(** ** The persisted rows *)
(* ===================================================================== *)

Record Activity : Type := mkActivity {
  activity_id : Z;
  activity_destination : string;
  activity_name : string;
  activity_type : string;
  activity_durationHours : Z;
  activity_priceLevel : Z
}.

Record Trip : Type := mkTrip {
  trip_id : Z;
  trip_userId : Z;
  trip_destination : string;
  trip_daysCount : Z;
  trip_budget : option Js.Number;
  trip_interests : string;
  trip_regenLockUntil : option Z   (* milliseconds since the epoch *)
}.

Record DayPlan : Type := mkDayPlan {
  dayPlan_id : Z;
  dayPlan_tripId : Z;
  dayPlan_dayNumber : Z
}.

Record PlannedActivity : Type := mkPlannedActivity {
  plannedActivity_id : Z;
  plannedActivity_dayPlanId : Z;
  plannedActivity_activityId : Z;
  plannedActivity_orderIndex : Z
}.

(** The tables, each in insertion order, and the next value of each id
    sequence. *)
Record Store : Type := mkStore {
  activities : list Activity;
  trips : list Trip;
  dayPlans : list DayPlan;
  plannedActivities : list PlannedActivity;
  nextTripId : Z;
  nextDayPlanId : Z;
  nextPlannedActivityId : Z
}.

Definition set_regenLockUntil (v : option Z) (t : Trip) : Trip :=
  mkTrip (trip_id t) (trip_userId t) (trip_destination t) (trip_daysCount t)
         (trip_budget t) (trip_interests t) v.

Definition set_interests (v : string) (t : Trip) : Trip :=
  mkTrip (trip_id t) (trip_userId t) (trip_destination t) (trip_daysCount t)
         (trip_budget t) v (trip_regenLockUntil t).

Definition with_trips (ts : list Trip) (s : Store) : Store :=
  mkStore (activities s) ts (dayPlans s) (plannedActivities s)
          (nextTripId s) (nextDayPlanId s) (nextPlannedActivityId s).

Definition with_dayPlans (ds : list DayPlan) (s : Store) : Store :=
  mkStore (activities s) (trips s) ds (plannedActivities s)
          (nextTripId s) (nextDayPlanId s) (nextPlannedActivityId s).

Definition with_plannedActivities (ps : list PlannedActivity) (s : Store) : Store :=
  mkStore (activities s) (trips s) (dayPlans s) ps
          (nextTripId s) (nextDayPlanId s) (nextPlannedActivityId s).

(** A trip with its plan, as [findUnique] with the nested [include] of the
    handlers returns it. *)
Record PlannedActivityView : Type := mkPlannedActivityView {
  view_plannedActivity : PlannedActivity;
  view_activity : option Activity
}.

Record DayPlanView : Type := mkDayPlanView {
  view_dayPlan : DayPlan;
  view_plannedActivities : list PlannedActivityView
}.

Record TripView : Type := mkTripView {
  view_trip : Trip;
  view_dayPlans : list DayPlanView
}.

(* ===================================================================== *)
(** ** Store operations *)
(* ===================================================================== *)

(** Which of the store calls a request makes fail, in the order it makes
    them; past the end of the list no call fails. *)
Definition Faults : Type := list bool.

Definition next_fault (fs : Faults) : bool * Faults :=
  match fs with
  | [] => (false, [])
  | b :: fs' => (b, fs')
  end.

(** A store operation: [None] is a rejected promise (a thrown error); the
    store it returns is then the store at the point of the failure. *)
Definition DB (X : Type) : Type := Store -> Faults -> option X * Store * Faults.

#[export] Instance Monad_DB : Monad DB := {
  ret := fun X (x : X) s fs => (Some x, s, fs);
  bind := fun X Y (c : DB X) (k : X -> DB Y) s fs =>
    match c s fs with
    | (Some x, s', fs') => k x s' fs'
    | (None, s', fs') => (None, s', fs')
    end
}.

(** One call of the client: it fails when the fault list says so, or when
    the operation itself rejects ([f] gives [None]); a call that fails
    leaves the store as it is. *)
Definition db_call {X : Type} (f : Store -> option (X * Store)) : DB X :=
  fun s fs =>
    let (faulty, fs') := next_fault fs in
    if faulty then (None, s, fs')
    else match f s with
         | Some (x, s') => (Some x, s', fs')
         | None => (None, s, fs')
         end.

(** The rows of [s] with the id sequences as they are in [s']. *)
Definition rolledBack (s s' : Store) : Store :=
  mkStore (activities s) (trips s) (dayPlans s) (plannedActivities s)
          (nextTripId s') (nextDayPlanId s') (nextPlannedActivityId s').

(** [prisma.$transaction(async (tx) => body)]: the writes of [body] are
    kept when it resolves and undone when it rejects.  The ids come from
    the [SERIAL] sequences of PostgreSQL, which a rollback does not wind
    back: the ids the body drew stay drawn. *)
Definition transaction {X : Type} (body : DB X) : DB X :=
  fun s fs =>
    match body s fs with
    | (Some x, s', fs') => (Some x, s', fs')
    | (None, s', fs') => (None, rolledBack s s', fs')
    end.

Module prisma.

Definition count {A : Type} (p : A -> bool) (l : list A) : Z :=
  Z.of_nat (List.length (filter p l)).

(** Stable insertion by an integer key, for [orderBy: { key: "asc" }]. *)
Fixpoint insert_by {A : Type} (key : A -> Z) (x : A) (l : list A) : list A :=
  match l with
  | [] => [x]
  | y :: l' => if key x <=? key y then x :: l else y :: insert_by key x l'
  end.

Definition orderBy {A : Type} (key : A -> Z) (l : list A) : list A :=
  fold_right (insert_by key) [] l.

Module trip.

Definition findUnique (id : Z) : DB (option Trip) :=
  db_call (fun s => Some (find (fun t => trip_id t =? id) (trips s), s)).

Definition updateMany (where_ : Trip -> bool) (data : Trip -> Trip) : DB Z :=
  db_call (fun s =>
    Some (count where_ (trips s),
          with_trips (map (fun t => if where_ t then data t else t) (trips s)) s)).

(** [update] rejects when no row has the id. *)
Definition update (id : Z) (data : Trip -> Trip) : DB Trip :=
  db_call (fun s =>
    match find (fun t => trip_id t =? id) (trips s) with
    | Some t =>
        Some (data t,
              with_trips (map (fun t => if trip_id t =? id then data t else t)
                              (trips s)) s)
    | None => None
    end).

Definition create (userId : Z) (destination : string) (daysCount : Z)
           (budget : option Js.Number) (interests : string) : DB Trip :=
  db_call (fun s =>
    let t := mkTrip (nextTripId s) userId destination daysCount budget
                    interests None in
    Some (t, mkStore (activities s) (trips s ++ [t]) (dayPlans s)
                     (plannedActivities s) (nextTripId s + 1)
                     (nextDayPlanId s) (nextPlannedActivityId s))).

Definition plannedActivityView (s : Store) (pa : PlannedActivity)
  : PlannedActivityView :=
  mkPlannedActivityView pa
    (find (fun a => activity_id a =? plannedActivity_activityId pa)
          (activities s)).

Definition dayPlanView (s : Store) (dp : DayPlan) : DayPlanView :=
  mkDayPlanView dp
    (map (plannedActivityView s)
         (orderBy plannedActivity_orderIndex
            (filter (fun pa => plannedActivity_dayPlanId pa =? dayPlan_id dp)
                    (plannedActivities s)))).

(** [findUnique] with [include: { dayPlans: { orderBy: dayNumber asc,
    include: { plannedActivities: { orderBy: orderIndex asc,
    include: { activity: true } } } } }]. *)
Definition tripView (s : Store) (id : Z) : option TripView :=
  option_map
    (fun t =>
       mkTripView t
         (map (dayPlanView s)
              (orderBy dayPlan_dayNumber
                 (filter (fun dp => dayPlan_tripId dp =? trip_id t) (dayPlans s)))))
    (find (fun t => trip_id t =? id) (trips s)).

Definition findUniqueWithPlan (id : Z) : DB (option TripView) :=
  db_call (fun s => Some (tripView s id, s)).

(** A row of [findMany] with [select: { ..., createdAt: true, dayPlans:
    { select: { _count: { select: { plannedActivities: true } } } } }]:
    the trip, its creation time, and the number of PlannedActivity rows of
    each of its DayPlans. *)
Record Listed : Type := mkListed {
  listed_trip : Trip;
  listed_createdAt : Z;
  listed_counts : list Z
}.

Definition listed (createdAt : Trip -> Z) (s : Store) (t : Trip) : Listed :=
  mkListed t (createdAt t)
    (map (fun dp =>
            count (fun pa => plannedActivity_dayPlanId pa =? dayPlan_id dp)
                  (plannedActivities s))
         (filter (fun dp => dayPlan_tripId dp =? trip_id t) (dayPlans s))).

(** [findMany({ where: { userId }, orderBy: { createdAt: "desc" },
    select: ... })].  The [createdAt] column, which the rows of this model
    leave out, is given as a function of the row. *)
Definition findManyOfUser (createdAt : Trip -> Z) (userId : Z) : DB (list Listed) :=
  db_call (fun s =>
    Some (map (listed createdAt s)
              (orderBy (fun t => - createdAt t)
                       (filter (fun t => trip_userId t =? userId) (trips s))),
          s)).

(** The store without the trip [id], its DayPlans and their
    PlannedActivity rows. *)
Definition without (id : Z) (s : Store) : Store :=
  let gone := filter (fun dp => dayPlan_tripId dp =? id) (dayPlans s) in
  mkStore (activities s)
          (filter (fun t => negb (trip_id t =? id)) (trips s))
          (filter (fun dp => negb (dayPlan_tripId dp =? id)) (dayPlans s))
          (filter (fun pa => negb (existsb (Z.eqb (plannedActivity_dayPlanId pa))
                                           (map dayPlan_id gone)))
                  (plannedActivities s))
          (nextTripId s) (nextDayPlanId s) (nextPlannedActivityId s).

(** [delete({ where: { id } })]: it rejects when no row has the id.  The
    DayPlans of the trip and their PlannedActivity rows go with it when the
    schema, which is not among the sources, cascades ([cascade]), as the
    comment in the handler expects; when it does not, the delete rejects
    as long as the trip has DayPlans. *)
Definition delete (cascade : bool) (id : Z) : DB Trip :=
  db_call (fun s =>
    match find (fun t => trip_id t =? id) (trips s) with
    | Some t =>
        match filter (fun dp => dayPlan_tripId dp =? id) (dayPlans s) with
        | [] => Some (t, without id s)
        | _ :: _ => if cascade then Some (t, without id s) else None
        end
    | None => None
    end).

End trip.

Module activity.

Definition findMany (destination : string) : DB (list Activity) :=
  db_call (fun s =>
    Some (filter (fun a => String.eqb (activity_destination a) destination)
                 (activities s), s)).

(** [findUnique({ where: { id } })] *)
Definition findUnique (id : Z) : DB (option Activity) :=
  db_call (fun s => Some (find (fun a => activity_id a =? id) (activities s), s)).

(** The store without the activity [id] and the PlannedActivity rows that
    refer to it. *)
Definition without (id : Z) (s : Store) : Store :=
  mkStore (filter (fun a => negb (activity_id a =? id)) (activities s))
          (trips s) (dayPlans s)
          (filter (fun pa => negb (plannedActivity_activityId pa =? id))
                  (plannedActivities s))
          (nextTripId s) (nextDayPlanId s) (nextPlannedActivityId s).

(** [delete({ where: { id } })]: it rejects when no row has the id, and,
    unless the schema (which is not among the sources) cascades, when a
    PlannedActivity row refers to the activity. *)
Definition delete (cascade : bool) (id : Z) : DB Activity :=
  db_call (fun s =>
    match find (fun a => activity_id a =? id) (activities s) with
    | Some a =>
        match filter (fun pa => plannedActivity_activityId pa =? id)
                     (plannedActivities s) with
        | [] => Some (a, without id s)
        | _ :: _ => if cascade then Some (a, without id s) else None
        end
    | None => None
    end).

End activity.

Module dayPlan.

Definition findMany (tripId : Z) : DB (list DayPlan) :=
  db_call (fun s =>
    Some (filter (fun dp => dayPlan_tripId dp =? tripId) (dayPlans s), s)).

(** [findMany({ where: { tripId }, orderBy: { dayNumber: "asc" } })] *)
Definition findManyByDay (tripId : Z) : DB (list DayPlan) :=
  db_call (fun s =>
    Some (orderBy dayPlan_dayNumber
                  (filter (fun dp => dayPlan_tripId dp =? tripId) (dayPlans s)),
          s)).

Definition deleteMany (tripId : Z) : DB Z :=
  db_call (fun s =>
    Some (count (fun dp => dayPlan_tripId dp =? tripId) (dayPlans s),
          with_dayPlans
            (filter (fun dp => negb (dayPlan_tripId dp =? tripId)) (dayPlans s))
            s)).

Definition create (tripId dayNumber : Z) : DB DayPlan :=
  db_call (fun s =>
    let dp := mkDayPlan (nextDayPlanId s) tripId dayNumber in
    Some (dp, mkStore (activities s) (trips s) (dayPlans s ++ [dp])
                      (plannedActivities s) (nextTripId s)
                      (nextDayPlanId s + 1) (nextPlannedActivityId s))).

End dayPlan.

Module plannedActivity.

Definition inIds (ids : list Z) (pa : PlannedActivity) : bool :=
  existsb (Z.eqb (plannedActivity_dayPlanId pa)) ids.

(** [deleteMany({ where: { dayPlanId: { in: ids } } })] *)
Definition deleteMany (dayPlanIds : list Z) : DB Z :=
  db_call (fun s =>
    Some (count (inIds dayPlanIds) (plannedActivities s),
          with_plannedActivities
            (filter (fun pa => negb (inIds dayPlanIds pa)) (plannedActivities s))
            s)).

Definition create (dayPlanId activityId orderIndex : Z) : DB PlannedActivity :=
  db_call (fun s =>
    let pa := mkPlannedActivity (nextPlannedActivityId s) dayPlanId
                                activityId orderIndex in
    Some (pa, mkStore (activities s) (trips s) (dayPlans s)
                      (plannedActivities s ++ [pa]) (nextTripId s)
                      (nextDayPlanId s) (nextPlannedActivityId s + 1))).

End plannedActivity.

End prisma.

(* ===================================================================== *)
(** ** Request handlers as programs over the store *)
(* ===================================================================== *)

(** The body of a JSON response. *)
Inductive Body : Type :=
| Message (message : string)
| TripJson (trip : option TripView) (warning : option string).

Record Response : Type := mkResponse {
  status : Z;
  body : Body
}.

(** The awaited store calls of the two handlers, by their place in the
    source. *)
Inductive Site : Type :=
| CreateFetchActivities   (* POST /: prisma.activity.findMany *)
| CreatePersist           (* POST /: prisma.$transaction *)
| LoadBase                (* regenerate 1): prisma.trip.findUnique *)
| AcquireLock             (* regenerate 2): prisma.trip.updateMany *)
| FetchActivities         (* regenerate 4): prisma.activity.findMany *)
| ReplacePlan             (* regenerate 5): prisma.$transaction *)
| Unlock.                 (* regenerate finally: prisma.trip.updateMany *)

(** An async handler: it ends normally, by a [return] of a response, or
    by an uncaught error, and in between awaits store calls one at a time.
    The continuation of an awaited call gets [None] when the call
    rejected. *)
Inductive Prog (A : Type) : Type :=
| Pure (a : A)
| Throw
| Return (r : Response)
| Await (site : Site) (X : Type) (op : DB X) (k : option X -> Prog A).

Arguments Pure {A} a.
Arguments Throw {A}.
Arguments Return {A} r.
Arguments Await {A} site {X} op k.

Fixpoint Prog_bind {A B : Type} (p : Prog A) (f : A -> Prog B) : Prog B :=
  match p with
  | Pure a => f a
  | Throw => Throw
  | Return r => Return r
  | Await site op k => Await site op (fun o => Prog_bind (k o) f)
  end.

#[export] Instance Monad_Prog : Monad Prog := {
  ret := fun A (a : A) => Pure a;
  bind := fun A B (p : Prog A) (f : A -> Prog B) => Prog_bind p f
}.

(** [await op]: a rejection is thrown at the place of the [await]. *)
Definition await {X : Type} (site : Site) (op : DB X) : Prog X :=
  Await site op (fun o => match o with Some x => Pure x | None => Throw end).

(** A call of a synchronous function that may throw. *)
Definition call {X : Type} (r : option X) : Prog X :=
  match r with Some x => Pure x | None => Throw end.

(** [try { p } catch { handler }] *)
Fixpoint tryCatch {A : Type} (p : Prog A) (handler : Prog A) : Prog A :=
  match p with
  | Pure a => Pure a
  | Throw => handler
  | Return r => Return r
  | Await site op k => Await site op (fun o => tryCatch (k o) handler)
  end.

(** [try { p } finally { cleanup }]: the cleanup runs after every
    completion of [p], which it keeps unless it completes abruptly
    itself. *)
Fixpoint tryFinally {A : Type} (p : Prog A) (cleanup : Prog unit) : Prog A :=
  match p with
  | Pure a => cleanup ;; Pure a
  | Throw => cleanup ;; Throw
  | Return r => cleanup ;; Return r
  | Await site op k => Await site op (fun o => tryFinally (k o) cleanup)
  end.

(** [try { p } catch { handler } finally { cleanup }] *)
Definition tryCatchFinally {A : Type} (p handler : Prog A) (cleanup : Prog unit)
  : Prog A :=
  tryFinally (tryCatch p handler) cleanup.

(** How a handler ended. *)
Inductive Completion (A : Type) : Type :=
| Normal (a : A)
| Returned (r : Response)
| Uncaught.

Arguments Normal {A} a.
Arguments Returned {A} r.
Arguments Uncaught {A}.

(** The state a request runs in: the store, the faults still to come, and
    the store calls made so far (latest first) with whether each
    resolved. *)
Record World : Type := mkWorld {
  store : Store;
  faults : Faults;
  calls : list (Site * bool)
}.

(** One awaited call on the world. *)
Definition perform {X : Type} (site : Site) (op : DB X) (w : World)
  : option X * World :=
  match op (store w) (faults w) with
  | (Some x, s', fs') => (Some x, mkWorld s' fs' ((site, true) :: calls w))
  | (None, s', fs') => (None, mkWorld s' fs' ((site, false) :: calls w))
  end.

(** A request run alone from start to end. *)
Fixpoint run {A : Type} (p : Prog A) (w : World) : Completion A * World :=
  match p with
  | Pure a => (Normal a, w)
  | Throw => (Uncaught, w)
  | Return r => (Returned r, w)
  | Await site op k =>
      let (o, w') := perform site op w in run (k o) w'
  end.

(** How the completion of a block and of the block after it combine. *)
Definition andThen {A B : Type} (c : Completion A) (w : World)
           (k : A -> World -> Completion B * World) : Completion B * World :=
  match c with
  | Normal a => k a w
  | Returned r => (Returned r, w)
  | Uncaught => (Uncaught, w)
  end.

(** The completion of [try { } finally { }] from those of its blocks. *)
Definition afterCleanup {A : Type} (c : Completion A) (c' : Completion unit)
  : Completion A :=
  match c' with
  | Normal _ => c
  | Returned r => Returned r
  | Uncaught => Uncaught
  end.

(** A program that never ends normally: every path returns or throws. *)
Fixpoint endsAbruptly {A : Type} (p : Prog A) : Prop :=
  match p with
  | Pure _ => False
  | Throw | Return _ => True
  | Await _ _ k => forall o, endsAbruptly (k o)
  end.


(** Loops of the transaction bodies. *)
Fixpoint forEach {A : Type} (l : list A) (f : A -> DB unit) : DB unit :=
  match l with
  | [] => ret tt
  | x :: l' => f x ;; forEach l' f
  end.

Fixpoint collect {A B : Type} (l : list A) (f : A -> DB B) : DB (list B) :=
  match l with
  | [] => ret []
  | x :: l' => y <- f x ;; ys <- collect l' f ;; ret (y :: ys)
  end.

(** The values of [d] in [for (let d = 1; d <= n; d++)]. *)
Definition upto (n : Z) : list Z := map Z.of_nat (seq 1 (Z.to_nat n)).

(** The pairs [(i, l[i])] of [for (let i = 0; i < l.length; i++)]. *)
Definition indexed {A : Type} (l : list A) : list (Z * A) :=
  combine (map Z.of_nat (seq 0 (List.length l))) l.

(** A [TypeError] inside a transaction body. *)
Definition typeError {X : Type} : DB X := fun s fs => (None, s, fs).

(** The plan [generateItinerary] returns. *)
Record Plan : Type := mkPlan {
  plan_days : list (list Activity);
  plan_warning : option string
}.

Definition json (code : Z) (message : string) : Response :=
  mkResponse code (Message message).

(** The two loops both handlers persist a plan with: one DayPlan per day,
    then the PlannedActivity rows of each day. *)
Definition createDayPlans (tripId days : Z) : DB (list DayPlan) :=
  collect (upto days) (fun d => prisma.dayPlan.create tripId d).

Definition createPlannedActivities (days : Z) (newDayPlans : list DayPlan)
           (plan : Plan) : DB unit :=
  forEach (upto days) (fun d =>
    let dp := nth_error newDayPlans (Z.to_nat (d - 1)) in
    let dayItems := nth (Z.to_nat (d - 1)) (plan_days plan) [] in
    forEach (indexed dayItems) (fun '(i, item) =>
      match dp with
      | Some dp =>
          prisma.plannedActivity.create (dayPlan_id dp) (activity_id item) (i + 1) ;;
          ret tt
      | None => typeError
      end)).

Record CreateTripBody : Type := mkCreateTripBody {
  body_destination : option string;
  body_daysCount : option Js.NumberOrString;
  body_budget : option Js.NumberOrString;
  body_interests : option string
}.

Record CreateRequest : Type := mkCreateRequest {
  create_userId : option Z;          (* req.user?.userId *)
  create_body : CreateTripBody
}.

Record RegenerateRequest : Type := mkRegenerateRequest {
  regenerate_userId : Z;             (* req.user!.userId *)
  regenerate_id : string;            (* req.params.id *)
  regenerate_interests : option string  (* req.body?.interests *)
}.

(** The two readings of the clock at the start of [regenerate], in
    milliseconds. *)
Record Clock : Type := mkClock {
  newDate : Z;    (* new Date() *)
  dateNow : Z     (* Date.now() *)
}.

Definition lockTtlMs : Z := 2 * 60 * 1000.

(** [OR: [{ regenLockUntil: null }, { regenLockUntil: { lt: now } }]] *)
Definition lockFree (now : Z) (t : Trip) : bool :=
  match trip_regenLockUntil t with
  | None => true
  | Some l => l <? now
  end.

(** The [where] of the acquiring [updateMany]. *)
Definition acquireWhere (tripId userId now : Z) (t : Trip) : bool :=
  (trip_id t =? tripId) && (trip_userId t =? userId) && lockFree now t.

(** The [where] of the unlocking [updateMany]. *)
Definition unlockWhere (tripId userId : Z) (t : Trip) : bool :=
  (trip_id t =? tripId) && (trip_userId t =? userId).

Definition noActivitiesWarning : string := "No activities found for destination".

(** [{ days: Array.from({ length: daysCount }, () => []), warning }] *)
Definition emptyPlan (daysCount : Z) : Plan :=
  mkPlan (repeat [] (Z.to_nat daysCount)) (Some noActivitiesWarning).

Section Handlers.

(** [Number(s)] on a string, a built-in of the language. *)
Variable StringToNumber : string -> Js.Number.

(** [generateItinerary({ activities, daysCount, interests })] of
    [services/planner.service]; [None] when it throws. *)
Variable generateItinerary : list Activity -> Z -> string -> option Plan.

(** [Number(v)] on a field typed [number | string | undefined]. *)
Definition Number (v : option Js.NumberOrString) : Js.Number :=
  match v with
  | None => Js.NaN
  | Some (Js.Num n) => n
  | Some (Js.Str s) => StringToNumber s
  end.

(** The transaction of [POST /]. *)
Definition persistNewTrip (userId : Z) (destination : string) (days : Z)
           (bud : option Js.Number) (interests : string) (plan : Plan)
  : DB (option TripView) :=
  createdTrip <- prisma.trip.create userId destination days bud interests ;;
  dayPlans <- createDayPlans (trip_id createdTrip) days ;;
  createPlannedActivities days dayPlans plan ;;
  prisma.trip.findUniqueWithPlan (trip_id createdTrip).

(** [router.post("/", ...)] *)
Definition createTrip (req : CreateRequest) : Prog unit :=
  tryCatch
    (match body_destination (create_body req) with
     | Some (String _ _ as destination) =>
       let days := Number (body_daysCount (create_body req)) in
       if negb (Js.isInteger days) || Js.lt days (Js.ofZ 1) || Js.gt days (Js.ofZ 30)
       then Return (json 400 "daysCount must be integer 1-30")
       else
       bud <- match body_budget (create_body req) with
              | None | Some (Js.Str EmptyString) => Pure None
              | Some budget =>
                  let parsed := Number (Some budget) in
                  if Js.isNaN parsed || Js.lt parsed (Js.ofZ 0)
                  then Return (json 400 "budget must be a number >= 0")
                  else Pure (Some parsed)
              end ;;
       match body_interests (create_body req) with
       | Some (String _ _ as interests) =>
         match create_userId req with
         | None | Some 0 => Return (json 401 "Unauthorized")
         | Some userId =>
           activities <- await CreateFetchActivities
                           (prisma.activity.findMany destination) ;;
           plan <- call (generateItinerary activities (Js.toZ days) interests) ;;
           savedTrip <- await CreatePersist
                          (transaction
                             (persistNewTrip userId destination (Js.toZ days) bud
                                             interests plan)) ;;
           Return (mkResponse 201 (TripJson savedTrip (plan_warning plan)))
         end
       | _ => Return (json 400 "interests is required (comma-separated)")
       end
     | _ => Return (json 400 "destination is required")
     end)
    (Return (json 500 "Server error")).

(** The transaction of [POST /:id/regenerate]. *)
Definition replacePlan (tripId : Z) (base : Trip) (effectiveInterests : string)
           (plan : Plan) : DB (option TripView) :=
  existingDayPlans <- prisma.dayPlan.findMany tripId ;;
  let dayPlanIds := map dayPlan_id existingDayPlans in
  (if (0 <? Z.of_nat (List.length dayPlanIds))
   then prisma.plannedActivity.deleteMany dayPlanIds ;;
        prisma.dayPlan.deleteMany tripId ;;
        ret tt
   else ret tt) ;;
  (if negb (String.eqb effectiveInterests (trip_interests base))
   then prisma.trip.update tripId (set_interests effectiveInterests) ;; ret tt
   else ret tt) ;;
  newDayPlans <- createDayPlans tripId (trip_daysCount base) ;;
  createPlannedActivities (trip_daysCount base) newDayPlans plan ;;
  prisma.trip.findUniqueWithPlan tripId.

(** The plan of step 4): the fallback on an empty catalog, the planner
    otherwise. *)
Definition planFor (activities : list Activity) (daysCount : Z)
           (interests : string) : option Plan :=
  match activities with
  | [] => Some (emptyPlan daysCount)
  | _ :: _ => generateItinerary activities daysCount interests
  end.

Definition effectiveInterestsOf (incomingInterests : option string)
           (base : Trip) : string :=
  match incomingInterests with
  | Some s => if String.eqb (Js.trim s) "" then trip_interests base else Js.trim s
  | None => trip_interests base
  end.

(** Steps 3) to 5) of [regenerate], which run once the lock is acquired. *)
Definition regenerateLocked (tripId : Z) (base : Trip)
           (incomingInterests : option string) : Prog unit :=
  match incomingInterests with
  | Some s =>
      if String.eqb (Js.trim s) ""
      then Return (json 400 "interests must be a non-empty string")
      else Pure tt
  | None => Pure tt
  end ;;
  let effectiveInterests := effectiveInterestsOf incomingInterests base in
  activities <- await FetchActivities
                  (prisma.activity.findMany (trip_destination base)) ;;
  plan <- call (planFor activities (trip_daysCount base) effectiveInterests) ;;
  savedTrip <- await ReplacePlan
                 (transaction (replacePlan tripId base effectiveInterests plan)) ;;
  Return (mkResponse 200 (TripJson savedTrip (plan_warning plan))).

(** The [try] block of [regenerate]. *)
Definition regenerateBody (now lockUntil tripId userId : Z)
           (incomingInterests : option string) : Prog unit :=
  base <- await LoadBase (prisma.trip.findUnique tripId) ;;
  match base with
  | None => Return (json 404 "Trip not found")
  | Some base =>
    if negb (trip_userId base =? userId) then Return (json 403 "Forbidden")
    else
    lockResult <- await AcquireLock
                    (prisma.trip.updateMany (acquireWhere tripId userId now)
                                            (set_regenLockUntil (Some lockUntil))) ;;
    if lockResult =? 0
    then Return (json 409 "Regeneration already in progress")
    else regenerateLocked tripId base incomingInterests
  end.

(** The [finally] block of [regenerate]. *)
Definition unlock (tripId userId : Z) : Prog unit :=
  tryCatch
    (await Unlock (prisma.trip.updateMany (unlockWhere tripId userId)
                                          (set_regenLockUntil None)) ;;
     Pure tt)
    (Pure tt).

(** [router.post("/:id/regenerate", ...)] *)
Definition regenerate (clock : Clock) (req : RegenerateRequest) : Prog unit :=
  let userId := regenerate_userId req in
  let tripId := StringToNumber (regenerate_id req) in
  if negb (Js.isInteger tripId) || Js.le tripId (Js.ofZ 0)
  then Return (json 404 "Trip not found")
  else
  let now := newDate clock in
  let lockUntil := dateNow clock + lockTtlMs in
  tryCatchFinally
    (regenerateBody now lockUntil (Js.toZ tripId) userId (regenerate_interests req))
    (Return (json 500 "Server error"))
    (unlock (Js.toZ tripId) userId).

End Handlers.

(* ===================================================================== *)
(** ** Requests served concurrently *)
(* ===================================================================== *)

(** A request being served: what is left of its handler, the faults its
    store calls will meet, the calls it made. *)
Record Task : Type := mkTask {
  task_prog : Prog unit;
  task_faults : Faults;
  task_calls : list (Site * bool)
}.

Definition spawn (p : Prog unit) (fs : Faults) : Task := mkTask p fs [].

(** The event loop resumes one request up to its next [await]: the store
    call it was waiting on is performed as one step on the shared store. *)
Definition resume (t : Task) (s : Store) : Task * Store :=
  match task_prog t with
  | Await site op k =>
      let (o, w) := perform site op (mkWorld s (task_faults t) (task_calls t)) in
      (mkTask (k o) (faults w) (calls w), store w)
  | _ => (t, s)
  end.

(** [n] steps of one request in a row. *)
Fixpoint resumes (n : nat) (t : Task) (s : Store) : Task * Store :=
  match n with
  | O => (t, s)
  | S n' => let (t', s') := resume t s in resumes n' t' s'
  end.

(** The program of a request that ended with completion [c]. *)
Definition ended (c : Completion unit) : Prog unit :=
  match c with
  | Normal a => Pure a
  | Returned r => Return r
  | Uncaught => Throw
  end.

Record System : Type := mkSystem {
  shared : Store;
  tasks : list Task
}.

Fixpoint replace_nth {A : Type} (n : nat) (x : A) (l : list A) : list A :=
  match l, n with
  | [], _ => []
  | _ :: l', O => x :: l'
  | y :: l', S n' => y :: replace_nth n' x l'
  end.

(** One step of request number [i]. *)
Definition step (i : nat) (sys : System) : System :=
  match nth_error (tasks sys) i with
  | Some t =>
      let (t', s') := resume t (shared sys) in
      mkSystem s' (replace_nth i t' (tasks sys))
  | None => sys
  end.

(** A schedule: the requests in the order the event loop resumes them. *)
Definition schedule (order : list nat) (sys : System) : System :=
  fold_left (fun sys i => step i sys) order sys.

(** The store call a request is waiting on. *)
Definition waitingOn (t : Task) : option Site :=
  match task_prog t with
  | Await site _ _ => Some site
  | _ => None
  end.

(** The response of a request that ended. *)
Definition responseOf (t : Task) : option Response :=
  match task_prog t with
  | Return r => Some r
  | _ => None
  end.

(** A regeneration is in flight from the moment its acquiring write
    affected a row until its replace transaction has run: these are the
    requests waiting on step 4) or 5). *)
Definition inFlight (t : Task) : bool :=
  match waitingOn t with
  | Some FetchActivities | Some ReplacePlan => true
  | _ => false
  end.

Definition inFlightCount (sys : System) : nat :=
  List.length (filter inFlight (tasks sys)).

(* ===================================================================== *)
(** ** The allocation engine *)
(* ===================================================================== *)

Module Engine.

(** Modelled from the spec: the InterestProfile of section 3, a set of
    normalized category tokens (the planner service and its types are not
    among the sources). *)
Definition InterestProfile : Type := list string.

(** Modelled from the spec: the comma-separated tokens of section 4.1 (the
    Interest Parser is not among the sources): the pieces of [s] between
    commas; [cur] is the piece being read, backwards. *)
Fixpoint splitComma (s : string) (cur : string) : list string :=
  match s with
  | EmptyString => [Js.reverse cur]
  | String c s' =>
      if Ascii.eqb c ","%char
      then Js.reverse cur :: splitComma s' EmptyString
      else splitComma s' (String c cur)
  end.

(** Modelled from the spec: the output of the Interest Parser is a set
    (section 4.1): one occurrence of each token is kept. *)
Fixpoint dedupe (l : list string) : list string :=
  match l with
  | [] => []
  | x :: l' => if existsb (String.eqb x) l' then dedupe l' else x :: dedupe l'
  end.

(** Modelled from the spec: the Interest Parser of section 4.1, which is
    not among the sources.  Comma-separated tokens, trimmed, lower-cased,
    the empty ones dropped, as a set. *)
Definition parseInterests (raw : string) : InterestProfile :=
  dedupe
    (filter (fun t => negb (String.eqb t ""))
            (map (fun t => Js.toLowerCase (Js.trim t))
                 (splitComma raw EmptyString))).

(** Modelled from the spec: the running duration total of a day (section
    4.2, step 3; the planner service is not among the sources). *)
Definition total (day : list Activity) : Z :=
  fold_right (fun a acc => activity_durationHours a + acc) 0 day.

(** Modelled from the spec: a day that remained empty (section 4.2,
    step 5). *)
Definition isEmptyDay (day : list Activity) : bool :=
  match day with [] => true | _ :: _ => false end.

(** Modelled from the spec: the N of the shortfall warning (section 4.2,
    step 5). *)
Definition emptyDays (days : list (list Activity)) : nat :=
  List.length (filter isEmptyDay days).

(** Modelled from the spec: the numbers of the warning, in decimal. *)
Definition decimal (n : nat) : string := NilZero.string_of_uint (Nat.to_uint n).

(** Modelled from the spec: the warning of section 4.2, step 5, in the
    wording of its example, "insufficient activities for N of M days". *)
Definition shortfallWarning (n m : nat) : string :=
  "insufficient activities for " ++ decimal n ++ " of " ++ decimal m ++ " days".

Section Allocation.

(** Modelled from the spec: the daily capacity, a design constant (for
    instance 8 hours), in hours like the durations. *)
Variable dailyCapacity : Z.

(** Modelled from the spec: step 1 of section 4.2, +2 when the category is
    in the profile. *)
Definition score (profile : InterestProfile) (a : Activity) : Z :=
  if existsb (String.eqb (activity_type a)) profile then 2 else 0.

(** Modelled from the spec: the order of steps 1 and 2; [a] goes before
    [b] in the pool: score descending, then price level ascending, then
    name ascending. *)
Definition precedes (profile : InterestProfile) (a b : Activity) : bool :=
  (score profile b <? score profile a)
  || ((score profile a =? score profile b)
      && ((activity_priceLevel a <? activity_priceLevel b)
          || ((activity_priceLevel a =? activity_priceLevel b)
              && String.leb (activity_name a) (activity_name b)))).

(** Modelled from the spec: insertion into the ordered pool (step 2). *)
Fixpoint insertSorted (profile : InterestProfile) (a : Activity)
         (l : list Activity) : list Activity :=
  match l with
  | [] => [a]
  | b :: l' =>
      if precedes profile a b then a :: l else b :: insertSorted profile a l'
  end.

(** Modelled from the spec: step 2, the candidate pool in order (a stable
    insertion sort). *)
Definition sortPool (profile : InterestProfile) (l : list Activity)
  : list Activity :=
  fold_right (insertSorted profile) [] l.

(** Modelled from the spec: step 3 for one activity, the first day, in
    day-number order, whose running total plus the duration stays within
    the capacity. *)
Fixpoint place (a : Activity) (days : list (list Activity))
  : option (list (list Activity)) :=
  match days with
  | [] => None
  | day :: rest =>
      if total day + activity_durationHours a <=? dailyCapacity
      then Some ((day ++ [a]) :: rest)
      else option_map (cons day) (place a rest)
  end.

(** Modelled from the spec: "all days are at capacity" of step 4. *)
Definition allAtCapacity (days : list (list Activity)) : bool :=
  forallb (fun day => dailyCapacity <=? total day) days.

(** Modelled from the spec: steps 3 and 4, one pass over the pool with the
    identities already used, until the pool is exhausted or all days are
    at capacity. *)
Fixpoint walk (pool : list Activity) (days : list (list Activity))
         (used : list Z) : list (list Activity) :=
  match pool with
  | [] => days
  | a :: pool' =>
      if allAtCapacity days then days
      else if existsb (Z.eqb (activity_id a)) used then walk pool' days used
      else match place a days with
           | Some days' => walk pool' days' (activity_id a :: used)
           | None => walk pool' days used
           end
  end.

(** Modelled from the spec: [allocate] of section 4.2 (the planner service
    is not among the sources).  [None] is the usage fault on a day count
    that is not positive. *)
Definition allocate (activities : list Activity) (daysCount : Z)
           (profile : InterestProfile) : option Plan :=
  if daysCount <=? 0 then None
  else
    let days := walk (sortPool profile activities)
                     (repeat [] (Z.to_nat daysCount)) [] in
    let n := emptyDays days in
    Some (mkPlan days
                 (if (0 <? n)%nat
                  then Some (shortfallWarning n (Z.to_nat daysCount))
                  else None)).

(** Modelled from the spec: [generateItinerary] of the planner service,
    the entry point the routes import, which is not among the sources: the
    Interest Parser of section 4.1 followed by [allocate]. *)
Definition generateItinerary (activities : list Activity) (daysCount : Z)
           (interests : string) : option Plan :=
  allocate activities daysCount (parseInterests interests).

End Allocation.

End Engine.


(* ===================================================================== *)
(** ** Vocabulary of the properties *)
(* ===================================================================== *)

(** The number [n] is the integer [z]. *)
Definition represents (n : Js.Number) (z : Z) : Prop :=
  match n with
  | Js.Finite q => Qeq q (inject_Z z)
  | _ => False
  end.

(** [a] comes before [b] in the order of the pool, and not [b] before
    [a]. *)
Definition ahead (profile : Engine.InterestProfile) (a b : Activity) : Prop :=
  Engine.precedes profile a b = true /\ Engine.precedes profile b a = false.

(** The activities of a day that come before [a] in the order of the
    pool. *)
Definition aheadOf (profile : Engine.InterestProfile) (a : Activity)
           (day : list Activity) : list Activity :=
  filter (fun x => Engine.precedes profile x a) day.

(** The ids of the activities a plan places. *)
Definition placedIds (days : list (list Activity)) : list Z :=
  map activity_id (List.concat days).

(** The identity and the owner of a trip. *)
Definition tripKey (t : Trip) : Z * Z := (trip_id t, trip_userId t).

(** What no store call of the handlers changes: the catalog, and which
    trips there are and whose. *)
Definition sameTrips (s s' : Store) : Prop :=
  activities s' = activities s /\
  map tripKey (trips s') = map tripKey (trips s).

(** A store with the lock field of every trip erased. *)
Definition upToLocks (s : Store) : Store :=
  with_trips (map (set_regenLockUntil None) (trips s)) s.

(** The stores that differ at most in the lock fields of the trips. *)
Definition samePlan (s s' : Store) : Prop := upToLocks s' = upToLocks s.

(** A store operation keeps the store within [R], resolved or rejected. *)
Definition Preserves (R : Store -> Store -> Prop) {X : Type} (op : DB X) : Prop :=
  forall s fs, R s (snd (fst (op s fs))).

(** The faults a store operation leaves to the calls after it are among
    those it found. *)
Definition Consumes {X : Type} (op : DB X) : Prop :=
  forall s fs b, In b (snd (op s fs)) -> In b fs.

(** The id sequences of [s'] are those of [s], or further on. *)
Definition advanced (s s' : Store) : Prop :=
  nextTripId s <= nextTripId s' /\
  nextDayPlanId s <= nextDayPlanId s' /\
  nextPlannedActivityId s <= nextPlannedActivityId s'.

(** The stores whose rows differ at most in the lock fields of the trips,
    the id sequences of the second being those of the first or further
    on. *)
Definition samePlanRows (s s' : Store) : Prop :=
  samePlan s (rolledBack s' s) /\ advanced s s'.

(** A store operation that leaves every row as it was when it rejects;
    the ids it drew stay drawn. *)
Definition Atomic {X : Type} (op : DB X) : Prop :=
  forall s fs,
    fst (fst (op s fs)) = None ->
    rolledBack (snd (fst (op s fs))) s = s /\ advanced s (snd (fst (op s fs))).

(** A property of every store call a program may await. *)
Fixpoint everyAwait {A : Type} (Q : Site -> forall X : Type, DB X -> Prop)
         (p : Prog A) : Prop :=
  match p with
  | Await site op k => Q site _ op /\ forall o, everyAwait Q (k o)
  | _ => True
  end.


(** What the store calls of [regenerate] are bound to: none changes which
    trips there are; the replace transaction is atomic, and the calls
    around it write lock fields only. *)
Definition regenerateCall (site : Site) (X : Type) (op : DB X) : Prop :=
  Preserves sameTrips op /\
  match site with
  | ReplacePlan => Atomic op
  | _ => Preserves samePlan op
  end.

Definition resolved {X : Type} (o : option X) : bool :=
  match o with Some _ => true | None => false end.

(** The store calls of the [try] block of [regenerate], latest first: each
    call is made once, in the order of the source, and only after the ones
    before it resolved. *)
Inductive bodyCalls : list (Site * bool) -> Prop :=
| calls_LoadBase (b : bool) :
    bodyCalls [(LoadBase, b)]
| calls_AcquireLock (b : bool) :
    bodyCalls [(AcquireLock, b); (LoadBase, true)]
| calls_FetchActivities (b : bool) :
    bodyCalls [(FetchActivities, b); (AcquireLock, true); (LoadBase, true)]
| calls_ReplacePlan (b : bool) :
    bodyCalls [(ReplacePlan, b); (FetchActivities, true); (AcquireLock, true);
               (LoadBase, true)].

(** A run of the [try] block from [w]: the calls it added to those of
    [w], and a rejected call is a thrown error. *)
Definition bodyRun (w : World) (result : Completion unit * World) : Prop :=
  exists pre,
    calls (snd result) = (pre ++ calls w)%list /\
    bodyCalls pre /\
    (forall site l, pre = (site, false) :: l -> fst result = Uncaught).

(** The check on [req.params.id] that lets [regenerate] into its [try]. *)
Definition validTripId (n : Js.Number) : bool :=
  negb (negb (Js.isInteger n) || Js.le n (Js.ofZ 0)).

(** The rows of trip [tripId] of user [userId]. *)
Definition tripRows (tripId userId : Z) (s : Store) : list Trip :=
  filter (unlockWhere tripId userId) (trips s).

(** [op] is a function of the store: whenever it resolves from [s] it
    gives [x] and leaves [s'], and with no fault it does resolve. *)
Definition Computes {X : Type} (op : DB X) (s : Store) (x : X) (s' : Store) : Prop :=
  (forall fs y s1 fs1, op s fs = (Some y, s1, fs1) -> y = x /\ s1 = s') /\
  op s [] = (Some x, s', []).

(** The DayPlan rows [createDayPlans] creates, from the next id on. *)
Fixpoint dayPlanRows (tripId next : Z) (days : list Z) : list DayPlan :=
  match days with
  | [] => []
  | d :: l => mkDayPlan next tripId d :: dayPlanRows tripId (next + 1) l
  end.

(** The PlannedActivity rows of one day, from the next id on. *)
Fixpoint plannedActivityRows (dayPlanId next : Z) (items : list (Z * Activity))
  : list PlannedActivity :=
  match items with
  | [] => []
  | (i, item) :: l =>
      mkPlannedActivity next dayPlanId (activity_id item) (i + 1)
      :: plannedActivityRows dayPlanId (next + 1) l
  end.

(** The PlannedActivity rows [createPlannedActivities] creates. *)
Fixpoint planRows (dps : list DayPlan) (plan : Plan) (next : Z) (days : list Z)
  : list PlannedActivity :=
  match days with
  | [] => []
  | d :: l =>
      let rows :=
        match nth_error dps (Z.to_nat (d - 1)) with
        | Some dp =>
            plannedActivityRows (dayPlan_id dp) next
              (indexed (nth (Z.to_nat (d - 1)) (plan_days plan) []))
        | None => []
        end in
      (rows ++ planRows dps plan (next + Z.of_nat (List.length rows)) l)%list
  end.

Definition addDayPlans (rows : list DayPlan) (s : Store) : Store :=
  mkStore (activities s) (trips s) (dayPlans s ++ rows) (plannedActivities s)
          (nextTripId s) (nextDayPlanId s + Z.of_nat (List.length rows))
          (nextPlannedActivityId s).

Definition addPlannedActivities (rows : list PlannedActivity) (s : Store) : Store :=
  mkStore (activities s) (trips s) (dayPlans s) (plannedActivities s ++ rows)
          (nextTripId s) (nextDayPlanId s)
          (nextPlannedActivityId s + Z.of_nat (List.length rows)).

(** The store a resolved [createDayPlans] then [createPlannedActivities]
    leave. *)
Definition planted (tripId days : Z) (plan : Plan) (s : Store) : Store :=
  let dps := dayPlanRows tripId (nextDayPlanId s) (upto days) in
  let s1 := addDayPlans dps s in
  addPlannedActivities (planRows dps plan (nextPlannedActivityId s1) (upto days)) s1.

(** The store after the deletions of [replacePlan]. *)
Definition cleared (tripId : Z) (s : Store) : Store :=
  let dayPlanIds :=
    map dayPlan_id (filter (fun dp => dayPlan_tripId dp =? tripId) (dayPlans s)) in
  if 0 <? Z.of_nat (List.length dayPlanIds)
  then with_dayPlans
         (filter (fun dp => negb (dayPlan_tripId dp =? tripId)) (dayPlans s))
         (with_plannedActivities
            (filter (fun pa => negb (prisma.plannedActivity.inIds dayPlanIds pa))
                    (plannedActivities s))
            s)
  else s.

(** The store after the interests update of [replacePlan]. *)
Definition reinterested (tripId : Z) (base : Trip) (interests : string)
           (s : Store) : Store :=
  if negb (String.eqb interests (trip_interests base))
  then with_trips (map (fun t => if trip_id t =? tripId
                                 then set_interests interests t else t)
                       (trips s)) s
  else s.

(** The store a resolved [replacePlan] leaves. *)
Definition replaced (tripId : Z) (base : Trip) (interests : string) (plan : Plan)
           (s : Store) : Store :=
  planted tripId (trip_daysCount base) plan
          (reinterested tripId base interests (cleared tripId s)).

(** The integrity of the store the handlers rely on: ids come from the
    sequences, and rows refer to rows that exist. *)
Record wellFormed (s : Store) : Prop := mkWellFormed {
  wf_dayPlan_id :
    forall dp, In dp (dayPlans s) -> dayPlan_id dp < nextDayPlanId s;
  wf_dayPlan_trip :
    forall dp, In dp (dayPlans s) -> dayPlan_tripId dp < nextTripId s;
  wf_plannedActivity_dayPlan :
    forall pa, In pa (plannedActivities s) ->
               exists dp, In dp (dayPlans s) /\
                          dayPlan_id dp = plannedActivity_dayPlanId pa
}.

(** The DayPlan rows of a trip, and the PlannedActivity rows of a DayPlan,
    in insertion order. *)
Definition dayPlansOf (tripId : Z) (s : Store) : list DayPlan :=
  filter (fun dp => dayPlan_tripId dp =? tripId) (dayPlans s).

Definition plannedActivitiesOf (dp : DayPlan) (s : Store) : list PlannedActivity :=
  filter (fun pa => plannedActivity_dayPlanId pa =? dayPlan_id dp)
         (plannedActivities s).

Definition persistedPair (pa : PlannedActivity) : Z * Z :=
  (plannedActivity_activityId pa, plannedActivity_orderIndex pa).

(** The (activity, order index) pairs a day of a plan is persisted as. *)
Definition persistedDay (dayItems : list Activity) : list (Z * Z) :=
  map (fun '(i, item) => (activity_id item, i + 1)) (indexed dayItems).

(** The trip [tripId] is persisted in [s] as [plan] over [days] days: one
    DayPlan per day number 1..[days], each with the activities of its day
    in order, indexed from 1. *)
Definition persistedAs (tripId days : Z) (plan : Plan) (s : Store) : Prop :=
  map dayPlan_dayNumber (dayPlansOf tripId s) = upto days /\
  forall dp, In dp (dayPlansOf tripId s) ->
    map persistedPair (plannedActivitiesOf dp s)
    = persistedDay (nth (Z.to_nat (dayPlan_dayNumber dp - 1)) (plan_days plan) []).

(** The store after the acquiring write of a request resolved. *)
Definition locked (tripId userId now lockUntil : Z) (s : Store) : Store :=
  with_trips (map (fun t => if acquireWhere tripId userId now t
                            then set_regenLockUntil (Some lockUntil) t else t)
                  (trips s)) s.

(** The catalog rows of a destination. *)
Definition catalog (destination : string) (s : Store) : list Activity :=
  filter (fun a => String.eqb (activity_destination a) destination) (activities s).

(** The interests override, when there is one, is not blank. *)
Definition acceptable (incoming : option string) : Prop :=
  match incoming with
  | Some s => String.eqb (Js.trim s) "" = false
  | None => True
  end.

(** The store after the unlocking write of a request resolved. *)
Definition unlocked (tripId userId : Z) (s : Store) : Store :=
  with_trips (map (fun t => if unlockWhere tripId userId t
                            then set_regenLockUntil None t else t)
                  (trips s)) s.

(* ===================================================================== *)
(** ** Sample data *)
(* ===================================================================== *)

Module Sample.

(** [Number(s)] on the strings of decimal digits, [NaN] elsewhere: enough
    of the built-in for the sample requests. *)
Definition StringToNumber (s : string) : Js.Number :=
  match NilEmpty.uint_of_string s with
  | Some u => Js.ofZ (Z.of_uint u)
  | None => Js.NaN
  end.

(** The planner with eight hours a day. *)
Definition planner : list Activity -> Z -> string -> option Plan :=
  Engine.generateItinerary 8.

Definition louvre : Activity :=
  mkActivity 1 "Paris" "Louvre Museum" "culture" 3 3.
Definition eiffel : Activity :=
  mkActivity 2 "Paris" "Eiffel Tower" "culture" 2 3.
Definition montmartre : Activity :=
  mkActivity 3 "Paris" "Montmartre Walk" "nature" 2 1.
Definition colosseum : Activity :=
  mkActivity 4 "Rome" "Colosseum" "culture" 2 3.

(** Trip 1 of user 7: two days in Paris, unlocked, with a persisted plan. *)
Definition paris : Trip := mkTrip 1 7 "Paris" 2 None "culture" None.

Definition store0 : Store :=
  mkStore [louvre; eiffel; montmartre; colosseum]
          [paris]
          [mkDayPlan 1 1 1; mkDayPlan 2 1 2]
          [mkPlannedActivity 1 1 1 1; mkPlannedActivity 2 2 2 1]
          2 3 3.

Definition world0 : World := mkWorld store0 [] [].

(** Trip 2 of user 7: two days in Oslo, which has no catalog; its lock
    expired at time 500. *)
Definition oslo : Trip := mkTrip 2 7 "Oslo" 2 None "nature" (Some 500).

Definition store1 : Store :=
  mkStore [louvre; eiffel; montmartre; colosseum]
          [paris; oslo]
          [mkDayPlan 1 1 1; mkDayPlan 2 1 2; mkDayPlan 3 2 1; mkDayPlan 4 2 2]
          [mkPlannedActivity 1 1 1 1; mkPlannedActivity 2 2 2 1;
           mkPlannedActivity 3 3 4 1]
          3 5 4.

Definition regenerateOslo : RegenerateRequest :=
  mkRegenerateRequest 7 "2" None.


Definition regenerateParis : RegenerateRequest :=
  mkRegenerateRequest 7 "1" None.

(** U+00A0, the no-break space, and U+2003, the em space, in UTF-8. *)
Definition noBreakSpace : string :=
  String (ascii_of_nat 194) (String (ascii_of_nat 160) EmptyString).

Definition emSpace : string :=
  String (ascii_of_nat 226) (String (ascii_of_nat 128)
    (String (ascii_of_nat 131) EmptyString)).

(** Three days of culture in Rome for user 7. *)
Definition createRome : CreateRequest :=
  mkCreateRequest (Some 7)
    (mkCreateTripBody (Some "Rome") (Some (Js.Str "3")) None (Some "culture")).

(** Thirty-one days in Paris. *)
Definition tooManyDays : CreateRequest :=
  mkCreateRequest (Some 7)
    (mkCreateTripBody (Some "Paris") (Some (Js.Num (Js.ofZ 31))) None
                      (Some "culture")).

(** Three requests of user 7 to regenerate trip 1, received at times 1000,
    1001 and 1002, none of which meets a fault. *)
Definition threeRequests : System :=
  mkSystem store0
    [spawn (regenerate StringToNumber planner (mkClock 1000 1000)
                       regenerateParis) [];
     spawn (regenerate StringToNumber planner (mkClock 1001 1001)
                       regenerateParis) [];
     spawn (regenerate StringToNumber planner (mkClock 1002 1002)
                       regenerateParis) []].

(** The first request has loaded the trip and acquired the lock. *)
Definition firstHolds : System := schedule [0; 0]%nat threeRequests.

Definition holder : Task :=
  match tasks firstHolds with
  | t :: _ => t
  | [] => spawn (Pure tt) []
  end.

(** The first request loads the trip and acquires the lock; the second
    loads the trip, is refused the lock and runs its [finally]; the third
    loads the trip and asks for the lock. *)
Definition rejectedThenThird : list nat := [0; 0; 1; 1; 1; 2; 2]%nat.

(** ... and then the first and the third run to their end. *)
Definition bothToTheEnd : list nat :=
  (rejectedThenThird ++ [0; 0; 0; 2; 2; 2])%nat%list.

End Sample.

(* ===================================================================== *)
(** ** The handlers that read and delete trips *)
(* ===================================================================== *)

(** A handler whose whole body is one [try] with a [catch] that answers
    [serverError]: the store calls it awaits in a row, an error thrown by
    any of them ending it with the store as it is then. *)
Definition serve {R : Type} (serverError : R) (handler : DB R)
           (s : Store) (fs : Faults) : R * Store * Faults :=
  match handler s fs with
  | (Some r, s', fs') => (r, s', fs')
  | (None, s', fs') => (serverError, s', fs')
  end.

Definition serverError : Response := json 500 "Server error".

(** One row of the answer of [GET /my]. *)
Record TripSummary : Type := mkTripSummary {
  summary_id : Z;
  summary_destination : string;
  summary_daysCount : Z;
  summary_budget : option Js.Number;
  summary_interests : string;
  summary_createdAt : Z;
  summary_totalPlannedActivities : Z
}.

(** The bodies [GET /my] answers with. *)
Inductive MyTripsBody : Type :=
| MyTrips (trips : list TripSummary)
| MyTripsMessage (message : string).

Record MyTripsResponse : Type := mkMyTripsResponse {
  myTrips_status : Z;
  myTrips_body : MyTripsBody
}.

(** [t.dayPlans.reduce((sum, dp) => sum + dp._count.plannedActivities, 0)] *)
Definition totalPlannedActivities (counts : list Z) : Z :=
  fold_left (fun sum c => sum + c) counts 0.

Definition summarize (l : prisma.trip.Listed) : TripSummary :=
  let t := prisma.trip.listed_trip l in
  mkTripSummary (trip_id t) (trip_destination t) (trip_daysCount t)
                (trip_budget t) (trip_interests t)
                (prisma.trip.listed_createdAt l)
                (totalPlannedActivities (prisma.trip.listed_counts l)).

Section TripHandlers.

Variable StringToNumber : string -> Js.Number.

(** The [createdAt] column of a trip. *)
Variable createdAt : Trip -> Z.

(** Whether the schema deletes the DayPlans of a deleted trip with it. *)
Variable cascade : bool.

(** [router.get("/my", ...)], for [req.user!.userId]. *)
Definition listMyTrips (userId : Z) : DB MyTripsResponse :=
  trips <- prisma.trip.findManyOfUser createdAt userId ;;
  ret (mkMyTripsResponse 200 (MyTrips (map summarize trips))).

(** [router.get("/:id", ...)], for [req.user!.userId] and
    [req.params.id]. *)
Definition getTrip (userId : Z) (id : string) : DB Response :=
  let tripId := StringToNumber id in
  if negb (Js.isInteger tripId) || Js.le tripId (Js.ofZ 0)
  then ret (json 404 "Trip not found")
  else
  base <- prisma.trip.findUnique (Js.toZ tripId) ;;
  match base with
  | None => ret (json 404 "Trip not found")
  | Some base =>
    if negb (trip_userId base =? userId) then ret (json 403 "Forbidden")
    else
    trip <- prisma.trip.findUniqueWithPlan (Js.toZ tripId) ;;
    match trip with
    | None => ret (json 404 "Trip not found")
    | Some _ => ret (mkResponse 200 (TripJson trip None))
    end
  end.

(** [router.delete("/:id", ...)] *)
Definition deleteTrip (userId : Z) (id : string) : DB Response :=
  let tripId := StringToNumber id in
  if negb (Js.isInteger tripId) || Js.le tripId (Js.ofZ 0)
  then ret (json 404 "Trip not found")
  else
  base <- prisma.trip.findUnique (Js.toZ tripId) ;;
  match base with
  | None => ret (json 404 "Trip not found")
  | Some base =>
    if negb (trip_userId base =? userId) then ret (json 403 "Forbidden")
    else
    prisma.trip.delete cascade (Js.toZ tripId) ;;
    ret (json 200 "Trip deleted")
  end.

End TripHandlers.

(* ===================================================================== *)
(** ** Deleting an activity of the catalog *)
(* ===================================================================== *)

(** [try { x = await op } catch { handler }], then [k x]. *)
Definition awaitOr {X R : Type} (op : DB X) (handler : DB R) (k : X -> DB R)
  : DB R :=
  fun s fs =>
    match op s fs with
    | (Some x, s', fs') => k x s' fs'
    | (None, s', fs') => handler s' fs'
    end.

Section ActivityHandlers.

Variable StringToNumber : string -> Js.Number.

(** Whether the schema deletes the PlannedActivity rows of a deleted
    activity with it. *)
Variable cascade : bool.

(** [router.delete("/:id", ...)] of the activities routes, behind its
    middleware. *)
Definition deleteActivity (id : string) : DB Response :=
  let n := StringToNumber id in
  if negb (Js.isInteger n) || Js.le n (Js.ofZ 0)
  then ret (json 404 "Activity not found")
  else
  existing <- prisma.activity.findUnique (Js.toZ n) ;;
  match existing with
  | None => ret (json 404 "Activity not found")
  | Some _ =>
    awaitOr (prisma.activity.delete cascade (Js.toZ n))
            (ret (json 409 "Activity is used in planned activities"))
            (fun _ => ret (json 200 "Activity deleted"))
  end.

End ActivityHandlers.

(* ===================================================================== *)
(** ** The regeneration handler before the lock *)
(* ===================================================================== *)

(** A call of a synchronous function that may throw, inside a handler
    that is one [try] block. *)
Definition throwing {X : Type} (r : option X) : DB X :=
  match r with
  | Some x => ret x
  | None => typeError
  end.

Section EarlierRegenerate.

Variable StringToNumber : string -> Js.Number.
Variable generateItinerary : list Activity -> Z -> string -> option Plan.

(** The transaction of [POST /:id/regenerate] in the earlier revision of
    the routes. *)
Definition replacePlan_v1 (tripId : Z) (base : Trip) (plan : Plan)
  : DB (option TripView) :=
  dayPlans <- prisma.dayPlan.findManyByDay tripId ;;
  let dayPlanIds := map dayPlan_id dayPlans in
  (if (0 <? Z.of_nat (List.length dayPlanIds))
   then prisma.plannedActivity.deleteMany dayPlanIds ;;
        prisma.dayPlan.deleteMany tripId ;;
        ret tt
   else ret tt) ;;
  newDayPlans <- createDayPlans tripId (trip_daysCount base) ;;
  createPlannedActivities (trip_daysCount base) newDayPlans plan ;;
  prisma.trip.findUniqueWithPlan tripId.

(** [router.post("/:id/regenerate", ...)] in the earlier revision of the
    routes: no lock, no interests override, no fallback plan. *)
Definition regenerate_v1 (userId : Z) (id : string) : DB Response :=
  let tripId := StringToNumber id in
  if negb (Js.isInteger tripId) || Js.le tripId (Js.ofZ 0)
  then ret (json 404 "Trip not found")
  else
  base <- prisma.trip.findUnique (Js.toZ tripId) ;;
  match base with
  | None => ret (json 404 "Trip not found")
  | Some base =>
    if negb (trip_userId base =? userId) then ret (json 403 "Forbidden")
    else
    activities <- prisma.activity.findMany (trip_destination base) ;;
    plan <- throwing (generateItinerary activities (trip_daysCount base)
                                        (trip_interests base)) ;;
    savedTrip <- transaction (replacePlan_v1 (Js.toZ tripId) base plan) ;;
    ret (mkResponse 200 (TripJson savedTrip (plan_warning plan)))
  end.

End EarlierRegenerate.

(* ===================================================================== *)
(** ** Vocabulary of the properties of the other handlers *)
(* ===================================================================== *)

(** The integrity of the keys: the ids of a table are distinct and below
    the next value of its sequence, every DayPlan belongs to a trip and
    every PlannedActivity to a DayPlan. *)
Record consistent (s : Store) : Prop := mkConsistent {
  trip_ids_distinct : NoDup (map trip_id (trips s));
  trip_ids_used : forall t, In t (trips s) -> trip_id t < nextTripId s;
  dayPlan_ids_distinct : NoDup (map dayPlan_id (dayPlans s));
  dayPlan_ids_used :
    forall dp, In dp (dayPlans s) -> dayPlan_id dp < nextDayPlanId s;
  plannedActivity_ids_distinct :
    NoDup (map plannedActivity_id (plannedActivities s));
  plannedActivity_ids_used :
    forall pa, In pa (plannedActivities s) ->
               plannedActivity_id pa < nextPlannedActivityId s;
  dayPlan_of_trip :
    forall dp, In dp (dayPlans s) ->
               exists t, In t (trips s) /\ trip_id t = dayPlan_tripId dp;
  plannedActivity_of_dayPlan :
    forall pa, In pa (plannedActivities s) ->
               exists dp, In dp (dayPlans s) /\
                          dayPlan_id dp = plannedActivity_dayPlanId pa
}.

(** Every row of [s'] is as it is in [s]: the two stores differ at most
    in their id sequences, those of [s'] being those of [s] or further
    on. *)
Definition sameRows (s s' : Store) : Prop :=
  activities s' = activities s /\ trips s' = trips s /\
  dayPlans s' = dayPlans s /\ plannedActivities s' = plannedActivities s /\
  advanced s s'.

(** A list in ascending order of a key. *)
Definition ascending {A : Type} (key : A -> Z) (l : list A) : Prop :=
  StronglySorted (fun a b => key a <= key b) l.


Definition myTripsServerError : MyTripsResponse :=
  mkMyTripsResponse 500 (MyTripsMessage "Server error").


(** A trip as a response carries it shows [plan] over [days] days: its
    days are numbered 1..[days] in this order, and each day lists the
    activities of its day of the plan, in order, indexed from 1. *)
Definition shows (v : TripView) (days : Z) (plan : Plan) : Prop :=
  map (fun dv => dayPlan_dayNumber (view_dayPlan dv)) (view_dayPlans v)
  = upto days /\
  forall dv, In dv (view_dayPlans v) ->
    map (fun pv => persistedPair (view_plannedActivity pv))
        (view_plannedActivities dv)
    = persistedDay (nth (Z.to_nat (dayPlan_dayNumber (view_dayPlan dv) - 1))
                        (plan_days plan) []).

(** The ids a sequence at [next] hands out to [n] new rows. *)
Definition handedOut (next : Z) (n : nat) : list Z :=
  map (fun k => next + Z.of_nat k) (seq 0 n).

(** There is a trip with this id. *)
Definition hasTrip (tripId : Z) (s : Store) : Prop :=
  exists t, In t (trips s) /\ trip_id t = tripId.

(** What a request on trip [tripId] leaves of the other trips: their rows,
    their DayPlans with the PlannedActivity rows of these, and the
    catalog. *)
Definition othersKept (tripId : Z) (s s' : Store) : Prop :=
  (forall other, other <> tripId ->
     find (fun t => trip_id t =? other) (trips s')
     = find (fun t => trip_id t =? other) (trips s)) /\
  (forall other, other <> tripId -> dayPlansOf other s' = dayPlansOf other s) /\
  (forall dp, In dp (dayPlans s) -> dayPlan_tripId dp <> tripId ->
     plannedActivitiesOf dp s' = plannedActivitiesOf dp s) /\
  activities s' = activities s.

(** A step made for trip [tripId] on a consistent store that has the
    trip: it keeps the store consistent, keeps the trip, and keeps the
    other trips as they are. *)
Definition servesTrip (tripId : Z) (s s' : Store) : Prop :=
  consistent s -> hasTrip tripId s ->
  consistent s' /\ hasTrip tripId s' /\ othersKept tripId s s'.

(* ===================================================================== *)
(** ** Accounts and revoked tokens *)
(* ===================================================================== *)

Record User : Type := mkUser {
  user_id : Z;
  user_email : string;
  user_passwordHash : string;
  user_role : string;
  user_createdAt : Z
}.

Record RevokedToken : Type := mkRevokedToken {
  revokedToken_id : Z;
  revokedToken_tokenHash : string;
  revokedToken_expiresAt : Z;   (* milliseconds since the epoch *)
  revokedToken_revokedAt : Z
}.

(** The two tables of the authentication routes, each in insertion order,
    and the next value of each id sequence. *)
Record Accounts : Type := mkAccounts {
  users : list User;
  revokedTokens : list RevokedToken;
  nextUserId : Z;
  nextRevokedTokenId : Z
}.

(** A store operation on the accounts: [None] is a rejected promise, and
    the accounts it returns are then those at the point of the failure. *)
Definition AccountsDB (X : Type) : Type :=
  Accounts -> Faults -> option X * Accounts * Faults.

#[export] Instance Monad_AccountsDB : Monad AccountsDB := {
  ret := fun X (x : X) a fs => (Some x, a, fs);
  bind := fun X Y (c : AccountsDB X) (k : X -> AccountsDB Y) a fs =>
    match c a fs with
    | (Some x, a', fs') => k x a' fs'
    | (None, a', fs') => (None, a', fs')
    end
}.

(** One call of the client on the accounts: it fails when the fault list
    says so, or when the operation itself rejects. *)
Definition accounts_call {X : Type} (f : Accounts -> option (X * Accounts))
  : AccountsDB X :=
  fun a fs =>
    let (faulty, fs') := next_fault fs in
    if faulty then (None, a, fs')
    else match f a with
         | Some (x, a') => (Some x, a', fs')
         | None => (None, a, fs')
         end.

(** An error thrown by a synchronous call. *)
Definition thrown {X : Type} : AccountsDB X := fun a fs => (None, a, fs).

(** A handler whose whole body is one [try] with a [catch] that answers
    [caught]. *)
Definition answering {R : Type} (caught : R) (handler : AccountsDB R)
           (a : Accounts) (fs : Faults) : R * Accounts * Faults :=
  match handler a fs with
  | (Some r, a', fs') => (r, a', fs')
  | (None, a', fs') => (caught, a', fs')
  end.

Module accounts.

Module user.

(** [findUnique({ where: { email } })] *)
Definition findUnique (email : string) : AccountsDB (option User) :=
  accounts_call (fun a =>
    Some (find (fun u => String.eqb (user_email u) email) (users a), a)).

(** [create({ data: { email, passwordHash } })]: the role and the
    creation time are the defaults of the schema, given here; the call
    rejects when the email, a unique key, is taken. *)
Definition create (defaultRole : string) (stamp : Z)
           (email passwordHash : string) : AccountsDB User :=
  accounts_call (fun a =>
    match find (fun u => String.eqb (user_email u) email) (users a) with
    | Some _ => None
    | None =>
        let u := mkUser (nextUserId a) email passwordHash defaultRole stamp in
        Some (u, mkAccounts (users a ++ [u]) (revokedTokens a)
                            (nextUserId a + 1) (nextRevokedTokenId a))
    end).

End user.

Module revokedToken.

(** [findUnique({ where: { tokenHash } })] *)
Definition findUnique (tokenHash : string) : AccountsDB (option RevokedToken) :=
  accounts_call (fun a =>
    Some (find (fun r => String.eqb (revokedToken_tokenHash r) tokenHash)
               (revokedTokens a), a)).

(** [deleteMany({ where: { expiresAt: { lt: now } } })] *)
Definition deleteMany (now : Z) : AccountsDB Z :=
  accounts_call (fun a =>
    Some (prisma.count (fun r => revokedToken_expiresAt r <? now) (revokedTokens a),
          mkAccounts (users a)
                     (filter (fun r => negb (revokedToken_expiresAt r <? now))
                             (revokedTokens a))
                     (nextUserId a) (nextRevokedTokenId a))).

Definition set_expiresAt (expiresAt : Z) (r : RevokedToken) : RevokedToken :=
  mkRevokedToken (revokedToken_id r) (revokedToken_tokenHash r) expiresAt
                 (revokedToken_revokedAt r).

(** [upsert({ where: { tokenHash }, update: { expiresAt },
    create: { tokenHash, expiresAt } })]; [stamp] is the
    [CURRENT_TIMESTAMP] a created row gets as [revokedAt]. *)
Definition upsert (stamp : Z) (tokenHash : string) (expiresAt : Z)
  : AccountsDB RevokedToken :=
  accounts_call (fun a =>
    match find (fun r => String.eqb (revokedToken_tokenHash r) tokenHash)
               (revokedTokens a) with
    | Some r =>
        Some (set_expiresAt expiresAt r,
              mkAccounts (users a)
                         (map (fun r => if String.eqb (revokedToken_tokenHash r)
                                                      tokenHash
                                        then set_expiresAt expiresAt r else r)
                              (revokedTokens a))
                         (nextUserId a) (nextRevokedTokenId a))
    | None =>
        let r := mkRevokedToken (nextRevokedTokenId a) tokenHash expiresAt stamp in
        Some (r, mkAccounts (users a) (revokedTokens a ++ [r])
                            (nextUserId a) (nextRevokedTokenId a + 1))
    end).

End revokedToken.

End accounts.

(** The payload of a token: [{ userId, role }] as [login] signs it, with
    the [exp] claim in seconds. *)
Record AuthPayload : Type := mkAuthPayload {
  payload_userId : Z;
  payload_role : string;
  payload_exp : option Z
}.

(** The bodies the authentication routes answer with. *)
Inductive AuthBody : Type :=
| AuthMessage (message : string)
| Registered (id : Z) (email role : string) (createdAt : Z)
| LoggedIn (token : string) (id : Z) (email role : string)
| Me (user : AuthPayload).

Record AuthResponse : Type := mkAuthResponse {
  auth_status : Z;
  auth_body : AuthBody
}.

Definition authJson (code : Z) (message : string) : AuthResponse :=
  mkAuthResponse code (AuthMessage message).

(** How the middleware ends: by [next()], with [req.user] and [req.token]
    set, or by a response. *)
Inductive Guard : Type :=
| Next (user : AuthPayload) (token : string)
| Denied (r : AuthResponse).

Section Authentication.

(** [process.env.JWT_SECRET] *)
Variable JWT_SECRET : option string.

(** [jwt.verify(token, secret)]; [None] when it throws. *)
Variable verify : string -> string -> option AuthPayload.

(** [jwt.sign({ userId, role }, secret, { expiresIn: "7d" })] *)
Variable sign : Z -> string -> string -> string.

(** [hashToken] of [utils/tokenHash]. *)
Variable hashToken : string -> string.

(** [bcrypt.hash(password, 10)], the salt it draws being fixed, and
    [bcrypt.compare(password, hash)]. *)
Variable bcryptHash : string -> string.
Variable bcryptCompare : string -> string -> bool.

(** The defaults of the schema for a new user. *)
Variable defaultRole : string.

(** [requireAuth], for [req.headers.authorization]. *)
Definition requireAuth (authorization : option string)
  : Accounts -> Faults -> Guard * Accounts * Faults :=
  answering (Denied (authJson 401 "Invalid or expired token"))
    (match authorization with
     | Some (String _ _ as header) =>
       if negb (Js.startsWith header "Bearer ")
       then ret (Denied (authJson 401 "Missing or invalid Authorization header"))
       else
       let token := nth_error (Js.split " " header) 1 in
       match JWT_SECRET with
       | Some (String _ _ as secret) =>
         match token with
         | Some token =>
           match verify token secret with
           | Some payload =>
             revoked <- accounts.revokedToken.findUnique (hashToken token) ;;
             match revoked with
             | Some _ => ret (Denied (authJson 401 "Invalid or expired token"))
             | None => ret (Next payload token)
             end
           | None => thrown
           end
         | None => thrown
         end
       | _ => ret (Denied (authJson 500 "JWT_SECRET is not configured"))
       end
     | _ => ret (Denied (authJson 401 "Missing or invalid Authorization header"))
     end).

(** [requireAuth] in its earlier, synchronous revision, which looks at no
    revoked token and sets [req.user] only: the payload [next()] is
    reached with, or the response. *)
Definition requireAuth_v1 (authorization : option string)
  : AuthPayload + AuthResponse :=
  match authorization with
  | Some (String _ _ as header) =>
    if negb (Js.startsWith header "Bearer ")
    then inr (authJson 401 "Missing or invalid Authorization header")
    else
    let token := nth_error (Js.split " " header) 1 in
    match JWT_SECRET with
    | Some (String _ _ as secret) =>
      match token with
      | Some token =>
        match verify token secret with
        | Some payload => inl payload
        | None => inr (authJson 401 "Invalid or expired token")
        end
      | None => inr (authJson 401 "Invalid or expired token")
      end
    | _ => inr (authJson 500 "JWT_SECRET is not configured")
    end
  | _ => inr (authJson 401 "Missing or invalid Authorization header")
  end.

(** A route behind [requireAuth]. *)
Definition guarded (authorization : option string)
           (handler : AuthPayload -> string ->
                      Accounts -> Faults -> AuthResponse * Accounts * Faults)
           (a : Accounts) (fs : Faults) : AuthResponse * Accounts * Faults :=
  match requireAuth authorization a fs with
  | (Next user token, a', fs') => handler user token a' fs'
  | (Denied r, a', fs') => (r, a', fs')
  end.

(** [router.post("/register", ...)]; [stamp] is the time the store gives
    the new row. *)
Definition register (stamp : Z) (email password : option string)
  : Accounts -> Faults -> AuthResponse * Accounts * Faults :=
  answering (authJson 500 "Server error.")
    (match email, password with
     | Some (String _ _ as email), Some (String _ _ as password) =>
       if Js.length password <? 6
       then ret (authJson 400 "Password must be at least 6 characters.")
       else
       existing <- accounts.user.findUnique email ;;
       match existing with
       | Some _ => ret (authJson 409 "Email is already in use.")
       | None =>
         let passwordHash := bcryptHash password in
         user <- accounts.user.create defaultRole stamp email passwordHash ;;
         ret (mkAuthResponse 201
                (Registered (user_id user) (user_email user) (user_role user)
                            (user_createdAt user)))
       end
     | _, _ => ret (authJson 400 "Email and password are required.")
     end).

(** [getJwtSecret()]; [None] when it throws. *)
Definition getJwtSecret : option string :=
  match JWT_SECRET with
  | Some (String _ _ as secret) => Some secret
  | _ => None
  end.

(** [router.post("/login", ...)] *)
Definition login (email password : option string)
  : Accounts -> Faults -> AuthResponse * Accounts * Faults :=
  answering (authJson 500 "Server error.")
    (match email, password with
     | Some (String _ _ as email), Some (String _ _ as password) =>
       user <- accounts.user.findUnique email ;;
       match user with
       | None => ret (authJson 401 "Invalid credentials.")
       | Some user =>
         if negb (bcryptCompare password (user_passwordHash user))
         then ret (authJson 401 "Invalid credentials.")
         else
         match getJwtSecret with
         | Some secret =>
           let token := sign (user_id user) (user_role user) secret in
           ret (mkAuthResponse 200
                  (LoggedIn token (user_id user) (user_email user)
                            (user_role user)))
         | None => thrown
         end
       end
     | _, _ => ret (authJson 400 "Email and password are required.")
     end).

(** [router.get("/me", requireAuth, ...)] *)
Definition me (authorization : option string)
  : Accounts -> Faults -> AuthResponse * Accounts * Faults :=
  guarded authorization
          (fun user _ a fs => (mkAuthResponse 200 (Me user), a, fs)).

(** The handler of [router.post("/logout", requireAuth, ...)]: [now] is
    [new Date()], [stamp] the time the store gives a new row. *)
Definition logoutHandler (now stamp : Z) (user : AuthPayload) (token : string)
  : Accounts -> Faults -> AuthResponse * Accounts * Faults :=
  answering (authJson 500 "Server error")
    (match token with
     | EmptyString => ret (authJson 401 "Invalid or expired token")
     | String _ _ =>
       match payload_exp user with
       | None | Some 0 => ret (authJson 400 "Token has no exp")
       | Some exp =>
         let tokenHash := hashToken token in
         let expiresAt := exp * 1000 in
         accounts.revokedToken.deleteMany now ;;
         accounts.revokedToken.upsert stamp tokenHash expiresAt ;;
         ret (authJson 200 "Logged out")
       end
     end).

Definition logout (now stamp : Z) (authorization : option string)
  : Accounts -> Faults -> AuthResponse * Accounts * Faults :=
  guarded authorization (logoutHandler now stamp).

End Authentication.

(** A token hash is revoked. *)
Definition revoked (tokenHash : string) (a : Accounts) : Prop :=
  exists r, In r (revokedTokens a) /\ revokedToken_tokenHash r = tokenHash.

(** The accounts after the cleanup of [logout] resolved. *)
Definition cleaned (now : Z) (a : Accounts) : Accounts :=
  mkAccounts (users a)
             (filter (fun r => negb (revokedToken_expiresAt r <? now))
                     (revokedTokens a))
             (nextUserId a) (nextRevokedTokenId a).

(** The accounts after the upsert of [logout] resolved. *)
Definition upserted (stamp : Z) (tokenHash : string) (expiresAt : Z)
           (a : Accounts) : Accounts :=
  match find (fun r => String.eqb (revokedToken_tokenHash r) tokenHash)
             (revokedTokens a) with
  | Some _ =>
      mkAccounts (users a)
                 (map (fun r => if String.eqb (revokedToken_tokenHash r) tokenHash
                                then accounts.revokedToken.set_expiresAt expiresAt r
                                else r)
                      (revokedTokens a))
                 (nextUserId a) (nextRevokedTokenId a)
  | None =>
      mkAccounts (users a)
                 (revokedTokens a
                  ++ [mkRevokedToken (nextRevokedTokenId a) tokenHash expiresAt
                                     stamp])
                 (nextUserId a) (nextRevokedTokenId a + 1)
  end.

(** The unique keys of the accounts: the email of a user and the hash of
    a revoked token. *)
Definition uniqueKeys (a : Accounts) : Prop :=
  NoDup (map user_email (users a)) /\
  NoDup (map revokedToken_tokenHash (revokedTokens a)).

Module SampleAccounts.

Definition secret : string := "s3cret".

Definition alice : AuthPayload := mkAuthPayload 7 "USER" (Some 2000).
Definition bob : AuthPayload := mkAuthPayload 8 "USER" (Some 3000).

(** A checker that knows two tokens. *)
Definition verify (token key : string) : option AuthPayload :=
  if negb (String.eqb key secret) then None
  else if String.eqb token "alice.token" then Some alice
  else if String.eqb token "bob.token" then Some bob
  else None.

Definition sign (userId : Z) (role key : string) : string :=
  if userId =? 7 then "alice.token" else "bob.token".

Definition hashToken (token : string) : string := "#" ++ token.

Definition bcryptHash (password : string) : string := "$" ++ password.

Definition bcryptCompare (password hash : string) : bool :=
  String.eqb hash (bcryptHash password).

(** Alice is registered; the token of Bob, which expires at 3000 s, is
    revoked, and so is a token that expired at 1 s. *)
Definition accounts0 : Accounts :=
  mkAccounts [mkUser 7 "alice@example.com" (bcryptHash "wonderland") "USER" 100]
             [mkRevokedToken 1 (hashToken "bob.token") 3000000 150;
              mkRevokedToken 2 (hashToken "old.token") 1000 160]
             8 3.

(** Three euro signs (U+20AC, three bytes each). *)
Definition euro : string :=
  String (ascii_of_nat 226) (String (ascii_of_nat 130)
    (String (ascii_of_nat 172) EmptyString)).

Definition threeEuros : string := euro ++ euro ++ euro.

End SampleAccounts.

(** The character occurs in the string. *)
Fixpoint occurs (c : ascii) (s : string) : bool :=
  match s with
  | EmptyString => false
  | String c' s' => Ascii.eqb c' c || occurs c s'
  end.
(* ===================================================================== *)
(** ** Running programs: the laws of the combinators *)
(* ===================================================================== *)

Lemma run_bind {A B : Type} (p : Prog A) (f : A -> Prog B) (w : World) :
  run (Prog_bind p f) w =
  let (c, w1) := run p w in andThen c w1 (fun a => run (f a)).
Proof.
  revert w. induction p as [a | | r | site X op k IH]; intros w; simpl;
    try reflexivity.
  destruct (perform site op w) as [o w']. apply IH.
Qed.

Lemma run_tryCatch {A : Type} (p handler : Prog A) (w : World) :
  run (tryCatch p handler) w =
  let (c, w1) := run p w in
  match c with
  | Uncaught => run handler w1
  | _ => (c, w1)
  end.
Proof.
  revert w. induction p as [a | | r | site X op k IH]; intros w; simpl;
    try reflexivity.
  destruct (perform site op w) as [o w']. apply IH.
Qed.

Lemma run_tryFinally {A : Type} (p : Prog A) (cleanup : Prog unit) (w : World) :
  run (tryFinally p cleanup) w =
  let (c, w1) := run p w in
  let (c', w2) := run cleanup w1 in
  (afterCleanup c c', w2).
Proof.
  revert w. induction p as [a | | r | site X op k IH]; intros w; simpl.
  - rewrite run_bind. destruct (run cleanup w) as [[u | r | ] w2]; reflexivity.
  - rewrite run_bind. destruct (run cleanup w) as [[u | r | ] w2]; reflexivity.
  - rewrite run_bind. destruct (run cleanup w) as [[u | r' | ] w2]; reflexivity.
  - destruct (perform site op w) as [o w']. apply IH.
Qed.

Lemma endsAbruptly_bind {A B : Type} (p : Prog A) (f : A -> Prog B) :
  (forall a, endsAbruptly (f a)) -> endsAbruptly (Prog_bind p f).
Proof.
  intros Hf. induction p as [a | | r | site X op k IH]; simpl; auto.
Qed.

Lemma endsAbruptly_run {A : Type} (p : Prog A) (w : World) :
  endsAbruptly p -> forall a, fst (run p w) <> Normal a.
Proof.
  revert w. induction p as [a | | r | site X op k IH]; intros w H b; simpl in *.
  - contradiction.
  - discriminate.
  - discriminate.
  - destruct (perform site op w) as [o w']. apply IH, H.
Qed.

(** What one call of the client does to the world. *)
Lemma perform_db_call {X : Type} (site : Site) (f : Store -> option (X * Store))
      (w : World) :
  perform site (db_call f) w =
  match next_fault (faults w) with
  | (true, fs') => (None, mkWorld (store w) fs' ((site, false) :: calls w))
  | (false, fs') =>
      match f (store w) with
      | Some (x, s') => (Some x, mkWorld s' fs' ((site, true) :: calls w))
      | None => (None, mkWorld (store w) fs' ((site, false) :: calls w))
      end
  end.
Proof.
  unfold perform, db_call. destruct (next_fault (faults w)) as [[|] fs'].
  - reflexivity.
  - destruct (f (store w)) as [[x s']|]; reflexivity.
Qed.

Lemma db_call_resolved {X : Type} (f : Store -> option (X * Store))
      (s s' : Store) (fs fs' : Faults) (x : X) :
  db_call f s fs = (Some x, s', fs') ->
  f s = Some (x, s') /\ next_fault fs = (false, fs').
Proof.
  unfold db_call. destruct (next_fault fs) as [[|] fs1]; [discriminate|].
  destruct (f s) as [[y s1]|]; [|discriminate].
  intros H. inversion H; subst. auto.
Qed.

Lemma db_call_rejected {X : Type} (f : Store -> option (X * Store))
      (s s' : Store) (fs fs' : Faults) :
  db_call f s fs = (None, s', fs') -> s' = s.
Proof.
  unfold db_call. destruct (next_fault fs) as [[|] fs1].
  - intros H. inversion H. reflexivity.
  - destruct (f s) as [[y s1]|]; intros H; inversion H. reflexivity.
Qed.

Lemma rolledBack_same (s : Store) : rolledBack s s = s.
Proof. destruct s; reflexivity. Qed.

(* ===================================================================== *)
(** ** Strings *)
(* ===================================================================== *)

(** [trim] strips the white space of more than one byte too, at both
    ends, and nothing between. *)
Example trim_white_space :
  Js.trim Sample.noBreakSpace = "" /\
  Js.trim (Sample.emSpace ++ " nature " ++ Sample.noBreakSpace)%string
  = "nature" /\
  Js.trim ("a" ++ Sample.noBreakSpace ++ "b")%string
  = ("a" ++ Sample.noBreakSpace ++ "b")%string.
Proof. repeat split. Qed.

(** [length] counts UTF-16 code units: one for the no-break space, which
    has two bytes, two for a code point of four bytes. *)
Example length_code_units :
  Js.length "nature" = 6 /\
  Js.length Sample.noBreakSpace = 1 /\
  Js.length (String (ascii_of_nat 240) (String (ascii_of_nat 159)
               (String (ascii_of_nat 152) (String (ascii_of_nat 128) "")))) = 2.
Proof. repeat split. Qed.

(* ===================================================================== *)
(** ** Validation of the day count in [POST /] *)
(* ===================================================================== *)

Lemma isInteger_represents (n : Js.Number) :
  Js.isInteger n = true -> represents n (Js.toZ n).
Proof.
  destruct n as [ | neg | q]; unfold Js.isInteger, Js.toZ, represents;
    try discriminate.
  intros H. apply Z.eqb_eq in H.
  rewrite <- (Qred_correct q) at 1.
  destruct (Qred q) as [num den]. simpl in *.
  unfold Qeq, inject_Z. simpl. injection H as ->. lia.
Qed.

Lemma lt_ofZ_false (n : Js.Number) (z : Z) :
  Js.isInteger n = true -> Js.lt n (Js.ofZ z) = false -> z <= Js.toZ n.
Proof.
  intros Hint Hlt. pose proof (isInteger_represents n Hint) as Hr.
  destruct n as [ | neg | q]; simpl in *; try discriminate.
  apply negb_false_iff, Qle_bool_iff in Hlt.
  rewrite Hr in Hlt. rewrite <- Zle_Qle in Hlt. exact Hlt.
Qed.

Lemma gt_ofZ_false (n : Js.Number) (z : Z) :
  Js.isInteger n = true -> Js.gt n (Js.ofZ z) = false -> Js.toZ n <= z.
Proof.
  intros Hint Hgt. pose proof (isInteger_represents n Hint) as Hr.
  destruct n as [ | neg | q]; simpl in *; try discriminate.
  unfold Js.gt, Js.ofZ, Js.lt in Hgt.
  apply negb_false_iff, Qle_bool_iff in Hgt.
  rewrite Hr in Hgt. rewrite <- Zle_Qle in Hgt. exact Hgt.
Qed.

(** C10. [POST /] goes on only with a day count that is an integer from 1
    to 30: on any other value it answers 400 without a single store call
    and whatever the planner is, so nothing was fetched, allocated or
    persisted. *)
Theorem createTrip_rejects_daysCount
        (StringToNumber : string -> Js.Number) (req : CreateRequest) (w : World) :
  (forall z, 1 <= z <= 30 ->
             ~ represents (Number StringToNumber (body_daysCount (create_body req))) z) ->
  exists r,
    status r = 400 /\
    (forall generateItinerary,
       run (createTrip StringToNumber generateItinerary req) w = (Returned r, w)).
Proof.
  intros Hbad. unfold createTrip.
  destruct (body_destination (create_body req)) as [[ | c destination] | ].
  - exists (json 400 "destination is required"). split; [reflexivity|].
    intros g. reflexivity.
  - set (days := Number StringToNumber (body_daysCount (create_body req))) in *.
    destruct (negb (Js.isInteger days) || Js.lt days (Js.ofZ 1)
              || Js.gt days (Js.ofZ 30)) eqn:Hcheck.
    + exists (json 400 "daysCount must be integer 1-30"). split; [reflexivity|].
      intros g. reflexivity.
    + exfalso.
      apply orb_false_iff in Hcheck as [Hcheck Hgt].
      apply orb_false_iff in Hcheck as [Hint Hlt].
      apply negb_false_iff in Hint.
      apply (Hbad (Js.toZ days)).
      * split; [apply lt_ofZ_false | apply gt_ofZ_false]; assumption.
      * apply isInteger_represents, Hint.
  - exists (json 400 "destination is required"). split; [reflexivity|].
    intros g. reflexivity.
Qed.

Lemma createTrip_rejects_daysCount_witness :
  exists r,
    status r = 400 /\
    (forall generateItinerary,
       run (createTrip Sample.StringToNumber generateItinerary Sample.tooManyDays)
           Sample.world0
       = (Returned r, Sample.world0)).
Proof.
  apply (createTrip_rejects_daysCount Sample.StringToNumber Sample.tooManyDays
                                      Sample.world0).
  intros z Hz. simpl. unfold Qeq. simpl. lia.
Defined.

(* ===================================================================== *)
(** ** Frame rules for store operations and programs *)
(* ===================================================================== *)

Section Frames.

Variable R : Store -> Store -> Prop.
Hypothesis R_refl : forall s, R s s.
Hypothesis R_trans : forall s1 s2 s3, R s1 s2 -> R s2 s3 -> R s1 s3.

Lemma Preserves_ret {X : Type} (x : X) : Preserves R (ret x : DB X).
Proof. intros s fs. apply R_refl. Qed.

Lemma Preserves_typeError {X : Type} : Preserves R (@typeError X).
Proof. intros s fs. apply R_refl. Qed.

Lemma Preserves_bind {X Y : Type} (c : DB X) (k : X -> DB Y) :
  Preserves R c -> (forall x, Preserves R (k x)) -> Preserves R (bind c k).
Proof.
  intros Hc Hk s fs. simpl. specialize (Hc s fs).
  destruct (c s fs) as [[[x|] s1] fs1]; simpl in *.
  - eapply R_trans; [exact Hc | apply Hk].
  - exact Hc.
Qed.

Lemma Preserves_db_call {X : Type} (f : Store -> option (X * Store)) :
  (forall s x s', f s = Some (x, s') -> R s s') -> Preserves R (db_call f).
Proof.
  intros Hf s fs. unfold db_call.
  destruct (next_fault fs) as [[|] fs1]; simpl; [apply R_refl|].
  destruct (f s) as [[x s1]|] eqn:E; simpl; [eapply Hf; eauto | apply R_refl].
Qed.

(** A relation that holds of what a body leaves holds of what its
    transaction leaves, when it does not look at the rows a rollback
    restores. *)
Lemma Preserves_transaction {X : Type} (body : DB X) :
  (forall s s', R s s' -> R s (rolledBack s s')) ->
  Preserves R body -> Preserves R (transaction body).
Proof.
  intros Hroll Hb s fs. unfold transaction. specialize (Hb s fs).
  destruct (body s fs) as [[[x|] s1] fs1]; simpl in *;
    [exact Hb | apply Hroll, Hb].
Qed.

Lemma Preserves_forEach {A : Type} (l : list A) (f : A -> DB unit) :
  (forall a, Preserves R (f a)) -> Preserves R (forEach l f).
Proof.
  intros Hf. induction l as [|a l IH]; simpl.
  - apply Preserves_ret.
  - apply Preserves_bind; [apply Hf | intros _; exact IH].
Qed.

Lemma Preserves_collect {A B : Type} (l : list A) (f : A -> DB B) :
  (forall a, Preserves R (f a)) -> Preserves R (collect l f).
Proof.
  intros Hf. induction l as [|a l IH]; simpl.
  - apply Preserves_ret.
  - apply Preserves_bind; [apply Hf | intros y].
    apply Preserves_bind; [exact IH | intros ys; apply Preserves_ret].
Qed.

(** Programs whose every store call keeps the store within [R] keep it
    within [R] from start to end. *)
Lemma run_Preserves {A : Type} (p : Prog A) (w : World) :
  everyAwait (fun _ X op => Preserves R op) p ->
  R (store w) (store (snd (run p w))).
Proof.
  revert w. induction p as [a | | r | site X op k IH]; intros w H; simpl;
    try apply R_refl.
  destruct H as [Hop Hk].
  destruct (perform site op w) as [o w'] eqn:E.
  eapply R_trans; [|apply IH, Hk].
  unfold perform in E. specialize (Hop (store w) (faults w)).
  destruct (op (store w) (faults w)) as [[[x|] s1] fs1]; inversion E; subst;
    exact Hop.
Qed.

End Frames.

Lemma advanced_refl (s : Store) : advanced s s.
Proof. unfold advanced. lia. Qed.

Lemma advanced_trans (s1 s2 s3 : Store) :
  advanced s1 s2 -> advanced s2 s3 -> advanced s1 s3.
Proof. unfold advanced. lia. Qed.

(** A transaction whose body draws ids and gives none back is atomic. *)
Lemma Atomic_transaction {X : Type} (body : DB X) :
  Preserves advanced body -> Atomic (transaction body).
Proof.
  intros Hb s fs. unfold transaction. specialize (Hb s fs).
  destruct (body s fs) as [[[x|] s1] fs1]; simpl in *; [discriminate|].
  intros _. split; [destruct s; reflexivity | exact Hb].
Qed.

Lemma everyAwait_bind {A B : Type} Q (p : Prog A) (f : A -> Prog B) :
  everyAwait Q p -> (forall a, everyAwait Q (f a)) ->
  everyAwait Q (Prog_bind p f).
Proof.
  intros Hp Hf. induction p as [a | | r | site X op k IH]; simpl in *; auto.
  destruct Hp as [Hop Hk]. split; auto.
Qed.

Lemma everyAwait_tryCatch {A : Type} Q (p handler : Prog A) :
  everyAwait Q p -> everyAwait Q handler -> everyAwait Q (tryCatch p handler).
Proof.
  intros Hp Hh. induction p as [a | | r | site X op k IH]; simpl in *; auto.
  destruct Hp as [Hop Hk]. split; auto.
Qed.

Lemma everyAwait_tryFinally {A : Type} Q (p : Prog A) (cleanup : Prog unit) :
  everyAwait Q p -> everyAwait Q cleanup -> everyAwait Q (tryFinally p cleanup).
Proof.
  intros Hp Hc.
  induction p as [a | | r | site X op k IH]; simpl in *;
    try (apply everyAwait_bind; simpl; auto).
  destruct Hp as [Hop Hk]. split; auto.
Qed.

Lemma everyAwait_await {X : Type} Q (site : Site) (op : DB X) :
  Q site X op -> everyAwait Q (await site op).
Proof. intros H. simpl. split; [exact H | intros [x|]; exact I]. Qed.

Lemma everyAwait_call {X : Type} Q (r : option X) : everyAwait Q (call r).
Proof. destruct r; exact I. Qed.

(** A property of worlds that every store call of a program maintains is
    maintained by the program. *)
Lemma run_invariant {A : Type} (Inv : World -> Prop)
      (Q : Site -> forall X : Type, DB X -> Prop) :
  (forall site X (op : DB X) w,
      Q site X op -> Inv w -> Inv (snd (perform site op w))) ->
  forall (p : Prog A) (w : World),
    everyAwait Q p -> Inv w -> Inv (snd (run p w)).
Proof.
  intros Hstep p. induction p as [a | | r | site X op k IH]; intros w H Hw;
    simpl; auto.
  destruct H as [Hop Hk].
  specialize (Hstep site X op w Hop Hw).
  destruct (perform site op w) as [o w']. apply IH; auto.
Qed.

(* ===================================================================== *)
(** ** What each store operation leaves alone *)
(* ===================================================================== *)

Lemma sameTrips_refl (s : Store) : sameTrips s s.
Proof. split; reflexivity. Qed.

Lemma sameTrips_trans (s1 s2 s3 : Store) :
  sameTrips s1 s2 -> sameTrips s2 s3 -> sameTrips s1 s3.
Proof. intros [A1 B1] [A2 B2]. split; congruence. Qed.

Lemma samePlan_refl (s : Store) : samePlan s s.
Proof. reflexivity. Qed.

Lemma samePlan_trans (s1 s2 s3 : Store) :
  samePlan s1 s2 -> samePlan s2 s3 -> samePlan s1 s3.
Proof. unfold samePlan. congruence. Qed.

Lemma samePlan_tables (s s' : Store) :
  samePlan s s' ->
  dayPlans s' = dayPlans s /\
  plannedActivities s' = plannedActivities s /\
  activities s' = activities s /\
  nextDayPlanId s' = nextDayPlanId s /\
  nextPlannedActivityId s' = nextPlannedActivityId s /\
  nextTripId s' = nextTripId s /\
  map (set_regenLockUntil None) (trips s') = map (set_regenLockUntil None) (trips s).
Proof.
  unfold samePlan, upToLocks, with_trips. intros H. inversion H. auto 10.
Qed.

Lemma map_update_keeps {A B : Type} (key : A -> B) (where_ : A -> bool)
      (data : A -> A) (l : list A) :
  (forall a, key (data a) = key a) ->
  map key (map (fun a => if where_ a then data a else a) l) = map key l.
Proof.
  intros H. rewrite map_map. apply map_ext. intros a.
  destruct (where_ a); auto.
Qed.

Create HintDb frames.

#[local] Hint Resolve sameTrips_refl sameTrips_trans samePlan_refl samePlan_trans
  advanced_refl advanced_trans : frames.

Ltac frames :=
  try exact sameTrips_refl; try exact sameTrips_trans;
  try exact samePlan_refl; try exact samePlan_trans;
  try exact advanced_refl; try exact advanced_trans;
  auto with frames.

Ltac frame_db_call :=
  apply Preserves_db_call; auto with frames;
  let s := fresh "s" in let x := fresh "x" in let s' := fresh "s'" in
  let H := fresh "H" in
  intros s x s' H; try (inversion H; subst; clear H).

Lemma findUnique_samePlan (id : Z) : Preserves samePlan (prisma.trip.findUnique id).
Proof. frame_db_call. apply samePlan_refl. Qed.

Lemma activity_findMany_samePlan (d : string) :
  Preserves samePlan (prisma.activity.findMany d).
Proof. frame_db_call. apply samePlan_refl. Qed.

(** Writing the lock field changes nothing but lock fields. *)
Lemma updateMany_lock_samePlan (where_ : Trip -> bool) (v : option Z) :
  Preserves samePlan (prisma.trip.updateMany where_ (set_regenLockUntil v)).
Proof.
  frame_db_call. unfold samePlan, upToLocks, with_trips. simpl. f_equal.
  apply map_update_keeps. intros t. reflexivity.
Qed.

Lemma findUnique_sameTrips (id : Z) : Preserves sameTrips (prisma.trip.findUnique id).
Proof. frame_db_call. apply sameTrips_refl. Qed.

Lemma findUniqueWithPlan_sameTrips (id : Z) :
  Preserves sameTrips (prisma.trip.findUniqueWithPlan id).
Proof. frame_db_call. apply sameTrips_refl. Qed.

Lemma activity_findMany_sameTrips (d : string) :
  Preserves sameTrips (prisma.activity.findMany d).
Proof. frame_db_call. apply sameTrips_refl. Qed.

Lemma updateMany_sameTrips (where_ : Trip -> bool) (data : Trip -> Trip) :
  (forall t, tripKey (data t) = tripKey t) ->
  Preserves sameTrips (prisma.trip.updateMany where_ data).
Proof.
  intros Hd. frame_db_call. split; simpl; [reflexivity|].
  apply map_update_keeps, Hd.
Qed.

Lemma update_sameTrips (id : Z) (data : Trip -> Trip) :
  (forall t, tripKey (data t) = tripKey t) ->
  Preserves sameTrips (prisma.trip.update id data).
Proof.
  intros Hd. apply Preserves_db_call; frames.
  intros s x s' H.
  destruct (find (fun t => trip_id t =? id) (trips s)); inversion H; subst.
  split; simpl; [reflexivity|].
  apply (map_update_keeps tripKey (fun t => trip_id t =? id) data), Hd.
Qed.

Lemma dayPlan_findMany_sameTrips (tripId : Z) :
  Preserves sameTrips (prisma.dayPlan.findMany tripId).
Proof. frame_db_call. apply sameTrips_refl. Qed.

Lemma dayPlan_deleteMany_sameTrips (tripId : Z) :
  Preserves sameTrips (prisma.dayPlan.deleteMany tripId).
Proof. frame_db_call. split; reflexivity. Qed.

Lemma dayPlan_create_sameTrips (tripId d : Z) :
  Preserves sameTrips (prisma.dayPlan.create tripId d).
Proof. frame_db_call. split; reflexivity. Qed.

Lemma plannedActivity_deleteMany_sameTrips (ids : list Z) :
  Preserves sameTrips (prisma.plannedActivity.deleteMany ids).
Proof. frame_db_call. split; reflexivity. Qed.

Lemma plannedActivity_create_sameTrips (dp a i : Z) :
  Preserves sameTrips (prisma.plannedActivity.create dp a i).
Proof. frame_db_call. split; reflexivity. Qed.

#[local] Hint Resolve
  findUnique_sameTrips findUniqueWithPlan_sameTrips activity_findMany_sameTrips
  dayPlan_findMany_sameTrips dayPlan_deleteMany_sameTrips dayPlan_create_sameTrips
  plannedActivity_deleteMany_sameTrips plannedActivity_create_sameTrips
  findUnique_samePlan activity_findMany_samePlan updateMany_lock_samePlan
  : frames.

Lemma createDayPlans_sameTrips (tripId days : Z) :
  Preserves sameTrips (createDayPlans tripId days).
Proof.
  unfold createDayPlans. apply Preserves_collect; frames.
Qed.

Lemma createPlannedActivities_sameTrips (days : Z) (dps : list DayPlan) (plan : Plan) :
  Preserves sameTrips (createPlannedActivities days dps plan).
Proof.
  unfold createPlannedActivities.
  apply Preserves_forEach; frames. intros d.
  apply Preserves_forEach; frames. intros [i item].
  destruct (nth_error dps (Z.to_nat (d - 1))).
  - apply Preserves_bind; frames.
    intros _. apply Preserves_ret; frames.
  - apply Preserves_typeError; frames.
Qed.

Lemma replacePlan_sameTrips (tripId : Z) (base : Trip) (interests : string)
      (plan : Plan) :
  Preserves sameTrips (replacePlan tripId base interests plan).
Proof.
  unfold replacePlan.
  apply Preserves_bind; frames. intros existing.
  apply Preserves_bind; frames.
  { destruct (0 <? _).
    - apply Preserves_bind; frames. intros _.
      apply Preserves_bind; frames. intros _.
      apply Preserves_ret; frames.
    - apply Preserves_ret; frames. }
  intros _. apply Preserves_bind; frames.
  { destruct (negb _).
    - apply Preserves_bind; frames.
      + apply update_sameTrips. reflexivity.
      + intros _. apply Preserves_ret; frames.
    - apply Preserves_ret; frames. }
  intros _. apply Preserves_bind; frames.
  { apply createDayPlans_sameTrips. }
  intros dps. apply Preserves_bind; frames.
  apply createPlannedActivities_sameTrips.
Qed.

(** No store operation gives an id back to its sequence. *)
Ltac draws_ids :=
  frame_db_call; unfold advanced; cbn [nextTripId nextDayPlanId
    nextPlannedActivityId with_trips with_dayPlans with_plannedActivities]; lia.

Lemma findUnique_advanced (id : Z) : Preserves advanced (prisma.trip.findUnique id).
Proof. draws_ids. Qed.

Lemma findUniqueWithPlan_advanced (id : Z) :
  Preserves advanced (prisma.trip.findUniqueWithPlan id).
Proof. draws_ids. Qed.

Lemma activity_findMany_advanced (d : string) :
  Preserves advanced (prisma.activity.findMany d).
Proof. draws_ids. Qed.

Lemma updateMany_advanced (where_ : Trip -> bool) (data : Trip -> Trip) :
  Preserves advanced (prisma.trip.updateMany where_ data).
Proof. draws_ids. Qed.

Lemma update_advanced (id : Z) (data : Trip -> Trip) :
  Preserves advanced (prisma.trip.update id data).
Proof.
  apply Preserves_db_call; frames. intros s x s' H.
  destruct (find (fun t => trip_id t =? id) (trips s)); inversion H; subst.
  unfold advanced. simpl. lia.
Qed.

Lemma trip_create_advanced (userId : Z) (destination : string) (days : Z)
      (bud : option Js.Number) (interests : string) :
  Preserves advanced (prisma.trip.create userId destination days bud interests).
Proof. draws_ids. Qed.

Lemma dayPlan_findMany_advanced (tripId : Z) :
  Preserves advanced (prisma.dayPlan.findMany tripId).
Proof. draws_ids. Qed.

Lemma dayPlan_findManyByDay_advanced (tripId : Z) :
  Preserves advanced (prisma.dayPlan.findManyByDay tripId).
Proof. draws_ids. Qed.

Lemma dayPlan_deleteMany_advanced (tripId : Z) :
  Preserves advanced (prisma.dayPlan.deleteMany tripId).
Proof. draws_ids. Qed.

Lemma dayPlan_create_advanced (tripId d : Z) :
  Preserves advanced (prisma.dayPlan.create tripId d).
Proof. draws_ids. Qed.

Lemma plannedActivity_deleteMany_advanced (ids : list Z) :
  Preserves advanced (prisma.plannedActivity.deleteMany ids).
Proof. draws_ids. Qed.

Lemma plannedActivity_create_advanced (dp a i : Z) :
  Preserves advanced (prisma.plannedActivity.create dp a i).
Proof. draws_ids. Qed.

#[local] Hint Resolve
  findUnique_advanced findUniqueWithPlan_advanced activity_findMany_advanced
  updateMany_advanced update_advanced trip_create_advanced
  dayPlan_findMany_advanced dayPlan_findManyByDay_advanced
  dayPlan_deleteMany_advanced dayPlan_create_advanced
  plannedActivity_deleteMany_advanced plannedActivity_create_advanced
  : frames.

Lemma createDayPlans_advanced (tripId days : Z) :
  Preserves advanced (createDayPlans tripId days).
Proof.
  unfold createDayPlans. apply Preserves_collect; frames.
Qed.

Lemma createPlannedActivities_advanced (days : Z) (dps : list DayPlan) (plan : Plan) :
  Preserves advanced (createPlannedActivities days dps plan).
Proof.
  unfold createPlannedActivities.
  apply Preserves_forEach; frames. intros d.
  apply Preserves_forEach; frames. intros [i item].
  destruct (nth_error dps (Z.to_nat (d - 1))).
  - apply Preserves_bind; frames.
    intros _. apply Preserves_ret; frames.
  - apply Preserves_typeError; frames.
Qed.

Lemma replacePlan_advanced (tripId : Z) (base : Trip) (interests : string)
      (plan : Plan) :
  Preserves advanced (replacePlan tripId base interests plan).
Proof.
  unfold replacePlan.
  apply Preserves_bind; frames. intros existing.
  apply Preserves_bind; frames.
  { destruct (0 <? _).
    - apply Preserves_bind; frames. intros _.
      apply Preserves_bind; frames. intros _.
      apply Preserves_ret; frames.
    - apply Preserves_ret; frames. }
  intros _. apply Preserves_bind; frames.
  { destruct (negb _).
    - apply Preserves_bind; frames.
      intros _. apply Preserves_ret; frames.
    - apply Preserves_ret; frames. }
  intros _. apply Preserves_bind; frames.
  { apply createDayPlans_advanced. }
  intros dps. apply Preserves_bind; frames.
  apply createPlannedActivities_advanced.
Qed.

Lemma persistNewTrip_advanced (userId : Z) (destination : string) (days : Z)
      (bud : option Js.Number) (interests : string) (plan : Plan) :
  Preserves advanced (persistNewTrip userId destination days bud interests plan).
Proof.
  unfold persistNewTrip.
  apply Preserves_bind; frames. intros createdTrip.
  apply Preserves_bind; frames.
  { apply createDayPlans_advanced. }
  intros dps. apply Preserves_bind; frames.
  apply createPlannedActivities_advanced.
Qed.

Lemma sameTrips_rolledBack (s s' : Store) :
  sameTrips s s' -> sameTrips s (rolledBack s s').
Proof. intros _. split; reflexivity. Qed.

(* ===================================================================== *)
(** ** The store calls of [regenerate] *)
(* ===================================================================== *)

Lemma everyAwait_impl {A : Type} (Q Q' : Site -> forall X : Type, DB X -> Prop)
      (p : Prog A) :
  (forall site X (op : DB X), Q site X op -> Q' site X op) ->
  everyAwait Q p -> everyAwait Q' p.
Proof.
  intros HQ. induction p as [a | | r | site X op k IH]; simpl; auto.
  intros [Hop Hk]. split; auto.
Qed.

Section RegenerateCalls.

Variable StringToNumber : string -> Js.Number.
Variable generateItinerary : list Activity -> Z -> string -> option Plan.

Lemma unlock_calls (tripId userId : Z) :
  everyAwait regenerateCall (unlock tripId userId).
Proof.
  unfold unlock. apply everyAwait_tryCatch; [|exact I].
  apply (everyAwait_bind regenerateCall (await Unlock _) (fun _ => Pure tt));
    [|intros; exact I].
  apply everyAwait_await. split.
  - apply updateMany_sameTrips. reflexivity.
  - apply updateMany_lock_samePlan.
Qed.

Lemma regenerateBody_calls (now lockUntil tripId userId : Z)
      (incoming : option string) :
  everyAwait regenerateCall
    (regenerateBody generateItinerary now lockUntil tripId userId incoming).
Proof.
  unfold regenerateBody, regenerateLocked. cbn [bind Monad_Prog].
  apply everyAwait_bind.
  { apply everyAwait_await. split; frames. }
  intros [base|]; [|exact I].
  destruct (negb (trip_userId base =? userId)); [exact I|].
  apply everyAwait_bind.
  { apply everyAwait_await. split.
    - apply updateMany_sameTrips. reflexivity.
    - apply updateMany_lock_samePlan. }
  intros lockResult. destruct (lockResult =? 0); [exact I|].
  apply everyAwait_bind.
  { destruct incoming as [s|]; [destruct (String.eqb (Js.trim s) "")|]; exact I. }
  intros _. apply everyAwait_bind.
  { apply everyAwait_await. split; frames. }
  intros acts. apply everyAwait_bind.
  { apply everyAwait_call. }
  intros plan. apply everyAwait_bind; [|intros; exact I].
  apply everyAwait_await. split.
  - apply Preserves_transaction; frames;
      [apply sameTrips_rolledBack | apply replacePlan_sameTrips].
  - apply Atomic_transaction, replacePlan_advanced.
Qed.

Lemma regenerate_calls (clock : Clock) (req : RegenerateRequest) :
  everyAwait regenerateCall (regenerate StringToNumber generateItinerary clock req).
Proof.
  unfold regenerate.
  destruct (negb (Js.isInteger _) || Js.le _ _); [exact I|].
  unfold tryCatchFinally.
  apply everyAwait_tryFinally; [|apply unlock_calls].
  apply everyAwait_tryCatch; [apply regenerateBody_calls | exact I].
Qed.

End RegenerateCalls.

(* ===================================================================== *)
(** ** The calls a regeneration makes *)
(* ===================================================================== *)

Lemma perform_calls {X : Type} (site : Site) (op : DB X) (w : World) :
  calls (snd (perform site op w)) = (site, resolved (fst (perform site op w))) :: calls w.
Proof.
  unfold perform. destruct (op (store w) (faults w)) as [[[x|] s'] fs'];
    reflexivity.
Qed.

Lemma run_await_bind {X A : Type} (site : Site) (op : DB X) (f : X -> Prog A)
      (w : World) :
  run (Prog_bind (await site op) f) w =
  match fst (perform site op w) with
  | Some x => run (f x) (snd (perform site op w))
  | None => (Uncaught, snd (perform site op w))
  end.
Proof.
  simpl. destruct (perform site op w) as [[x|] w']; reflexivity.
Qed.

Ltac step_await :=
  match goal with
  | |- context [run (Prog_bind (await ?site ?op) ?f) ?w] =>
      rewrite (run_await_bind site op f w)
  end.

Ltac made C :=
  first [ refine (ex_intro _ [_] (conj C (conj _ _)))
        | refine (ex_intro _ [_; _] (conj C (conj _ _)))
        | refine (ex_intro _ [_; _; _] (conj C (conj _ _)))
        | refine (ex_intro _ [_; _; _; _] (conj C (conj _ _))) ];
  [ constructor
  | let E := fresh "E" in intros ? ? E; inversion E; reflexivity ].

Section RegenerateTrace.

Variable StringToNumber : string -> Js.Number.
Variable generateItinerary : list Activity -> Z -> string -> option Plan.

Lemma regenerateBody_bodyCalls (now lockUntil tripId userId : Z)
      (incoming : option string) (w : World) :
  bodyRun w
    (run (regenerateBody generateItinerary now lockUntil tripId userId incoming) w).
Proof.
  unfold regenerateBody, regenerateLocked. cbn [bind Monad_Prog].
  step_await.
  pose proof (perform_calls LoadBase (prisma.trip.findUnique tripId) w) as C1.
  destruct (perform LoadBase (prisma.trip.findUnique tripId) w) as [o1 w1].
  cbn [fst snd] in *.
  destruct o1 as [[base|]|]; cbn [fst snd resolved run] in *;
    try (made C1).
  destruct (negb (trip_userId base =? userId)); cbn [fst snd resolved run] in *.
  { made C1. }
  step_await.
  match goal with |- context [perform AcquireLock ?op w1] =>
    pose proof (perform_calls AcquireLock op w1) as C2;
    destruct (perform AcquireLock op w1) as [o2 w2] end.
  cbn [fst snd] in *. rewrite C1 in C2.
  destruct o2 as [lockResult|]; cbn [fst snd resolved run] in *;
    [|made C2].
  destruct (lockResult =? 0); cbn [fst snd resolved run] in *.
  { made C2. }
  rewrite run_bind.
  assert (Hv : exists c,
             run (match incoming with
                  | Some s =>
                      if String.eqb (Js.trim s) ""
                      then Return (json 400 "interests must be a non-empty string")
                      else Pure tt
                  | None => Pure tt
                  end) w2 = (c, w2) /\ c <> Uncaught).
  { destruct incoming as [s|]; [destruct (String.eqb (Js.trim s) "")|];
      eexists; (split; [reflexivity | discriminate]). }
  destruct Hv as (c & -> & Hc).
  destruct c as [[]| r |]; cbn [fst snd andThen] in *; [| | contradiction].
  2:{ made C2. }
  step_await.
  match goal with |- context [perform FetchActivities ?op w2] =>
    pose proof (perform_calls FetchActivities op w2) as C3;
    destruct (perform FetchActivities op w2) as [o3 w3] end.
  cbn [fst snd] in *. rewrite C2 in C3.
  destruct o3 as [acts|]; cbn [fst snd resolved run] in *;
    [|made C3].
  rewrite run_bind.
  destruct (planFor generateItinerary acts (trip_daysCount base)
                    (effectiveInterestsOf incoming base)) as [plan|];
    cbn [fst snd andThen call run] in *.
  2:{ made C3. }
  step_await.
  match goal with |- context [perform ReplacePlan ?op w3] =>
    pose proof (perform_calls ReplacePlan op w3) as C4;
    destruct (perform ReplacePlan op w3) as [o4 w4] end.
  cbn [fst snd] in *. rewrite C3 in C4.
  destruct o4 as [saved|]; cbn [fst snd resolved run] in *;
    made C4.
Qed.

End RegenerateTrace.

(* ===================================================================== *)
(** ** The [finally] of [regenerate] *)
(* ===================================================================== *)

Section RegenerateFinally.

Variable StringToNumber : string -> Js.Number.
Variable generateItinerary : list Activity -> Z -> string -> option Plan.

Lemma regenerateBody_endsAbruptly (now lockUntil tripId userId : Z)
      (incoming : option string) :
  endsAbruptly (regenerateBody generateItinerary now lockUntil tripId userId incoming).
Proof.
  unfold regenerateBody, regenerateLocked. cbn [bind Monad_Prog].
  apply endsAbruptly_bind. intros [base|]; [|exact I].
  destruct (negb (trip_userId base =? userId)); [exact I|].
  apply endsAbruptly_bind. intros lockResult.
  destruct (lockResult =? 0); [exact I|].
  apply endsAbruptly_bind. intros _.
  apply endsAbruptly_bind. intros acts.
  apply endsAbruptly_bind. intros plan.
  apply endsAbruptly_bind. intros saved. exact I.
Qed.

(** The [try]/[catch] of [regenerate] always ends by a [return]. *)
Lemma regenerate_try_returns (now lockUntil tripId userId : Z)
      (incoming : option string) (w : World) :
  exists r,
    fst (run (tryCatch (regenerateBody generateItinerary now lockUntil tripId
                                       userId incoming)
                       (Return (json 500 "Server error"))) w) = Returned r.
Proof.
  rewrite run_tryCatch.
  pose proof (@endsAbruptly_run unit _ w
                (regenerateBody_endsAbruptly now lockUntil tripId userId incoming))
    as Hn.
  destruct (run (regenerateBody generateItinerary now lockUntil tripId userId
                                incoming) w) as [[[] | r | ] w1]; simpl in *.
  - exfalso. apply (Hn tt). reflexivity.
  - exists r. reflexivity.
  - eexists. reflexivity.
Qed.

(** [regenerate] on a valid id: the [try]/[catch], then the unlocking
    write, whose outcome does not reach the completion. *)
Lemma run_regenerate (clock : Clock) (req : RegenerateRequest) (w : World) :
  validTripId (StringToNumber (regenerate_id req)) = true ->
  let tripId := Js.toZ (StringToNumber (regenerate_id req)) in
  let userId := regenerate_userId req in
  let tried :=
    run (tryCatch (regenerateBody generateItinerary (newDate clock)
                                  (dateNow clock + lockTtlMs) tripId userId
                                  (regenerate_interests req))
                  (Return (json 500 "Server error"))) w in
  run (regenerate StringToNumber generateItinerary clock req) w =
  (fst tried,
   snd (perform Unlock
          (prisma.trip.updateMany (unlockWhere tripId userId)
                                  (set_regenLockUntil None))
          (snd tried))).
Proof.
  intros Hvalid. unfold validTripId in Hvalid. apply negb_true_iff in Hvalid.
  cbv zeta. unfold regenerate. rewrite Hvalid.
  unfold tryCatchFinally. rewrite run_tryFinally.
  destruct (run (tryCatch _ _) w) as [c w1]. cbn [fst snd].
  unfold unlock. rewrite run_tryCatch. cbn [bind Monad_Prog].
  step_await.
  destruct (perform Unlock _ w1) as [[n|] w2]; cbn [fst snd run];
    destruct c; reflexivity.
Qed.

Lemma unlockWhere_set (tripId userId : Z) (v : option Z) (t : Trip) :
  unlockWhere tripId userId (set_regenLockUntil v t) = unlockWhere tripId userId t.
Proof. reflexivity. Qed.

Lemma tripRows_unlocked (tripId userId : Z) (ts : list Trip) (t' : Trip) :
  In t' (filter (unlockWhere tripId userId)
                (map (fun t => if unlockWhere tripId userId t
                               then set_regenLockUntil None t else t) ts)) ->
  trip_regenLockUntil t' = None.
Proof.
  rewrite filter_In, in_map_iff. intros [(t & Ht & _) Hw]. subst t'.
  destruct (unlockWhere tripId userId t) eqn:E; [reflexivity|].
  rewrite E in Hw. discriminate.
Qed.

Lemma unlockWhere_key (tripId userId : Z) (t : Trip) :
  unlockWhere tripId userId t = true <-> tripKey t = (tripId, userId).
Proof.
  unfold unlockWhere, tripKey. rewrite andb_true_iff, !Z.eqb_eq.
  split; [intros [-> ->]; reflexivity | intros H; inversion H; auto].
Qed.

Lemma tripRows_nonempty (tripId userId : Z) (s s' : Store) :
  map tripKey (trips s') = map tripKey (trips s) ->
  tripRows tripId userId s <> [] -> tripRows tripId userId s' <> [].
Proof.
  unfold tripRows. intros Hk Hne Hnil.
  destruct (filter (unlockWhere tripId userId) (trips s)) as [|t l] eqn:E;
    [contradiction|].
  assert (Ht : In t (filter (unlockWhere tripId userId) (trips s)))
    by (rewrite E; left; reflexivity).
  apply filter_In in Ht as [Hin Hw]. apply unlockWhere_key in Hw.
  assert (Hk' : In (tripId, userId) (map tripKey (trips s')))
    by (rewrite Hk; rewrite <- Hw; apply in_map, Hin).
  apply in_map_iff in Hk' as (t' & Hkey & Hin').
  assert (In t' (filter (unlockWhere tripId userId) (trips s')))
    by (apply filter_In; split; [exact Hin' | apply unlockWhere_key, Hkey]).
  rewrite Hnil in H. contradiction.
Qed.

End RegenerateFinally.

Lemma run_tryCatch_Return_world {A : Type} (p : Prog A) (r : Response) (w : World) :
  snd (run (tryCatch p (Return r)) w) = snd (run p w).
Proof.
  rewrite run_tryCatch. destruct (run p w) as [[a | r' | ] w1]; reflexivity.
Qed.

Lemma regenerate_try_sameTrips
      (generateItinerary : list Activity -> Z -> string -> option Plan)
      (now lockUntil tripId userId : Z) (incoming : option string) (w : World) :
  sameTrips (store w)
    (store (snd (run (tryCatch (regenerateBody generateItinerary now lockUntil
                                               tripId userId incoming)
                               (Return (json 500 "Server error"))) w))).
Proof.
  apply run_Preserves; frames.
  apply everyAwait_tryCatch; [|exact I].
  eapply everyAwait_impl; [|apply regenerateBody_calls].
  intros site X op [H _]. exact H.
Qed.

Lemma Consumes_ret {X : Type} (x : X) : Consumes (ret x : DB X).
Proof. intros s fs b H. exact H. Qed.

Lemma Consumes_typeError {X : Type} : Consumes (@typeError X).
Proof. intros s fs b H. exact H. Qed.

Lemma Consumes_db_call {X : Type} (f : Store -> option (X * Store)) :
  Consumes (db_call f).
Proof.
  intros s fs b. unfold db_call.
  assert (Htail : In b (snd (next_fault fs)) -> In b fs).
  { destruct fs as [|c fs]; simpl; auto. }
  destruct (next_fault fs) as [[|] fs1]; simpl in *; [exact Htail|].
  destruct (f s) as [[x s1]|]; simpl; exact Htail.
Qed.

Lemma Consumes_bind {X Y : Type} (c : DB X) (k : X -> DB Y) :
  Consumes c -> (forall x, Consumes (k x)) -> Consumes (bind c k).
Proof.
  intros Hc Hk s fs b. simpl. specialize (Hc s fs b).
  destruct (c s fs) as [[[x|] s1] fs1]; simpl in *.
  - intros H. apply Hc. exact (Hk x s1 fs1 b H).
  - exact Hc.
Qed.

Lemma Consumes_transaction {X : Type} (body : DB X) :
  Consumes body -> Consumes (transaction body).
Proof.
  intros Hb s fs b. unfold transaction. specialize (Hb s fs b).
  destruct (body s fs) as [[[x|] s1] fs1]; simpl in *; exact Hb.
Qed.

Lemma Consumes_forEach {A : Type} (l : list A) (f : A -> DB unit) :
  (forall a, Consumes (f a)) -> Consumes (forEach l f).
Proof.
  intros Hf. induction l as [|a l IH]; simpl.
  - apply Consumes_ret.
  - apply Consumes_bind; [apply Hf | intros _; exact IH].
Qed.

Lemma Consumes_collect {A B : Type} (l : list A) (f : A -> DB B) :
  (forall a, Consumes (f a)) -> Consumes (collect l f).
Proof.
  intros Hf. induction l as [|a l IH]; simpl.
  - apply Consumes_ret.
  - apply Consumes_bind; [apply Hf | intros y].
    apply Consumes_bind; [exact IH | intros ys; apply Consumes_ret].
Qed.

Lemma Consumes_createPlannedActivities (days : Z) (dps : list DayPlan)
      (plan : Plan) :
  Consumes (createPlannedActivities days dps plan).
Proof.
  unfold createPlannedActivities.
  apply Consumes_forEach. intros d. apply Consumes_forEach. intros [i item].
  destruct (nth_error dps (Z.to_nat (d - 1))).
  - apply Consumes_bind; [apply Consumes_db_call | intros _; apply Consumes_ret].
  - apply Consumes_typeError.
Qed.

Lemma Consumes_replacePlan (tripId : Z) (base : Trip) (interests : string)
      (plan : Plan) :
  Consumes (replacePlan tripId base interests plan).
Proof.
  unfold replacePlan.
  apply Consumes_bind; [apply Consumes_db_call | intros existing].
  apply Consumes_bind.
  { destruct (0 <? _).
    - apply Consumes_bind; [apply Consumes_db_call | intros _].
      apply Consumes_bind; [apply Consumes_db_call | intros _].
      apply Consumes_ret.
    - apply Consumes_ret. }
  intros _. apply Consumes_bind.
  { destruct (negb _).
    - apply Consumes_bind; [apply Consumes_db_call | intros _].
      apply Consumes_ret.
    - apply Consumes_ret. }
  intros _. apply Consumes_bind.
  { apply Consumes_collect. intros d. apply Consumes_db_call. }
  intros dps. apply Consumes_bind; [apply Consumes_createPlannedActivities|].
  intros _. apply Consumes_db_call.
Qed.

(** A request meets only faults of its own list. *)
Lemma run_Consumes {A : Type} (p : Prog A) (w : World) (b : bool) :
  everyAwait (fun _ X op => Consumes op) p ->
  In b (faults (snd (run p w))) -> In b (faults w).
Proof.
  revert w. induction p as [a | | r | site X op k IH]; intros w H; simpl;
    auto.
  destruct H as [Hop Hk].
  destruct (perform site op w) as [o w'] eqn:E. intros Hb.
  specialize (IH o w' (Hk o) Hb).
  unfold perform in E. specialize (Hop (store w) (faults w) b).
  destruct (op (store w) (faults w)) as [[[x|] s1] fs1]; inversion E; subst;
    apply Hop, IH.
Qed.

Lemma regenerateBody_Consumes
      (generateItinerary : list Activity -> Z -> string -> option Plan)
      (now lockUntil tripId userId : Z) (incoming : option string) :
  everyAwait (fun _ X op => Consumes op)
    (tryCatch (regenerateBody generateItinerary now lockUntil tripId userId
                              incoming)
              (Return (json 500 "Server error"))).
Proof.
  apply everyAwait_tryCatch; [|exact I].
  unfold regenerateBody, regenerateLocked. cbn [bind Monad_Prog].
  apply everyAwait_bind.
  { apply everyAwait_await, Consumes_db_call. }
  intros [base|]; [|exact I].
  destruct (negb (trip_userId base =? userId)); [exact I|].
  apply everyAwait_bind.
  { apply everyAwait_await, Consumes_db_call. }
  intros lockResult. destruct (lockResult =? 0); [exact I|].
  apply everyAwait_bind.
  { destruct incoming as [s|]; [destruct (String.eqb (Js.trim s) "")|]; exact I. }
  intros _. apply everyAwait_bind.
  { apply everyAwait_await, Consumes_db_call. }
  intros acts. apply everyAwait_bind.
  { apply everyAwait_call. }
  intros plan. apply everyAwait_bind; [|intros; exact I].
  apply everyAwait_await, Consumes_transaction, Consumes_replacePlan.
Qed.

(** The unlocking write: what it leaves, by the fault it meets. *)
Lemma perform_unlock (tripId userId : Z) (w : World) :
  let failing := fst (next_fault (faults w)) in
  let result :=
    perform Unlock (prisma.trip.updateMany (unlockWhere tripId userId)
                                           (set_regenLockUntil None)) w in
  resolved (fst result) = negb failing /\
  store (snd result)
  = (if failing then store w else unlocked tripId userId (store w)).
Proof.
  cbv zeta. unfold prisma.trip.updateMany. rewrite perform_db_call.
  destruct (next_fault (faults w)) as [[|] fs']; simpl; split; reflexivity.
Qed.

(** The [finally] of [regenerate], for every run on an existing trip of
    the caller. *)
Lemma regenerate_finally
        (StringToNumber : string -> Js.Number)
        (generateItinerary : list Activity -> Z -> string -> option Plan)
        (clock : Clock) (req : RegenerateRequest) (st : Store) (fs : Faults) :
  let tripId := Js.toZ (StringToNumber (regenerate_id req)) in
  let userId := regenerate_userId req in
  let tried :=
    run (tryCatch (regenerateBody generateItinerary (newDate clock)
                                  (dateNow clock + lockTtlMs) tripId userId
                                  (regenerate_interests req))
                  (Return (json 500 "Server error"))) (mkWorld st fs []) in
  let result :=
    run (regenerate StringToNumber generateItinerary clock req) (mkWorld st fs []) in
  let failing := fst (next_fault (faults (snd tried))) in
  validTripId (StringToNumber (regenerate_id req)) = true ->
  tripRows tripId userId st <> [] ->
  exists r pre,
    fst tried = Returned r /\
    fst result = Returned r /\
    calls (snd tried) = pre /\
    bodyCalls pre /\
    calls (snd result) = (Unlock, negb failing) :: pre /\
    store (snd result)
    = (if failing then store (snd tried)
       else unlocked tripId userId (store (snd tried))) /\
    (failing = false ->
     tripRows tripId userId (store (snd result)) <> [] /\
     forall t, In t (tripRows tripId userId (store (snd result))) ->
               trip_regenLockUntil t = None) /\
    ((forall b, In b fs -> b = false) -> failing = false).
Proof.
  intros tripId userId tried result failing Hvalid Hrows.
  subst result. rewrite (run_regenerate _ _ _ _ _ Hvalid).
  fold tripId userId tried. cbn [fst snd].
  destruct (regenerate_try_returns generateItinerary (newDate clock)
              (dateNow clock + lockTtlMs) tripId userId
              (regenerate_interests req) (mkWorld st fs [])) as [r Hr].
  fold tried in Hr.
  pose proof (regenerateBody_bodyCalls generateItinerary (newDate clock)
                (dateNow clock + lockTtlMs) tripId userId
                (regenerate_interests req) (mkWorld st fs []))
    as (pre & Hpre & Hshape & _).
  rewrite <- (run_tryCatch_Return_world _ (json 500 "Server error")) in Hpre.
  fold tried in Hpre. cbn [calls] in Hpre. rewrite app_nil_r in Hpre.
  pose proof (regenerate_try_sameTrips generateItinerary (newDate clock)
                (dateNow clock + lockTtlMs) tripId userId
                (regenerate_interests req) (mkWorld st fs [])) as [_ Hkeys].
  fold tried in Hkeys. cbn [store] in Hkeys.
  destruct (perform_unlock tripId userId (snd tried)) as [Hresolved Hstore].
  fold failing in Hresolved, Hstore.
  set (op := prisma.trip.updateMany (unlockWhere tripId userId)
                                    (set_regenLockUntil None)) in *.
  exists r, pre.
  split; [exact Hr|]. split; [exact Hr|]. split; [exact Hpre|].
  split; [exact Hshape|].
  split; [rewrite perform_calls, Hpre, Hresolved; reflexivity|].
  split; [exact Hstore|]. split.
  - intros Hok. rewrite Hok in Hstore. rewrite Hstore.
    unfold unlocked, tripRows. cbn [trips with_trips]. split.
    + apply (@tripRows_nonempty tripId userId st
               (with_trips (map (fun t => if unlockWhere tripId userId t
                                          then set_regenLockUntil None t else t)
                                (trips (store (snd tried))))
                           (store (snd tried)))); [|exact Hrows].
      cbn [trips with_trips]. rewrite <- Hkeys.
      apply map_update_keeps. intros t. reflexivity.
    + intros t Ht. apply (tripRows_unlocked _ _ _ _ Ht).
  - intros Hquiet. subst failing.
    destruct (faults (snd tried)) as [|b rest] eqn:Hleft; [reflexivity|].
    cbn [next_fault fst]. apply Hquiet.
    apply (@run_Consumes unit _ (mkWorld st fs []) b
             (regenerateBody_Consumes generateItinerary (newDate clock)
                (dateNow clock + lockTtlMs) tripId userId
                (regenerate_interests req))).
    fold tried. rewrite Hleft. left. reflexivity.
Qed.

(** C2. A regeneration request on an existing trip of the caller always
    ends by a [return], and the last thing it does, on every path through
    the [try] block and whatever store call failed there (the fetch of
    the catalog, the planner, the replace transaction), is the write that
    nulls the lock field.  That write fails only by a fault of its own:
    it resolves whenever the store call itself does, so always for a
    request whose fault list holds no fault; when it resolves the store
    is the one the [try] block left with the lock of every row of the
    trip nulled; when it rejects the store is left as it is; and either
    way the response is the one the [try]/[catch] had chosen. *)
Theorem regenerate_clears_lock_on_every_path
        (StringToNumber : string -> Js.Number)
        (generateItinerary : list Activity -> Z -> string -> option Plan)
        (clock : Clock) (req : RegenerateRequest) (st : Store) (fs : Faults) :
  let tripId := Js.toZ (StringToNumber (regenerate_id req)) in
  let userId := regenerate_userId req in
  let tried :=
    run (tryCatch (regenerateBody generateItinerary (newDate clock)
                                  (dateNow clock + lockTtlMs) tripId userId
                                  (regenerate_interests req))
                  (Return (json 500 "Server error"))) (mkWorld st fs []) in
  let result :=
    run (regenerate StringToNumber generateItinerary clock req) (mkWorld st fs []) in
  let failing := fst (next_fault (faults (snd tried))) in
  validTripId (StringToNumber (regenerate_id req)) = true ->
  tripRows tripId userId st <> [] ->
  exists r pre,
    fst tried = Returned r /\
    fst result = Returned r /\
    calls (snd tried) = pre /\
    bodyCalls pre /\
    calls (snd result) = (Unlock, negb failing) :: pre /\
    store (snd result)
    = (if failing then store (snd tried)
       else unlocked tripId userId (store (snd tried))) /\
    (failing = false ->
     tripRows tripId userId (store (snd result)) <> [] /\
     forall t, In t (tripRows tripId userId (store (snd result))) ->
               trip_regenLockUntil t = None) /\
    ((forall b, In b fs -> b = false) -> failing = false).
Proof.
  exact (regenerate_finally StringToNumber generateItinerary clock req st fs).
Qed.

(** The replace transaction of the request fails at its first store call:
    the answer is 500, and the lock the request had set is nulled. *)
Lemma regenerate_clears_lock_on_every_path_witness :
  let result :=
    run (regenerate Sample.StringToNumber Sample.planner
                    (mkClock 1000 1000) Sample.regenerateParis)
        (mkWorld Sample.store0 [false; false; false; true] []) in
  fst result = Returned (json 500 "Server error") /\
  calls (snd result)
  = [(Unlock, true); (ReplacePlan, false); (FetchActivities, true);
     (AcquireLock, true); (LoadBase, true)] /\
  tripRows 1 7 (store (snd result)) <> [] /\
  forall t, In t (tripRows 1 7 (store (snd result))) ->
            trip_regenLockUntil t = None.
Proof.
  cbv zeta.
  destruct (regenerate_clears_lock_on_every_path
              Sample.StringToNumber Sample.planner (mkClock 1000 1000)
              Sample.regenerateParis Sample.store0 [false; false; false; true])
    as (r & pre & Htried & Hresult & Hpre & _ & Hcalls & _ & Hcleared & _).
  - reflexivity.
  - vm_compute. discriminate.
  - split.
    + rewrite Hresult, <- Htried. vm_compute. reflexivity.
    + split.
      * rewrite Hcalls, <- Hpre. vm_compute. reflexivity.
      * apply Hcleared. vm_compute. reflexivity.
Defined.

(* ===================================================================== *)
(** ** Atomic replacement of the plan *)
(* ===================================================================== *)

(** A failure in the middle of the replacement, after the old rows were
    deleted and the first new DayPlan was created: the body had changed
    its tables, the transaction hands back the rows it started from; the
    id the new DayPlan had drawn is not handed out again. *)
Example replacePlan_interrupted :
  let body := replacePlan 1 Sample.paris "culture"
                          (mkPlan [[Sample.louvre]; [Sample.eiffel]] None) in
  let interrupted := [false; false; false; false; true] in
  let after := snd (fst (transaction body Sample.store0 interrupted)) in
  dayPlans (snd (fst (body Sample.store0 interrupted))) = [mkDayPlan 3 1 1] /\
  plannedActivities (snd (fst (body Sample.store0 interrupted))) = [] /\
  fst (fst (body Sample.store0 interrupted)) = None /\
  rolledBack after Sample.store0 = Sample.store0 /\
  nextDayPlanId Sample.store0 = 3 /\ nextDayPlanId after = 4.
Proof. repeat split. Qed.

Lemma samePlanRows_refl (s : Store) : samePlanRows s s.
Proof.
  split; [rewrite rolledBack_same; apply samePlan_refl | apply advanced_refl].
Qed.

(** What [samePlanRows] says of each table. *)
Lemma samePlanRows_tables (s s' : Store) :
  samePlanRows s s' ->
  dayPlans s' = dayPlans s /\
  plannedActivities s' = plannedActivities s /\
  activities s' = activities s /\
  map (set_regenLockUntil None) (trips s') = map (set_regenLockUntil None) (trips s) /\
  advanced s s'.
Proof.
  intros [H Ha]. apply samePlan_tables in H.
  destruct H as (Hd & Hp & Hact & _ & _ & _ & Ht). auto 10.
Qed.

Lemma samePlanRows_intro (s s' : Store) :
  dayPlans s' = dayPlans s ->
  plannedActivities s' = plannedActivities s ->
  activities s' = activities s ->
  map (set_regenLockUntil None) (trips s') = map (set_regenLockUntil None) (trips s) ->
  advanced s s' ->
  samePlanRows s s'.
Proof.
  intros Hd Hp Ha Ht Hadv. split; [|exact Hadv].
  unfold samePlan, upToLocks, rolledBack, with_trips. cbn.
  rewrite Hd, Hp, Ha, Ht. reflexivity.
Qed.

Lemma samePlanRows_trans (s1 s2 s3 : Store) :
  samePlanRows s1 s2 -> samePlanRows s2 s3 -> samePlanRows s1 s3.
Proof.
  intros H1 H2. apply samePlanRows_tables in H1, H2.
  destruct H1 as (Hd1 & Hp1 & Ha1 & Ht1 & Hadv1).
  destruct H2 as (Hd2 & Hp2 & Ha2 & Ht2 & Hadv2).
  apply samePlanRows_intro; try congruence.
  eapply advanced_trans; eauto.
Qed.

Lemma samePlan_samePlanRows (s s' : Store) : samePlan s s' -> samePlanRows s s'.
Proof.
  intros H. apply samePlan_tables in H.
  destruct H as (Hd & Hp & Ha & Hn1 & Hn2 & Hn3 & Ht).
  apply samePlanRows_intro; auto. unfold advanced. lia.
Qed.

(** The rows a rejected atomic operation leaves. *)
Lemma Atomic_samePlanRows (s s' : Store) :
  rolledBack s' s = s -> advanced s s' -> samePlanRows s s'.
Proof.
  intros Hrows Hadv. split; [|exact Hadv].
  rewrite Hrows. apply samePlan_refl.
Qed.

Section RegenerateAtomic.

Variable StringToNumber : string -> Js.Number.
Variable generateItinerary : list Activity -> Z -> string -> option Plan.
Variable st : Store.

(** Until the replace transaction has resolved, the rows are the initial
    ones up to lock fields. *)
Let untouched (w : World) : Prop :=
  ~ In (ReplacePlan, true) (calls w) -> samePlanRows st (store w).

Lemma untouched_perform (site : Site) (X : Type) (op : DB X) (w : World) :
  regenerateCall site op -> untouched w -> untouched (snd (perform site op w)).
Proof.
  unfold untouched. intros [_ Hop] Hw Hnot.
  rewrite perform_calls in Hnot.
  assert (Hbefore : samePlanRows st (store w)).
  { apply Hw. intros Hin. apply Hnot. right. exact Hin. }
  unfold perform in *.
  destruct site;
    try solve [ specialize (Hop (store w) (faults w));
                destruct (op (store w) (faults w)) as [[[x|] s'] fs']; simpl in *;
                apply (samePlanRows_trans Hbefore (samePlan_samePlanRows Hop)) ].
  pose proof (Hop (store w) (faults w)) as Ha.
  destruct (op (store w) (faults w)) as [[[x|] s'] fs']; simpl in *.
  - exfalso. apply Hnot. left. reflexivity.
  - destruct (Ha eq_refl) as [Hrows Hadv].
    apply (samePlanRows_trans Hbefore (Atomic_samePlanRows Hrows Hadv)).
Qed.

Lemma regenerate_untouched (clock : Clock) (req : RegenerateRequest) (fs : Faults) :
  untouched (snd (run (regenerate StringToNumber generateItinerary clock req)
                      (mkWorld st fs []))).
Proof.
  apply (run_invariant untouched regenerateCall).
  - intros site X op w. apply untouched_perform.
  - apply regenerate_calls.
  - intros _. apply samePlanRows_refl.
Qed.

End RegenerateAtomic.

Lemma bodyCalls_rejected_replace (pre : list (Site * bool)) :
  bodyCalls pre -> In (ReplacePlan, false) pre ->
  ~ In (ReplacePlan, true) pre /\ exists l, pre = (ReplacePlan, false) :: l.
Proof.
  intros Hshape Hin.
  inversion Hshape; subst; simpl in Hin;
    repeat (destruct Hin as [Hin | Hin]; [inversion Hin|]); try contradiction.
  subst. split.
  - simpl. intros [H | [H | [H | [H | []]]]]; inversion H.
  - eexists. reflexivity.
Qed.

(** C3. The replacement is one transaction: when any step of the body
    rejects, the transaction rejects and hands back every table as it
    was when it started (of the store only the id sequences keep what the
    body did: the ids it drew are not handed out again); and when the
    replace transaction of a regeneration rejected, the DayPlan and
    PlannedActivity tables are exactly what they were before the request
    (and so is every trip, up to its lock field), and the answer is the
    500 of the [catch]. *)
Theorem regenerate_replace_all_or_nothing
        (StringToNumber : string -> Js.Number)
        (generateItinerary : list Activity -> Z -> string -> option Plan)
        (clock : Clock) (req : RegenerateRequest) (st : Store) (fs : Faults) :
  let result :=
    run (regenerate StringToNumber generateItinerary clock req) (mkWorld st fs []) in
  (forall tripId base interests plan s fs',
      fst (fst (replacePlan tripId base interests plan s fs')) = None ->
      let after := transaction (replacePlan tripId base interests plan) s fs' in
      fst (fst after) = None /\
      activities (snd (fst after)) = activities s /\
      trips (snd (fst after)) = trips s /\
      dayPlans (snd (fst after)) = dayPlans s /\
      plannedActivities (snd (fst after)) = plannedActivities s) /\
  (In (ReplacePlan, false) (calls (snd result)) ->
   dayPlans (store (snd result)) = dayPlans st /\
   plannedActivities (store (snd result)) = plannedActivities st /\
   map (set_regenLockUntil None) (trips (store (snd result)))
   = map (set_regenLockUntil None) (trips st) /\
   fst result = Returned (json 500 "Server error")).
Proof.
  intros result. split.
  { intros tripId base interests plan s fs' Hfail. unfold transaction.
    destruct (replacePlan tripId base interests plan s fs') as [[[x|] s1] fs1];
      [discriminate | repeat split]. }
  intros Hin.
  pose proof (regenerate_untouched StringToNumber generateItinerary st clock req fs)
    as Hinv.
  fold result in Hinv.
  destruct (validTripId (StringToNumber (regenerate_id req))) eqn:Hvalid.
  2:{ exfalso. subst result. unfold regenerate in Hin.
      unfold validTripId in Hvalid. apply negb_false_iff in Hvalid.
      rewrite Hvalid in Hin. simpl in Hin. exact Hin. }
  subst result. rewrite (run_regenerate _ _ _ _ _ Hvalid) in *.
  cbn [fst snd] in *.
  set (tripId := Js.toZ (StringToNumber (regenerate_id req))) in *.
  set (userId := regenerate_userId req) in *.
  set (body := regenerateBody generateItinerary (newDate clock)
                              (dateNow clock + lockTtlMs) tripId userId
                              (regenerate_interests req)) in *.
  pose proof (regenerateBody_bodyCalls generateItinerary (newDate clock)
                (dateNow clock + lockTtlMs) tripId userId
                (regenerate_interests req) (mkWorld st fs []))
    as (pre & Hpre & Hshape & Hthrown).
  fold body in Hpre, Hthrown. cbn [calls] in Hpre. rewrite app_nil_r in Hpre.
  rewrite perform_calls, run_tryCatch_Return_world, Hpre in Hin.
  destruct Hin as [Hin | Hin]; [inversion Hin|].
  destruct (bodyCalls_rejected_replace Hshape Hin) as [Hnot [l Hl]].
  assert (Hsame : samePlanRows st
            (store (snd (perform Unlock
                           (prisma.trip.updateMany (unlockWhere tripId userId)
                                                   (set_regenLockUntil None))
                           (snd (run (tryCatch body
                                               (Return (json 500 "Server error")))
                                     (mkWorld st fs []))))))).
  { apply Hinv. rewrite perform_calls, run_tryCatch_Return_world, Hpre.
    intros [H | H]; [inversion H | exact (Hnot H)]. }
  apply samePlanRows_tables in Hsame. destruct Hsame as (Hd & Hp & _ & Ht & _).
  repeat split; try assumption.
  rewrite run_tryCatch. specialize (Hthrown _ _ Hl).
  destruct (run body (mkWorld st fs [])) as [c w1]. simpl in Hthrown. subst c.
  reflexivity.
Qed.

Lemma regenerate_replace_all_or_nothing_witness :
  let result :=
    run (regenerate Sample.StringToNumber Sample.planner
                    (mkClock 1000 1000) Sample.regenerateParis)
        (mkWorld Sample.store0
                 [false; false; false; false; false; false; false; true] []) in
  dayPlans (store (snd result)) = dayPlans Sample.store0 /\
  plannedActivities (store (snd result)) = plannedActivities Sample.store0 /\
  map (set_regenLockUntil None) (trips (store (snd result)))
  = map (set_regenLockUntil None) (trips Sample.store0) /\
  fst result = Returned (json 500 "Server error").
Proof.
  apply (proj2 (regenerate_replace_all_or_nothing
                  Sample.StringToNumber Sample.planner (mkClock 1000 1000)
                  Sample.regenerateParis Sample.store0
                  [false; false; false; false; false; false; false; true])).
  vm_compute. right. left. reflexivity.
Defined.

(* ===================================================================== *)
(** ** Store operations as functions of the store *)
(* ===================================================================== *)

Lemma Computes_ret {X : Type} (x : X) (s : Store) : Computes (ret x : DB X) s x s.
Proof.
  split; [|reflexivity]. intros fs y s1 fs1 H. inversion H. auto.
Qed.

Lemma Computes_db_call {X : Type} (f : Store -> option (X * Store))
      (s s' : Store) (x : X) :
  f s = Some (x, s') -> Computes (db_call f) s x s'.
Proof.
  intros Hf. split.
  - intros fs y s1 fs1 H. apply db_call_resolved in H as [H _].
    rewrite Hf in H. inversion H. auto.
  - unfold db_call. simpl. rewrite Hf. reflexivity.
Qed.

Lemma Computes_bind {X Y : Type} (c : DB X) (k : X -> DB Y)
      (s s1 s2 : Store) (x : X) (y : Y) :
  Computes c s x s1 -> Computes (k x) s1 y s2 -> Computes (bind c k) s y s2.
Proof.
  intros [Hc Hc0] [Hk Hk0]. split.
  - intros fs y' s' fs' H. simpl in H.
    destruct (c s fs) as [[[x'|] sa] fsa] eqn:E; [|discriminate].
    destruct (Hc _ _ _ _ E) as [-> ->]. eapply Hk; eauto.
  - simpl. rewrite Hc0. exact Hk0.
Qed.

Lemma Computes_transaction {X : Type} (body : DB X) (s s' : Store) (x : X) :
  Computes body s x s' -> Computes (transaction body) s x s'.
Proof.
  intros [Hb Hb0]. split.
  - intros fs y s1 fs1 H. unfold transaction in H.
    destruct (body s fs) as [[[x'|] sa] fsa] eqn:E; inversion H; subst.
    eapply Hb; eauto.
  - unfold transaction. rewrite Hb0. reflexivity.
Qed.

Lemma Computes_resolved {X : Type} (op : DB X) (s s' s1 : Store) (x y : X)
      (fs fs1 : Faults) :
  Computes op s x s' -> op s fs = (Some y, s1, fs1) -> y = x /\ s1 = s'.
Proof. intros [H _]. apply H. Qed.

Lemma createDayPlans_Computes (tripId days : Z) (s : Store) :
  let rows := dayPlanRows tripId (nextDayPlanId s) (upto days) in
  Computes (createDayPlans tripId days) s rows (addDayPlans rows s).
Proof.
  unfold createDayPlans. generalize (upto days) as l. intros l. revert s.
  induction l as [|d l IH]; intros s; cbn [collect dayPlanRows].
  - replace (addDayPlans [] s) with s; [apply Computes_ret|].
    unfold addDayPlans. destruct s; simpl. rewrite app_nil_r, Z.add_0_r.
    reflexivity.
  - eapply Computes_bind.
    { apply Computes_db_call. reflexivity. }
    eapply Computes_bind; [apply IH|].
    cbn [nextDayPlanId].
    match goal with |- Computes _ _ _ ?t =>
      replace t with
        (addDayPlans (dayPlanRows tripId (nextDayPlanId s + 1) l)
           (mkStore (activities s) (trips s)
                    (dayPlans s ++ [mkDayPlan (nextDayPlanId s) tripId d])
                    (plannedActivities s) (nextTripId s) (nextDayPlanId s + 1)
                    (nextPlannedActivityId s)))
    end; [apply Computes_ret|].
    unfold addDayPlans. cbn [activities trips dayPlans plannedActivities
                             nextTripId nextDayPlanId nextPlannedActivityId].
    rewrite <- app_assoc. cbn [app List.length]. f_equal. lia.
Qed.

Lemma plannedActivityRows_Computes (dp : DayPlan) (items : list (Z * Activity))
      (s : Store) :
  Computes
    (forEach items (fun '(i, item) =>
       match Some dp with
       | Some dp =>
           prisma.plannedActivity.create (dayPlan_id dp) (activity_id item) (i + 1) ;;
           ret tt
       | None => typeError
       end))
    s tt
    (addPlannedActivities
       (plannedActivityRows (dayPlan_id dp) (nextPlannedActivityId s) items) s).
Proof.
  revert s. induction items as [|[i item] l IH]; intros s;
    cbn [forEach plannedActivityRows].
  - replace (addPlannedActivities [] s) with s; [apply Computes_ret|].
    unfold addPlannedActivities. destruct s; simpl. rewrite app_nil_r, Z.add_0_r.
    reflexivity.
  - eapply Computes_bind.
    { eapply Computes_bind; [apply Computes_db_call; reflexivity|].
      apply Computes_ret. }
    match goal with |- Computes _ _ _ ?t =>
      replace t with
        (addPlannedActivities
           (plannedActivityRows (dayPlan_id dp) (nextPlannedActivityId s + 1) l)
           (mkStore (activities s) (trips s) (dayPlans s)
                    (plannedActivities s
                     ++ [mkPlannedActivity (nextPlannedActivityId s) (dayPlan_id dp)
                                           (activity_id item) (i + 1)])
                    (nextTripId s) (nextDayPlanId s) (nextPlannedActivityId s + 1)))
    end; [apply IH|].
    unfold addPlannedActivities.
    cbn [activities trips dayPlans plannedActivities
         nextTripId nextDayPlanId nextPlannedActivityId].
    rewrite <- app_assoc. cbn [app List.length]. f_equal. lia.
Qed.

Lemma createPlannedActivities_loop (dps : list DayPlan) (plan : Plan)
      (days : list Z) (s : Store) :
  (forall d, In d days -> nth_error dps (Z.to_nat (d - 1)) <> None) ->
  Computes
    (forEach days (fun d =>
       let dp := nth_error dps (Z.to_nat (d - 1)) in
       let dayItems := nth (Z.to_nat (d - 1)) (plan_days plan) [] in
       forEach (indexed dayItems) (fun '(i, item) =>
         match dp with
         | Some dp =>
             prisma.plannedActivity.create (dayPlan_id dp) (activity_id item) (i + 1) ;;
             ret tt
         | None => typeError
         end)))
    s tt
    (addPlannedActivities (planRows dps plan (nextPlannedActivityId s) days) s).
Proof.
  revert s. induction days as [|d l IH]; intros s Hdps; cbn [forEach planRows].
  - replace (addPlannedActivities [] s) with s; [apply Computes_ret|].
    unfold addPlannedActivities. destruct s; simpl. rewrite app_nil_r, Z.add_0_r.
    reflexivity.
  - cbv zeta.
    destruct (nth_error dps (Z.to_nat (d - 1))) as [dp|] eqn:E;
      [|exfalso; apply (Hdps d); [left; reflexivity | exact E]].
    eapply Computes_bind; [apply plannedActivityRows_Computes|].
    set (rows := plannedActivityRows (dayPlan_id dp) (nextPlannedActivityId s)
                   (indexed (nth (Z.to_nat (d - 1)) (plan_days plan) []))).
    match goal with |- Computes _ _ _ ?t =>
      replace t with
        (addPlannedActivities
           (planRows dps plan
              (nextPlannedActivityId (addPlannedActivities rows s)) l)
           (addPlannedActivities rows s))
    end.
    { apply IH. intros d' Hd'. apply Hdps. right. exact Hd'. }
    unfold addPlannedActivities.
    cbn [activities trips dayPlans plannedActivities
         nextTripId nextDayPlanId nextPlannedActivityId].
    rewrite <- app_assoc, length_app, Nat2Z.inj_add. f_equal. lia.
Qed.

Lemma nth_error_dayPlanRows (tripId next : Z) (days : list Z) (k : nat) :
  nth_error (dayPlanRows tripId next days) k =
  option_map (fun d => mkDayPlan (next + Z.of_nat k) tripId d) (nth_error days k).
Proof.
  revert next k. induction days as [|d l IH]; intros next [|k]; simpl;
    try reflexivity.
  - rewrite Z.add_0_r. reflexivity.
  - rewrite IH. destruct (nth_error l k); simpl; [|reflexivity].
    do 2 f_equal. lia.
Qed.

Lemma length_upto (n : Z) : List.length (upto n) = Z.to_nat n.
Proof. unfold upto. rewrite length_map, length_seq. reflexivity. Qed.

Lemma In_upto (n d : Z) : In d (upto n) <-> 1 <= d <= n.
Proof.
  unfold upto. rewrite in_map_iff. split.
  - intros (i & <- & Hi). apply in_seq in Hi. lia.
  - intros H. exists (Z.to_nat d). split; [lia|]. apply in_seq. lia.
Qed.

Lemma nth_error_upto (n d : Z) :
  1 <= d <= n -> nth_error (upto n) (Z.to_nat (d - 1)) = Some d.
Proof.
  intros H. unfold upto.
  rewrite nth_error_map, nth_error_seq.
  destruct (Nat.ltb_spec (Z.to_nat (d - 1)) (Z.to_nat n)); [|lia].
  simpl. f_equal. lia.
Qed.

Lemma createPlannedActivities_Computes (tripId days : Z) (plan : Plan) (s : Store) :
  let rows := dayPlanRows tripId (nextDayPlanId s) (upto days) in
  Computes (createPlannedActivities days rows plan) (addDayPlans rows s) tt
           (planted tripId days plan s).
Proof.
  unfold planted, createPlannedActivities.
  apply createPlannedActivities_loop.
  intros d Hd. apply In_upto in Hd.
  rewrite nth_error_dayPlanRows, (nth_error_upto Hd). discriminate.
Qed.

Lemma trips_cleared (tripId : Z) (s : Store) : trips (cleared tripId s) = trips s.
Proof. unfold cleared. destruct (0 <? _); reflexivity. Qed.

Lemma cleared_Computes (tripId : Z) (s : Store) :
  let dayPlanIds :=
    map dayPlan_id (filter (fun dp => dayPlan_tripId dp =? tripId) (dayPlans s)) in
  Computes
    (if 0 <? Z.of_nat (List.length dayPlanIds)
     then prisma.plannedActivity.deleteMany dayPlanIds ;;
          prisma.dayPlan.deleteMany tripId ;;
          ret tt
     else ret tt)
    s tt (cleared tripId s).
Proof.
  cbv zeta. unfold cleared.
  destruct (0 <? Z.of_nat (List.length (map dayPlan_id _))).
  - eapply Computes_bind; [apply Computes_db_call; reflexivity|].
    eapply Computes_bind; [apply Computes_db_call; reflexivity|].
    apply Computes_ret.
  - apply Computes_ret.
Qed.

Lemma reinterested_Computes (tripId : Z) (base t0 : Trip) (interests : string)
      (s : Store) :
  find (fun t => trip_id t =? tripId) (trips s) = Some t0 ->
  Computes
    (if negb (String.eqb interests (trip_interests base))
     then prisma.trip.update tripId (set_interests interests) ;; ret tt
     else ret tt)
    s tt (reinterested tripId base interests s).
Proof.
  intros Hfind. unfold reinterested.
  destruct (negb (String.eqb interests (trip_interests base))).
  - eapply Computes_bind; [|apply Computes_ret].
    apply Computes_db_call. rewrite Hfind. reflexivity.
  - apply Computes_ret.
Qed.

Lemma replacePlan_Computes (tripId : Z) (base t0 : Trip) (interests : string)
      (plan : Plan) (s : Store) :
  find (fun t => trip_id t =? tripId) (trips s) = Some t0 ->
  Computes (replacePlan tripId base interests plan) s
           (prisma.trip.tripView (replaced tripId base interests plan s) tripId)
           (replaced tripId base interests plan s).
Proof.
  intros Hfind. unfold replacePlan, replaced.
  eapply Computes_bind; [apply Computes_db_call; reflexivity|].
  eapply Computes_bind; [apply cleared_Computes|].
  eapply Computes_bind.
  { apply (@reinterested_Computes tripId base t0).
    rewrite trips_cleared. exact Hfind. }
  eapply Computes_bind; [apply createDayPlans_Computes|].
  eapply Computes_bind; [apply createPlannedActivities_Computes|].
  apply Computes_db_call. reflexivity.
Qed.

Lemma persistNewTrip_Computes (userId : Z) (destination : string) (days : Z)
      (bud : option Js.Number) (interests : string) (plan : Plan) (s : Store) :
  let created :=
    mkStore (activities s)
            (trips s ++ [mkTrip (nextTripId s) userId destination days bud
                                interests None])
            (dayPlans s) (plannedActivities s) (nextTripId s + 1)
            (nextDayPlanId s) (nextPlannedActivityId s) in
  Computes (persistNewTrip userId destination days bud interests plan) s
           (prisma.trip.tripView (planted (nextTripId s) days plan created)
                                 (nextTripId s))
           (planted (nextTripId s) days plan created).
Proof.
  cbv zeta. unfold persistNewTrip.
  eapply Computes_bind; [apply Computes_db_call; reflexivity|].
  cbn [trip_id].
  eapply Computes_bind.
  { match goal with |- Computes _ ?s0 _ _ =>
      apply (createDayPlans_Computes (nextTripId s) days s0) end. }
  eapply Computes_bind; [apply createPlannedActivities_Computes|].
  apply Computes_db_call. reflexivity.
Qed.


(* ===================================================================== *)
(** ** The rows a plan is persisted as *)
(* ===================================================================== *)

Lemma map_persistedPair_rows (dayPlanId next : Z) (items : list (Z * Activity)) :
  map persistedPair (plannedActivityRows dayPlanId next items)
  = map (fun '(i, item) => (activity_id item, i + 1)) items.
Proof.
  revert next. induction items as [|[i item] l IH]; intros next; simpl;
    [reflexivity|]. rewrite IH. reflexivity.
Qed.

Lemma filter_rows_same (dayPlanId next : Z) (items : list (Z * Activity)) :
  filter (fun pa => plannedActivity_dayPlanId pa =? dayPlanId)
         (plannedActivityRows dayPlanId next items)
  = plannedActivityRows dayPlanId next items.
Proof.
  revert next. induction items as [|[i item] l IH]; intros next; simpl;
    [reflexivity|]. rewrite Z.eqb_refl, IH. reflexivity.
Qed.

Lemma filter_rows_other (dayPlanId other next : Z) (items : list (Z * Activity)) :
  other <> dayPlanId ->
  filter (fun pa => plannedActivity_dayPlanId pa =? dayPlanId)
         (plannedActivityRows other next items) = [].
Proof.
  intros Hne. revert next. induction items as [|[i item] l IH]; intros next; simpl;
    [reflexivity|].
  destruct (Z.eqb_spec other dayPlanId); [contradiction|]. apply IH.
Qed.

Lemma planRows_other (dps : list DayPlan) (plan : Plan) (id : Z) (l : list Z)
      (next : Z) :
  (forall d dp, In d l -> nth_error dps (Z.to_nat (d - 1)) = Some dp ->
                dayPlan_id dp <> id) ->
  filter (fun pa => plannedActivity_dayPlanId pa =? id) (planRows dps plan next l)
  = [].
Proof.
  revert next. induction l as [|d l IH]; intros next Hne; cbn [planRows];
    [reflexivity|].
  cbv zeta. rewrite filter_app, IH.
  - rewrite app_nil_r.
    destruct (nth_error dps (Z.to_nat (d - 1))) as [dp|] eqn:E; [|reflexivity].
    apply filter_rows_other. apply (Hne d dp); [left; reflexivity | exact E].
  - intros d' dp Hd'. apply Hne. right. exact Hd'.
Qed.

Lemma planRows_day (dps : list DayPlan) (plan : Plan) (d0 : Z) (dp0 : DayPlan)
      (l : list Z) (next : Z) :
  NoDup l -> In d0 l ->
  nth_error dps (Z.to_nat (d0 - 1)) = Some dp0 ->
  (forall d dp, In d l -> d <> d0 -> nth_error dps (Z.to_nat (d - 1)) = Some dp ->
                dayPlan_id dp <> dayPlan_id dp0) ->
  map persistedPair
      (filter (fun pa => plannedActivity_dayPlanId pa =? dayPlan_id dp0)
              (planRows dps plan next l))
  = persistedDay (nth (Z.to_nat (d0 - 1)) (plan_days plan) []).
Proof.
  revert next. induction l as [|d l IH]; intros next Hnd Hin Hdp0 Hne;
    [contradiction|].
  cbn [planRows]. cbv zeta. rewrite filter_app, map_app.
  inversion Hnd as [|? ? Hnotin Hnd']; subst.
  destruct (Z.eq_dec d d0) as [->|Hd].
  - rewrite Hdp0, filter_rows_same, map_persistedPair_rows.
    rewrite planRows_other; [rewrite app_nil_r; reflexivity|].
    intros d dp Hd Hnth. apply (Hne d dp); auto.
    + right. exact Hd.
    + intros ->. contradiction.
  - destruct Hin as [Hin | Hin]; [contradiction|].
    rewrite IH; auto.
    + destruct (nth_error dps (Z.to_nat (d - 1))) as [dp|] eqn:E; [|reflexivity].
      rewrite filter_rows_other; [reflexivity|].
      apply (Hne d dp); auto. left. reflexivity.
    + intros d' dp Hd' Hne' Hnth. apply (Hne d' dp); auto. right. exact Hd'.
Qed.

Lemma NoDup_upto (n : Z) : NoDup (upto n).
Proof.
  unfold upto. apply Finite.Injective_map_NoDup.
  - intros x y H. lia.
  - apply seq_NoDup.
Qed.

Lemma dayPlanRows_spec (tripId next : Z) (days : list Z) (dp : DayPlan) :
  In dp (dayPlanRows tripId next days) ->
  exists k, nth_error days k = Some (dayPlan_dayNumber dp) /\
            dp = mkDayPlan (next + Z.of_nat k) tripId (dayPlan_dayNumber dp).
Proof.
  intros Hin. apply In_nth_error in Hin as [k Hk].
  rewrite nth_error_dayPlanRows in Hk.
  destruct (nth_error days k) as [d|] eqn:E; [|discriminate].
  simpl in Hk. inversion Hk; subst. simpl. exists k. auto.
Qed.

Lemma map_dayNumber_dayPlanRows (tripId next : Z) (days : list Z) :
  map dayPlan_dayNumber (dayPlanRows tripId next days) = days.
Proof.
  revert next. induction days as [|d l IH]; intros next; simpl; [reflexivity|].
  rewrite IH. reflexivity.
Qed.

Lemma filter_dayPlanRows (tripId next : Z) (days : list Z) :
  filter (fun dp => dayPlan_tripId dp =? tripId) (dayPlanRows tripId next days)
  = dayPlanRows tripId next days.
Proof.
  revert next. induction days as [|d l IH]; intros next; simpl; [reflexivity|].
  rewrite Z.eqb_refl, IH. reflexivity.
Qed.

Lemma nth_error_upto_inv (n : Z) (k : nat) (d : Z) :
  nth_error (upto n) k = Some d -> d = Z.of_nat k + 1 /\ 1 <= d <= n.
Proof.
  intros H. assert (Hin : In d (upto n)) by (eapply nth_error_In; eauto).
  apply In_upto in Hin. split; [|exact Hin].
  unfold upto in H. rewrite nth_error_map in H.
  destruct (nth_error (seq 1 (Z.to_nat n)) k) as [i|] eqn:E; [|discriminate].
  simpl in H. injection H as <-.
  rewrite nth_error_seq in E.
  destruct (Nat.ltb_spec k (Z.to_nat n)); [|discriminate].
  injection E as <-. lia.
Qed.

Lemma filter_all {A : Type} (f : A -> bool) (l : list A) :
  (forall x, In x l -> f x = true) -> filter f l = l.
Proof.
  induction l as [|x l IH]; intros H; simpl; [reflexivity|].
  rewrite (H x (or_introl eq_refl)). f_equal. apply IH.
  intros y Hy. apply H. right. exact Hy.
Qed.

Lemma filter_none {A : Type} (f : A -> bool) (l : list A) :
  (forall x, In x l -> f x = false) -> filter f l = [].
Proof.
  induction l as [|x l IH]; intros H; simpl; [reflexivity|].
  rewrite (H x (or_introl eq_refl)). apply IH. intros y Hy. apply H. right. exact Hy.
Qed.

Lemma nth_error_rows_upto (tripId next days d : Z) (dp : DayPlan) :
  1 <= d <= days ->
  nth_error (dayPlanRows tripId next (upto days)) (Z.to_nat (d - 1)) = Some dp ->
  dp = mkDayPlan (next + (d - 1)) tripId d.
Proof.
  intros Hd H. rewrite nth_error_dayPlanRows, (nth_error_upto Hd) in H.
  simpl in H. injection H as <-. f_equal. lia.
Qed.

(** On a store where the trip has no DayPlan yet and no row points past
    the DayPlan sequence, the two creation loops persist the plan. *)
Lemma persistedAs_planted (tripId days : Z) (plan : Plan) (s : Store) :
  (forall pa, In pa (plannedActivities s) ->
              plannedActivity_dayPlanId pa < nextDayPlanId s) ->
  dayPlansOf tripId s = [] ->
  persistedAs tripId days plan (planted tripId days plan s).
Proof.
  intros Hpa Hnone. unfold persistedAs, planted, dayPlansOf, plannedActivitiesOf.
  cbn [dayPlans plannedActivities addPlannedActivities addDayPlans
       nextPlannedActivityId].
  unfold dayPlansOf in Hnone.
  rewrite filter_app, Hnone, filter_dayPlanRows. cbn [app]. split.
  - apply map_dayNumber_dayPlanRows.
  - intros dp Hdp.
    destruct (dayPlanRows_spec _ _ _ _ Hdp) as (k & Hk & Edp).
    destruct (nth_error_upto_inv _ _ Hk) as [Hd Hrange].
    destruct dp as [dpId dpTrip d]. cbn [dayPlan_dayNumber dayPlan_id] in *.
    injection Edp as -> ->.
    rewrite filter_app, map_app.
    rewrite filter_none.
    2:{ intros pa Hin. apply Z.eqb_neq. specialize (Hpa pa Hin). lia. }
    cbn [app].
    apply (planRows_day (dayPlanRows tripId (nextDayPlanId s) (upto days)) plan
                        (dp0 := mkDayPlan (nextDayPlanId s + Z.of_nat k) tripId d)).
    + apply NoDup_upto.
    + apply In_upto. exact Hrange.
    + rewrite nth_error_dayPlanRows, (nth_error_upto Hrange). simpl.
      f_equal. f_equal. lia.
    + intros d' dp' Hd' Hne Hnth. apply In_upto in Hd'.
      rewrite (nth_error_rows_upto _ _ Hd' Hnth). simpl. lia.
Qed.

Lemma dayPlansOf_cleared (tripId : Z) (s : Store) :
  dayPlansOf tripId (cleared tripId s) = [].
Proof.
  unfold dayPlansOf, cleared.
  destruct (0 <? Z.of_nat (List.length (map dayPlan_id _))) eqn:E.
  - cbn [dayPlans with_dayPlans with_plannedActivities].
    apply filter_none. intros dp Hdp. apply filter_In in Hdp as [_ Hdp].
    apply negb_true_iff in Hdp. exact Hdp.
  - apply Z.ltb_ge in E. rewrite length_map in E.
    destruct (filter _ (dayPlans s)); [reflexivity | simpl in E; lia].
Qed.

Lemma plannedActivities_cleared (tripId : Z) (s : Store) (pa : PlannedActivity) :
  In pa (plannedActivities (cleared tripId s)) -> In pa (plannedActivities s).
Proof.
  unfold cleared. destruct (0 <? _); [|auto].
  cbn [plannedActivities with_dayPlans with_plannedActivities].
  intros H. apply filter_In in H. tauto.
Qed.

Lemma nextDayPlanId_cleared (tripId : Z) (s : Store) :
  nextDayPlanId (cleared tripId s) = nextDayPlanId s.
Proof. unfold cleared. destruct (0 <? _); reflexivity. Qed.

(** A resolved [replacePlan] persists the plan. *)
Lemma persistedAs_replaced (tripId : Z) (base : Trip) (interests : string)
      (plan : Plan) (s : Store) :
  wellFormed s ->
  persistedAs tripId (trip_daysCount base) plan
              (replaced tripId base interests plan s).
Proof.
  intros Hwf. unfold replaced. apply persistedAs_planted.
  - intros pa Hin.
    assert (Hpa : In pa (plannedActivities s)).
    { apply (plannedActivities_cleared tripId).
      unfold reinterested in Hin. destruct (negb _); exact Hin. }
    assert (Hnext : nextDayPlanId (reinterested tripId base interests
                                                (cleared tripId s))
                    = nextDayPlanId s).
    { unfold reinterested. destruct (negb _); cbn [nextDayPlanId with_trips];
        apply nextDayPlanId_cleared. }
    rewrite Hnext.
    destruct (wf_plannedActivity_dayPlan Hwf pa Hpa) as (dp & Hdp & <-).
    apply (wf_dayPlan_id Hwf dp Hdp).
  - pose proof (dayPlansOf_cleared tripId s) as H.
    unfold reinterested. destruct (negb _); exact H.
Qed.

(** A resolved [persistNewTrip] persists the plan of the new trip. *)
Lemma persistedAs_created (userId : Z) (destination : string) (days : Z)
      (bud : option Js.Number) (interests : string) (plan : Plan) (s : Store) :
  wellFormed s ->
  persistedAs (nextTripId s) days plan
    (planted (nextTripId s) days plan
       (mkStore (activities s)
                (trips s ++ [mkTrip (nextTripId s) userId destination days bud
                                    interests None])
                (dayPlans s) (plannedActivities s) (nextTripId s + 1)
                (nextDayPlanId s) (nextPlannedActivityId s))).
Proof.
  intros Hwf. apply persistedAs_planted; cbn [plannedActivities nextDayPlanId].
  - intros pa Hpa.
    destruct (wf_plannedActivity_dayPlan Hwf pa Hpa) as (dp & Hdp & <-).
    apply (wf_dayPlan_id Hwf dp Hdp).
  - unfold dayPlansOf. cbn [dayPlans]. apply filter_none.
    intros dp Hdp. apply Z.eqb_neq.
    pose proof (wf_dayPlan_trip Hwf dp Hdp). lia.
Qed.

(* ===================================================================== *)
(** ** The path of a regeneration that answers 200 *)
(* ===================================================================== *)

Lemma perform_resolved {X : Type} (site : Site) (op : DB X) (w w' : World) (x : X) :
  perform site op w = (Some x, w') ->
  op (store w) (faults w) = (Some x, store w', faults w').
Proof.
  unfold perform. destruct (op (store w) (faults w)) as [[[y|] s'] fs'];
    intros H; inversion H; subst; reflexivity.
Qed.

Lemma perform_Computes {X : Type} (site : Site) (op : DB X) (w w' : World)
      (x y : X) (s' : Store) :
  Computes op (store w) x s' -> perform site op w = (Some y, w') ->
  y = x /\ store w' = s'.
Proof.
  intros Hc Hp. apply perform_resolved in Hp.
  eapply Computes_resolved; eauto.
Qed.

Lemma perform_no_fault {X : Type} (site : Site) (op : DB X) (w : World)
      (x : X) (s' : Store) :
  Computes op (store w) x s' -> faults w = [] ->
  perform site op w = (Some x, mkWorld s' [] ((site, true) :: calls w)).
Proof.
  intros [_ Hc] Hf. unfold perform. rewrite Hf, Hc. reflexivity.
Qed.

Lemma find_map_trip (id : Z) (f : Trip -> Trip) (l : list Trip) :
  (forall t, trip_id (f t) = trip_id t) ->
  find (fun t => trip_id t =? id) (map f l)
  = option_map f (find (fun t => trip_id t =? id) l).
Proof.
  intros Hf. induction l as [|t l IH]; simpl; [reflexivity|].
  rewrite Hf. destruct (trip_id t =? id); [reflexivity | exact IH].
Qed.

Lemma find_locked (tripId userId now lockUntil : Z) (s : Store) (base : Trip) :
  find (fun t => trip_id t =? tripId) (trips s) = Some base ->
  exists t0,
    find (fun t => trip_id t =? tripId) (trips (locked tripId userId now lockUntil s))
    = Some t0.
Proof.
  intros H. unfold locked. cbn [trips with_trips].
  rewrite find_map_trip, H; [eexists; reflexivity|].
  intros t. destruct (acquireWhere tripId userId now t); reflexivity.
Qed.

Lemma findUnique_Computes (id : Z) (s : Store) :
  Computes (prisma.trip.findUnique id) s
           (find (fun t => trip_id t =? id) (trips s)) s.
Proof. apply Computes_db_call. reflexivity. Qed.

Lemma updateMany_Computes (where_ : Trip -> bool) (data : Trip -> Trip) (s : Store) :
  Computes (prisma.trip.updateMany where_ data) s
           (prisma.count where_ (trips s))
           (with_trips (map (fun t => if where_ t then data t else t) (trips s)) s).
Proof. apply Computes_db_call. reflexivity. Qed.

Lemma activity_findMany_Computes (destination : string) (s : Store) :
  Computes (prisma.activity.findMany destination) s (catalog destination s) s.
Proof. apply Computes_db_call. reflexivity. Qed.

Section RegenerateOk.

Variable StringToNumber : string -> Js.Number.
Variable generateItinerary : list Activity -> Z -> string -> option Plan.

(** The [try] block returns 200 only along the path on which every call
    resolved. *)
Lemma regenerateBody_ok (now lockUntil tripId userId : Z)
      (incoming : option string) (w w' : World) (r : Response) :
  run (regenerateBody generateItinerary now lockUntil tripId userId incoming) w
  = (Returned r, w') ->
  status r = 200 ->
  exists base plan,
    let interests := effectiveInterestsOf incoming base in
    let after := replaced tripId base interests plan
                          (locked tripId userId now lockUntil (store w)) in
    find (fun t => trip_id t =? tripId) (trips (store w)) = Some base /\
    trip_userId base = userId /\
    prisma.count (acquireWhere tripId userId now) (trips (store w)) <> 0 /\
    planFor generateItinerary (catalog (trip_destination base) (store w))
            (trip_daysCount base) interests = Some plan /\
    r = mkResponse 200 (TripJson (prisma.trip.tripView after tripId)
                                 (plan_warning plan)) /\
    store w' = after.
Proof.
  unfold regenerateBody, regenerateLocked. cbn [bind Monad_Prog]. intros Hrun Hstatus.
  rewrite run_await_bind in Hrun.
  destruct (perform LoadBase (prisma.trip.findUnique tripId) w) as [[o1|] w1] eqn:P1;
    cbn [fst snd] in Hrun; [|discriminate].
  destruct (perform_Computes _ _ (findUnique_Computes tripId (store w)) P1) as [-> S1].
  destruct (find (fun t => trip_id t =? tripId) (trips (store w))) as [base|] eqn:Hbase;
    [|cbn [run] in Hrun; inversion Hrun; subst; discriminate].
  destruct (Z.eqb_spec (trip_userId base) userId) as [Huser|Huser];
    cbn [negb] in Hrun;
    [|cbn [run] in Hrun; inversion Hrun; subst; discriminate].
  rewrite run_await_bind in Hrun.
  match type of Hrun with context [perform AcquireLock ?op w1] =>
    destruct (perform AcquireLock op w1) as [[lockResult|] w2] eqn:P2 end;
    cbn [fst snd] in Hrun; [|discriminate].
  destruct (perform_Computes _ _ (updateMany_Computes _ _ (store w1)) P2) as [-> S2].
  rewrite S1 in *.
  destruct (Z.eqb_spec (prisma.count (acquireWhere tripId userId now)
                                     (trips (store w))) 0) as [Hcount|Hcount];
    [cbn [run] in Hrun; inversion Hrun; subst; discriminate|].
  rewrite run_bind in Hrun.
  assert (Hvalid :
            run (match incoming with
                 | Some s =>
                     if String.eqb (Js.trim s) ""
                     then Return (json 400 "interests must be a non-empty string")
                     else Pure tt
                 | None => Pure tt
                 end) w2 = (Normal tt, w2)).
  { destruct incoming as [s|]; [|reflexivity].
    destruct (String.eqb (Js.trim s) ""); [|reflexivity].
    cbn [run andThen] in Hrun. inversion Hrun; subst; discriminate. }
  rewrite Hvalid in Hrun. cbn [andThen] in Hrun.
  rewrite run_await_bind in Hrun.
  match type of Hrun with context [perform FetchActivities ?op w2] =>
    destruct (perform FetchActivities op w2) as [[acts|] w3] eqn:P3 end;
    cbn [fst snd] in Hrun; [|discriminate].
  destruct (perform_Computes _ _ (activity_findMany_Computes _ (store w2)) P3)
    as [-> S3].
  rewrite S2 in *.
  rewrite run_bind in Hrun.
  change (catalog (trip_destination base)
                  (with_trips
                     (map (fun t => if acquireWhere tripId userId now t
                                    then set_regenLockUntil (Some lockUntil) t
                                    else t) (trips (store w))) (store w)))
    with (catalog (trip_destination base) (store w)) in Hrun.
  destruct (planFor generateItinerary (catalog (trip_destination base) (store w))
                    (trip_daysCount base) (effectiveInterestsOf incoming base))
    as [plan|] eqn:Hplan; cbn [call run andThen] in Hrun; [|discriminate].
  rewrite run_await_bind in Hrun.
  match type of Hrun with context [perform ReplacePlan ?op w3] =>
    destruct (perform ReplacePlan op w3) as [[saved|] w4] eqn:P4 end;
    cbn [fst snd run] in Hrun; [|discriminate].
  destruct (find_locked tripId userId now lockUntil (store w) Hbase) as [t0 Ht0].
  pose proof (Computes_transaction
                (replacePlan_Computes tripId base
                                      (effectiveInterestsOf incoming base)
                                      plan _ Ht0)) as Hc.
  fold (locked tripId userId now lockUntil (store w)) in S3.
  rewrite <- S3 in Hc.
  destruct (perform_Computes _ _ Hc P4) as [-> S4].
  injection Hrun as <- <-.
  exists base, plan. cbv zeta. rewrite <- S3. auto 10.
Qed.

End RegenerateOk.

Lemma wellFormed_with_trips (ts : list Trip) (s : Store) :
  wellFormed s -> wellFormed (with_trips ts s).
Proof. intros [H1 H2 H3]. constructor; assumption. Qed.

Lemma persistedAs_samePlan (tripId days : Z) (plan : Plan) (s s' : Store) :
  samePlan s s' -> persistedAs tripId days plan s -> persistedAs tripId days plan s'.
Proof.
  intros Hs. apply samePlan_tables in Hs. destruct Hs as (Hd & Hp & _).
  unfold persistedAs, dayPlansOf, plannedActivitiesOf. rewrite Hd, Hp. auto.
Qed.

Section GenerationOk.

Variable StringToNumber : string -> Js.Number.
Variable generateItinerary : list Activity -> Z -> string -> option Plan.

(** [regenerate] answers 200 only along the path on which every call of
    the [try] block resolved; the unlocking write then changes lock fields
    at most. *)
Lemma regenerate_ok (clock : Clock) (req : RegenerateRequest) (st : Store)
      (fs : Faults) (r : Response) (w' : World) :
  let tripId := Js.toZ (StringToNumber (regenerate_id req)) in
  let userId := regenerate_userId req in
  let now := newDate clock in
  let lockUntil := dateNow clock + lockTtlMs in
  run (regenerate StringToNumber generateItinerary clock req) (mkWorld st fs [])
  = (Returned r, w') ->
  status r = 200 ->
  exists base plan,
    let interests := effectiveInterestsOf (regenerate_interests req) base in
    let after := replaced tripId base interests plan
                          (locked tripId userId now lockUntil st) in
    find (fun t => trip_id t =? tripId) (trips st) = Some base /\
    trip_userId base = userId /\
    prisma.count (acquireWhere tripId userId now) (trips st) <> 0 /\
    planFor generateItinerary (catalog (trip_destination base) st)
            (trip_daysCount base) interests = Some plan /\
    r = mkResponse 200 (TripJson (prisma.trip.tripView after tripId)
                                 (plan_warning plan)) /\
    samePlan after (store w').
Proof.
  intros tripId userId now lockUntil Hrun Hstatus.
  destruct (validTripId (StringToNumber (regenerate_id req))) eqn:Hvalid.
  2:{ exfalso. unfold regenerate in Hrun.
      unfold validTripId in Hvalid. apply negb_false_iff in Hvalid.
      rewrite Hvalid in Hrun. cbn [run] in Hrun. inversion Hrun; subst.
      discriminate. }
  rewrite (run_regenerate _ _ _ _ _ Hvalid) in Hrun.
  fold tripId userId now lockUntil in Hrun.
  rewrite run_tryCatch in Hrun.
  destruct (run (regenerateBody generateItinerary now lockUntil tripId userId
                                (regenerate_interests req)) (mkWorld st fs []))
    as [c w1] eqn:Hbody.
  injection Hrun as Hc Hw.
  assert (c = Returned r) as ->.
  { destruct c as [[]| r' |]; cbn [fst run] in Hc; try discriminate.
    - exact Hc.
    - inversion Hc; subst. discriminate. }
  destruct (regenerateBody_ok _ _ _ _ _ _ _ Hbody Hstatus)
    as (base & plan & Hfind & Huser & Hcount & Hplan & Hr & Hstore).
  exists base, plan. cbv zeta in *. cbn [store] in *.
  repeat (split; [assumption|]).
  rewrite <- Hstore, <- Hw. cbn [snd].
  unfold perform.
  pose proof (updateMany_lock_samePlan (unlockWhere tripId userId) None
                                       (store w1) (faults w1)) as H.
  destruct (prisma.trip.updateMany _ _ (store w1) (faults w1))
    as [[[n|] s2] fs2]; exact H.
Qed.

(** [POST /] answers 201 only along the path on which the request was
    valid and every call resolved. *)
Lemma createTrip_ok (req : CreateRequest) (st : Store) (fs : Faults)
      (r : Response) (w' : World) :
  run (createTrip StringToNumber generateItinerary req) (mkWorld st fs [])
  = (Returned r, w') ->
  status r = 201 ->
  exists destination interests userId bud plan,
    let days := Js.toZ (Number StringToNumber (body_daysCount (create_body req))) in
    let created :=
      mkStore (activities st)
              (trips st ++ [mkTrip (nextTripId st) userId destination days bud
                                   interests None])
              (dayPlans st) (plannedActivities st) (nextTripId st + 1)
              (nextDayPlanId st) (nextPlannedActivityId st) in
    let after := planted (nextTripId st) days plan created in
    body_destination (create_body req) = Some destination /\
    body_interests (create_body req) = Some interests /\
    create_userId req = Some userId /\
    Js.isInteger (Number StringToNumber (body_daysCount (create_body req))) = true /\
    1 <= days <= 30 /\
    generateItinerary (catalog destination st) days interests = Some plan /\
    r = mkResponse 201 (TripJson (prisma.trip.tripView after (nextTripId st))
                                 (plan_warning plan)) /\
    store w' = after.
Proof.
  unfold createTrip. intros Hrun Hstatus. rewrite run_tryCatch in Hrun.
  match type of Hrun with context [run ?p (mkWorld st fs [])] =>
    destruct (run p (mkWorld st fs [])) as [c w1] eqn:Hbody end.
  assert (c = Returned r /\ w1 = w') as [-> ->].
  { destruct c as [[]| r' |]; cbn [run] in Hrun; inversion Hrun; subst; auto.
    discriminate. }
  clear Hrun.
  destruct (body_destination (create_body req)) as [[|c0 destination]|] eqn:Hdest;
    try (cbn [run] in Hbody; inversion Hbody; subst; discriminate).
  set (days := Number StringToNumber (body_daysCount (create_body req))) in *.
  destruct (negb (Js.isInteger days) || Js.lt days (Js.ofZ 1)
            || Js.gt days (Js.ofZ 30)) eqn:Hdays;
    [cbn [run] in Hbody; inversion Hbody; subst; discriminate|].
  apply orb_false_iff in Hdays as [Hdays Hgt].
  apply orb_false_iff in Hdays as [Hint Hlt].
  apply negb_false_iff in Hint.
  cbn [bind Monad_Prog] in Hbody. rewrite run_bind in Hbody.
  match type of Hbody with context [run ?m (mkWorld st fs [])] =>
    assert (Hbud : exists bud,
               run m (mkWorld st fs []) = (Normal bud, mkWorld st fs []))
  end.
  { destruct (body_budget (create_body req)) as [[n|[|c1 s1]]|];
      try (eexists; reflexivity).
    - destruct (Js.isNaN (Number StringToNumber (Some (Js.Num n)))
                || Js.lt (Number StringToNumber (Some (Js.Num n))) (Js.ofZ 0)).
      + exfalso. cbn [run andThen] in Hbody. injection Hbody as <- _.
        discriminate.
      + eexists; reflexivity.
    - destruct (Js.isNaN (Number StringToNumber (Some (Js.Str (String c1 s1))))
                || Js.lt (Number StringToNumber (Some (Js.Str (String c1 s1))))
                         (Js.ofZ 0)).
      + exfalso. cbn [run andThen] in Hbody. injection Hbody as <- _.
        discriminate.
      + eexists; reflexivity. }
  destruct Hbud as [bud Hbud]. rewrite Hbud in Hbody. cbn [andThen] in Hbody.
  destruct (body_interests (create_body req)) as [[|c1 interests]|] eqn:Hinterests;
    try (cbn [run] in Hbody; inversion Hbody; subst; discriminate).
  destruct (create_userId req) as [[|userId|userId]|] eqn:Huser;
    try (cbn [run] in Hbody; inversion Hbody; subst; discriminate).
  - rewrite run_await_bind in Hbody.
    match type of Hbody with context [perform CreateFetchActivities ?op ?w] =>
      destruct (perform CreateFetchActivities op w) as [[acts|] w2] eqn:P1 end;
      cbn [fst snd] in Hbody; [|discriminate].
    destruct (perform_Computes _ _ (activity_findMany_Computes _ _) P1) as [-> S1].
    cbn [store] in S1, Hbody. rewrite run_bind in Hbody.
    destruct (generateItinerary (catalog (String c0 destination) st) (Js.toZ days)
                                (String c1 interests)) as [plan|] eqn:Hplan;
      cbn [call run andThen] in Hbody; [|discriminate].
    rewrite run_await_bind in Hbody.
    match type of Hbody with context [perform CreatePersist ?op w2] =>
      destruct (perform CreatePersist op w2) as [[saved|] w3] eqn:P2 end;
      cbn [fst snd run] in Hbody; [|discriminate].
    pose proof (Computes_transaction
                  (persistNewTrip_Computes (Z.pos userId) (String c0 destination)
                     (Js.toZ days) bud (String c1 interests) plan st)) as Hc.
    rewrite <- S1 in Hc at 1.
    destruct (perform_Computes _ _ Hc P2) as [-> S2].
    injection Hbody as <- <-.
    exists (String c0 destination), (String c1 interests), (Z.pos userId), bud, plan.
    cbv zeta. repeat match goal with |- _ /\ _ => split end;
      first [reflexivity | assumption | exact S2
            | apply lt_ofZ_false; assumption
            | apply gt_ofZ_false; assumption].
  - rewrite run_await_bind in Hbody.
    match type of Hbody with context [perform CreateFetchActivities ?op ?w] =>
      destruct (perform CreateFetchActivities op w) as [[acts|] w2] eqn:P1 end;
      cbn [fst snd] in Hbody; [|discriminate].
    destruct (perform_Computes _ _ (activity_findMany_Computes _ _) P1) as [-> S1].
    cbn [store] in S1, Hbody. rewrite run_bind in Hbody.
    destruct (generateItinerary (catalog (String c0 destination) st) (Js.toZ days)
                                (String c1 interests)) as [plan|] eqn:Hplan;
      cbn [call run andThen] in Hbody; [|discriminate].
    rewrite run_await_bind in Hbody.
    match type of Hbody with context [perform CreatePersist ?op w2] =>
      destruct (perform CreatePersist op w2) as [[saved|] w3] eqn:P2 end;
      cbn [fst snd run] in Hbody; [|discriminate].
    pose proof (Computes_transaction
                  (persistNewTrip_Computes (Z.neg userId) (String c0 destination)
                     (Js.toZ days) bud (String c1 interests) plan st)) as Hc.
    rewrite <- S1 in Hc at 1.
    destruct (perform_Computes _ _ Hc P2) as [-> S2].
    injection Hbody as <- <-.
    exists (String c0 destination), (String c1 interests), (Z.neg userId), bud, plan.
    cbv zeta. repeat match goal with |- _ /\ _ => split end;
      first [reflexivity | assumption | exact S2
            | apply lt_ofZ_false; assumption
            | apply gt_ofZ_false; assumption].
Qed.

End GenerationOk.

(* ===================================================================== *)
(** ** What a successful generation persists *)
(* ===================================================================== *)

Lemma map_indexed {A B : Type} (f : Z -> B) (l : list A) :
  map (fun '(i, _) => f i) (indexed l)
  = map (fun i => f (Z.of_nat i)) (seq 0 (List.length l)).
Proof.
  unfold indexed. generalize 0%nat as k.
  induction l as [|x l IH]; intros k; simpl; [reflexivity|].
  rewrite IH. reflexivity.
Qed.

(** The order indices of a persisted day are 1, 2, ..., its length. *)
Lemma persistedDay_indices (dayItems : list Activity) :
  map snd (persistedDay dayItems) = upto (Z.of_nat (List.length dayItems)).
Proof.
  unfold persistedDay, upto. rewrite map_map.
  rewrite (map_ext _ (fun '(i, _) => i + 1)) by (intros [i item]; reflexivity).
  rewrite (map_indexed (fun i => i + 1)), Nat2Z.id, <- seq_shift, map_map.
  apply map_ext. intros i. lia.
Qed.

(** ... and its activities those of the day, in order. *)
Lemma persistedDay_activities (dayItems : list Activity) :
  map fst (persistedDay dayItems) = map activity_id dayItems.
Proof.
  unfold persistedDay, indexed. rewrite map_map.
  generalize 0%nat as k. induction dayItems as [|a l IH]; intros k; simpl;
    [reflexivity|]. rewrite IH. reflexivity.
Qed.

Lemma wellFormed_locked (tripId userId now lockUntil : Z) (s : Store) :
  wellFormed s -> wellFormed (locked tripId userId now lockUntil s).
Proof. apply wellFormed_with_trips. Qed.




(* ===================================================================== *)
(** ** A regeneration that meets no fault *)
(* ===================================================================== *)

Lemma count_nonzero {A : Type} (p : A -> bool) (l : list A) (a : A) :
  In a l -> p a = true -> prisma.count p l <> 0.
Proof.
  intros Hin Hp. unfold prisma.count.
  assert (H : In a (filter p l)) by (apply filter_In; auto).
  destruct (filter p l); [contradiction | simpl; lia].
Qed.

Lemma find_trip_some (id : Z) (l : list Trip) (t : Trip) :
  find (fun t => trip_id t =? id) l = Some t -> In t l /\ trip_id t = id.
Proof.
  intros H. apply find_some in H as [Hin Hid]. apply Z.eqb_eq in Hid. auto.
Qed.

Section RegenerateSucceeds.

Variable StringToNumber : string -> Js.Number.
Variable generateItinerary : list Activity -> Z -> string -> option Plan.

Lemma regenerateBody_succeeds (now lockUntil tripId userId : Z)
      (incoming : option string) (w : World) (base : Trip) (plan : Plan) :
  faults w = [] ->
  find (fun t => trip_id t =? tripId) (trips (store w)) = Some base ->
  trip_userId base = userId ->
  lockFree now base = true ->
  acceptable incoming ->
  planFor generateItinerary (catalog (trip_destination base) (store w))
          (trip_daysCount base) (effectiveInterestsOf incoming base) = Some plan ->
  exists w',
    run (regenerateBody generateItinerary now lockUntil tripId userId incoming) w
    = (Returned
         (mkResponse 200
            (TripJson
               (prisma.trip.tripView
                  (replaced tripId base (effectiveInterestsOf incoming base) plan
                            (locked tripId userId now lockUntil (store w)))
                  tripId)
               (plan_warning plan))), w')
    /\ faults w' = [].
Proof.
  intros Hfs Hfind Huser Hfree Hok Hplan.
  unfold regenerateBody, regenerateLocked. cbn [bind Monad_Prog].
  rewrite run_await_bind,
    (perform_no_fault LoadBase w (findUnique_Computes tripId (store w)) Hfs).
  cbn [fst snd]. rewrite Hfind.
  apply Z.eqb_eq in Huser. rewrite Huser. cbn [negb]. apply Z.eqb_eq in Huser.
  rewrite run_await_bind.
  match goal with |- context [perform AcquireLock ?op ?w1] =>
    rewrite (perform_no_fault AcquireLock w1 (updateMany_Computes _ _ (store w1))
                              eq_refl)
  end.
  cbn [fst snd store].
  destruct (find_trip_some _ _ Hfind) as [Hin Hid].
  assert (Hcount : prisma.count (acquireWhere tripId userId now) (trips (store w))
                   <> 0).
  { apply (count_nonzero _ _ base Hin). unfold acquireWhere.
    rewrite Hid, Huser, !Z.eqb_refl, Hfree. reflexivity. }
  apply Z.eqb_neq in Hcount. rewrite Hcount.
  rewrite run_bind.
  match goal with |- context [run ?m ?w2] =>
    assert (Hvalid : run m w2 = (Normal tt, w2))
  end.
  { destruct incoming as [s|]; [|reflexivity]. simpl in Hok. rewrite Hok.
    reflexivity. }
  rewrite Hvalid. cbn [andThen].
  rewrite run_await_bind.
  match goal with |- context [perform FetchActivities ?op ?w2] =>
    rewrite (perform_no_fault FetchActivities w2
                              (activity_findMany_Computes _ (store w2)) eq_refl)
  end.
  cbn [fst snd store].
  change (catalog (trip_destination base)
            (with_trips
               (map (fun t => if acquireWhere tripId userId now t
                              then set_regenLockUntil (Some lockUntil) t else t)
                    (trips (store w))) (store w)))
    with (catalog (trip_destination base) (store w)).
  rewrite run_bind, Hplan. cbn [call run andThen].
  rewrite run_await_bind.
  destruct (find_locked tripId userId now lockUntil (store w) Hfind) as [t0 Ht0].
  match goal with |- context [perform ReplacePlan ?op ?w3] =>
    rewrite (perform_no_fault ReplacePlan w3
               (Computes_transaction
                  (replacePlan_Computes tripId base
                     (effectiveInterestsOf incoming base) plan _ Ht0)) eq_refl)
  end.
  cbn [fst snd run]. eexists. split; reflexivity.
Qed.

(** With no fault, a valid request of the owner on a trip whose lock is
    free is answered 200. *)
Lemma regenerate_succeeds (clock : Clock) (req : RegenerateRequest) (st : Store)
      (base : Trip) (plan : Plan) :
  let tripId := Js.toZ (StringToNumber (regenerate_id req)) in
  let userId := regenerate_userId req in
  validTripId (StringToNumber (regenerate_id req)) = true ->
  find (fun t => trip_id t =? tripId) (trips st) = Some base ->
  trip_userId base = userId ->
  lockFree (newDate clock) base = true ->
  acceptable (regenerate_interests req) ->
  planFor generateItinerary (catalog (trip_destination base) st)
          (trip_daysCount base)
          (effectiveInterestsOf (regenerate_interests req) base) = Some plan ->
  exists r w',
    run (regenerate StringToNumber generateItinerary clock req) (mkWorld st [] [])
    = (Returned r, w') /\
    status r = 200 /\
    body r = TripJson
               (prisma.trip.tripView
                  (replaced tripId base
                            (effectiveInterestsOf (regenerate_interests req) base)
                            plan
                            (locked tripId userId (newDate clock)
                                    (dateNow clock + lockTtlMs) st))
                  tripId)
               (plan_warning plan).
Proof.
  intros tripId userId Hvalid Hfind Huser Hfree Hok Hplan.
  rewrite (run_regenerate _ _ _ _ _ Hvalid). fold tripId userId.
  rewrite run_tryCatch.
  destruct (regenerateBody_succeeds (newDate clock) (dateNow clock + lockTtlMs)
              tripId (regenerate_interests req) (mkWorld st [] []) eq_refl
              Hfind Huser Hfree Hok Hplan) as (w1 & Hrun & _).
  rewrite Hrun. cbn [fst snd]. eexists. eexists. split; [reflexivity|].
  split; reflexivity.
Qed.

End RegenerateSucceeds.

(* ===================================================================== *)
(** ** Regeneration on an empty catalog *)
(* ===================================================================== *)

Lemma catalog_locked (destination : string) (tripId userId now lockUntil : Z)
      (s : Store) :
  catalog destination (locked tripId userId now lockUntil s) = catalog destination s.
Proof. reflexivity. Qed.

Section EmptyCatalog.

Variable StringToNumber : string -> Js.Number.

(** On an empty catalog the [try] block runs the same whatever the planner
    is: it is not called. *)
Lemma regenerateBody_without_planner
      (g1 g2 : list Activity -> Z -> string -> option Plan)
      (now lockUntil tripId userId : Z) (incoming : option string) (w : World) :
  (forall base, find (fun t => trip_id t =? tripId) (trips (store w)) = Some base ->
                catalog (trip_destination base) (store w) = []) ->
  run (regenerateBody g1 now lockUntil tripId userId incoming) w
  = run (regenerateBody g2 now lockUntil tripId userId incoming) w.
Proof.
  intros Hempty. unfold regenerateBody, regenerateLocked. cbn [bind Monad_Prog].
  rewrite !run_await_bind.
  destruct (perform LoadBase (prisma.trip.findUnique tripId) w) as [[o1|] w1] eqn:P1;
    cbn [fst snd]; [|reflexivity].
  destruct (perform_Computes _ _ (findUnique_Computes tripId (store w)) P1) as [-> S1].
  destruct (find (fun t => trip_id t =? tripId) (trips (store w))) as [base|] eqn:Hbase;
    [|reflexivity].
  specialize (Hempty base eq_refl).
  destruct (negb (trip_userId base =? userId)); [reflexivity|].
  rewrite !run_await_bind.
  match goal with |- context [perform AcquireLock ?op w1] =>
    destruct (perform AcquireLock op w1) as [[lockResult|] w2] eqn:P2 end;
    cbn [fst snd]; [|reflexivity].
  destruct (perform_Computes _ _ (updateMany_Computes _ _ (store w1)) P2) as [_ S2].
  destruct (lockResult =? 0); [reflexivity|].
  rewrite !run_bind.
  match goal with |- context [run ?m w2] =>
    assert (Hvalid : exists c, run m w2 = (c, w2))
  end.
  { destruct incoming as [s|]; [destruct (String.eqb (Js.trim s) "")|];
      eexists; reflexivity. }
  destruct Hvalid as [c ->].
  destruct c as [[]| r |]; cbn [andThen]; try reflexivity.
  rewrite !run_await_bind.
  match goal with |- context [perform FetchActivities ?op w2] =>
    destruct (perform FetchActivities op w2) as [[acts|] w3] eqn:P3 end;
    cbn [fst snd]; [|reflexivity].
  destruct (perform_Computes _ _ (activity_findMany_Computes _ (store w2)) P3)
    as [-> S3].
  rewrite S2, S1.
  change (catalog (trip_destination base)
            (with_trips
               (map (fun t => if acquireWhere tripId userId now t
                              then set_regenLockUntil (Some lockUntil) t else t)
                    (trips (store w))) (store w)))
    with (catalog (trip_destination base) (store w)).
  rewrite Hempty. reflexivity.
Qed.

Lemma regenerate_without_planner
      (g1 g2 : list Activity -> Z -> string -> option Plan)
      (clock : Clock) (req : RegenerateRequest) (w : World) :
  (forall base,
      find (fun t => trip_id t =? Js.toZ (StringToNumber (regenerate_id req)))
           (trips (store w)) = Some base ->
      catalog (trip_destination base) (store w) = []) ->
  run (regenerate StringToNumber g1 clock req) w
  = run (regenerate StringToNumber g2 clock req) w.
Proof.
  intros Hempty.
  destruct (validTripId (StringToNumber (regenerate_id req))) eqn:Hvalid.
  - rewrite !(run_regenerate _ _ _ _ _ Hvalid), !run_tryCatch.
    rewrite (regenerateBody_without_planner g1 g2 _ _ _ _ _ _ Hempty).
    reflexivity.
  - unfold regenerate. unfold validTripId in Hvalid.
    apply negb_false_iff in Hvalid. rewrite Hvalid. reflexivity.
Qed.

End EmptyCatalog.

Lemma In_plannedActivityRows (dayPlanId next : Z) (items : list (Z * Activity))
      (pa : PlannedActivity) :
  In pa (plannedActivityRows dayPlanId next items) ->
  plannedActivity_dayPlanId pa = dayPlanId.
Proof.
  revert next. induction items as [|[i item] l IH]; intros next; simpl;
    [contradiction|]. intros [<- | H]; [reflexivity | eapply IH; eauto].
Qed.

Lemma In_planRows (dps : list DayPlan) (plan : Plan) (next : Z) (days : list Z)
      (pa : PlannedActivity) :
  In pa (planRows dps plan next days) ->
  exists dp, In dp dps /\ plannedActivity_dayPlanId pa = dayPlan_id dp.
Proof.
  revert next. induction days as [|d l IH]; intros next; cbn [planRows];
    [contradiction|].
  cbv zeta. rewrite in_app_iff. intros [H | H]; [|eapply IH; eauto].
  destruct (nth_error dps (Z.to_nat (d - 1))) as [dp|] eqn:E; [|contradiction].
  exists dp. split; [eapply nth_error_In; eauto|].
  eapply In_plannedActivityRows; eauto.
Qed.

Lemma dayPlanRows_fresh (tripId next : Z) (days : list Z) (dp : DayPlan) :
  In dp (dayPlanRows tripId next days) -> next <= dayPlan_id dp.
Proof.
  intros H. destruct (dayPlanRows_spec _ _ _ _ H) as (k & _ & ->). simpl. lia.
Qed.

(** A resolved [replacePlan] leaves none of the rows the trip had. *)
Lemma replaced_clears (tripId : Z) (base : Trip) (interests : string) (plan : Plan)
      (s : Store) (dp : DayPlan) :
  wellFormed s ->
  In dp (dayPlansOf tripId s) ->
  ~ In dp (dayPlans (replaced tripId base interests plan s)) /\
  forall pa, In pa (plannedActivities (replaced tripId base interests plan s)) ->
             plannedActivity_dayPlanId pa <> dayPlan_id dp.
Proof.
  intros Hwf Hdp.
  assert (Hold : dayPlan_id dp < nextDayPlanId s).
  { apply (wf_dayPlan_id Hwf). unfold dayPlansOf in Hdp.
    apply filter_In in Hdp. tauto. }
  assert (Hcleared :
            dayPlans (cleared tripId s)
            = filter (fun dp => negb (dayPlan_tripId dp =? tripId)) (dayPlans s) /\
            plannedActivities (cleared tripId s)
            = filter (fun pa => negb (prisma.plannedActivity.inIds
                                        (map dayPlan_id (dayPlansOf tripId s)) pa))
                     (plannedActivities s)).
  { unfold cleared. fold (dayPlansOf tripId s).
    destruct (0 <? Z.of_nat (List.length (map dayPlan_id (dayPlansOf tripId s))))
      eqn:E; [split; reflexivity|].
    apply Z.ltb_ge in E. rewrite length_map in E.
    destruct (dayPlansOf tripId s); [contradiction | simpl in E; lia]. }
  destruct Hcleared as [Hcd Hcp].
  assert (Hre : forall s0,
             dayPlans (reinterested tripId base interests s0) = dayPlans s0 /\
             plannedActivities (reinterested tripId base interests s0)
             = plannedActivities s0 /\
             nextDayPlanId (reinterested tripId base interests s0)
             = nextDayPlanId s0).
  { intros s0. unfold reinterested. destruct (negb _); auto. }
  destruct (Hre (cleared tripId s)) as (Hrd & Hrp & Hrn).
  unfold replaced, planted.
  cbn [dayPlans plannedActivities addPlannedActivities addDayPlans
       nextPlannedActivityId].
  rewrite Hrd, Hrp, Hrn, Hcd, Hcp, nextDayPlanId_cleared. split.
  - rewrite in_app_iff. intros [H | H].
    + apply filter_In in H as [_ H]. unfold dayPlansOf in Hdp.
      apply filter_In in Hdp as [_ Hdp]. rewrite Hdp in H. discriminate.
    + apply dayPlanRows_fresh in H. lia.
  - intros pa Hpa Heq. apply in_app_iff in Hpa as [H | H].
    + apply filter_In in H as [_ H]. apply negb_true_iff in H.
      unfold prisma.plannedActivity.inIds in H.
      assert (Hex : existsb (Z.eqb (plannedActivity_dayPlanId pa))
                            (map dayPlan_id (dayPlansOf tripId s)) = true).
      { apply existsb_exists. exists (dayPlan_id dp). split.
        - apply in_map, Hdp.
        - apply Z.eqb_eq, Heq. }
      rewrite Hex in H. discriminate.
    + apply In_planRows in H as (dp' & Hdp' & Hid).
      apply dayPlanRows_fresh in Hdp'. lia.
Qed.

Lemma nth_repeat_nil {A : Type} (k n : nat) :
  nth k (repeat (@nil A) n) [] = [].
Proof.
  revert k. induction n as [|n IH]; intros [|k]; simpl; auto.
Qed.

(** C5. Regenerating a trip whose destination has no catalog activity:
    the run is the same whatever the planner is (it is not called); a 200
    carries the fixed warning, the trip is persisted as one DayPlan per
    requested day, each without PlannedActivity rows, and none of the
    DayPlan and PlannedActivity rows the trip had is left; with no fault,
    the owner of a trip whose lock is free does get that 200. *)
Theorem regenerate_empty_catalog
        (StringToNumber : string -> Js.Number)
        (clock : Clock) (req : RegenerateRequest) (st : Store) (base : Trip) :
  let tripId := Js.toZ (StringToNumber (regenerate_id req)) in
  let userId := regenerate_userId req in
  find (fun t => trip_id t =? tripId) (trips st) = Some base ->
  catalog (trip_destination base) st = [] ->
  (forall g1 g2 fs,
      run (regenerate StringToNumber g1 clock req) (mkWorld st fs [])
      = run (regenerate StringToNumber g2 clock req) (mkWorld st fs [])) /\
  (forall g fs r w',
      wellFormed st ->
      run (regenerate StringToNumber g clock req) (mkWorld st fs [])
      = (Returned r, w') ->
      status r = 200 ->
      (exists saved, body r = TripJson saved (Some noActivitiesWarning)) /\
      plan_days (emptyPlan (trip_daysCount base))
      = repeat [] (Z.to_nat (trip_daysCount base)) /\
      map dayPlan_dayNumber (dayPlansOf tripId (store w'))
      = upto (trip_daysCount base) /\
      (forall dp, In dp (dayPlansOf tripId (store w')) ->
                  plannedActivitiesOf dp (store w') = []) /\
      (forall dp, In dp (dayPlansOf tripId st) ->
                  ~ In dp (dayPlans (store w')) /\
                  forall pa, In pa (plannedActivities (store w')) ->
                             plannedActivity_dayPlanId pa <> dayPlan_id dp)) /\
  (forall g,
      validTripId (StringToNumber (regenerate_id req)) = true ->
      trip_userId base = userId ->
      lockFree (newDate clock) base = true ->
      acceptable (regenerate_interests req) ->
      exists r w',
        run (regenerate StringToNumber g clock req) (mkWorld st [] [])
        = (Returned r, w') /\ status r = 200) /\
  noActivitiesWarning = "No activities found for destination" /\
  Js.toLowerCase noActivitiesWarning = "no activities found for destination".
Proof.
  intros tripId userId Hfind Hempty.
  split; [|split; [|split; [|split; reflexivity]]].
  - intros g1 g2 fs. apply regenerate_without_planner. cbn [store].
    fold tripId. intros base' Hbase'. rewrite Hfind in Hbase'.
    injection Hbase' as <-. exact Hempty.
  - intros g fs r w' Hwf Hrun Hstatus.
    destruct (regenerate_ok _ _ _ _ _ _ Hrun Hstatus)
      as (base' & plan & Hfind' & _ & _ & Hplan & Hr & Hsame).
    fold tripId userId in Hfind', Hplan, Hr, Hsame.
    rewrite Hfind in Hfind'. injection Hfind' as <-.
    rewrite Hempty in Hplan. cbn [planFor] in Hplan. injection Hplan as <-.
    cbv zeta in Hr, Hsame.
    set (after := replaced tripId base
                    (effectiveInterestsOf (regenerate_interests req) base)
                    (emptyPlan (trip_daysCount base))
                    (locked tripId userId (newDate clock)
                            (dateNow clock + lockTtlMs) st)) in *.
    assert (Hpersisted :
              persistedAs tripId (trip_daysCount base)
                          (emptyPlan (trip_daysCount base)) (store w')).
    { eapply persistedAs_samePlan; [exact Hsame|].
      apply persistedAs_replaced, wellFormed_locked, Hwf. }
    destruct Hpersisted as [Hdays Hrows].
    split; [rewrite Hr; eexists; reflexivity|].
    split; [reflexivity|]. split; [exact Hdays|]. split.
    + intros dp Hdp. specialize (Hrows dp Hdp).
      cbn [emptyPlan plan_days] in Hrows. rewrite nth_repeat_nil in Hrows.
      apply map_eq_nil in Hrows. exact Hrows.
    + intros dp Hdp.
      apply samePlan_tables in Hsame. destruct Hsame as (Hd & Hp & _).
      rewrite Hd, Hp. subst after.
      apply replaced_clears; [apply wellFormed_locked, Hwf | exact Hdp].
  - intros g Hvalid Huser Hfree Hok.
    destruct (regenerate_succeeds StringToNumber g clock req st
                (plan := emptyPlan (trip_daysCount base))
                Hvalid Hfind Huser Hfree Hok)
      as (r & w' & Hrun & Hstatus & _).
    + fold tripId in Hempty. rewrite Hempty. reflexivity.
    + exists r, w'. auto.
Qed.

Lemma regenerate_empty_catalog_witness :
  exists r w',
    run (regenerate Sample.StringToNumber Sample.planner
                    (mkClock 1000 1000) Sample.regenerateOslo)
        (mkWorld Sample.store1 [] [])
    = (Returned r, w') /\ status r = 200.
Proof.
  apply (proj1 (proj2 (proj2
           (@regenerate_empty_catalog Sample.StringToNumber (mkClock 1000 1000)
              Sample.regenerateOslo Sample.store1 Sample.oslo
              eq_refl eq_refl)))
           Sample.planner).
  - reflexivity.
  - reflexivity.
  - reflexivity.
  - exact I.
Defined.

(** An override of white space alone, be it one no-break space, is
    refused with a 400, after the lock was taken and before the catalog
    is fetched. *)
Example regenerate_blank_override :
  let result :=
    run (regenerate Sample.StringToNumber Sample.planner (mkClock 1000 1000)
                    (mkRegenerateRequest 7 "1" (Some Sample.noBreakSpace)))
        Sample.world0 in
  fst result = Returned (json 400 "interests must be a non-empty string") /\
  calls (snd result) = [(Unlock, true); (AcquireLock, true); (LoadBase, true)] /\
  ~ acceptable (Some Sample.noBreakSpace).
Proof. repeat split. intros H. discriminate H. Qed.

(* ===================================================================== *)
(** ** The acquiring write and the expiry of the lock *)
(* ===================================================================== *)





(** With unique trip ids, the acquiring write matches the trip alone, and
    only when its lock is free. *)
Lemma filter_acquireWhere (tripId userId now : Z) (l : list Trip) (base : Trip) :
  NoDup (map trip_id l) ->
  find (fun t => trip_id t =? tripId) l = Some base ->
  trip_userId base = userId ->
  filter (acquireWhere tripId userId now) l
  = if lockFree now base then [base] else [].
Proof.
  intros Hnd Hfind Huser. induction l as [|t l IH]; [discriminate|].
  simpl in Hfind. inversion Hnd as [|? ? Hnotin Hnd']; subst.
  assert (Hrest : forall l', ~ In tripId (map trip_id l') ->
                             filter (acquireWhere tripId (trip_userId base) now) l'
                             = []).
  { intros l' Hl'. apply filter_none. intros t' Ht'. unfold acquireWhere.
    destruct (Z.eqb_spec (trip_id t') tripId) as [E|E]; [|reflexivity].
    exfalso. apply Hl'. rewrite <- E. apply in_map, Ht'. }
  cbn [filter]. destruct (Z.eqb_spec (trip_id t) tripId) as [E|E].
  - injection Hfind as ->. unfold acquireWhere at 1.
    rewrite E, !Z.eqb_refl. cbn [andb].
    rewrite Hrest by (rewrite <- E; exact Hnotin).
    destruct (lockFree now base); reflexivity.
  - unfold acquireWhere at 1. apply Z.eqb_neq in E. rewrite E. cbn [andb].
    apply IH; assumption.
Qed.

Section LockExpiry.

Variable StringToNumber : string -> Js.Number.
Variable generateItinerary : list Activity -> Z -> string -> option Plan.

(** The first two calls of the [try] block when they meet no fault. *)
Lemma regenerateBody_head (now lockUntil tripId userId : Z)
      (incoming : option string) (w : World) (base : Trip) :
  faults w = [] ->
  find (fun t => trip_id t =? tripId) (trips (store w)) = Some base ->
  trip_userId base = userId ->
  run (regenerateBody generateItinerary now lockUntil tripId userId incoming) w
  = let w2 := mkWorld (locked tripId userId now lockUntil (store w)) []
                      ((AcquireLock, true) :: (LoadBase, true) :: calls w) in
    if prisma.count (acquireWhere tripId userId now) (trips (store w)) =? 0
    then (Returned (json 409 "Regeneration already in progress"), w2)
    else run (regenerateLocked generateItinerary tripId base incoming) w2.
Proof.
  intros Hfs Hfind Huser. unfold regenerateBody. cbn [bind Monad_Prog].
  rewrite run_await_bind,
    (perform_no_fault LoadBase w (findUnique_Computes tripId (store w)) Hfs).
  cbn [fst snd]. rewrite Hfind.
  apply Z.eqb_eq in Huser. rewrite Huser. cbn [negb].
  rewrite run_await_bind.
  match goal with |- context [perform AcquireLock ?op ?w1] =>
    rewrite (perform_no_fault AcquireLock w1 (updateMany_Computes _ _ (store w1))
                              eq_refl)
  end.
  cbn [fst snd store calls].
  destruct (prisma.count (acquireWhere tripId userId now) (trips (store w)) =? 0);
    reflexivity.
Qed.

End LockExpiry.

Lemma NoDup_map_eq {A B : Type} (f : A -> B) (l : list A) (a b : A) :
  NoDup (map f l) -> In a l -> In b l -> f a = f b -> a = b.
Proof.
  induction l as [|x l IH]; intros Hnd Ha Hb Hf; [contradiction|].
  simpl in Hnd. inversion Hnd as [|? ? Hnotin Hnd']; subst.
  destruct Ha as [-> | Ha], Hb as [-> | Hb]; auto.
  - exfalso. apply Hnotin. rewrite Hf. apply in_map, Hb.
  - exfalso. apply Hnotin. rewrite <- Hf. apply in_map, Ha.
Qed.

Section Acquisition.

Variable StringToNumber : string -> Js.Number.
Variable generateItinerary : list Activity -> Z -> string -> option Plan.



End Acquisition.



(* ===================================================================== *)
(** ** The allocation engine: order of the pool *)
(* ===================================================================== *)

Lemma ascii_compare_trans (a b c : ascii) (o : comparison) :
  Ascii.compare a b = o -> Ascii.compare b c = o -> Ascii.compare a c = o.
Proof.
  unfold Ascii.compare. destruct o; intros H1 H2.
  - rewrite N.compare_eq_iff in *. congruence.
  - rewrite N.compare_lt_iff in *. lia.
  - rewrite N.compare_gt_iff in *. lia.
Qed.

Lemma ascii_compare_eq (a b : ascii) : Ascii.compare a b = Eq -> a = b.
Proof. apply Ascii.compare_eq_iff. Qed.

Lemma string_compare_lt_trans (s1 s2 s3 : string) :
  String.compare s1 s2 = Lt -> String.compare s2 s3 = Lt ->
  String.compare s1 s3 = Lt.
Proof.
  revert s2 s3. induction s1 as [|a s1 IH]; intros [|b s2] [|c s3]; simpl;
    try discriminate; auto.
  destruct (Ascii.compare a b) eqn:E1; try discriminate;
    destruct (Ascii.compare b c) eqn:E2; try discriminate; intros H1 H2.
  - rewrite (ascii_compare_trans _ _ _ E1 E2). eapply IH; eauto.
  - apply ascii_compare_eq in E1. subst b. rewrite E2. reflexivity.
  - apply ascii_compare_eq in E2. subst c. rewrite E1. reflexivity.
  - rewrite (ascii_compare_trans _ _ _ E1 E2). reflexivity.
Qed.

Lemma string_leb_trans (s1 s2 s3 : string) :
  String.leb s1 s2 = true -> String.leb s2 s3 = true -> String.leb s1 s3 = true.
Proof.
  unfold String.leb.
  destruct (String.compare s1 s2) eqn:E1; try discriminate;
    destruct (String.compare s2 s3) eqn:E2; try discriminate; intros _ _.
  - apply String.compare_eq_iff in E1. subst. rewrite E2. reflexivity.
  - apply String.compare_eq_iff in E1. subst. rewrite E2. reflexivity.
  - apply String.compare_eq_iff in E2. subst. rewrite E1. reflexivity.
  - rewrite (string_compare_lt_trans _ _ _ E1 E2). reflexivity.
Qed.

Section PoolOrder.

Variable profile : Engine.InterestProfile.

Let before (a b : Activity) : Prop := Engine.precedes profile a b = true.

(** The order of the pool, spelled out: score descending, then price level
    ascending, then name ascending. *)
Lemma precedes_spec (a b : Activity) :
  Engine.precedes profile a b = true <->
  Engine.score profile b < Engine.score profile a \/
  (Engine.score profile a = Engine.score profile b /\
   (activity_priceLevel a < activity_priceLevel b \/
    (activity_priceLevel a = activity_priceLevel b /\
     String.leb (activity_name a) (activity_name b) = true))).
Proof.
  unfold Engine.precedes.
  rewrite !orb_true_iff, !andb_true_iff, !orb_true_iff, !andb_true_iff,
    !Z.ltb_lt, !Z.eqb_eq.
  reflexivity.
Qed.

Lemma precedes_total (a b : Activity) : before a b \/ before b a.
Proof.
  unfold before. rewrite !precedes_spec.
  destruct (Z.lt_trichotomy (Engine.score profile a) (Engine.score profile b))
    as [Hs | [Hs | Hs]]; [right; left; exact Hs | | left; left; exact Hs].
  destruct (Z.lt_trichotomy (activity_priceLevel a) (activity_priceLevel b))
    as [Hp | [Hp | Hp]].
  - left. right. split; [exact Hs | left; exact Hp].
  - destruct (String.leb_total (activity_name a) (activity_name b)) as [Hn | Hn].
    + left. right. split; [exact Hs | right; split; [exact Hp | exact Hn]].
    + right. right. split; [symmetry; exact Hs|].
      right. split; [symmetry; exact Hp | exact Hn].
  - right. right. split; [symmetry; exact Hs | left; exact Hp].
Qed.

Lemma precedes_trans (a b c : Activity) : before a b -> before b c -> before a c.
Proof.
  unfold before. rewrite !precedes_spec.
  intros [H1 | [E1 [H1 | [P1 N1]]]] [H2 | [E2 [H2 | [P2 N2]]]]; try lia.
  right. split; [lia|]. right. split; [lia|].
  eapply string_leb_trans; eauto.
Qed.

Lemma precedes_antisym (a b : Activity) :
  before a b -> before b a -> activity_name a = activity_name b.
Proof.
  unfold before. rewrite !precedes_spec.
  intros [H1 | [E1 [H1 | [P1 N1]]]] [H2 | [E2 [H2 | [P2 N2]]]]; try lia.
  apply String.leb_antisym; assumption.
Qed.

Lemma insertSorted_Permutation (a : Activity) (l : list Activity) :
  Permutation (Engine.insertSorted profile a l) (a :: l).
Proof.
  induction l as [|b l IH]; simpl; [reflexivity|].
  destruct (Engine.precedes profile a b); [reflexivity|].
  rewrite IH. apply perm_swap.
Qed.

Lemma sortPool_Permutation (l : list Activity) :
  Permutation (Engine.sortPool profile l) l.
Proof.
  induction l as [|a l IH]; simpl; [reflexivity|].
  rewrite insertSorted_Permutation. constructor. exact IH.
Qed.

Lemma insertSorted_sorted (a : Activity) (l : list Activity) :
  StronglySorted before l -> StronglySorted before (Engine.insertSorted profile a l).
Proof.
  induction l as [|b l IH]; intros Hs; simpl.
  - repeat constructor.
  - inversion Hs as [|? ? Hl Hb]; subst.
    destruct (Engine.precedes profile a b) eqn:E.
    + constructor; [exact Hs|]. constructor; [exact E|].
      eapply Forall_impl; [|exact Hb]. intros c Hc.
      eapply precedes_trans; eauto.
    + constructor; [apply IH, Hl|].
      assert (Hba : before b a).
      { destruct (precedes_total a b) as [H | H]; [|exact H].
        unfold before in H. congruence. }
      eapply Permutation_Forall.
      * symmetry. apply insertSorted_Permutation.
      * constructor; assumption.
Qed.

Lemma sortPool_sorted (l : list Activity) :
  StronglySorted before (Engine.sortPool profile l).
Proof.
  induction l as [|a l IH]; simpl; [constructor|].
  apply insertSorted_sorted, IH.
Qed.

End PoolOrder.

(** Two sorted arrangements of the same elements are the same list when
    the order is antisymmetric on them. *)
Lemma sorted_unique {A : Type} (R : A -> A -> Prop) (l1 l2 : list A) :
  (forall a b, In a l1 -> In b l1 -> R a b -> R b a -> a = b) ->
  StronglySorted R l1 -> StronglySorted R l2 -> Permutation l1 l2 -> l1 = l2.
Proof.
  revert l2. induction l1 as [|a l1 IH]; intros l2 Hanti H1 H2 Hp.
  - apply Permutation_nil in Hp. auto.
  - destruct l2 as [|b l2]; [apply Permutation_sym, Permutation_nil in Hp; discriminate|].
    inversion H1 as [|? ? Hs1 Hf1]; subst. inversion H2 as [|? ? Hs2 Hf2]; subst.
    assert (Hab : a = b).
    { assert (Ha : In a (b :: l2))
        by (eapply Permutation_in; [exact Hp | left; reflexivity]).
      assert (Hb : In b (a :: l1))
        by (eapply Permutation_in; [symmetry; exact Hp | left; reflexivity]).
      destruct Ha as [-> | Ha]; [reflexivity|].
      destruct Hb as [-> | Hb]; [reflexivity|].
      rewrite Forall_forall in Hf1, Hf2.
      apply Hanti; [left; reflexivity | right; exact Hb | auto | auto]. }
    subst b. f_equal. apply IH; auto.
    + intros x y Hx Hy. apply Hanti; right; assumption.
    + eapply Permutation_cons_inv; eauto.
Qed.

(** The sorted pool does not depend on the order the activities come in,
    as long as no two of them share a name. *)
Lemma sortPool_order_independent (profile : Engine.InterestProfile)
      (l1 l2 : list Activity) :
  NoDup (map activity_name l1) -> Permutation l1 l2 ->
  Engine.sortPool profile l1 = Engine.sortPool profile l2.
Proof.
  intros Hnd Hp.
  apply (sorted_unique (R := fun a b => Engine.precedes profile a b = true)).
  - intros a b Ha Hb Hab Hba.
    apply (NoDup_map_eq activity_name l1); auto.
    + eapply Permutation_in; [apply sortPool_Permutation | exact Ha].
    + eapply Permutation_in; [apply sortPool_Permutation | exact Hb].
    + eapply precedes_antisym; eauto.
  - apply sortPool_sorted.
  - apply sortPool_sorted.
  - rewrite !sortPool_Permutation. exact Hp.
Qed.

Lemma Forall2_In_r {A B : Type} (R : A -> B -> Prop) (l : list A) (l' : list B)
      (y : B) :
  Forall2 R l l' -> In y l' -> exists x, In x l /\ R x y.
Proof.
  induction 1 as [|a b l l' Hab _ IH]; intros Hy; [contradiction|].
  destruct Hy as [<- | Hy].
  - exists a. split; [left; reflexivity | exact Hab].
  - destruct (IH Hy) as (x & Hx & Hr). exists x. split; [right|]; assumption.
Qed.

Section PlanOrder.

Variable dailyCapacity : Z.
Variable profile : Engine.InterestProfile.

(** With unique names the order of the pool is strict. *)
Lemma sortPool_strict (l : list Activity) :
  NoDup (map activity_name l) ->
  StronglySorted (ahead profile) (Engine.sortPool profile l).
Proof.
  intros Hnd.
  assert (Hnames : NoDup (map activity_name (Engine.sortPool profile l))).
  { eapply Permutation_NoDup; [|exact Hnd].
    apply Permutation_map, Permutation_sym, sortPool_Permutation. }
  pose proof (sortPool_sorted profile l) as Hs.
  induction Hs as [|a pool Hs IH Hall]; [constructor|].
  simpl in Hnames. inversion Hnames as [|? ? Hnotin Hrest]; subst.
  constructor; [apply IH, Hrest|].
  rewrite Forall_forall in *. intros x Hx. split; [apply Hall, Hx|].
  destruct (Engine.precedes profile x a) eqn:E; [|reflexivity].
  exfalso. apply Hnotin.
  rewrite (@precedes_antisym profile a x (Hall x Hx) E). apply in_map, Hx.
Qed.

(** What [place] does to the days: it adds the activity at the end of one
    day; and it gives up only when no day has room. *)
Lemma place_grows (a : Activity) (days days' : list (list Activity)) :
  Engine.place dailyCapacity a days = Some days' ->
  Forall2 (fun day day' => day' = day \/ day' = day ++ [a]) days days' /\
  In a (List.concat days').
Proof.
  revert days'. induction days as [|day rest IH]; intros days' H; simpl in H;
    [discriminate|].
  destruct (Engine.total day + activity_durationHours a <=? dailyCapacity).
  - injection H as <-. split.
    + constructor; [right; reflexivity|].
      clear. induction rest; constructor; [left; reflexivity | assumption].
    + simpl. apply in_or_app. left. apply in_or_app. right. left. reflexivity.
  - destruct (Engine.place dailyCapacity a rest) as [rest'|]; [|discriminate].
    injection H as <-. destruct (IH rest' eq_refl) as [Hall Hin]. split.
    + constructor; [left; reflexivity | exact Hall].
    + simpl. apply in_or_app. right. exact Hin.
Qed.

Lemma place_no_room (a : Activity) (days : list (list Activity)) :
  Engine.place dailyCapacity a days = None ->
  forall day, In day days ->
              dailyCapacity < Engine.total day + activity_durationHours a.
Proof.
  induction days as [|d rest IH]; intros H day Hday; [contradiction|].
  simpl in H.
  destruct (Z.leb_spec (Engine.total d + activity_durationHours a) dailyCapacity)
    as [Hle | Hgt]; [discriminate|].
  destruct (Engine.place dailyCapacity a rest) as [rest'|] eqn:E; [discriminate|].
  destruct Hday as [<- | Hday]; [exact Hgt | apply IH; auto].
Qed.

Lemma grows_step (b : Activity) (pool : list Activity)
      (days days' final : list (list Activity)) :
  Forall2 (fun day day' => day' = day \/ day' = day ++ [b]) days days' ->
  Forall2 (fun day day' => exists added, day' = day ++ added /\ incl added pool)
          days' final ->
  Forall2 (fun day day' => exists added,
               day' = day ++ added /\ incl added (b :: pool))
          days final.
Proof.
  intros Hstep. revert final.
  induction Hstep as [|d d' rest rest' Hd Hrest IHrest]; intros final Hfinal.
  { inversion Hfinal. constructor. }
  inversion Hfinal as [|? f ? fs Hf Hfs]; subst.
  destruct Hf as (added & -> & Hincl).
  constructor; [|apply IHrest, Hfs].
  destruct Hd as [-> | ->].
  - exists added. split; [reflexivity | intros x Hx; right; apply Hincl, Hx].
  - exists (b :: added). rewrite <- app_assoc. split; [reflexivity|].
    intros x [<- | Hx]; [left; reflexivity | right; apply Hincl, Hx].
Qed.

(** The walk only adds to the days, at their ends, activities of the
    pool. *)
Lemma walk_grows (pool : list Activity) (days : list (list Activity))
      (used : list Z) :
  Forall2 (fun day day' => exists added, day' = day ++ added /\ incl added pool)
          days (Engine.walk dailyCapacity pool days used).
Proof.
  assert (Hrefl : forall pool0 days0,
             Forall2 (fun day day' : list Activity => exists added,
                          day' = day ++ added /\ incl added pool0)
                     days0 days0).
  { intros pool0 days0. induction days0; constructor; auto.
    exists []. rewrite app_nil_r. split; [reflexivity | intros x []]. }
  revert days used. induction pool as [|b pool IH]; intros days used;
    [apply Hrefl|].
  assert (Hsame : forall days0,
             Forall2 (fun day day' : list Activity =>
                        day' = day \/ day' = day ++ [b]) days0 days0).
  { intros days0. induction days0; constructor; auto. }
  simpl. destruct (Engine.allAtCapacity dailyCapacity days); [apply Hrefl|].
  destruct (existsb (Z.eqb (activity_id b)) used);
    [eapply grows_step; [apply Hsame | apply IH]|].
  destruct (Engine.place dailyCapacity b days) as [days'|] eqn:Hplace;
    [|eapply grows_step; [apply Hsame | apply IH]].
  destruct (place_grows _ _ Hplace) as [Hstep _].
  eapply grows_step; [exact Hstep | apply IH].
Qed.

Lemma walk_keeps_placed (pool : list Activity) (days : list (list Activity))
      (used : list Z) (x : Activity) :
  In x (List.concat days) ->
  In x (List.concat (Engine.walk dailyCapacity pool days used)).
Proof.
  pose proof (walk_grows pool days used) as H.
  induction H as [|d d' rest rest' (added & -> & _) _ IH]; [auto|].
  simpl. rewrite !in_app_iff. intros [Hx | Hx]; auto.
Qed.

(** Each day lists its activities in the order of the pool. *)
Lemma walk_in_order (pool : list Activity) (days : list (list Activity))
      (used : list Z) :
  StronglySorted (ahead profile) pool ->
  (forall day x y, In day days -> In x day -> In y pool -> ahead profile x y) ->
  Forall (StronglySorted (ahead profile)) days ->
  Forall (StronglySorted (ahead profile))
         (Engine.walk dailyCapacity pool days used).
Proof.
  revert days used. induction pool as [|b pool IH]; intros days used Hs Hinv Hdays;
    simpl; [exact Hdays|].
  inversion Hs as [|? ? Hs' Hb]; subst. rewrite Forall_forall in Hb.
  assert (Hinv' : forall day x y, In day days -> In x day -> In y pool ->
                                  ahead profile x y).
  { intros day x y Hday Hx Hy. apply (Hinv day); auto. right. exact Hy. }
  destruct (Engine.allAtCapacity dailyCapacity days); [exact Hdays|].
  destruct (existsb (Z.eqb (activity_id b)) used); [apply IH; auto|].
  destruct (Engine.place dailyCapacity b days) as [days'|] eqn:Hplace;
    [|apply IH; auto].
  destruct (place_grows _ _ Hplace) as [Hstep _].
  apply IH; [exact Hs'| |].
  - intros day' x y Hday' Hx Hy.
    destruct (@Forall2_In_r _ _ _ _ _ _ Hstep Hday') as (day & Hday & [-> | ->]).
    + apply (Hinv' day); auto.
    + apply in_app_or in Hx. destruct Hx as [Hx | [<- | []]].
      * apply (Hinv' day); auto.
      * apply Hb, Hy.
  - rewrite Forall_forall in *. intros day' Hday'.
    destruct (@Forall2_In_r _ _ _ _ _ _ Hstep Hday') as (day & Hday & [-> | ->]).
    + apply Hdays, Hday.
    + specialize (Hdays day Hday).
      assert (Hlast : forall x, In x day -> ahead profile x b).
      { intros x Hx. apply (Hinv day); auto. left. reflexivity. }
      clear - Hdays Hlast. induction Hdays as [|x day Hd IHd Hx]; simpl.
      * repeat constructor.
      * constructor.
        -- apply IHd. intros y Hy. apply Hlast. right. exact Hy.
        -- apply Forall_app. split; [exact Hx|].
           constructor; [apply Hlast; left; reflexivity | constructor].
Qed.

(** An activity of the pool the walk leaves out found no room: each day
    was at capacity, or was too full, with the activities ahead of it
    alone, to take it. *)
Lemma walk_left_out (pool : list Activity) (days : list (list Activity))
      (used : list Z) (a : Activity) :
  StronglySorted (ahead profile) pool ->
  (forall day x y, In day days -> In x day -> In y pool -> ahead profile x y) ->
  In a pool ->
  ~ In (activity_id a) used ->
  ~ In (activity_id a)
       (placedIds (Engine.walk dailyCapacity pool days used)) ->
  forall day, In day (Engine.walk dailyCapacity pool days used) ->
    dailyCapacity <= Engine.total day \/
    dailyCapacity
    < Engine.total (aheadOf profile a day) + activity_durationHours a.
Proof.
  revert days used. induction pool as [|b pool IH];
    intros days used Hs Hinv Ha Hfresh Hout; [contradiction|].
  inversion Hs as [|? ? Hs' Hb]; subst. rewrite Forall_forall in Hb.
  assert (Hinv' : forall day x y, In day days -> In x day -> In y pool ->
                                  ahead profile x y).
  { intros day x y Hday Hx Hy. apply (Hinv day); auto. right. exact Hy. }
  simpl in Hout |- *.
  destruct (Engine.allAtCapacity dailyCapacity days) eqn:Hfull.
  { intros day Hday. left. unfold Engine.allAtCapacity in Hfull.
    rewrite forallb_forall in Hfull. apply Z.leb_le, Hfull, Hday. }
  destruct (existsb (Z.eqb (activity_id b)) used) eqn:Hused.
  { destruct Ha as [<- | Ha]; [|apply IH; auto].
    exfalso. apply Hfresh. apply existsb_exists in Hused.
    destruct Hused as (i & Hi & E). apply Z.eqb_eq in E. rewrite E. exact Hi. }
  destruct (Engine.place dailyCapacity b days) as [days'|] eqn:Hplace.
  - destruct (place_grows _ _ Hplace) as [Hstep Hin].
    assert (Hplaced : In (activity_id b)
                         (placedIds (Engine.walk dailyCapacity pool days'
                                                 (activity_id b :: used)))).
    { unfold placedIds. apply in_map, walk_keeps_placed, Hin. }
    destruct Ha as [<- | Ha]; [contradiction|].
    apply IH; auto.
    + intros day' x y Hday' Hx Hy.
      destruct (@Forall2_In_r _ _ _ _ _ _ Hstep Hday')
        as (day & Hday & [-> | ->]).
      * apply (Hinv' day); auto.
      * apply in_app_or in Hx. destruct Hx as [Hx | [<- | []]].
        -- apply (Hinv' day); auto.
        -- apply Hb, Hy.
    + intros [E | Hu]; [|exact (Hfresh Hu)].
      apply Hout. rewrite <- E. exact Hplaced.
  - destruct Ha as [<- | Ha]; [|apply IH; auto].
    intros fday Hfday. right.
    pose proof (walk_grows pool days used) as Hgrows.
    destruct (@Forall2_In_r _ _ _ _ _ _ Hgrows Hfday)
      as (day & Hday & added & -> & Hincl).
    unfold aheadOf. rewrite filter_app.
    assert (Hall : filter (fun x => Engine.precedes profile x b) day = day).
    { apply filter_all. intros x Hx.
      apply (Hinv day x b Hday Hx). left. reflexivity. }
    assert (Hnone : filter (fun x => Engine.precedes profile x b) added = []).
    { apply filter_none. intros x Hx. apply (Hb x), Hincl, Hx. }
    rewrite Hall, Hnone, app_nil_r.
    apply (place_no_room _ _ Hplace), Hday.
Qed.

End PlanOrder.

(** C7. The engine is deterministic, and what decides between activities
    is the key alone.  It is a function of its three inputs, with no
    clock, no random draw and no state; beyond that, for a pool with
    unique names (as the catalog of one destination has): the plan, days
    and warning, is the same for every arrangement in which the pool is
    handed over; each day lists its activities in the order of the key,
    score descending, ties by price level ascending, then by name
    ascending; the plan holds activities of the pool only; and an
    activity is left out only when no day had room for it: each day is at
    capacity, or too full to take it with the activities the key puts
    ahead of it alone. *)
Theorem allocate_deterministic
        (dailyCapacity : Z) (activities : list Activity)
        (daysCount : Z) (profile : Engine.InterestProfile) (plan : Plan) :
  NoDup (map activity_name activities) ->
  Engine.allocate dailyCapacity activities daysCount profile = Some plan ->
  (forall activities',
      Permutation activities activities' ->
      Engine.allocate dailyCapacity activities' daysCount profile = Some plan) /\
  (forall a b,
      Engine.precedes profile a b = true <->
      Engine.score profile b < Engine.score profile a \/
      (Engine.score profile a = Engine.score profile b /\
       (activity_priceLevel a < activity_priceLevel b \/
        (activity_priceLevel a = activity_priceLevel b /\
         String.leb (activity_name a) (activity_name b) = true)))) /\
  (forall day, In day (plan_days plan) -> StronglySorted (ahead profile) day) /\
  (forall day x, In day (plan_days plan) -> In x day -> In x activities) /\
  (forall a,
      In a activities ->
      ~ In (activity_id a) (placedIds (plan_days plan)) ->
      forall day, In day (plan_days plan) ->
        dailyCapacity <= Engine.total day \/
        dailyCapacity
        < Engine.total (aheadOf profile a day) + activity_durationHours a).
Proof.
  intros Hnd Hplan.
  split.
  { intros activities' Hp. rewrite <- Hplan. unfold Engine.allocate.
    rewrite (sortPool_order_independent profile Hnd Hp). reflexivity. }
  split; [apply precedes_spec|].
  unfold Engine.allocate in Hplan.
  destruct (daysCount <=? 0); [discriminate|].
  injection Hplan as <-. cbn [plan_days].
  set (pool := Engine.sortPool profile activities).
  set (days := repeat (@nil Activity) (Z.to_nat daysCount)).
  assert (Hempty : forall day, In day days -> day = []).
  { intros day Hday. apply repeat_spec in Hday. exact Hday. }
  assert (Hinv : forall day x y, In day days -> In x day -> In y pool ->
                                 ahead profile x y).
  { intros day x y Hday Hx. rewrite (Hempty day Hday) in Hx. contradiction. }
  pose proof (@sortPool_strict profile activities Hnd) as Hstrict. fold pool in Hstrict.
  split; [|split].
  - apply Forall_forall.
    apply (@walk_in_order dailyCapacity profile pool days [] Hstrict Hinv).
    apply Forall_forall. intros day Hday. rewrite (Hempty day Hday). constructor.
  - intros fday x Hfday Hx.
    destruct (@Forall2_In_r _ _ _ _ _ _ (walk_grows dailyCapacity pool days [])
                            Hfday)
      as (day & Hday & added & -> & Hincl).
    rewrite (Hempty day Hday) in Hx. cbn [app] in Hx.
    eapply Permutation_in; [apply sortPool_Permutation|].
    apply Hincl, Hx.
  - intros a Ha Hout.
    apply (@walk_left_out dailyCapacity profile pool days [] a Hstrict Hinv).
    + eapply Permutation_in; [apply Permutation_sym, sortPool_Permutation|].
      exact Ha.
    + intros [].
    + exact Hout.
Qed.

(** One day of four hours and an interest in nature: the walk takes the
    Montmartre walk first, then, of the two that tie on score and price
    level, the Eiffel tower by its name; whatever the order in which the
    three are handed over. *)
Lemma allocate_deterministic_witness :
  Engine.allocate 4 [Sample.montmartre; Sample.louvre; Sample.eiffel] 1 ["nature"]
  = Some (mkPlan [[Sample.montmartre; Sample.eiffel]] None).
Proof.
  apply (proj1 (@allocate_deterministic 4
                  [Sample.louvre; Sample.eiffel; Sample.montmartre] 1 ["nature"]
                  (mkPlan [[Sample.montmartre; Sample.eiffel]] None)
                  ltac:(simpl; repeat constructor; simpl; intuition discriminate)
                  eq_refl)).
  apply Permutation_sym.
  apply (Permutation_cons_app [Sample.louvre; Sample.eiffel] []).
  apply Permutation_refl.
Defined.

(* ===================================================================== *)
(** ** The allocation engine: capacity *)
(* ===================================================================== *)

Section Capacity.

Variable dailyCapacity : Z.

Let fits (day : list Activity) : Prop := Engine.total day <= dailyCapacity.

Let sound (day : list Activity) : Prop :=
  Forall (fun x => 0 < activity_durationHours x <= dailyCapacity) day.

Lemma total_app (day : list Activity) (a : Activity) :
  Engine.total (day ++ [a]) = Engine.total day + activity_durationHours a.
Proof.
  unfold Engine.total. induction day as [|x day IH]; simpl; [lia|].
  rewrite IH. lia.
Qed.

Lemma total_sound (day : list Activity) : sound day -> 0 <= Engine.total day.
Proof.
  unfold sound, Engine.total. induction 1 as [|x day Hx _ IH]; simpl; lia.
Qed.

Lemma place_keeps (a : Activity) (days days' : list (list Activity)) :
  Engine.place dailyCapacity a days = Some days' ->
  List.length days' = List.length days /\
  (Forall fits days -> Forall fits days') /\
  (0 < activity_durationHours a -> Forall sound days -> Forall sound days').
Proof.
  revert days'. induction days as [|day rest IH]; intros days' H; simpl in H;
    [discriminate|].
  destruct (Z.leb_spec (Engine.total day + activity_durationHours a) dailyCapacity)
    as [Hle | Hgt].
  - injection H as <-. split; [reflexivity|]. split.
    + intros Hf. inversion Hf; subst. constructor; [|assumption].
      unfold fits. rewrite total_app. exact Hle.
    + intros Hpos Hs. inversion Hs as [|? ? Hday Hrest]; subst.
      constructor; [|assumption].
      unfold sound. apply Forall_app. split; [exact Hday|].
      constructor; [|constructor]. pose proof (total_sound Hday). lia.
  - destruct (Engine.place dailyCapacity a rest) as [rest'|]; [|discriminate].
    injection H as <-. destruct (IH rest' eq_refl) as (Hlen & Hfits & Hsound).
    split; [simpl; congruence|]. split.
    + intros Hf. inversion Hf; subst. constructor; auto.
    + intros Hpos Hs. inversion Hs; subst. constructor; auto.
Qed.

Lemma walk_keeps (pool : list Activity) (days : list (list Activity))
      (used : list Z) :
  List.length (Engine.walk dailyCapacity pool days used) = List.length days /\
  (Forall fits days -> Forall fits (Engine.walk dailyCapacity pool days used)) /\
  ((forall a, In a pool -> 0 < activity_durationHours a) ->
   Forall sound days -> Forall sound (Engine.walk dailyCapacity pool days used)).
Proof.
  revert days used. induction pool as [|a pool IH]; intros days used; simpl;
    [auto|].
  destruct (Engine.allAtCapacity dailyCapacity days); [auto|].
  destruct (existsb (Z.eqb (activity_id a)) used).
  - destruct (IH days used) as (Hlen & Hfits & Hsound).
    repeat split; auto.
  - destruct (Engine.place dailyCapacity a days) as [days'|] eqn:Hplace.
    + destruct (place_keeps _ _ Hplace) as (Hlen & Hfits & Hsound).
      destruct (IH days' (activity_id a :: used)) as (Hlen' & Hfits' & Hsound').
      split; [congruence|]. split; [auto|].
      intros Hpos Hs. apply Hsound'; auto.
    + destruct (IH days used) as (Hlen & Hfits & Hsound).
      repeat split; auto.
Qed.

End Capacity.

(** C8. With a capacity that is not negative and a positive day count, the
    engine returns a plan (no pool makes it fail) of as many days as asked;
    the durations of each day sum to no more than the capacity; and, the
    durations of the pool being positive, an activity that is longer than
    the capacity alone is in no day. *)
Theorem allocate_respects_capacity
        (dailyCapacity : Z) (activities : list Activity) (daysCount : Z)
        (profile : Engine.InterestProfile) :
  0 <= dailyCapacity ->
  0 < daysCount ->
  exists plan,
    Engine.allocate dailyCapacity activities daysCount profile = Some plan /\
    List.length (plan_days plan) = Z.to_nat daysCount /\
    (forall day, In day (plan_days plan) -> Engine.total day <= dailyCapacity) /\
    ((forall a, In a activities -> 0 < activity_durationHours a) ->
     forall a, dailyCapacity < activity_durationHours a ->
               forall day, In day (plan_days plan) -> ~ In a day).
Proof.
  intros Hcap Hdays. unfold Engine.allocate.
  destruct (Z.leb_spec daysCount 0) as [H | _]; [lia|].
  eexists. split; [reflexivity|]. cbn [plan_days].
  destruct (walk_keeps dailyCapacity (Engine.sortPool profile activities)
                       (repeat [] (Z.to_nat daysCount)) [])
    as (Hlen & Hfits & Hsound).
  split; [rewrite Hlen; apply repeat_length|]. split.
  - apply Forall_forall, Hfits. apply Forall_forall. intros day Hday.
    apply repeat_spec in Hday. subst day. exact Hcap.
  - intros Hpos a Hlong day Hday Ha.
    assert (Hs : Forall (Forall (fun x => 0 < activity_durationHours x
                                          <= dailyCapacity))
                        (Engine.walk dailyCapacity
                                     (Engine.sortPool profile activities)
                                     (repeat [] (Z.to_nat daysCount)) [])).
    { apply Hsound.
      - intros x Hx. apply Hpos.
        eapply Permutation_in; [apply sortPool_Permutation | exact Hx].
      - apply Forall_forall. intros d Hd. apply repeat_spec in Hd. subst d.
        constructor. }
    rewrite Forall_forall in Hs. specialize (Hs day Hday).
    rewrite Forall_forall in Hs. specialize (Hs a Ha). lia.
Qed.

Lemma allocate_respects_capacity_witness :
  exists plan,
    Engine.allocate 8 [Sample.louvre; Sample.eiffel; Sample.montmartre] 2 ["nature"]
    = Some plan /\
    List.length (plan_days plan) = 2%nat /\
    (forall day, In day (plan_days plan) -> Engine.total day <= 8) /\
    ((forall a, In a [Sample.louvre; Sample.eiffel; Sample.montmartre] ->
                0 < activity_durationHours a) ->
     forall a, 8 < activity_durationHours a ->
               forall day, In day (plan_days plan) -> ~ In a day).
Proof.
  apply (@allocate_respects_capacity 8
           [Sample.louvre; Sample.eiffel; Sample.montmartre] 2 ["nature"]);
    lia.
Defined.

(* ===================================================================== *)
(** ** Requests served concurrently *)
(* ===================================================================== *)

Lemma calls_run_length {A : Type} (p : Prog A) (w : World) :
  (List.length (calls w) <= List.length (calls (snd (run p w))))%nat.
Proof.
  revert w. induction p as [a | | r | site X op k IH]; intros w; simpl; auto.
  pose proof (perform_calls site op w) as Hc.
  destruct (perform site op w) as [o w1]. simpl in Hc.
  specialize (IH o w1). rewrite Hc in IH. simpl in IH. lia.
Qed.

(** A request stepped as many times as it makes store calls, nothing else
    touching the store in between, is the request run alone. *)
Lemma resumes_run (p : Prog unit) (w : World) :
  let result := run p w in
  resumes (List.length (calls (snd result)) - List.length (calls w))
          (mkTask p (faults w) (calls w)) (store w)
  = (mkTask (ended (fst result)) (faults (snd result)) (calls (snd result)),
     store (snd result)).
Proof.
  revert w. induction p as [a | | r | site X op k IH]; intros w; cbv zeta;
    try (simpl; rewrite Nat.sub_diag; destruct w; reflexivity).
  simpl.
  pose proof (perform_calls site op w) as Hc.
  pose proof (fun o w1 => calls_run_length (k o) w1) as Hlen.
  assert (Hw : mkWorld (store w) (faults w) (calls w) = w) by (destruct w; reflexivity).
  destruct (perform site op w) as [o w1] eqn:P. simpl in Hc.
  specialize (IH o w1). specialize (Hlen o w1). cbv zeta in IH.
  rewrite Hc in Hlen. simpl in Hlen.
  replace (List.length (calls (snd (run (k o) w1))) - List.length (calls w))%nat
    with (S (List.length (calls (snd (run (k o) w1))) - List.length (calls w1)))
    by (rewrite Hc; simpl; lia).
  cbn [resumes]. unfold resume at 1. cbn [task_prog task_faults task_calls].
  rewrite Hw, P. cbn [fst snd].
  exact IH.
Qed.

Lemma replace_nth_same {A : Type} (n : nat) (x y : A) (l : list A) :
  replace_nth n y (replace_nth n x l) = replace_nth n y l.
Proof.
  revert n. induction l as [|z l IH]; intros [|n]; simpl; auto.
  rewrite IH. reflexivity.
Qed.

Lemma nth_error_replace_nth {A : Type} (n : nat) (x a : A) (l : list A) :
  nth_error l n = Some a -> nth_error (replace_nth n x l) n = Some x.
Proof.
  revert n. induction l as [|z l IH]; intros [|n]; simpl; try discriminate; auto.
Qed.

Lemma nth_error_replace_nth_other {A : Type} (n m : nat) (x : A) (l : list A) :
  n <> m -> nth_error (replace_nth n x l) m = nth_error l m.
Proof.
  revert n m. induction l as [|z l IH]; intros [|n] [|m] H; simpl; auto.
  contradiction.
Qed.

Lemma schedule_cons (i : nat) (order : list nat) (sys : System) :
  schedule (i :: order) sys = schedule order (step i sys).
Proof. reflexivity. Qed.

Lemma schedule_app (order order' : list nat) (sys : System) :
  schedule (order ++ order') sys = schedule order' (schedule order sys).
Proof. unfold schedule. apply fold_left_app. Qed.

Lemma step_at (i : nat) (sys : System) (t : Task) :
  nth_error (tasks sys) i = Some t ->
  step i sys
  = mkSystem (snd (resume t (shared sys)))
             (replace_nth i (fst (resume t (shared sys))) (tasks sys)).
Proof.
  intros Ht. unfold step. rewrite Ht.
  destruct (resume t (shared sys)); reflexivity.
Qed.

(** Scheduling one request [n] times in a row steps it [n] times and
    leaves the others as they are. *)
Lemma schedule_repeat (i n : nat) (sys : System) (t : Task) :
  nth_error (tasks sys) i = Some t ->
  schedule (repeat i n) sys
  = mkSystem (snd (resumes n t (shared sys)))
             (replace_nth i (fst (resumes n t (shared sys))) (tasks sys)).
Proof.
  revert sys t. induction n as [|n IH]; intros sys t Ht.
  - simpl. destruct sys as [s ts]. simpl in *. f_equal.
    clear - Ht. revert i Ht. induction ts as [|z ts IH]; intros [|i] H; simpl in *;
      try discriminate.
    + injection H as ->. reflexivity.
    + f_equal. apply IH, H.
  - cbn [repeat]. rewrite schedule_cons, (step_at _ _ Ht).
    destruct (resume t (shared sys)) as [t' s'] eqn:R. cbn [fst snd].
    rewrite (IH _ t').
    + cbn [shared tasks resumes]. rewrite R, replace_nth_same. reflexivity.
    + cbn [tasks]. eapply nth_error_replace_nth; eauto.
Qed.

(* ===================================================================== *)
(** ** The [finally] of a rejected request *)
(* ===================================================================== *)

Lemma count_acquireWhere (tripId userId now : Z) (l : list Trip) (base : Trip) :
  NoDup (map trip_id l) ->
  find (fun t => trip_id t =? tripId) l = Some base ->
  trip_userId base = userId ->
  prisma.count (acquireWhere tripId userId now) l
  = if lockFree now base then 1 else 0.
Proof.
  intros Hnd Hfind Huser. unfold prisma.count.
  rewrite (filter_acquireWhere tripId now l Hnd Hfind Huser).
  destruct (lockFree now base); reflexivity.
Qed.

(** A refused acquiring write changes nothing. *)
Lemma locked_held (tripId userId now lockUntil : Z) (s : Store) (base : Trip) :
  NoDup (map trip_id (trips s)) ->
  find (fun t => trip_id t =? tripId) (trips s) = Some base ->
  trip_userId base = userId ->
  lockFree now base = false ->
  locked tripId userId now lockUntil s = s.
Proof.
  intros Hnd Hfind Huser Hheld. unfold locked.
  assert (Hmap : map (fun t => if acquireWhere tripId userId now t
                               then set_regenLockUntil (Some lockUntil) t else t)
                     (trips s) = trips s).
  { rewrite <- (map_id (trips s)) at 2. apply map_ext_in. intros t Ht.
    destruct (acquireWhere tripId userId now t) eqn:E; [|reflexivity].
    exfalso.
    assert (H : In t (filter (acquireWhere tripId userId now) (trips s)))
      by (apply filter_In; auto).
    rewrite (filter_acquireWhere tripId now (trips s) Hnd Hfind Huser), Hheld in H.
    exact H. }
  rewrite Hmap. destruct s; reflexivity.
Qed.

Lemma find_unlocked (tripId userId : Z) (s : Store) (base : Trip) :
  find (fun t => trip_id t =? tripId) (trips s) = Some base ->
  trip_userId base = userId ->
  find (fun t => trip_id t =? tripId) (trips (unlocked tripId userId s))
  = Some (set_regenLockUntil None base).
Proof.
  intros Hfind Huser. unfold unlocked. cbn [trips with_trips].
  destruct (find_trip_some _ _ Hfind) as [_ Hid].
  rewrite find_map_trip, Hfind.
  - cbn [option_map]. unfold unlockWhere. rewrite Hid, Huser, !Z.eqb_refl.
    reflexivity.
  - intros t. destruct (unlockWhere tripId userId t); reflexivity.
Qed.

Section Rejected.

Variable StringToNumber : string -> Js.Number.
Variable generateItinerary : list Activity -> Z -> string -> option Plan.

(** A request that finds the lock held, run with no fault: it is answered
    409, and its [finally] has nulled the lock it did not hold. *)
Lemma regenerate_rejected (clock : Clock) (req : RegenerateRequest) (st : Store)
      (base : Trip) :
  let tripId := Js.toZ (StringToNumber (regenerate_id req)) in
  let userId := regenerate_userId req in
  validTripId (StringToNumber (regenerate_id req)) = true ->
  NoDup (map trip_id (trips st)) ->
  find (fun t => trip_id t =? tripId) (trips st) = Some base ->
  trip_userId base = userId ->
  lockFree (newDate clock) base = false ->
  run (regenerate StringToNumber generateItinerary clock req) (mkWorld st [] [])
  = (Returned (json 409 "Regeneration already in progress"),
     mkWorld (unlocked tripId userId st) []
             [(Unlock, true); (AcquireLock, true); (LoadBase, true)]).
Proof.
  intros tripId userId Hvalid Hnd Hfind Huser Hheld.
  rewrite (run_regenerate _ _ _ _ _ Hvalid). fold tripId userId.
  rewrite run_tryCatch.
  rewrite (regenerateBody_head generateItinerary (newDate clock)
             (dateNow clock + lockTtlMs) tripId (regenerate_interests req)
             (mkWorld st [] []) eq_refl Hfind Huser).
  cbv zeta. cbn [store calls].
  rewrite (count_acquireWhere tripId (newDate clock) (trips st) Hnd Hfind Huser),
    Hheld.
  cbn [Z.eqb fst snd].
  rewrite (@locked_held tripId userId (newDate clock) (dateNow clock + lockTtlMs)
             st base Hnd Hfind Huser Hheld).
  match goal with |- context [perform Unlock ?op ?w1] =>
    rewrite (perform_no_fault Unlock w1 (updateMany_Computes _ _ (store w1))
                              eq_refl)
  end.
  reflexivity.
Qed.

End Rejected.

(** C9. The unlocking write of [regenerate] runs whenever a request on an
    existing trip of the caller ends, the 409 of a refused acquisition
    included, and its [where] does not look at the lock: a request that
    found the lock held by a regeneration still in flight is answered 409
    and leaves the lock field of the trip null, with that regeneration
    still in flight. *)
Theorem rejected_request_clears_lock
        (StringToNumber : string -> Js.Number)
        (generateItinerary : list Activity -> Z -> string -> option Plan)
        (clock : Clock) (req : RegenerateRequest) (st : Store) (base : Trip)
        (holder : Task) :
  let tripId := Js.toZ (StringToNumber (regenerate_id req)) in
  let userId := regenerate_userId req in
  let rejected := regenerate StringToNumber generateItinerary clock req in
  validTripId (StringToNumber (regenerate_id req)) = true ->
  NoDup (map trip_id (trips st)) ->
  find (fun t => trip_id t =? tripId) (trips st) = Some base ->
  trip_userId base = userId ->
  lockFree (newDate clock) base = false ->
  inFlight holder = true ->
  (forall fs,
      exists r resolved pre,
        run rejected (mkWorld st fs [])
        = (Returned r, snd (run rejected (mkWorld st fs []))) /\
        calls (snd (run rejected (mkWorld st fs []))) = (Unlock, resolved) :: pre /\
        (resolved = true ->
         forall t, In t (tripRows tripId userId
                                  (store (snd (run rejected (mkWorld st fs []))))) ->
                   trip_regenLockUntil t = None)) /\
  (forall v t,
      unlockWhere tripId userId (set_regenLockUntil v t)
      = unlockWhere tripId userId t) /\
  run rejected (mkWorld st [] [])
  = (Returned (json 409 "Regeneration already in progress"),
     mkWorld (unlocked tripId userId st) []
             [(Unlock, true); (AcquireLock, true); (LoadBase, true)]) /\
  (let sys := schedule [1; 1; 1]%nat
                       (mkSystem st [holder; spawn rejected []]) in
   nth_error (tasks sys) 0 = Some holder /\
   inFlightCount sys = 1%nat /\
   option_map responseOf (nth_error (tasks sys) 1)
   = Some (Some (json 409 "Regeneration already in progress")) /\
   find (fun t => trip_id t =? tripId) (trips (shared sys))
   = Some (set_regenLockUntil None base)).
Proof.
  intros tripId userId rejected Hvalid Hnd Hfind Huser Hheld Hholder.
  pose proof (@regenerate_rejected StringToNumber generateItinerary clock req st
                base Hvalid Hnd Hfind Huser Hheld) as Hrun.
  fold tripId userId rejected in Hrun.
  split; [|split; [|split]].
  - intros fs.
    assert (Hrows : tripRows tripId userId st <> []).
    { destruct (find_trip_some _ _ Hfind) as [Hin Hid]. unfold tripRows.
      intros Hnil.
      assert (H : In base (filter (unlockWhere tripId userId) (trips st))).
      { apply filter_In. split; [exact Hin|]. apply unlockWhere_key.
        unfold tripKey. rewrite Hid, Huser. reflexivity. }
      rewrite Hnil in H. exact H. }
    destruct (@regenerate_finally StringToNumber generateItinerary clock req st fs
                Hvalid Hrows)
      as (r & pre & _ & Hr & _ & _ & Hcalls & _ & Hnull & _).
    fold tripId userId rejected in Hr, Hcalls, Hnull.
    eexists r, _, pre. split; [|split; [exact Hcalls|]].
    + rewrite <- Hr. destruct (run rejected (mkWorld st fs [])); reflexivity.
    + intros Hres. apply negb_true_iff in Hres. apply (Hnull Hres).
  - intros v t. reflexivity.
  - exact Hrun.
  - cbv zeta.
    change [1; 1; 1]%nat with (repeat 1%nat 3).
    rewrite (schedule_repeat 1 3 (mkSystem st [holder; spawn rejected []])
                             (t := spawn rejected []) eq_refl).
    cbn [shared tasks].
    pose proof (resumes_run rejected (mkWorld st [] [])) as Hres.
    cbv zeta in Hres. rewrite Hrun in Hres. cbn [fst snd calls store faults] in Hres.
    change (List.length [(Unlock, true); (AcquireLock, true); (LoadBase, true)]
            - List.length (@nil (Site * bool)))%nat with 3%nat in Hres.
    unfold spawn. rewrite Hres. cbn [fst snd replace_nth nth_error ended].
    split; [reflexivity|]. split.
    + unfold inFlightCount. cbn [tasks filter]. rewrite Hholder. reflexivity.
    + split; [reflexivity|]. apply find_unlocked; assumption.
Qed.

Lemma rejected_request_clears_lock_witness :
  let rejected := regenerate Sample.StringToNumber Sample.planner
                             (mkClock 1001 1001) Sample.regenerateParis in
  let sys := schedule [1; 1; 1]%nat
                      (mkSystem (shared Sample.firstHolds)
                                [Sample.holder; spawn rejected []]) in
  nth_error (tasks sys) 0 = Some Sample.holder /\
  inFlightCount sys = 1%nat /\
  option_map responseOf (nth_error (tasks sys) 1)
  = Some (Some (json 409 "Regeneration already in progress")) /\
  find (fun t => trip_id t =? 1) (trips (shared sys))
  = Some (set_regenLockUntil None (set_regenLockUntil (Some 121000) Sample.paris)).
Proof.
  assert (Hnd : NoDup (map trip_id (trips (shared Sample.firstHolds)))).
  { simpl. repeat constructor; simpl; intuition discriminate. }
  apply (proj2 (proj2 (proj2
           (@rejected_request_clears_lock Sample.StringToNumber
              Sample.planner (mkClock 1001 1001) Sample.regenerateParis
              (shared Sample.firstHolds)
              (set_regenLockUntil (Some 121000) Sample.paris)
              Sample.holder eq_refl Hnd eq_refl eq_refl eq_refl eq_refl)))).
Defined.

(* ===================================================================== *)
(** ** Two regenerations of one trip in flight *)
(* ===================================================================== *)

(** C1 (the code departs from it).  Three requests for the same trip, no
    fault, well within the TTL: the first acquires the lock; the second is
    refused and answered 409, and its [finally] nulls the lock; the third
    then acquires the lock too, and two regenerations of the trip are in
    flight at once.  Both replace the plan and are answered 200. *)
Theorem two_regenerations_in_flight :
  let sys := schedule Sample.rejectedThenThird Sample.threeRequests in
  map waitingOn (tasks sys)
  = [Some FetchActivities; None; Some FetchActivities] /\
  map responseOf (tasks sys)
  = [None; Some (json 409 "Regeneration already in progress"); None] /\
  inFlightCount sys = 2%nat /\
  map (fun t => option_map status (responseOf t))
      (tasks (schedule Sample.bothToTheEnd Sample.threeRequests))
  = [Some 200; Some 409; Some 200].
Proof. vm_compute. repeat split. Qed.

(* ===================================================================== *)
(** ** Handlers that are one [try] block: the laws of [serve] *)
(* ===================================================================== *)

Lemma bind_db_call {X Y : Type} (f : Store -> option (X * Store))
      (k : X -> DB Y) (s : Store) (fs : Faults) :
  bind (db_call f) k s fs
  = match next_fault fs with
    | (true, fs') => (None, s, fs')
    | (false, fs') =>
        match f s with
        | Some (x, s') => k x s' fs'
        | None => (None, s, fs')
        end
    end.
Proof.
  simpl. unfold db_call. destruct (next_fault fs) as [[|] fs']; [reflexivity|].
  destruct (f s) as [[x s']|]; reflexivity.
Qed.

Lemma validTripId_positive (n : Js.Number) :
  validTripId n = true -> 0 < Js.toZ n.
Proof.
  unfold validTripId. intros H. apply negb_true_iff, orb_false_iff in H.
  destruct H as [Hint Hle]. apply negb_false_iff in Hint.
  pose proof (isInteger_represents n Hint) as Hr.
  destruct n as [ | neg | q]; simpl in *; try discriminate.
  unfold Js.le, Js.ofZ, Js.lt in Hle.
  apply negb_false_iff, negb_true_iff in Hle.
  destruct (Qle_bool q (inject_Z 0)) eqn:E; [discriminate|].
  assert (H : ~ (q <= inject_Z 0)%Q).
  { intros H. apply Qle_bool_iff in H. congruence. }
  rewrite Hr in H. rewrite <- Zle_Qle in H. lia.
Qed.

(* ===================================================================== *)
(** ** Reading a trip *)
(* ===================================================================== *)

Section ReadTrip.

Variable StringToNumber : string -> Js.Number.

(** The paths of [GET /:id], by the response they end with. *)
Lemma getTrip_paths (userId : Z) (id : string) (s : Store) (fs : Faults) :
  let tripId := Js.toZ (StringToNumber id) in
  let result := serve serverError (getTrip StringToNumber userId id) s fs in
  snd (fst result) = s /\
  (fst (fst result) = serverError /\ fs <> []
   \/ fst (fst result) = json 404 "Trip not found" /\
      (validTripId (StringToNumber id) = false \/
       find (fun t => trip_id t =? tripId) (trips s) = None)
   \/ fst (fst result) = json 403 "Forbidden" /\
      (exists t, find (fun t => trip_id t =? tripId) (trips s) = Some t /\
                 trip_userId t <> userId)
   \/ validTripId (StringToNumber id) = true /\
      exists t, find (fun t => trip_id t =? tripId) (trips s) = Some t /\
                trip_userId t = userId /\
                fst (fst result)
                = mkResponse 200 (TripJson (prisma.trip.tripView s tripId) None)).
Proof.
  intros tripId result. subst result. unfold serve, getTrip.
  fold tripId. unfold validTripId.
  destruct (negb (Js.isInteger (StringToNumber id))
            || Js.le (StringToNumber id) (Js.ofZ 0)) eqn:Hvalid.
  { simpl. split; [reflexivity|]. right. left. auto. }
  unfold prisma.trip.findUnique. rewrite bind_db_call.
  destruct fs as [|[|] fs1]; cbn [next_fault].
  - destruct (find (fun t => trip_id t =? tripId) (trips s)) as [t|] eqn:Hfind.
    + destruct (trip_userId t =? userId) eqn:Howner; cbn [negb].
      * unfold prisma.trip.findUniqueWithPlan. rewrite bind_db_call.
        cbn [next_fault]. unfold prisma.trip.tripView at 1. rewrite Hfind.
        cbn [option_map]. simpl. split; [reflexivity|].
        right. right. right. split; [reflexivity|]. exists t.
        apply Z.eqb_eq in Howner. repeat split; auto.
        unfold prisma.trip.tripView. rewrite Hfind. reflexivity.
      * simpl. split; [reflexivity|]. right. right. left.
        split; [reflexivity|]. exists t. apply Z.eqb_neq in Howner. auto.
    + simpl. split; [reflexivity|]. right. left. auto.
  - simpl. split; [reflexivity|]. left. split; [reflexivity | discriminate].
  - destruct (find (fun t => trip_id t =? tripId) (trips s)) as [t|] eqn:Hfind.
    + destruct (trip_userId t =? userId) eqn:Howner; cbn [negb].
      * unfold prisma.trip.findUniqueWithPlan. rewrite bind_db_call.
        destruct fs1 as [|[|] fs2]; cbn [next_fault].
        -- unfold prisma.trip.tripView at 1. rewrite Hfind.
           cbn [option_map]. simpl. split; [reflexivity|].
           right. right. right. split; [reflexivity|]. exists t.
           apply Z.eqb_eq in Howner. repeat split; auto.
           unfold prisma.trip.tripView. rewrite Hfind. reflexivity.
        -- simpl. split; [reflexivity|]. left.
           split; [reflexivity | discriminate].
        -- unfold prisma.trip.tripView at 1. rewrite Hfind.
           cbn [option_map]. simpl. split; [reflexivity|].
           right. right. right. split; [reflexivity|]. exists t.
           apply Z.eqb_eq in Howner. repeat split; auto.
           unfold prisma.trip.tripView. rewrite Hfind. reflexivity.
      * simpl. split; [reflexivity|]. right. right. left.
        split; [reflexivity|]. exists t. apply Z.eqb_neq in Howner. auto.
    + simpl. split; [reflexivity|]. right. left. auto.
Qed.

End ReadTrip.

(** X1. [GET /:id] answers 200 only to the owner of the trip: whatever
    store call fails, a 200 means that the id of the request is a positive
    integer, that the trip with this id exists and belongs to the caller,
    and that the body is this trip with its plan as the store has it. *)
Theorem getTrip_shows_owner_only
        (StringToNumber : string -> Js.Number)
        (userId : Z) (id : string) (s : Store) (fs : Faults) :
  let tripId := Js.toZ (StringToNumber id) in
  let r := fst (fst (serve serverError (getTrip StringToNumber userId id) s fs)) in
  status r = 200 ->
  represents (StringToNumber id) tripId /\ 0 < tripId /\
  exists t days,
    In t (trips s) /\ trip_id t = tripId /\ trip_userId t = userId /\
    body r = TripJson (Some (mkTripView t days)) None /\
    prisma.trip.tripView s tripId = Some (mkTripView t days).
Proof.
  intros tripId r Hstatus. subst r.
  pose proof (getTrip_paths StringToNumber userId id s fs) as H.
  cbv zeta in H. fold tripId in H.
  destruct H
    as [_ [[Hr _] | [[Hr _] | [[Hr _] | [Hvalid (t & Hfind & Howner & Hr)]]]]];
    rewrite Hr in Hstatus; try discriminate.
  split.
  { apply isInteger_represents. unfold validTripId in Hvalid.
    apply negb_true_iff, orb_false_iff in Hvalid.
    apply negb_false_iff, Hvalid. }
  split; [apply validTripId_positive, Hvalid|].
  destruct (find_trip_some _ _ Hfind) as [Hin Hid].
  rewrite Hr. unfold prisma.trip.tripView. rewrite Hfind. cbn [option_map body].
  eexists t, _. repeat split; auto.
Qed.

Lemma getTrip_shows_owner_only_witness :
  exists t days,
    In t (trips Sample.store0) /\ trip_id t = 1 /\ trip_userId t = 7 /\
    body (fst (fst (serve serverError
                          (getTrip Sample.StringToNumber 7 "1")
                          Sample.store0 [])))
    = TripJson (Some (mkTripView t days)) None /\
    prisma.trip.tripView Sample.store0 1 = Some (mkTripView t days).
Proof.
  apply (getTrip_shows_owner_only Sample.StringToNumber 7 "1" Sample.store0 []).
  reflexivity.
Defined.

(** X2. [GET /:id] when no store call fails: an id that is not a positive
    integer, or that no trip has, gets 404; the trip of another user gets
    403; and the owner gets 200.  The store is the same after the request
    as before. *)
Theorem getTrip_refuses
        (StringToNumber : string -> Js.Number)
        (userId : Z) (id : string) (s : Store) :
  let tripId := Js.toZ (StringToNumber id) in
  let found := find (fun t => trip_id t =? tripId) (trips s) in
  let result := serve serverError (getTrip StringToNumber userId id) s [] in
  snd (fst result) = s /\
  (validTripId (StringToNumber id) = false \/ found = None ->
   fst (fst result) = json 404 "Trip not found") /\
  (forall t, validTripId (StringToNumber id) = true -> found = Some t ->
             trip_userId t <> userId ->
             fst (fst result) = json 403 "Forbidden") /\
  (forall t, validTripId (StringToNumber id) = true -> found = Some t ->
             trip_userId t = userId ->
             status (fst (fst result)) = 200).
Proof.
  intros tripId found result. subst found result.
  pose proof (getTrip_paths StringToNumber userId id s []) as H.
  cbv zeta in H. fold tripId in H. destruct H as [Hs Hr].
  split; [exact Hs|].
  destruct Hr as [[_ Hfs] | [[Hr Hc] | [[Hr Hc] | [Hvalid (t0 & Hfind & Howner & Hr)]]]].
  - contradiction.
  - repeat split.
    + intros _. exact Hr.
    + intros t Hv Hf. destruct Hc as [Hc | Hc]; congruence.
    + intros t Hv Hf. destruct Hc as [Hc | Hc]; congruence.
  - destruct Hc as (t0 & Hfind & Howner). repeat split.
    + intros [Hc | Hc]; [|congruence].
      unfold getTrip, serve, validTripId in *.
      apply negb_false_iff in Hc. rewrite Hc. reflexivity.
    + intros t _ _ _. exact Hr.
    + intros t _ Hf Ho. congruence.
  - repeat split.
    + intros [Hc | Hc]; congruence.
    + intros t _ Hf Ho. congruence.
    + intros t _ _ _. rewrite Hr. reflexivity.
Qed.

Lemma getTrip_refuses_witness :
  fst (fst (serve serverError (getTrip Sample.StringToNumber 8 "1")
                  Sample.store0 []))
  = json 403 "Forbidden".
Proof.
  apply (proj1 (proj2 (proj2 (getTrip_refuses Sample.StringToNumber 8 "1"
                                              Sample.store0)))
               Sample.paris).
  - reflexivity.
  - reflexivity.
  - intros H. discriminate H.
Defined.

(* ===================================================================== *)
(** ** Deleting a trip *)
(* ===================================================================== *)

Section DeleteTrip.

Variable StringToNumber : string -> Js.Number.
Variable cascade : bool.

(** The paths of [DELETE /:id]: the only one that writes is the one that
    answers 200. *)
Lemma deleteTrip_paths (userId : Z) (id : string) (s : Store) (fs : Faults) :
  let tripId := Js.toZ (StringToNumber id) in
  let result := serve serverError
                      (deleteTrip StringToNumber cascade userId id) s fs in
  (status (fst (fst result)) <> 200 /\ snd (fst result) = s)
  \/ (fst (fst result) = json 200 "Trip deleted" /\
      validTripId (StringToNumber id) = true /\
      (cascade = true \/ dayPlansOf tripId s = []) /\
      snd (fst result) = prisma.trip.without tripId s /\
      exists t, find (fun t => trip_id t =? tripId) (trips s) = Some t /\
                trip_userId t = userId).
Proof.
  intros tripId result. subst result. unfold serve, deleteTrip.
  fold tripId. unfold validTripId.
  destruct (negb (Js.isInteger (StringToNumber id))
            || Js.le (StringToNumber id) (Js.ofZ 0)) eqn:Hvalid.
  { simpl. left. split; [discriminate | reflexivity]. }
  unfold prisma.trip.findUnique. rewrite bind_db_call.
  destruct (next_fault fs) as [[|] fs1].
  { simpl. left. split; [discriminate | reflexivity]. }
  destruct (find (fun t => trip_id t =? tripId) (trips s)) as [t|] eqn:Hfind.
  2:{ simpl. left. split; [discriminate | reflexivity]. }
  destruct (trip_userId t =? userId) eqn:Howner; cbn [negb].
  2:{ simpl. left. split; [discriminate | reflexivity]. }
  unfold prisma.trip.delete. rewrite bind_db_call.
  destruct (next_fault fs1) as [[|] fs2].
  { simpl. left. split; [discriminate | reflexivity]. }
  rewrite Hfind. apply Z.eqb_eq in Howner.
  destruct (filter (fun dp => dayPlan_tripId dp =? tripId) (dayPlans s))
    as [|dp dps] eqn:Hdps.
  - simpl. right. repeat split; auto. exists t. auto.
  - destruct cascade eqn:Hcascade.
    + simpl. right. repeat split; auto. exists t. auto.
    + simpl. left. split; [discriminate | reflexivity].
Qed.

End DeleteTrip.

(** X3. [DELETE /:id] changes nothing unless it answers 200: on 403, 404
    and 500, whatever store call failed, the store is the one the request
    found. *)
Theorem deleteTrip_refused_unchanged
        (StringToNumber : string -> Js.Number) (cascade : bool)
        (userId : Z) (id : string) (s : Store) (fs : Faults) :
  let result := serve serverError
                      (deleteTrip StringToNumber cascade userId id) s fs in
  status (fst (fst result)) <> 200 -> snd (fst result) = s.
Proof.
  intros result Hstatus. subst result.
  destruct (deleteTrip_paths StringToNumber cascade userId id s fs)
    as [[_ Hs] | [Hr _]]; [exact Hs|].
  rewrite Hr in Hstatus. exfalso. apply Hstatus. reflexivity.
Qed.

Lemma deleteTrip_refused_unchanged_witness :
  snd (fst (serve serverError (deleteTrip Sample.StringToNumber true 8 "1")
                  Sample.store0 []))
  = Sample.store0.
Proof.
  apply (deleteTrip_refused_unchanged Sample.StringToNumber true 8 "1"
                                      Sample.store0 []).
  vm_compute. discriminate.
Defined.

(** X4. [DELETE /:id] answers 200 only to the owner of the trip, and then
    the trip is gone with its plan: no trip has the id any more, no
    DayPlan belongs to it, no PlannedActivity belongs to one of the
    DayPlans it had; the rows of the other trips, the other DayPlans and
    their PlannedActivity rows are kept in their order, and the catalog
    and the id sequences are untouched. *)
Theorem deleteTrip_removes_trip_and_plan
        (StringToNumber : string -> Js.Number) (cascade : bool)
        (userId : Z) (id : string) (s : Store) (fs : Faults) :
  let tripId := Js.toZ (StringToNumber id) in
  let result := serve serverError
                      (deleteTrip StringToNumber cascade userId id) s fs in
  let s' := snd (fst result) in
  status (fst (fst result)) = 200 ->
  (exists t, In t (trips s) /\ trip_id t = tripId /\ trip_userId t = userId) /\
  (forall t, In t (trips s') -> trip_id t <> tripId) /\
  (forall dp, In dp (dayPlans s') -> dayPlan_tripId dp <> tripId) /\
  (forall pa dp, In pa (plannedActivities s') -> In dp (dayPlans s) ->
                 dayPlan_tripId dp = tripId ->
                 plannedActivity_dayPlanId pa <> dayPlan_id dp) /\
  trips s' = filter (fun t => negb (trip_id t =? tripId)) (trips s) /\
  dayPlans s' = filter (fun dp => negb (dayPlan_tripId dp =? tripId)) (dayPlans s) /\
  plannedActivities s'
  = filter (fun pa => negb (prisma.plannedActivity.inIds
                              (map dayPlan_id (dayPlansOf tripId s)) pa))
           (plannedActivities s) /\
  activities s' = activities s /\
  nextTripId s' = nextTripId s /\
  nextDayPlanId s' = nextDayPlanId s /\
  nextPlannedActivityId s' = nextPlannedActivityId s.
Proof.
  intros tripId result s' Hstatus. subst s' result.
  pose proof (deleteTrip_paths StringToNumber cascade userId id s fs) as H.
  cbv zeta in H. fold tripId in H.
  destruct H as [[Hno _] | (_ & _ & _ & Hs & t & Hfind & Howner)];
    [contradiction|].
  rewrite Hs. unfold prisma.trip.without.
  cbn [trips dayPlans plannedActivities activities nextTripId nextDayPlanId
       nextPlannedActivityId].
  destruct (find_trip_some _ _ Hfind) as [Hin Hid].
  split; [exists t; auto|].
  split.
  { intros t' Ht'. apply filter_In in Ht'. destruct Ht' as [_ Ht'].
    apply negb_true_iff, Z.eqb_neq in Ht'. exact Ht'. }
  split.
  { intros dp Hdp. apply filter_In in Hdp. destruct Hdp as [_ Hdp].
    apply negb_true_iff, Z.eqb_neq in Hdp. exact Hdp. }
  split.
  { intros pa dp Hpa Hdp Htrip Heq. apply filter_In in Hpa.
    destruct Hpa as [_ Hpa]. apply negb_true_iff in Hpa.
    assert (Hex : existsb (Z.eqb (plannedActivity_dayPlanId pa))
                    (map dayPlan_id
                         (filter (fun dp => dayPlan_tripId dp =? tripId)
                                 (dayPlans s))) = true).
    { apply existsb_exists. exists (dayPlan_id dp). split.
      - apply in_map, filter_In. split; [exact Hdp|]. apply Z.eqb_eq, Htrip.
      - apply Z.eqb_eq, Heq. }
    congruence. }
  repeat split; reflexivity.
Qed.

Lemma deleteTrip_removes_trip_and_plan_witness :
  let s' := snd (fst (serve serverError
                            (deleteTrip Sample.StringToNumber true 7 "2")
                            Sample.store1 [])) in
  trips s' = [Sample.paris] /\
  dayPlans s' = [mkDayPlan 1 1 1; mkDayPlan 2 1 2] /\
  plannedActivities s' = [mkPlannedActivity 1 1 1 1; mkPlannedActivity 2 2 2 1].
Proof.
  pose proof (deleteTrip_removes_trip_and_plan
                Sample.StringToNumber true 7 "2" Sample.store1 [] eq_refl)
    as (_ & _ & _ & _ & Ht & Hd & Hp & _).
  cbv zeta. rewrite Ht, Hd, Hp. repeat split.
Defined.

Lemma deleteTrip_missing (StringToNumber : string -> Js.Number) (cascade : bool)
      (userId : Z) (id : string) (s : Store) :
  find (fun t => trip_id t =? Js.toZ (StringToNumber id)) (trips s) = None ->
  serve serverError (deleteTrip StringToNumber cascade userId id) s []
  = (json 404 "Trip not found", s, []).
Proof.
  intros Hfind. unfold serve, deleteTrip.
  destruct (negb (Js.isInteger (StringToNumber id))
            || Js.le (StringToNumber id) (Js.ofZ 0)); [reflexivity|].
  unfold prisma.trip.findUnique. rewrite bind_db_call. cbn [next_fault].
  rewrite Hfind. reflexivity.
Qed.

Lemma find_without (tripId : Z) (s : Store) :
  find (fun t => trip_id t =? tripId) (trips (prisma.trip.without tripId s)) = None.
Proof.
  unfold prisma.trip.without. cbn [trips].
  induction (trips s) as [|t l IH]; simpl; [reflexivity|].
  destruct (trip_id t =? tripId) eqn:E; simpl; [exact IH|].
  rewrite E. exact IH.
Qed.

(** X5. A deleted trip is gone for every later request: once [DELETE /:id]
    answered 200, [GET /:id] on the same id never answers 200, whoever
    asks and whatever call fails, and both [GET /:id] and a second
    [DELETE /:id] answer 404 when no call fails. *)
Theorem deleted_trip_not_found
        (StringToNumber : string -> Js.Number) (cascade : bool)
        (userId : Z) (id : string) (s : Store) (fs : Faults) :
  let result := serve serverError
                      (deleteTrip StringToNumber cascade userId id) s fs in
  let s' := snd (fst result) in
  status (fst (fst result)) = 200 ->
  forall (reader : Z) (fs' : Faults),
    status (fst (fst (serve serverError (getTrip StringToNumber reader id) s' fs')))
    <> 200 /\
    fst (fst (serve serverError (getTrip StringToNumber reader id) s' []))
    = json 404 "Trip not found" /\
    serve serverError (deleteTrip StringToNumber cascade reader id) s' []
    = (json 404 "Trip not found", s', []).
Proof.
  intros result s' Hstatus reader fs'. subst s' result.
  destruct (deleteTrip_paths StringToNumber cascade userId id s fs)
    as [[Hno _] | (_ & _ & _ & Hs & _)]; [contradiction|].
  rewrite Hs.
  pose proof (find_without (Js.toZ (StringToNumber id)) s) as Hgone.
  split; [|split].
  - intros H200.
    destruct (getTrip_paths StringToNumber reader id
                (prisma.trip.without (Js.toZ (StringToNumber id)) s) fs')
      as [_ [[Hr _] | [[Hr _] | [[Hr _] | [_ (t & Hfind & _)]]]]];
      try (rewrite Hr in H200; discriminate).
    congruence.
  - destruct (getTrip_paths StringToNumber reader id
                (prisma.trip.without (Js.toZ (StringToNumber id)) s) [])
      as [_ [[_ Hfs] | [[Hr _] | [[_ (t & Hfind & _)] | [_ (t & Hfind & _)]]]]];
      try congruence.
  - apply deleteTrip_missing, Hgone.
Qed.

Lemma deleted_trip_not_found_witness :
  fst (fst (serve serverError (getTrip Sample.StringToNumber 7 "2")
                  (snd (fst (serve serverError
                                   (deleteTrip Sample.StringToNumber true 7 "2")
                                   Sample.store1 [])))
                  []))
  = json 404 "Trip not found".
Proof.
  exact (proj1 (proj2 (deleted_trip_not_found Sample.StringToNumber true 7 "2"
                                              Sample.store1 [] eq_refl 7 []))).
Defined.

(* ===================================================================== *)
(** ** [orderBy] and the view of a trip *)
(* ===================================================================== *)

Lemma insert_by_Permutation {A : Type} (key : A -> Z) (x : A) (l : list A) :
  Permutation (prisma.insert_by key x l) (x :: l).
Proof.
  induction l as [|y l IH]; simpl; [apply Permutation_refl|].
  destruct (key x <=? key y); [apply Permutation_refl|].
  eapply Permutation_trans; [apply perm_skip, IH | apply perm_swap].
Qed.

Lemma orderBy_Permutation {A : Type} (key : A -> Z) (l : list A) :
  Permutation (prisma.orderBy key l) l.
Proof.
  induction l as [|x l IH]; simpl; [apply Permutation_refl|].
  eapply Permutation_trans; [apply insert_by_Permutation|].
  apply perm_skip, IH.
Qed.

Lemma orderBy_In {A : Type} (key : A -> Z) (l : list A) (x : A) :
  In x (prisma.orderBy key l) <-> In x l.
Proof.
  split; apply Permutation_in;
    [|apply Permutation_sym]; apply orderBy_Permutation.
Qed.

Lemma insert_by_ascending {A : Type} (key : A -> Z) (x : A) (l : list A) :
  ascending key l -> ascending key (prisma.insert_by key x l).
Proof.
  unfold ascending. induction l as [|y l IH]; intros Hl; simpl.
  - constructor; constructor.
  - inversion Hl as [|? ? Hl' Hy]; subst.
    destruct (Z.leb_spec (key x) (key y)) as [Hle | Hgt].
    + constructor; [exact Hl|]. constructor; [exact Hle|].
      rewrite Forall_forall in *. intros z Hz. specialize (Hy z Hz). lia.
    + constructor; [apply IH, Hl'|].
      rewrite Forall_forall in *. intros z Hz.
      apply (Permutation_in _ (insert_by_Permutation key x l)) in Hz.
      destruct Hz as [<- | Hz]; [lia | apply Hy, Hz].
Qed.

Lemma orderBy_ascending {A : Type} (key : A -> Z) (l : list A) :
  ascending key (prisma.orderBy key l).
Proof.
  induction l as [|x l IH]; simpl; [constructor|].
  apply insert_by_ascending, IH.
Qed.

(** [orderBy] is stable: rows already in order come back as they are. *)
Lemma orderBy_ordered {A : Type} (key : A -> Z) (l : list A) :
  ascending key l -> prisma.orderBy key l = l.
Proof.
  unfold ascending. induction l as [|x l IH]; intros Hl; simpl; [reflexivity|].
  inversion Hl as [|? ? Hl' Hx]; subst. rewrite (IH Hl').
  destruct l as [|y l]; simpl; [reflexivity|].
  inversion Hx as [|? ? Hxy _]; subst.
  apply Z.leb_le in Hxy. rewrite Hxy. reflexivity.
Qed.

Lemma filter_filter_implies {A : Type} (p q : A -> bool) (l : list A) :
  (forall x, In x l -> p x = true -> q x = true) ->
  filter p (filter q l) = filter p l.
Proof.
  induction l as [|x l IH]; intros H; simpl; [reflexivity|].
  assert (IH' : filter p (filter q l) = filter p l).
  { apply IH. intros y Hy. apply H. right. exact Hy. }
  destruct (q x) eqn:Eq; simpl.
  - rewrite IH'. reflexivity.
  - destruct (p x) eqn:Ep; [|exact IH'].
    rewrite (H x (or_introl eq_refl) Ep) in Eq. discriminate.
Qed.

Lemma find_filter_implies {A : Type} (p q : A -> bool) (l : list A) :
  (forall x, In x l -> p x = true -> q x = true) ->
  find p (filter q l) = find p l.
Proof.
  induction l as [|x l IH]; intros H; simpl; [reflexivity|].
  assert (IH' : find p (filter q l) = find p l).
  { apply IH. intros y Hy. apply H. right. exact Hy. }
  destruct (q x) eqn:Eq; simpl.
  - rewrite IH'. reflexivity.
  - destruct (p x) eqn:Ep; [|exact IH'].
    rewrite (H x (or_introl eq_refl) Ep) in Eq. discriminate.
Qed.

(** What the view of a trip depends on: the row of the trip, its DayPlans,
    their PlannedActivity rows, and the catalog. *)
Lemma tripView_ext (s s' : Store) (id : Z) :
  find (fun t => trip_id t =? id) (trips s')
  = find (fun t => trip_id t =? id) (trips s) ->
  dayPlansOf id s' = dayPlansOf id s ->
  (forall dp, In dp (dayPlansOf id s) ->
              plannedActivitiesOf dp s' = plannedActivitiesOf dp s) ->
  activities s' = activities s ->
  prisma.trip.tripView s' id = prisma.trip.tripView s id.
Proof.
  intros Hfind Hdps Hpas Hacts. unfold prisma.trip.tripView. rewrite Hfind.
  destruct (find (fun t => trip_id t =? id) (trips s)) as [t|] eqn:E;
    [|reflexivity].
  destruct (find_trip_some _ _ E) as [_ Hid]. cbn [option_map].
  f_equal. f_equal. rewrite Hid. unfold dayPlansOf in Hdps. rewrite Hdps.
  apply map_ext_in. intros dp Hdp. apply orderBy_In in Hdp.
  unfold prisma.trip.dayPlanView. f_equal.
  specialize (Hpas dp Hdp). unfold plannedActivitiesOf in Hpas. rewrite Hpas.
  apply map_ext. intros pa. unfold prisma.trip.plannedActivityView.
  rewrite Hacts. reflexivity.
Qed.

Lemma tripView_without (tripId id : Z) (s : Store) :
  NoDup (map dayPlan_id (dayPlans s)) -> id <> tripId ->
  prisma.trip.tripView (prisma.trip.without tripId s) id
  = prisma.trip.tripView s id.
Proof.
  intros Hnd Hne. apply tripView_ext.
  - unfold prisma.trip.without. cbn [trips]. apply find_filter_implies.
    intros t _ Ht. apply Z.eqb_eq in Ht. apply negb_true_iff, Z.eqb_neq. lia.
  - unfold dayPlansOf, prisma.trip.without. cbn [dayPlans].
    apply filter_filter_implies.
    intros dp _ Hdp. apply Z.eqb_eq in Hdp. apply negb_true_iff, Z.eqb_neq. lia.
  - intros dp Hdp. unfold plannedActivitiesOf, prisma.trip.without.
    cbn [plannedActivities]. apply filter_filter_implies.
    intros pa _ Hpa. apply Z.eqb_eq in Hpa. apply negb_true_iff.
    destruct (existsb _ _) eqn:Hex; [|reflexivity]. exfalso.
    apply existsb_exists in Hex. destruct Hex as (i & Hi & Heq).
    apply Z.eqb_eq in Heq. apply in_map_iff in Hi.
    destruct Hi as (dp' & Hid & Hdp').
    apply filter_In in Hdp'. destruct Hdp' as [Hin' Htrip'].
    apply filter_In in Hdp. destruct Hdp as [Hin Htrip].
    apply Z.eqb_eq in Htrip, Htrip'.
    assert (dp' = dp).
    { apply (NoDup_map_eq dayPlan_id (dayPlans s)); auto. lia. }
    subst dp'. lia.
  - reflexivity.
Qed.

(** X6. Deleting a trip leaves every other trip as [GET /:id] shows it:
    in a store whose keys are consistent, after [DELETE /:id], whatever it
    answered, the view of every trip with another id is the one from
    before. *)
Theorem deleteTrip_keeps_other_trips
        (StringToNumber : string -> Js.Number) (cascade : bool)
        (userId : Z) (id : string) (s : Store) (fs : Faults) (other : Z) :
  let s' := snd (fst (serve serverError
                            (deleteTrip StringToNumber cascade userId id) s fs)) in
  consistent s ->
  other <> Js.toZ (StringToNumber id) ->
  prisma.trip.tripView s' other = prisma.trip.tripView s other.
Proof.
  intros s' Hs Hother. subst s'.
  destruct (deleteTrip_paths StringToNumber cascade userId id s fs)
    as [[_ Hsame] | (_ & _ & _ & Hgone & _)].
  - rewrite Hsame. reflexivity.
  - rewrite Hgone. apply tripView_without; [|exact Hother].
    apply (dayPlan_ids_distinct Hs).
Qed.

Ltac distinct :=
  repeat (constructor; [simpl; intuition discriminate|]); constructor.

Lemma consistent_store0 : consistent Sample.store0.
Proof.
  constructor; simpl.
  - distinct.
  - intros t [<- | []]; simpl; lia.
  - distinct.
  - intros dp [<- | [<- | []]]; simpl; lia.
  - distinct.
  - intros pa [<- | [<- | []]]; simpl; lia.
  - intros dp [<- | [<- | []]]; exists Sample.paris; simpl; auto.
  - intros pa [<- | [<- | []]]; simpl.
    + exists (mkDayPlan 1 1 1). auto.
    + exists (mkDayPlan 2 1 2). auto.
Qed.

Lemma consistent_store1 : consistent Sample.store1.
Proof.
  constructor; simpl.
  - distinct.
  - intros t [<- | [<- | []]]; simpl; lia.
  - distinct.
  - intros dp [<- | [<- | [<- | [<- | []]]]]; simpl; lia.
  - distinct.
  - intros pa [<- | [<- | [<- | []]]]; simpl; lia.
  - intros dp [<- | [<- | [<- | [<- | []]]]];
      [exists Sample.paris | exists Sample.paris
       | exists Sample.oslo | exists Sample.oslo]; simpl; auto.
  - intros pa [<- | [<- | [<- | []]]]; simpl.
    + exists (mkDayPlan 1 1 1). auto.
    + exists (mkDayPlan 2 1 2). auto.
    + exists (mkDayPlan 3 2 1). auto 6.
Qed.

Lemma deleteTrip_keeps_other_trips_witness :
  prisma.trip.tripView
    (snd (fst (serve serverError (deleteTrip Sample.StringToNumber true 7 "2")
                     Sample.store1 [])))
    1
  = prisma.trip.tripView Sample.store1 1.
Proof.
  apply (@deleteTrip_keeps_other_trips Sample.StringToNumber true 7 "2"
                                       Sample.store1 [] 1).
  - exact consistent_store1.
  - vm_compute. discriminate.
Defined.

Lemma tripView_in_order (s : Store) (id : Z) (v : TripView) :
  prisma.trip.tripView s id = Some v ->
  In (view_trip v) (trips s) /\ trip_id (view_trip v) = id /\
  Permutation (map view_dayPlan (view_dayPlans v)) (dayPlansOf id s) /\
  ascending dayPlan_dayNumber (map view_dayPlan (view_dayPlans v)) /\
  forall dv, In dv (view_dayPlans v) ->
    Permutation (map view_plannedActivity (view_plannedActivities dv))
                (plannedActivitiesOf (view_dayPlan dv) s) /\
    ascending plannedActivity_orderIndex
              (map view_plannedActivity (view_plannedActivities dv)) /\
    forall pv, In pv (view_plannedActivities dv) ->
      view_activity pv
      = find (fun a => activity_id a =? plannedActivity_activityId
                                          (view_plannedActivity pv))
             (activities s).
Proof.
  unfold prisma.trip.tripView. intros H.
  destruct (find (fun t => trip_id t =? id) (trips s)) as [t|] eqn:Hfind;
    [|discriminate].
  cbn [option_map] in H. injection H as <-. cbn [view_trip view_dayPlans].
  destruct (find_trip_some _ _ Hfind) as [Hin Hid].
  split; [exact Hin|]. split; [exact Hid|].
  rewrite map_map. cbn [prisma.trip.dayPlanView view_dayPlan]. rewrite map_id.
  rewrite Hid. split; [apply orderBy_Permutation|].
  split; [apply orderBy_ascending|].
  intros dv Hdv. apply in_map_iff in Hdv. destruct Hdv as (dp & <- & _).
  cbn [prisma.trip.dayPlanView view_dayPlan view_plannedActivities].
  rewrite map_map. cbn [prisma.trip.plannedActivityView view_plannedActivity].
  rewrite map_id.
  split; [apply orderBy_Permutation|]. split; [apply orderBy_ascending|].
  intros pv Hpv. apply in_map_iff in Hpv. destruct Hpv as (pa & <- & _).
  reflexivity.
Qed.

(** X7. The trip [GET /:id] answers with carries its whole plan in order:
    its days are exactly the DayPlans of the trip, in ascending day
    number; the activities of a day are exactly the PlannedActivity rows
    of that DayPlan, in ascending order index, each with the catalog row
    of its activity. *)
Theorem getTrip_plan_in_order
        (StringToNumber : string -> Js.Number)
        (userId : Z) (id : string) (s : Store) (fs : Faults) (v : TripView)
        (warning : option string) :
  let tripId := Js.toZ (StringToNumber id) in
  let r := fst (fst (serve serverError (getTrip StringToNumber userId id) s fs)) in
  body r = TripJson (Some v) warning ->
  Permutation (map view_dayPlan (view_dayPlans v)) (dayPlansOf tripId s) /\
  ascending dayPlan_dayNumber (map view_dayPlan (view_dayPlans v)) /\
  forall dv, In dv (view_dayPlans v) ->
    Permutation (map view_plannedActivity (view_plannedActivities dv))
                (plannedActivitiesOf (view_dayPlan dv) s) /\
    ascending plannedActivity_orderIndex
              (map view_plannedActivity (view_plannedActivities dv)) /\
    forall pv, In pv (view_plannedActivities dv) ->
      view_activity pv
      = find (fun a => activity_id a =? plannedActivity_activityId
                                          (view_plannedActivity pv))
             (activities s).
Proof.
  intros tripId r Hbody. subst r.
  pose proof (getTrip_paths StringToNumber userId id s fs) as H.
  cbv zeta in H. fold tripId in H.
  destruct H
    as [_ [[Hr _] | [[Hr _] | [[Hr _] | [_ (t & _ & _ & Hr)]]]]];
    rewrite Hr in Hbody; try discriminate.
  cbn [body] in Hbody. injection Hbody as Hview _.
  apply (tripView_in_order _ _ Hview).
Qed.

Lemma getTrip_plan_in_order_witness :
  exists v,
    body (fst (fst (serve serverError (getTrip Sample.StringToNumber 7 "1")
                          Sample.store1 [])))
    = TripJson (Some v) None /\
    Permutation (map view_dayPlan (view_dayPlans v)) (dayPlansOf 1 Sample.store1) /\
    ascending dayPlan_dayNumber (map view_dayPlan (view_dayPlans v)).
Proof.
  eexists. split; [reflexivity|].
  pose proof (@getTrip_plan_in_order Sample.StringToNumber 7 "1" Sample.store1
                                     [] _ None eq_refl) as (H1 & H2 & _).
  split; [exact H1 | exact H2].
Defined.

(* ===================================================================== *)
(** ** Listing the trips of a user *)
(* ===================================================================== *)

Lemma fold_left_add (l : list Z) (a : Z) :
  fold_left (fun sum c => sum + c) l a
  = a + fold_left (fun sum c => sum + c) l 0.
Proof.
  revert a. induction l as [|c l IH]; intros a; simpl; [lia|].
  rewrite (IH (a + c)), (IH c). lia.
Qed.



Lemma NoDup_map_filter {K Row : Type} (key : Row -> K) (keep : Row -> bool)
      (rows : list Row) :
  NoDup (map key rows) -> NoDup (map key (filter keep rows)).
Proof.
  intros Hrows. induction rows as [|row rows IH]; simpl; [constructor|].
  simpl in Hrows. inversion Hrows as [|? ? Hnot Hrest]; subst.
  destruct (keep row); simpl; [|apply IH, Hrest].
  constructor; [|apply IH, Hrest].
  intros Hin. apply Hnot. apply in_map_iff in Hin.
  destruct Hin as (other & Hkey & Hin). apply filter_In in Hin.
  apply in_map_iff. exists other. tauto.
Qed.




Lemma listMyTrips_paths (createdAt : Trip -> Z) (userId : Z) (s : Store)
      (fs : Faults) :
  let result := serve myTripsServerError (listMyTrips createdAt userId) s fs in
  let mine := filter (fun t => trip_userId t =? userId) (trips s) in
  snd (fst result) = s /\
  ((fst (fst result) = myTripsServerError /\ exists fs', fs = true :: fs')
   \/ fst (fst result)
      = mkMyTripsResponse 200
          (MyTrips (map (fun t => summarize (prisma.trip.listed createdAt s t))
                        (prisma.orderBy (fun t => - createdAt t) mine)))).
Proof.
  intros result mine. subst result. unfold serve, listMyTrips.
  unfold prisma.trip.findManyOfUser. rewrite bind_db_call.
  destruct fs as [|[|] fs1]; cbn [next_fault].
  - simpl. split; [reflexivity|]. right. rewrite map_map. reflexivity.
  - simpl. split; [reflexivity|]. left. split; [reflexivity|]. eauto.
  - simpl. split; [reflexivity|]. right. rewrite map_map. reflexivity.
Qed.



(* ===================================================================== *)
(** ** The paths of [POST /] *)
(* ===================================================================== *)

Lemma perform_findMany (site : Site) (destination : string) (w : World) :
  store (snd (perform site (prisma.activity.findMany destination) w)) = store w.
Proof.
  unfold prisma.activity.findMany. rewrite perform_db_call.
  destruct (next_fault (faults w)) as [[|] fs']; reflexivity.
Qed.

Lemma sameRows_refl (s : Store) : sameRows s s.
Proof. repeat split; apply Z.le_refl. Qed.

(** A transaction that rejects leaves every row as it was; the ids its
    body drew stay drawn. *)
Lemma rejected_transaction {X : Type} (body : DB X) (s : Store) (fs : Faults) :
  Preserves advanced body ->
  fst (fst (transaction body s fs)) = None ->
  sameRows s (snd (fst (transaction body s fs))).
Proof.
  intros Hb. unfold transaction. specialize (Hb s fs).
  destruct (body s fs) as [[[x|] s'] fs']; simpl in *; [discriminate|].
  intros _. repeat split; apply Hb.
Qed.

Lemma perform_rejected_transaction {X : Type} (site : Site) (body : DB X)
      (w : World) :
  Preserves advanced body ->
  fst (perform site (transaction body) w) = None ->
  sameRows (store w) (store (snd (perform site (transaction body) w))).
Proof.
  intros Hb. pose proof (rejected_transaction (store w) (faults w) Hb) as H.
  unfold perform.
  destruct (transaction body (store w) (faults w)) as [[[x|] s'] fs']; simpl in *;
    [discriminate | exact H].
Qed.

Section CreateTripPaths.

Variable StringToNumber : string -> Js.Number.
Variable generateItinerary : list Activity -> Z -> string -> option Plan.

Lemma createTrip_paths (req : CreateRequest) (w : World) :
  exists r w',
    run (createTrip StringToNumber generateItinerary req) w = (Returned r, w') /\
    ((status r = 400 \/ status r = 401) /\ w' = w
     \/ status r = 500 /\ store w' = store w /\ calls w' <> calls w
     \/ status r = 500 /\ sameRows (store w) (store w') /\
        calls w' = (CreatePersist, false) :: (CreateFetchActivities, true) :: calls w
     \/ status r = 201).
Proof.
  unfold createTrip. rewrite run_tryCatch.
  destruct (body_destination (create_body req)) as [[|c0 destination]|];
    try (cbn [run]; eexists _, _; split; [reflexivity|]; left; split;
         [left; reflexivity | reflexivity]).
  set (days := Number StringToNumber (body_daysCount (create_body req))).
  destruct (negb (Js.isInteger days) || Js.lt days (Js.ofZ 1)
            || Js.gt days (Js.ofZ 30));
    try (cbn [run]; eexists _, _; split; [reflexivity|]; left; split;
         [left; reflexivity | reflexivity]).
  cbn [bind Monad_Prog]. rewrite run_bind.
  match goal with |- context [run ?m w] =>
    assert (Hbud : (exists bud, run m w = (Normal bud, w)) \/
                   run m w = (Returned (json 400 "budget must be a number >= 0"), w))
  end.
  { destruct (body_budget (create_body req)) as [[n|[|c1 s1]]|];
      try (left; eexists; reflexivity).
    - destruct (Js.isNaN (Number StringToNumber (Some (Js.Num n)))
                || Js.lt (Number StringToNumber (Some (Js.Num n))) (Js.ofZ 0));
        [right; reflexivity | left; eexists; reflexivity].
    - destruct (Js.isNaN (Number StringToNumber (Some (Js.Str (String c1 s1))))
                || Js.lt (Number StringToNumber (Some (Js.Str (String c1 s1))))
                         (Js.ofZ 0));
        [right; reflexivity | left; eexists; reflexivity]. }
  destruct Hbud as [[bud Hbud] | Hbud]; rewrite Hbud; cbn [andThen].
  2:{ eexists _, _; split; [reflexivity|]; left; split;
        [left; reflexivity | reflexivity]. }
  destruct (body_interests (create_body req)) as [[|c1 interests]|];
    try (cbn [run]; eexists _, _; split; [reflexivity|]; left; split;
         [left; reflexivity | reflexivity]).
  destruct (create_userId req) as [[|userId|userId]|];
    try (cbn [run]; eexists _, _; split; [reflexivity|]; left; split;
         [right; reflexivity | reflexivity]).
  all: rewrite run_await_bind.
  all: match goal with
       | |- context [perform CreateFetchActivities
                             (prisma.activity.findMany ?d) ?w0] =>
         pose proof (perform_findMany CreateFetchActivities d w0) as S1;
         pose proof (perform_calls CreateFetchActivities
                                   (prisma.activity.findMany d) w0) as C1;
         destruct (perform CreateFetchActivities (prisma.activity.findMany d) w0)
           as [[acts|] w2]
       end; cbn [fst snd] in *.
  all: try (cbn [run]; eexists _, _; split; [reflexivity|]; right; left;
            split; [reflexivity|]; split; [exact S1|];
            rewrite C1; intros H; apply (f_equal (@List.length _)) in H;
            simpl in H; lia).
  all: rewrite run_bind.
  all: match goal with |- context [call ?c] =>
         destruct c as [plan|] end; cbn [call run andThen].
  all: try (eexists _, _; split; [reflexivity|]; right; left;
            split; [reflexivity|]; split; [exact S1|];
            rewrite C1; intros H; apply (f_equal (@List.length _)) in H;
            simpl in H; lia).
  all: rewrite run_await_bind.
  all: match goal with
       | |- context [perform CreatePersist (transaction ?b) ?w0] =>
         pose proof (@perform_rejected_transaction _ CreatePersist b w0
                       ltac:(apply persistNewTrip_advanced)) as S2;
         pose proof (perform_calls CreatePersist (transaction b) w0) as C2;
         destruct (perform CreatePersist (transaction b) w0) as [[saved|] w3]
       end; cbn [fst snd run] in *.
  all: try (eexists _, _; split; [reflexivity|]; right; right; right;
            reflexivity).
  all: eexists _, _; split; [reflexivity|]; right; right; left;
       split; [reflexivity|]; split;
       [rewrite <- S1; apply S2; reflexivity | rewrite C2, C1; reflexivity].
Qed.

End CreateTripPaths.

(** X9. [POST /] leaves no row unless it answers 201: the request always
    ends by a [return]; on every other status, whatever call failed, the
    four tables are those the request found, and the id sequences are
    where they were or further on; the store is the very one the request
    found unless it was the transaction that rejected, which keeps the
    ids its body drew; and a 400 or a 401 comes before the first store
    call. *)
Theorem createTrip_refused_unchanged
        (StringToNumber : string -> Js.Number)
        (generateItinerary : list Activity -> Z -> string -> option Plan)
        (req : CreateRequest) (st : Store) (fs : Faults) :
  let result := run (createTrip StringToNumber generateItinerary req)
                    (mkWorld st fs []) in
  exists r,
    fst result = Returned r /\
    (status r <> 201 ->
     activities (store (snd result)) = activities st /\
     trips (store (snd result)) = trips st /\
     dayPlans (store (snd result)) = dayPlans st /\
     plannedActivities (store (snd result)) = plannedActivities st /\
     advanced st (store (snd result))) /\
    (status r <> 201 ->
     ~ In (CreatePersist, false) (calls (snd result)) ->
     store (snd result) = st) /\
    (status r = 400 \/ status r = 401 -> snd result = mkWorld st fs []).
Proof.
  intros result. subst result.
  destruct (createTrip_paths StringToNumber generateItinerary req
                             (mkWorld st fs []))
    as (r & w' & Hrun & Hcases).
  rewrite Hrun. exists r. cbn [fst snd]. split; [reflexivity|].
  destruct Hcases as [[Hstatus ->]
                     | [(Hstatus & Hstore & _)
                       | [(Hstatus & Hrows & Hcalls) | Hstatus]]].
  - split; [intros _; apply sameRows_refl|]. split; reflexivity.
  - cbn [store] in Hstore. rewrite Hstore.
    split; [intros _; apply sameRows_refl|]. split; [reflexivity|].
    rewrite Hstatus. intros [H | H]; discriminate.
  - split; [intros _; exact Hrows|]. split.
    + intros _ Hnot. exfalso. apply Hnot. rewrite Hcalls. left. reflexivity.
    + rewrite Hstatus. intros [H | H]; discriminate.
  - split; [intros H; contradiction|]. split; [intros H; contradiction|].
    rewrite Hstatus. intros [H | H]; discriminate.
Qed.

(** The transaction fails at its fourth store call, after the trip and
    two of its DayPlans were created: no row is left of them, and their
    ids are not handed out again. *)
Lemma createTrip_refused_unchanged_witness :
  let result := run (createTrip Sample.StringToNumber Sample.planner
                                Sample.createRome)
                    (mkWorld Sample.store0 [false; false; false; false; true] []) in
  trips (store (snd result)) = trips Sample.store0 /\
  dayPlans (store (snd result)) = dayPlans Sample.store0 /\
  plannedActivities (store (snd result)) = plannedActivities Sample.store0 /\
  nextTripId Sample.store0 = 2 /\ nextTripId (store (snd result)) = 3 /\
  nextDayPlanId Sample.store0 = 3 /\ nextDayPlanId (store (snd result)) = 5.
Proof.
  cbv zeta.
  destruct (createTrip_refused_unchanged
              Sample.StringToNumber Sample.planner Sample.createRome
              Sample.store0 [false; false; false; false; true])
    as (r & Hr & Hrows & _).
  destruct Hrows as (_ & Ht & Hd & Hp & _).
  { vm_compute in Hr. injection Hr as <-. discriminate. }
  split; [exact Ht|]. split; [exact Hd|]. split; [exact Hp|].
  vm_compute. repeat split.
Defined.

(* ===================================================================== *)
(** ** What [POST /] answers with, and reading it back *)
(* ===================================================================== *)

Lemma consistent_wellFormed (s : Store) : consistent s -> wellFormed s.
Proof.
  intros H. constructor.
  - apply (dayPlan_ids_used H).
  - intros dp Hdp. destruct (dayPlan_of_trip H dp Hdp) as (t & Ht & <-).
    apply (trip_ids_used H), Ht.
  - apply (plannedActivity_of_dayPlan H).
Qed.

Lemma ascending_of_map {A : Type} (key : A -> Z) (l : list A) :
  StronglySorted Z.le (map key l) -> ascending key l.
Proof.
  unfold ascending. induction l as [|x l IH]; intros H; [constructor|].
  simpl in H. inversion H as [|? ? Hl Hx]; subst.
  constructor; [apply IH, Hl|].
  rewrite Forall_forall in *. intros y Hy. apply Hx, in_map, Hy.
Qed.

Lemma upto_ascending (n : Z) : StronglySorted Z.le (upto n).
Proof.
  unfold upto. generalize (Z.to_nat n) as k. generalize 1%nat as a.
  intros a k. revert a. induction k as [|k IH]; intros a; simpl; [constructor|].
  constructor; [apply IH|].
  rewrite Forall_forall. intros x Hx. apply in_map_iff in Hx.
  destruct Hx as (i & <- & Hi). apply in_seq in Hi. lia.
Qed.

Lemma persistedAs_shows (id days : Z) (plan : Plan) (s : Store) (v : TripView) :
  persistedAs id days plan s ->
  prisma.trip.tripView s id = Some v ->
  shows v days plan.
Proof.
  intros [Hdays Hpairs] Hview. unfold prisma.trip.tripView in Hview.
  destruct (find (fun t => trip_id t =? id) (trips s)) as [t|] eqn:Hfind;
    [|discriminate].
  destruct (find_trip_some _ _ Hfind) as [_ Hid].
  cbn [option_map] in Hview. injection Hview as <-.
  rewrite Hid. fold (dayPlansOf id s).
  rewrite (@orderBy_ordered _ dayPlan_dayNumber (dayPlansOf id s)).
  2:{ apply ascending_of_map. rewrite Hdays. apply upto_ascending. }
  unfold shows. cbn [view_dayPlans]. split.
  - rewrite map_map. exact Hdays.
  - intros dv Hdv. apply in_map_iff in Hdv. destruct Hdv as (dp & <- & Hdp).
    cbn [prisma.trip.dayPlanView view_plannedActivities view_dayPlan].
    fold (plannedActivitiesOf dp s).
    specialize (Hpairs dp Hdp).
    rewrite (@orderBy_ordered _ plannedActivity_orderIndex (plannedActivitiesOf dp s)).
    2:{ apply ascending_of_map.
        assert (E : map plannedActivity_orderIndex (plannedActivitiesOf dp s)
                    = map snd (map persistedPair (plannedActivitiesOf dp s))).
        { rewrite map_map. reflexivity. }
        rewrite E, Hpairs, persistedDay_indices. apply upto_ascending. }
    rewrite map_map. exact Hpairs.
Qed.

Lemma find_app_fresh (id : Z) (l : list Trip) (t : Trip) :
  (forall t', In t' l -> trip_id t' <> id) -> trip_id t = id ->
  find (fun t => trip_id t =? id) (l ++ [t]) = Some t.
Proof.
  intros Hl Ht. induction l as [|x l IH]; simpl.
  - rewrite Ht, Z.eqb_refl. reflexivity.
  - destruct (Z.eqb_spec (trip_id x) id) as [E | _].
    + exfalso. apply (Hl x); [left; reflexivity | exact E].
    + apply IH. intros t' Ht'. apply Hl. right. exact Ht'.
Qed.

Section CreatedTrip.

Variable StringToNumber : string -> Js.Number.
Variable generateItinerary : list Activity -> Z -> string -> option Plan.

(** The row and the plan a [POST /] that answered 201 leaves. *)
Lemma createTrip_row (req : CreateRequest) (st : Store) (fs : Faults)
      (r : Response) (w' : World) :
  consistent st ->
  run (createTrip StringToNumber generateItinerary req) (mkWorld st fs [])
  = (Returned r, w') ->
  status r = 201 ->
  exists userId destination interests bud plan,
    let days := Js.toZ (Number StringToNumber (body_daysCount (create_body req))) in
    let t := mkTrip (nextTripId st) userId destination days bud interests None in
    create_userId req = Some userId /\
    body_destination (create_body req) = Some destination /\
    body_interests (create_body req) = Some interests /\
    generateItinerary (catalog destination st) days interests = Some plan /\
    r = mkResponse 201 (TripJson (prisma.trip.tripView (store w') (nextTripId st))
                                 (plan_warning plan)) /\
    find (fun t => trip_id t =? nextTripId st) (trips (store w')) = Some t /\
    persistedAs (nextTripId st) days plan (store w').
Proof.
  intros Hs Hrun Hstatus.
  destruct (createTrip_ok _ _ _ _ _ Hrun Hstatus)
    as (destination & interests & userId & bud & plan & Hd & Hi & Hu & _ & _
        & Hplan & Hr & Hstore).
  cbv zeta in *.
  exists userId, destination, interests, bud, plan.
  rewrite Hstore.
  repeat (split; [assumption|]). split.
  - unfold planted. cbn [trips addPlannedActivities addDayPlans].
    apply find_app_fresh; [|reflexivity].
    intros t' Ht'. pose proof (trip_ids_used Hs t' Ht'). lia.
  - apply persistedAs_created, consistent_wellFormed, Hs.
Qed.

End CreatedTrip.

(** X10. The body of a 201 of [POST /] is the trip as it was persisted and
    planned: on a consistent store, it carries the new id, the caller as
    owner, the destination, day count and interests of the request and no
    lock; its days are numbered 1..daysCount in order and list the
    activities of the generated plan, day by day, in the order of the
    plan; and its warning is the one of the planner. *)
Theorem createTrip_answers_with_plan
        (StringToNumber : string -> Js.Number)
        (generateItinerary : list Activity -> Z -> string -> option Plan)
        (req : CreateRequest) (st : Store) (fs : Faults)
        (r : Response) (w' : World) :
  consistent st ->
  run (createTrip StringToNumber generateItinerary req) (mkWorld st fs [])
  = (Returned r, w') ->
  status r = 201 ->
  exists userId destination interests plan v,
    let days := Js.toZ (Number StringToNumber (body_daysCount (create_body req))) in
    create_userId req = Some userId /\
    body_destination (create_body req) = Some destination /\
    body_interests (create_body req) = Some interests /\
    generateItinerary (catalog destination st) days interests = Some plan /\
    body r = TripJson (Some v) (plan_warning plan) /\
    trip_id (view_trip v) = nextTripId st /\
    trip_userId (view_trip v) = userId /\
    trip_destination (view_trip v) = destination /\
    trip_daysCount (view_trip v) = days /\
    trip_interests (view_trip v) = interests /\
    trip_regenLockUntil (view_trip v) = None /\
    shows v days plan.
Proof.
  intros Hs Hrun Hstatus.
  destruct (@createTrip_row _ _ _ _ _ _ _ Hs Hrun Hstatus)
    as (userId & destination & interests & bud & plan & Hu & Hd & Hi & Hplan
        & Hr & Hfind & Hrows).
  cbv zeta in *.
  assert (Hview : exists days', prisma.trip.tripView (store w') (nextTripId st)
                                = Some (mkTripView
                                          (mkTrip (nextTripId st) userId destination
                                             (Js.toZ (Number StringToNumber
                                                (body_daysCount (create_body req))))
                                             bud interests None) days')).
  { unfold prisma.trip.tripView. rewrite Hfind. eexists. reflexivity. }
  destruct Hview as [days' Hview].
  exists userId, destination, interests, plan. eexists.
  rewrite Hr, Hview. cbn [body view_trip].
  repeat (split; [first [assumption | reflexivity]|]).
  eapply persistedAs_shows; [exact Hrows | exact Hview].
Qed.

(** X11. A created trip can be read back: after a 201 of [POST /] on a
    consistent store, [GET /:id] with the new id answers the caller with
    200 and the very trip of the 201, and answers every other user with
    403. *)
Theorem created_trip_can_be_read
        (StringToNumber : string -> Js.Number)
        (generateItinerary : list Activity -> Z -> string -> option Plan)
        (req : CreateRequest) (st : Store) (fs : Faults)
        (r : Response) (w' : World) (id : string) :
  consistent st ->
  run (createTrip StringToNumber generateItinerary req) (mkWorld st fs [])
  = (Returned r, w') ->
  status r = 201 ->
  validTripId (StringToNumber id) = true ->
  Js.toZ (StringToNumber id) = nextTripId st ->
  exists userId v warning,
    create_userId req = Some userId /\
    body r = TripJson (Some v) warning /\
    fst (fst (serve serverError (getTrip StringToNumber userId id) (store w') []))
    = mkResponse 200 (TripJson (Some v) None) /\
    forall other, other <> userId ->
      fst (fst (serve serverError (getTrip StringToNumber other id) (store w') []))
      = json 403 "Forbidden".
Proof.
  intros Hs Hrun Hstatus Hvalid Hid.
  destruct (@createTrip_row _ _ _ _ _ _ _ Hs Hrun Hstatus)
    as (userId & destination & interests & bud & plan & Hu & _ & _ & _
        & Hr & Hfind & _).
  cbv zeta in *.
  assert (Hview : exists v, prisma.trip.tripView (store w') (nextTripId st)
                            = Some v).
  { unfold prisma.trip.tripView. rewrite Hfind. eexists. reflexivity. }
  destruct Hview as [v Hview].
  exists userId, v, (plan_warning plan).
  split; [exact Hu|]. rewrite Hr, Hview. split; [reflexivity|].
  split.
  - pose proof (getTrip_paths StringToNumber userId id (store w') []) as H.
    cbv zeta in H. rewrite Hid, Hfind, Hview in H.
    destruct H as [_ [[_ Hfs] | [[_ Hc]
                     | [[_ (t & Ht & Hne)] | [_ (t & _ & _ & H)]]]]].
    + exfalso. apply Hfs. reflexivity.
    + destruct Hc; congruence.
    + injection Ht as <-. exfalso. apply Hne. reflexivity.
    + exact H.
  - intros other Hother.
    pose proof (getTrip_paths StringToNumber other id (store w') []) as H.
    cbv zeta in H. rewrite Hid, Hfind in H.
    destruct H as [_ [[_ Hfs] | [[_ Hc]
                     | [[H _] | [_ (t & Ht & Ho & _)]]]]].
    + exfalso. apply Hfs. reflexivity.
    + destruct Hc; congruence.
    + exact H.
    + injection Ht as <-. exfalso. apply Hother. symmetry. exact Ho.
Qed.

Lemma createTrip_answers_with_plan_witness :
  exists r userId destination interests plan v,
    fst (run (createTrip Sample.StringToNumber Sample.planner Sample.createRome)
             Sample.world0) = Returned r /\
    create_userId Sample.createRome = Some userId /\
    body_destination (create_body Sample.createRome) = Some destination /\
    body_interests (create_body Sample.createRome) = Some interests /\
    Sample.planner (catalog destination Sample.store0) 3 interests = Some plan /\
    body r = TripJson (Some v) (plan_warning plan) /\
    trip_id (view_trip v) = 2 /\
    trip_userId (view_trip v) = userId /\
    trip_destination (view_trip v) = destination /\
    trip_daysCount (view_trip v) = 3 /\
    trip_interests (view_trip v) = interests /\
    trip_regenLockUntil (view_trip v) = None /\
    shows v 3 plan.
Proof.
  destruct (run (createTrip Sample.StringToNumber Sample.planner Sample.createRome)
                Sample.world0) as [c w'] eqn:Hrun.
  vm_compute in Hrun. injection Hrun as <- <-.
  eexists.
  destruct (@createTrip_answers_with_plan
              Sample.StringToNumber Sample.planner Sample.createRome
              Sample.store0 [] _ _ consistent_store0 eq_refl eq_refl)
    as (userId & destination & interests & plan & v & H).
  exists userId, destination, interests, plan, v.
  split; [reflexivity | exact H].
Defined.

Lemma created_trip_can_be_read_witness :
  let result := run (createTrip Sample.StringToNumber Sample.planner
                                Sample.createRome) Sample.world0 in
  exists r userId v warning,
    fst result = Returned r /\
    create_userId Sample.createRome = Some userId /\
    body r = TripJson (Some v) warning /\
    fst (fst (serve serverError (getTrip Sample.StringToNumber userId "2")
                    (store (snd result)) []))
    = mkResponse 200 (TripJson (Some v) None) /\
    forall other, other <> userId ->
      fst (fst (serve serverError (getTrip Sample.StringToNumber other "2")
                      (store (snd result)) []))
      = json 403 "Forbidden".
Proof.
  intros result.
  destruct result as [c w'] eqn:Hrun. subst result.
  assert (Hc : exists r, c = Returned r).
  { vm_compute in Hrun. injection Hrun as <- _. eexists. reflexivity. }
  destruct Hc as [r ->].
  destruct (@created_trip_can_be_read
              Sample.StringToNumber Sample.planner Sample.createRome
              Sample.store0 [] r w' "2" consistent_store0 Hrun)
    as (userId & v & warning & H).
  - vm_compute in Hrun. injection Hrun as <- _. reflexivity.
  - reflexivity.
  - vm_compute in Hrun. injection Hrun as _ <-. reflexivity.
  - exists r, userId, v, warning. split; [reflexivity | exact H].
Defined.

(* ===================================================================== *)
(** ** The paths of [regenerate] that do not answer 200 *)
(* ===================================================================== *)

Ltac left_before C :=
  first [ refine (ex_intro _ [_] (conj C _))
        | refine (ex_intro _ [_; _] (conj C _))
        | refine (ex_intro _ [_; _; _] (conj C _))
        | refine (ex_intro _ [_; _; _; _] (conj C _)) ];
  let H := fresh "H" in
  simpl; intros H;
  repeat (destruct H as [H | H]; [try discriminate H|]);
  try contradiction.

Section RegenerateRefused.

Variable StringToNumber : string -> Js.Number.
Variable generateItinerary : list Activity -> Z -> string -> option Plan.

(** Once the replace transaction of the [try] block has resolved, the
    block returns 200. *)
Lemma regenerateBody_replaced (now lockUntil tripId userId : Z)
      (incoming : option string) (w : World) :
  let result :=
    run (regenerateBody generateItinerary now lockUntil tripId userId incoming) w in
  exists pre,
    calls (snd result) = (pre ++ calls w)%list /\
    (In (ReplacePlan, true) pre ->
     exists r, fst result = Returned r /\ status r = 200).
Proof.
  cbv zeta. unfold regenerateBody, regenerateLocked. cbn [bind Monad_Prog].
  step_await.
  pose proof (perform_calls LoadBase (prisma.trip.findUnique tripId) w) as C1.
  destruct (perform LoadBase (prisma.trip.findUnique tripId) w) as [o1 w1].
  cbn [fst snd] in *.
  destruct o1 as [[base|]|]; cbn [fst snd resolved run] in *;
    try (left_before C1).
  destruct (negb (trip_userId base =? userId)); cbn [fst snd resolved run] in *.
  { left_before C1. }
  step_await.
  match goal with |- context [perform AcquireLock ?op w1] =>
    pose proof (perform_calls AcquireLock op w1) as C2;
    destruct (perform AcquireLock op w1) as [o2 w2] end.
  cbn [fst snd] in *. rewrite C1 in C2.
  destruct o2 as [lockResult|]; cbn [fst snd resolved run] in *;
    [|left_before C2].
  destruct (lockResult =? 0); cbn [fst snd resolved run] in *.
  { left_before C2. }
  rewrite run_bind.
  assert (Hv : exists c,
             run (match incoming with
                  | Some s =>
                      if String.eqb (Js.trim s) ""
                      then Return (json 400 "interests must be a non-empty string")
                      else Pure tt
                  | None => Pure tt
                  end) w2 = (c, w2) /\ c <> Uncaught).
  { destruct incoming as [s|]; [destruct (String.eqb (Js.trim s) "")|];
      eexists; (split; [reflexivity | discriminate]). }
  destruct Hv as (c & -> & Hc).
  destruct c as [[]| r |]; cbn [fst snd andThen] in *; [| | contradiction].
  2:{ left_before C2. }
  step_await.
  match goal with |- context [perform FetchActivities ?op w2] =>
    pose proof (perform_calls FetchActivities op w2) as C3;
    destruct (perform FetchActivities op w2) as [o3 w3] end.
  cbn [fst snd] in *. rewrite C2 in C3.
  destruct o3 as [acts|]; cbn [fst snd resolved run] in *;
    [|left_before C3].
  rewrite run_bind.
  destruct (planFor generateItinerary acts (trip_daysCount base)
                    (effectiveInterestsOf incoming base)) as [plan|];
    cbn [fst snd andThen call run] in *.
  2:{ left_before C3. }
  step_await.
  match goal with |- context [perform ReplacePlan ?op w3] =>
    pose proof (perform_calls ReplacePlan op w3) as C4;
    destruct (perform ReplacePlan op w3) as [o4 w4] end.
  cbn [fst snd] in *. rewrite C3 in C4.
  destruct o4 as [saved|]; cbn [fst snd resolved run] in *.
  - refine (ex_intro _ [_; _; _; _] (conj C4 _)).
    intros _. eexists. split; reflexivity.
  - left_before C4.
Qed.

(** Until the replace transaction is called, the store is the initial
    one up to lock fields, id sequences included. *)
Lemma regenerate_before_replace (clock : Clock) (req : RegenerateRequest)
      (st : Store) (fs : Faults) :
  let result := run (regenerate StringToNumber generateItinerary clock req)
                    (mkWorld st fs []) in
  (forall b, ~ In (ReplacePlan, b) (calls (snd result))) ->
  samePlan st (store (snd result)).
Proof.
  cbv zeta.
  apply (run_invariant
           (fun w => (forall b, ~ In (ReplacePlan, b) (calls w)) ->
                     samePlan st (store w))
           regenerateCall).
  - intros site X op w [_ Hop] Hw Hnot.
    rewrite perform_calls in Hnot.
    assert (Hbefore : samePlan st (store w)).
    { apply Hw. intros b Hin. apply (Hnot b). right. exact Hin. }
    destruct site;
      try solve [ unfold perform; specialize (Hop (store w) (faults w));
                  destruct (op (store w) (faults w)) as [[[x|] s'] fs'];
                  simpl in *; apply (samePlan_trans Hbefore Hop) ].
    exfalso. apply (Hnot (resolved (fst (perform ReplacePlan op w)))).
    left. reflexivity.
  - apply regenerate_calls.
  - intros _. apply samePlan_refl.
Qed.

(** The paths of [regenerate] by what they leave: until it answers 200
    the plan is the one from before. *)
Lemma regenerate_refused (clock : Clock) (req : RegenerateRequest) (st : Store)
      (fs : Faults) :
  let result := run (regenerate StringToNumber generateItinerary clock req)
                    (mkWorld st fs []) in
  exists r,
    fst result = Returned r /\
    (status r <> 200 ->
     samePlanRows st (store (snd result)) /\
     (~ In (ReplacePlan, false) (calls (snd result)) ->
      samePlan st (store (snd result)))).
Proof.
  intros result.
  pose proof (regenerate_untouched StringToNumber generateItinerary st clock req fs)
    as Hinv.
  pose proof (regenerate_before_replace clock req st fs) as Hquiet.
  cbv zeta in Hquiet. fold result in Hinv, Hquiet.
  destruct (validTripId (StringToNumber (regenerate_id req))) eqn:Hvalid.
  2:{ subst result. unfold regenerate in *.
      unfold validTripId in Hvalid. apply negb_false_iff in Hvalid.
      rewrite Hvalid in *. cbn [run fst snd store] in *.
      eexists. split; [reflexivity|]. intros _.
      split; [apply samePlanRows_refl | intros _; apply samePlan_refl]. }
  subst result. rewrite (run_regenerate _ _ _ _ _ Hvalid) in *.
  cbn [fst snd] in *.
  set (tripId := Js.toZ (StringToNumber (regenerate_id req))) in *.
  set (userId := regenerate_userId req) in *.
  set (body := regenerateBody generateItinerary (newDate clock)
                              (dateNow clock + lockTtlMs) tripId userId
                              (regenerate_interests req)) in *.
  destruct (regenerate_try_returns generateItinerary (newDate clock)
              (dateNow clock + lockTtlMs) tripId userId
              (regenerate_interests req) (mkWorld st fs [])) as [r Hr].
  fold body in Hr. exists r. split; [exact Hr|].
  intros Hstatus.
  assert (Hnot : ~ In (ReplacePlan, true)
                      (calls (snd (perform Unlock
                                     (prisma.trip.updateMany
                                        (unlockWhere tripId userId)
                                        (set_regenLockUntil None))
                                     (snd (run (tryCatch body
                                                  (Return (json 500 "Server error")))
                                               (mkWorld st fs []))))))).
  { rewrite perform_calls, run_tryCatch_Return_world.
    pose proof (regenerateBody_replaced (newDate clock)
                  (dateNow clock + lockTtlMs) tripId userId
                  (regenerate_interests req) (mkWorld st fs []))
      as (pre & Hpre & Hrepl).
    fold body in Hpre, Hrepl. cbn [calls] in Hpre. rewrite app_nil_r in Hpre.
    rewrite Hpre. intros [H | H]; [inversion H|].
    destruct (Hrepl H) as (r' & Hr' & H200).
    rewrite run_tryCatch in Hr.
    destruct (run body (mkWorld st fs [])) as [c w1]. cbn [fst] in *.
    subst c. cbn [fst] in Hr. injection Hr as <-. contradiction. }
  split; [apply Hinv, Hnot|].
  intros Hnone. apply Hquiet. intros [|]; assumption.
Qed.

End RegenerateRefused.

(** X12. [regenerate] replaces the plan only when it answers 200: the
    request always ends by a [return], and on every other status (400,
    403, 404, 409, 500), whatever store call failed, the DayPlan and
    PlannedActivity tables and the catalog are the ones from before, and
    so is every trip up to its lock field; the id sequences are where
    they were, unless it was the replace transaction that rejected: then
    they are where they were or further on, by the ids its body drew. *)
Theorem regenerate_refused_keeps_plan
        (StringToNumber : string -> Js.Number)
        (generateItinerary : list Activity -> Z -> string -> option Plan)
        (clock : Clock) (req : RegenerateRequest) (st : Store) (fs : Faults) :
  let result := run (regenerate StringToNumber generateItinerary clock req)
                    (mkWorld st fs []) in
  exists r,
    fst result = Returned r /\
    (status r <> 200 ->
     dayPlans (store (snd result)) = dayPlans st /\
     plannedActivities (store (snd result)) = plannedActivities st /\
     activities (store (snd result)) = activities st /\
     map (set_regenLockUntil None) (trips (store (snd result)))
     = map (set_regenLockUntil None) (trips st) /\
     advanced st (store (snd result)) /\
     (~ In (ReplacePlan, false) (calls (snd result)) ->
      nextDayPlanId (store (snd result)) = nextDayPlanId st /\
      nextPlannedActivityId (store (snd result)) = nextPlannedActivityId st /\
      nextTripId (store (snd result)) = nextTripId st)).
Proof.
  intros result.
  destruct (regenerate_refused StringToNumber generateItinerary clock req st fs)
    as (r & Hr & Hsame).
  exists r. split; [exact Hr|]. intros Hstatus.
  destruct (Hsame Hstatus) as [Hrows Hquiet].
  apply samePlanRows_tables in Hrows.
  destruct Hrows as (Hd & Hp & Ha & Ht & Hadv).
  repeat (split; [assumption|]).
  intros Hnone. apply samePlan_tables in Hquiet; [|exact Hnone].
  destruct Hquiet as (_ & _ & _ & Hn1 & Hn2 & Hn3 & _). auto.
Qed.

(** The replace transaction fails after it has deleted the old plan and
    created one DayPlan: the old plan is back, and the id of that DayPlan
    is spent. *)
Lemma regenerate_refused_keeps_plan_witness :
  let result := run (regenerate Sample.StringToNumber Sample.planner
                                (mkClock 1000 1000) Sample.regenerateParis)
                    (mkWorld Sample.store0
                             [false; false; false; false; false; false; false;
                              true] []) in
  dayPlans (store (snd result)) = dayPlans Sample.store0 /\
  plannedActivities (store (snd result)) = plannedActivities Sample.store0 /\
  nextDayPlanId Sample.store0 = 3 /\ nextDayPlanId (store (snd result)) = 4.
Proof.
  intros result.
  destruct (regenerate_refused_keeps_plan
              Sample.StringToNumber Sample.planner (mkClock 1000 1000)
              Sample.regenerateParis Sample.store0
              [false; false; false; false; false; false; false; true])
    as (r & Hr & H).
  assert (Hstatus : status r <> 200).
  { vm_compute in Hr. injection Hr as <-. discriminate. }
  destruct (H Hstatus) as (H1 & H2 & _).
  split; [exact H1|]. split; [exact H2|]. vm_compute. split; reflexivity.
Defined.

Lemma updateMany_nowhere (where_ : Trip -> bool) (data : Trip -> Trip) (s : Store) :
  filter where_ (trips s) = [] ->
  with_trips (map (fun t => if where_ t then data t else t) (trips s)) s = s.
Proof.
  intros Hnone.
  assert (E : map (fun t => if where_ t then data t else t) (trips s) = trips s).
  { rewrite <- (map_id (trips s)) at 2. apply map_ext_in. intros t Ht.
    destruct (where_ t) eqn:Hw; [|reflexivity].
    assert (Hin : In t (filter where_ (trips s))) by (apply filter_In; auto).
    rewrite Hnone in Hin. contradiction. }
  rewrite E. destruct s; reflexivity.
Qed.

(** A request on a trip the caller has no row of ends before the lock is
    asked for, and its unlocking write finds no row. *)
Lemma regenerate_not_owner
        (StringToNumber : string -> Js.Number)
        (generateItinerary : list Activity -> Z -> string -> option Plan)
        (clock : Clock) (req : RegenerateRequest) (st : Store) (fs : Faults) :
  let tripId := Js.toZ (StringToNumber (regenerate_id req)) in
  let userId := regenerate_userId req in
  let result := run (regenerate StringToNumber generateItinerary clock req)
                    (mkWorld st fs []) in
  tripRows tripId userId st = [] ->
  exists r,
    fst result = Returned r /\
    (status r = 404 \/ status r = 403 \/ status r = 500) /\
    store (snd result) = st.
Proof.
  intros tripId userId result Hnone.
  destruct (validTripId (StringToNumber (regenerate_id req))) eqn:Hvalid.
  2:{ subst result. unfold regenerate.
      unfold validTripId in Hvalid. apply negb_false_iff in Hvalid.
      rewrite Hvalid. cbn [run fst snd store].
      eexists. split; [reflexivity|]. split; [left|]; reflexivity. }
  subst result. rewrite (run_regenerate _ _ _ _ _ Hvalid).
  fold tripId userId. cbn [fst snd].
  assert (Htried : exists r w1,
             run (tryCatch (regenerateBody generateItinerary (newDate clock)
                              (dateNow clock + lockTtlMs) tripId userId
                              (regenerate_interests req))
                           (Return (json 500 "Server error"))) (mkWorld st fs [])
             = (Returned r, w1) /\
             (status r = 404 \/ status r = 403 \/ status r = 500) /\
             store w1 = st).
  { rewrite run_tryCatch. unfold regenerateBody. cbn [bind Monad_Prog].
    step_await. unfold prisma.trip.findUnique. rewrite perform_db_call.
    cbn [faults store calls].
    destruct (next_fault fs) as [[|] fs1]; cbn [fst snd run].
    { eexists _, _. split; [reflexivity|]. split; [auto | reflexivity]. }
    destruct (find (fun t => trip_id t =? tripId) (trips st)) as [base|] eqn:Hfind;
      cbn [fst snd run].
    2:{ eexists _, _. split; [reflexivity|]. split; [auto | reflexivity]. }
    destruct (trip_userId base =? userId) eqn:Howner; cbn [negb run].
    2:{ eexists _, _. split; [reflexivity|]. split; [auto | reflexivity]. }
    exfalso. destruct (find_trip_some _ _ Hfind) as [Hin Hid].
    assert (Hrow : In base (tripRows tripId userId st)).
    { apply filter_In. split; [exact Hin|]. unfold unlockWhere.
      rewrite Howner. apply Z.eqb_eq in Hid. rewrite Hid. reflexivity. }
    rewrite Hnone in Hrow. contradiction. }
  destruct Htried as (r & w1 & -> & Hstatus & Hstore).
  exists r. cbn [fst snd]. split; [reflexivity|]. split; [exact Hstatus|].
  unfold prisma.trip.updateMany. rewrite perform_db_call.
  destruct (next_fault (faults w1)) as [[|] fs2]; cbn [snd store];
    [exact Hstore|].
  rewrite Hstore. apply updateMany_nowhere. exact Hnone.
Qed.

(** X13. [regenerate] changes nothing for a caller who does not own the
    trip: when no trip with the id of the request belongs to the caller,
    the answer is 404, 403 or 500 and, whatever store call failed, the
    store is exactly the one from before, lock fields included. *)
Theorem regenerate_foreign_trip_untouched
        (StringToNumber : string -> Js.Number)
        (generateItinerary : list Activity -> Z -> string -> option Plan)
        (clock : Clock) (req : RegenerateRequest) (st : Store) (fs : Faults) :
  let tripId := Js.toZ (StringToNumber (regenerate_id req)) in
  let userId := regenerate_userId req in
  let result := run (regenerate StringToNumber generateItinerary clock req)
                    (mkWorld st fs []) in
  tripRows tripId userId st = [] ->
  exists r,
    fst result = Returned r /\
    (status r = 404 \/ status r = 403 \/ status r = 500) /\
    store (snd result) = st.
Proof.
  exact (regenerate_not_owner StringToNumber generateItinerary clock req st fs).
Qed.

Lemma regenerate_foreign_trip_untouched_witness :
  let result := run (regenerate Sample.StringToNumber Sample.planner
                                (mkClock 1000 1000)
                                (mkRegenerateRequest 8 "1" None))
                    (mkWorld Sample.store0 [] []) in
  exists r,
    fst result = Returned r /\
    (status r = 404 \/ status r = 403 \/ status r = 500) /\
    store (snd result) = Sample.store0.
Proof.
  apply (regenerate_foreign_trip_untouched
           Sample.StringToNumber Sample.planner (mkClock 1000 1000)
           (mkRegenerateRequest 8 "1" None) Sample.store0 []).
  reflexivity.
Defined.

(* ===================================================================== *)
(** ** Consistency of the keys, and the trips a request is not about *)
(* ===================================================================== *)

Lemma othersKept_refl (tripId : Z) (s : Store) : othersKept tripId s s.
Proof. repeat split; reflexivity. Qed.

Lemma In_dayPlansOf (dp : DayPlan) (s : Store) :
  In dp (dayPlans s) <-> In dp (dayPlansOf (dayPlan_tripId dp) s).
Proof.
  unfold dayPlansOf. rewrite filter_In, Z.eqb_eq. tauto.
Qed.

Lemma othersKept_trans (tripId : Z) (s1 s2 s3 : Store) :
  othersKept tripId s1 s2 -> othersKept tripId s2 s3 -> othersKept tripId s1 s3.
Proof.
  intros (Ht & Hd & Hp & Ha) (Ht' & Hd' & Hp' & Ha'). repeat split.
  - intros other Ho. rewrite (Ht' other Ho). apply Ht, Ho.
  - intros other Ho. rewrite (Hd' other Ho). apply Hd, Ho.
  - intros dp Hdp Hne. rewrite <- (Hp dp Hdp Hne). apply Hp'; [|exact Hne].
    apply In_dayPlansOf. rewrite (Hd _ Hne). apply In_dayPlansOf, Hdp.
  - congruence.
Qed.

Lemma servesTrip_refl (tripId : Z) (s : Store) : servesTrip tripId s s.
Proof. intros Hc Ht. auto using othersKept_refl. Qed.

Lemma servesTrip_trans (tripId : Z) (s1 s2 s3 : Store) :
  servesTrip tripId s1 s2 -> servesTrip tripId s2 s3 -> servesTrip tripId s1 s3.
Proof.
  intros H12 H23 Hc Ht.
  destruct (H12 Hc Ht) as (Hc2 & Ht2 & Hk12).
  destruct (H23 Hc2 Ht2) as (Hc3 & Ht3 & Hk23).
  eauto using othersKept_trans.
Qed.

Lemma othersKept_tripView (tripId other : Z) (s s' : Store) :
  othersKept tripId s s' -> other <> tripId ->
  prisma.trip.tripView s' other = prisma.trip.tripView s other.
Proof.
  intros (Ht & Hd & Hp & Ha) Ho. apply tripView_ext; auto.
  intros dp Hdp. unfold dayPlansOf in Hdp. apply filter_In in Hdp.
  destruct Hdp as [Hin Htrip]. apply Z.eqb_eq in Htrip.
  apply Hp; [exact Hin | lia].
Qed.

(** *** The ids of new rows *)

Lemma In_handedOut (next : Z) (n : nat) (x : Z) :
  In x (handedOut next n) <-> next <= x < next + Z.of_nat n.
Proof.
  unfold handedOut. rewrite in_map_iff. split.
  - intros (k & <- & Hk). apply in_seq in Hk. lia.
  - intros H. exists (Z.to_nat (x - next)). split; [lia|].
    apply in_seq. lia.
Qed.

Lemma handedOut_S (next : Z) (n : nat) :
  handedOut next (S n) = next :: handedOut (next + 1) n.
Proof.
  unfold handedOut. cbn [seq map]. f_equal; [lia|].
  rewrite <- seq_shift, map_map. apply map_ext. intros k. lia.
Qed.

Lemma handedOut_app (next : Z) (n m : nat) :
  handedOut next (n + m) = handedOut next n ++ handedOut (next + Z.of_nat n) m.
Proof.
  revert next. induction n as [|n IH]; intros next.
  - simpl. f_equal. lia.
  - cbn [Nat.add]. rewrite !handedOut_S, IH. cbn [app]. do 3 f_equal. lia.
Qed.

Lemma NoDup_handedOut (next : Z) (n : nat) : NoDup (handedOut next n).
Proof.
  revert next. induction n as [|n IH]; intros next; [constructor|].
  rewrite handedOut_S. constructor; [|apply IH].
  rewrite In_handedOut. lia.
Qed.

Lemma dayPlanRows_ids (tripId next : Z) (days : list Z) :
  map dayPlan_id (dayPlanRows tripId next days)
  = handedOut next (List.length days).
Proof.
  revert next. induction days as [|d l IH]; intros next; [reflexivity|].
  cbn [dayPlanRows map List.length dayPlan_id].
  rewrite handedOut_S, IH. reflexivity.
Qed.

Lemma dayPlanRows_trip (tripId next : Z) (days : list Z) (dp : DayPlan) :
  In dp (dayPlanRows tripId next days) -> dayPlan_tripId dp = tripId.
Proof.
  intros H. destruct (dayPlanRows_spec _ _ _ _ H) as (k & _ & ->). reflexivity.
Qed.

Lemma plannedActivityRows_ids (dayPlanId next : Z) (items : list (Z * Activity)) :
  map plannedActivity_id (plannedActivityRows dayPlanId next items)
  = handedOut next (List.length (plannedActivityRows dayPlanId next items)).
Proof.
  revert next. induction items as [|[i item] l IH]; intros next; [reflexivity|].
  cbn [plannedActivityRows map List.length plannedActivity_id].
  rewrite handedOut_S, IH. reflexivity.
Qed.

Lemma planRows_ids (dps : list DayPlan) (plan : Plan) (next : Z) (days : list Z) :
  map plannedActivity_id (planRows dps plan next days)
  = handedOut next (List.length (planRows dps plan next days)).
Proof.
  revert next. induction days as [|d l IH]; intros next; [reflexivity|].
  cbn [planRows]. cbv zeta.
  rewrite map_app, length_app, handedOut_app, IH. f_equal.
  destruct (nth_error dps (Z.to_nat (d - 1))) as [dp|]; [|reflexivity].
  apply plannedActivityRows_ids.
Qed.

Lemma NoDup_app_fresh (old : list Z) (next : Z) (n : nat) :
  NoDup old -> (forall x, In x old -> x < next) ->
  NoDup (old ++ handedOut next n).
Proof.
  intros Hnd Hold. apply NoDup_app; [exact Hnd | apply NoDup_handedOut|].
  intros x Hx Hin. apply In_handedOut in Hin. specialize (Hold x Hx). lia.
Qed.

(** *** The stores the writes leave *)

Lemma inIds_true (ids : list Z) (pa : PlannedActivity) :
  prisma.plannedActivity.inIds ids pa = true
  <-> In (plannedActivity_dayPlanId pa) ids.
Proof.
  unfold prisma.plannedActivity.inIds. rewrite existsb_exists. split.
  - intros (i & Hi & E). apply Z.eqb_eq in E. rewrite E. exact Hi.
  - intros H. eexists. split; [exact H | apply Z.eqb_refl].
Qed.

Lemma dayPlan_by_id (s : Store) (dp dp' : DayPlan) :
  consistent s -> In dp (dayPlans s) -> In dp' (dayPlans s) ->
  dayPlan_id dp = dayPlan_id dp' -> dp = dp'.
Proof.
  intros Hc. apply NoDup_map_eq, (dayPlan_ids_distinct Hc).
Qed.

(** The rows that go with the DayPlans of a trip are those of no other
    DayPlan. *)
Lemma plannedActivities_kept (tripId : Z) (s : Store) (dp : DayPlan) :
  consistent s -> In dp (dayPlans s) -> dayPlan_tripId dp <> tripId ->
  filter (fun pa => plannedActivity_dayPlanId pa =? dayPlan_id dp)
         (filter (fun pa => negb (prisma.plannedActivity.inIds
                                    (map dayPlan_id (dayPlansOf tripId s)) pa))
                 (plannedActivities s))
  = plannedActivitiesOf dp s.
Proof.
  intros Hc Hdp Hne. apply filter_filter_implies.
  intros pa _ Hpa. apply Z.eqb_eq in Hpa. apply negb_true_iff.
  destruct (prisma.plannedActivity.inIds _ pa) eqn:E; [|reflexivity].
  exfalso. apply inIds_true in E. apply in_map_iff in E.
  destruct E as (dp' & Hid & Hdp'). unfold dayPlansOf in Hdp'.
  apply filter_In in Hdp'. destruct Hdp' as [Hin' Htrip'].
  apply Z.eqb_eq in Htrip'.
  assert (dp' = dp) by (apply (@dayPlan_by_id s dp' dp Hc); auto; lia).
  subst dp'. contradiction.
Qed.

Lemma cleared_tables (tripId : Z) (s : Store) :
  cleared tripId s
  = mkStore (activities s) (trips s)
            (filter (fun dp => negb (dayPlan_tripId dp =? tripId)) (dayPlans s))
            (filter (fun pa => negb (prisma.plannedActivity.inIds
                                       (map dayPlan_id (dayPlansOf tripId s)) pa))
                    (plannedActivities s))
            (nextTripId s) (nextDayPlanId s) (nextPlannedActivityId s).
Proof.
  unfold cleared, dayPlansOf.
  destruct (0 <? Z.of_nat (List.length (map dayPlan_id _))) eqn:E; [reflexivity|].
  apply Z.ltb_ge in E. rewrite length_map in E.
  destruct (filter (fun dp => dayPlan_tripId dp =? tripId) (dayPlans s))
    as [|dp l] eqn:Hnone; [|simpl in E; lia].
  cbn [map].
  assert (Hd : filter (fun dp => negb (dayPlan_tripId dp =? tripId)) (dayPlans s)
               = dayPlans s).
  { apply filter_all. intros dp Hdp.
    destruct (dayPlan_tripId dp =? tripId) eqn:Htrip; [|reflexivity].
    assert (Hin : In dp (filter (fun dp => dayPlan_tripId dp =? tripId)
                                (dayPlans s))) by (apply filter_In; auto).
    rewrite Hnone in Hin. contradiction. }
  assert (Hp : filter (fun pa => negb (prisma.plannedActivity.inIds [] pa))
                      (plannedActivities s) = plannedActivities s).
  { apply filter_all. reflexivity. }
  rewrite Hd, Hp. destruct s; reflexivity.
Qed.

Lemma consistent_removed (tripId : Z) (ts : list Trip) (s : Store) :
  consistent s ->
  NoDup (map trip_id ts) ->
  (forall t, In t ts -> In t (trips s)) ->
  (forall t, In t (trips s) -> trip_id t <> tripId -> In t ts) ->
  consistent
    (mkStore (activities s) ts
             (filter (fun dp => negb (dayPlan_tripId dp =? tripId)) (dayPlans s))
             (filter (fun pa => negb (prisma.plannedActivity.inIds
                                        (map dayPlan_id (dayPlansOf tripId s)) pa))
                     (plannedActivities s))
             (nextTripId s) (nextDayPlanId s) (nextPlannedActivityId s)).
Proof.
  intros Hc Hnd Hsub Hkeep. constructor; cbn.
  - exact Hnd.
  - intros t Ht. apply (trip_ids_used Hc), Hsub, Ht.
  - apply NoDup_map_filter, (dayPlan_ids_distinct Hc).
  - intros dp Hdp. apply filter_In in Hdp. apply (dayPlan_ids_used Hc), Hdp.
  - apply NoDup_map_filter, (plannedActivity_ids_distinct Hc).
  - intros pa Hpa. apply filter_In in Hpa.
    apply (plannedActivity_ids_used Hc), Hpa.
  - intros dp Hdp. apply filter_In in Hdp. destruct Hdp as [Hdp Hne].
    apply negb_true_iff, Z.eqb_neq in Hne.
    destruct (dayPlan_of_trip Hc dp Hdp) as (t & Ht & Hid).
    exists t. split; [|exact Hid]. apply Hkeep; [exact Ht | lia].
  - intros pa Hpa. apply filter_In in Hpa. destruct Hpa as [Hpa Hout].
    apply negb_true_iff in Hout.
    destruct (plannedActivity_of_dayPlan Hc pa Hpa) as (dp & Hdp & Hid).
    exists dp. split; [|exact Hid]. apply filter_In. split; [exact Hdp|].
    apply negb_true_iff, Z.eqb_neq. intros Htrip.
    assert (E : prisma.plannedActivity.inIds
                  (map dayPlan_id (dayPlansOf tripId s)) pa = true).
    { apply inIds_true. rewrite <- Hid. apply in_map.
      apply filter_In. split; [exact Hdp | apply Z.eqb_eq, Htrip]. }
    congruence.
Qed.

Lemma consistent_cleared (tripId : Z) (s : Store) :
  consistent s -> consistent (cleared tripId s).
Proof.
  intros Hc. rewrite cleared_tables.
  apply consistent_removed; auto. apply (trip_ids_distinct Hc).
Qed.

Lemma without_tables (tripId : Z) (s : Store) :
  prisma.trip.without tripId s
  = mkStore (activities s)
            (filter (fun t => negb (trip_id t =? tripId)) (trips s))
            (filter (fun dp => negb (dayPlan_tripId dp =? tripId)) (dayPlans s))
            (filter (fun pa => negb (prisma.plannedActivity.inIds
                                       (map dayPlan_id (dayPlansOf tripId s)) pa))
                    (plannedActivities s))
            (nextTripId s) (nextDayPlanId s) (nextPlannedActivityId s).
Proof. reflexivity. Qed.

Lemma consistent_without (tripId : Z) (s : Store) :
  consistent s -> consistent (prisma.trip.without tripId s).
Proof.
  intros Hc. rewrite without_tables. apply consistent_removed; auto.
  - apply NoDup_map_filter, (trip_ids_distinct Hc).
  - intros t Ht. apply filter_In in Ht. apply Ht.
  - intros t Ht Hne. apply filter_In. split; [exact Ht|].
    apply negb_true_iff, Z.eqb_neq, Hne.
Qed.

Lemma consistent_trips_mapped (f : Trip -> Trip) (s : Store) :
  (forall t, trip_id (f t) = trip_id t) ->
  consistent s -> consistent (with_trips (map f (trips s)) s).
Proof.
  intros Hf Hc. constructor; cbn.
  - rewrite map_map. rewrite (map_ext _ trip_id) by exact Hf.
    apply (trip_ids_distinct Hc).
  - intros t Ht. apply in_map_iff in Ht. destruct Ht as (t0 & <- & Ht0).
    rewrite Hf. apply (trip_ids_used Hc), Ht0.
  - apply (dayPlan_ids_distinct Hc).
  - apply (dayPlan_ids_used Hc).
  - apply (plannedActivity_ids_distinct Hc).
  - apply (plannedActivity_ids_used Hc).
  - intros dp Hdp. destruct (dayPlan_of_trip Hc dp Hdp) as (t & Ht & Hid).
    exists (f t). split; [apply in_map, Ht | rewrite Hf; exact Hid].
  - apply (plannedActivity_of_dayPlan Hc).
Qed.

Lemma hasTrip_trips_mapped (tripId : Z) (f : Trip -> Trip) (s : Store) :
  (forall t, trip_id (f t) = trip_id t) ->
  hasTrip tripId s -> hasTrip tripId (with_trips (map f (trips s)) s).
Proof.
  intros Hf (t & Ht & Hid). exists (f t). cbn.
  split; [apply in_map, Ht | rewrite Hf; exact Hid].
Qed.

Lemma consistent_planted (tripId days : Z) (plan : Plan) (s : Store) :
  consistent s -> hasTrip tripId s -> consistent (planted tripId days plan s).
Proof.
  intros Hc Ht. unfold planted.
  set (dps := dayPlanRows tripId (nextDayPlanId s) (upto days)).
  set (pas := planRows dps plan _ (upto days)).
  constructor; cbn.
  - apply (trip_ids_distinct Hc).
  - apply (trip_ids_used Hc).
  - rewrite map_app. unfold dps. rewrite dayPlanRows_ids.
    apply NoDup_app_fresh; [apply (dayPlan_ids_distinct Hc)|].
    intros x Hx. apply in_map_iff in Hx. destruct Hx as (dp & <- & Hdp).
    apply (dayPlan_ids_used Hc), Hdp.
  - intros dp Hdp. apply in_app_iff in Hdp. destruct Hdp as [Hdp | Hdp].
    + pose proof (dayPlan_ids_used Hc dp Hdp). lia.
    + assert (Hid : In (dayPlan_id dp) (map dayPlan_id dps))
        by (apply in_map, Hdp).
      unfold dps in Hid at 1. rewrite dayPlanRows_ids in Hid.
      apply In_handedOut in Hid. fold dps in Hid.
      assert (E : List.length dps = List.length (upto days)).
      { unfold dps. rewrite <- (length_map dayPlan_id), dayPlanRows_ids.
        unfold handedOut. rewrite length_map, length_seq. reflexivity. }
      lia.
  - rewrite map_app. unfold pas. rewrite planRows_ids.
    apply NoDup_app_fresh; [apply (plannedActivity_ids_distinct Hc)|].
    intros x Hx. apply in_map_iff in Hx. destruct Hx as (pa & <- & Hpa).
    apply (plannedActivity_ids_used Hc), Hpa.
  - intros pa Hpa. apply in_app_iff in Hpa. destruct Hpa as [Hpa | Hpa].
    + pose proof (plannedActivity_ids_used Hc pa Hpa). lia.
    + assert (Hid : In (plannedActivity_id pa) (map plannedActivity_id pas))
        by (apply in_map, Hpa).
      unfold pas in Hid at 1. rewrite planRows_ids in Hid.
      apply In_handedOut in Hid. fold pas in Hid.
      cbn [nextPlannedActivityId addDayPlans] in Hid. lia.
  - intros dp Hdp. apply in_app_iff in Hdp. destruct Hdp as [Hdp | Hdp].
    + apply (dayPlan_of_trip Hc), Hdp.
    + rewrite (dayPlanRows_trip _ _ _ _ Hdp). exact Ht.
  - intros pa Hpa. apply in_app_iff in Hpa. destruct Hpa as [Hpa | Hpa].
    + destruct (plannedActivity_of_dayPlan Hc pa Hpa) as (dp & Hdp & Hid).
      exists dp. split; [apply in_app_iff; left; exact Hdp | exact Hid].
    + destruct (In_planRows _ _ _ _ _ Hpa) as (dp & Hdp & Hid).
      exists dp. split; [apply in_app_iff; right; exact Hdp | symmetry; exact Hid].
Qed.

(** *** What the writes leave of the other trips *)

Lemma othersKept_removed (tripId : Z) (ts : list Trip) (s : Store) :
  consistent s ->
  (forall other, other <> tripId ->
     find (fun t => trip_id t =? other) ts
     = find (fun t => trip_id t =? other) (trips s)) ->
  othersKept tripId s
    (mkStore (activities s) ts
             (filter (fun dp => negb (dayPlan_tripId dp =? tripId)) (dayPlans s))
             (filter (fun pa => negb (prisma.plannedActivity.inIds
                                        (map dayPlan_id (dayPlansOf tripId s)) pa))
                     (plannedActivities s))
             (nextTripId s) (nextDayPlanId s) (nextPlannedActivityId s)).
Proof.
  intros Hc Hts. repeat split; cbn.
  - exact Hts.
  - intros other Ho. unfold dayPlansOf. cbn. apply filter_filter_implies.
    intros dp _ Hdp. apply Z.eqb_eq in Hdp. apply negb_true_iff, Z.eqb_neq. lia.
  - intros dp Hdp Hne. unfold plannedActivitiesOf at 1. cbn.
    apply plannedActivities_kept; assumption.
Qed.

Lemma othersKept_cleared (tripId : Z) (s : Store) :
  consistent s -> othersKept tripId s (cleared tripId s).
Proof.
  intros Hc. rewrite cleared_tables. apply othersKept_removed; auto.
Qed.

Lemma othersKept_without (tripId : Z) (s : Store) :
  consistent s -> othersKept tripId s (prisma.trip.without tripId s).
Proof.
  intros Hc. rewrite without_tables. apply othersKept_removed; auto.
  intros other Ho. apply find_filter_implies.
  intros t _ Ht. apply Z.eqb_eq in Ht. apply negb_true_iff, Z.eqb_neq. lia.
Qed.

Lemma othersKept_trips_mapped (tripId : Z) (f : Trip -> Trip) (s : Store) :
  (forall t, trip_id (f t) = trip_id t) ->
  (forall t, trip_id t <> tripId -> f t = t) ->
  othersKept tripId s (with_trips (map f (trips s)) s).
Proof.
  intros Hid Hf. repeat split; cbn.
  intros other Ho. rewrite find_map_trip by exact Hid.
  destruct (find (fun t => trip_id t =? other) (trips s)) as [t|] eqn:E;
    [|reflexivity].
  destruct (find_trip_some _ _ E) as [_ Ht]. cbn. f_equal. apply Hf. lia.
Qed.

Lemma othersKept_planted (tripId days : Z) (plan : Plan) (s : Store) :
  consistent s -> othersKept tripId s (planted tripId days plan s).
Proof.
  intros Hc. unfold planted. repeat split; cbn.
  - intros other Ho. unfold dayPlansOf. cbn. rewrite filter_app.
    rewrite (filter_none _ (dayPlanRows _ _ _)); [apply app_nil_r|].
    intros dp Hdp. apply Z.eqb_neq.
    rewrite (dayPlanRows_trip _ _ _ _ Hdp). lia.
  - intros dp Hdp Hne. unfold plannedActivitiesOf. cbn. rewrite filter_app.
    rewrite planRows_other; [apply app_nil_r|].
    intros d dp' _ Hnth. apply nth_error_In in Hnth.
    apply dayPlanRows_fresh in Hnth.
    pose proof (dayPlan_ids_used Hc dp Hdp). lia.
Qed.

Lemma hasTrip_find (tripId : Z) (s : Store) :
  hasTrip tripId s <->
  exists t, find (fun t => trip_id t =? tripId) (trips s) = Some t.
Proof.
  split.
  - intros (t & Ht & Hid).
    destruct (find (fun t => trip_id t =? tripId) (trips s)) as [t0|] eqn:E;
      [eauto|].
    exfalso. apply (find_none _ _ E) in Ht. apply Z.eqb_neq in Ht. auto.
  - intros (t & Ht). exists t. apply find_trip_some, Ht.
Qed.

Lemma reinterested_mapped (tripId : Z) (base : Trip) (interests : string)
      (s : Store) :
  exists f,
    reinterested tripId base interests s = with_trips (map f (trips s)) s /\
    (forall t, trip_id (f t) = trip_id t) /\
    (forall t, trip_id t <> tripId -> f t = t).
Proof.
  unfold reinterested. destruct (negb _).
  - exists (fun t => if trip_id t =? tripId then set_interests interests t else t).
    split; [reflexivity|]. split.
    + intros t. destruct (trip_id t =? tripId); reflexivity.
    + intros t Ht. apply Z.eqb_neq in Ht. rewrite Ht. reflexivity.
  - exists (fun t => t). rewrite map_id. split; [destruct s; reflexivity|].
    split; reflexivity.
Qed.

Lemma servesTrip_trips_mapped (tripId : Z) (f : Trip -> Trip) (s : Store) :
  (forall t, trip_id (f t) = trip_id t) ->
  (forall t, trip_id t <> tripId -> f t = t) ->
  servesTrip tripId s (with_trips (map f (trips s)) s).
Proof.
  intros Hid Hf Hc Ht.
  split; [apply consistent_trips_mapped; assumption|].
  split; [apply hasTrip_trips_mapped; assumption|].
  apply othersKept_trips_mapped; assumption.
Qed.

Lemma servesTrip_replaced (tripId : Z) (base : Trip) (interests : string)
      (plan : Plan) (s : Store) :
  servesTrip tripId s (replaced tripId base interests plan s).
Proof.
  unfold replaced.
  apply servesTrip_trans with (cleared tripId s).
  { intros Hc Ht. split; [apply consistent_cleared, Hc|].
    split; [|apply othersKept_cleared, Hc].
    destruct Ht as (t & Ht & Hid). exists t. rewrite trips_cleared. auto. }
  apply servesTrip_trans with (reinterested tripId base interests (cleared tripId s)).
  { destruct (reinterested_mapped tripId base interests (cleared tripId s))
      as (f & -> & Hid & Hf).
    apply servesTrip_trips_mapped; assumption. }
  intros Hc Ht. split; [apply consistent_planted; assumption|].
  split; [|apply othersKept_planted, Hc].
  destruct Ht as (t & Ht & Hid). exists t. unfold planted. cbn. auto.
Qed.

(** *** The store calls of [regenerate], one by one *)

Lemma servesTrip_lock (tripId : Z) (where_ : Trip -> bool) (v : option Z) :
  (forall t, where_ t = true -> trip_id t = tripId) ->
  Preserves (servesTrip tripId)
            (prisma.trip.updateMany where_ (set_regenLockUntil v)).
Proof.
  intros Hw. apply Preserves_db_call; [apply servesTrip_refl|].
  intros s x s' H. injection H as _ <-.
  apply servesTrip_trips_mapped.
  - intros t. destruct (where_ t); reflexivity.
  - intros t Ht. destruct (where_ t) eqn:E; [|reflexivity].
    apply Hw in E. contradiction.
Qed.

(** A rollback keeps the keys consistent: the sequences it leaves are
    beyond every id in the rows it restores. *)
Lemma consistent_rolledBack (s s' : Store) :
  advanced s s' -> consistent s -> consistent (rolledBack s s').
Proof.
  intros (Ht & Hd & Hp) [C1 C2 C3 C4 C5 C6 C7 C8].
  constructor; cbn [rolledBack trips dayPlans plannedActivities nextTripId
                    nextDayPlanId nextPlannedActivityId]; auto.
  - intros t Hin. specialize (C2 t Hin). lia.
  - intros dp Hin. specialize (C4 dp Hin). lia.
  - intros pa Hin. specialize (C6 pa Hin). lia.
Qed.

Lemma servesTrip_rolledBack (tripId : Z) (s s' : Store) :
  advanced s s' -> servesTrip tripId s (rolledBack s s').
Proof.
  intros Hadv Hc Ht. split; [apply consistent_rolledBack; assumption|].
  split; [exact Ht|]. repeat split; reflexivity.
Qed.

Lemma servesTrip_replacePlan (tripId : Z) (base : Trip) (interests : string)
      (plan : Plan) :
  Preserves (servesTrip tripId)
            (transaction (replacePlan tripId base interests plan)).
Proof.
  intros s fs. unfold transaction.
  pose proof (replacePlan_advanced tripId base interests plan s fs) as Hadv.
  destruct (replacePlan tripId base interests plan s fs) as [[[x|] s1] fs1] eqn:E;
    cbn [fst snd] in *; [|apply servesTrip_rolledBack, Hadv].
  intros Hc Ht. pose proof Ht as Hfind. apply hasTrip_find in Hfind.
  destruct Hfind as [t0 Hfind].
  destruct (proj1 (replacePlan_Computes tripId base interests plan s Hfind)
                  _ _ _ _ E) as [_ ->].
  apply servesTrip_replaced; assumption.
Qed.

Lemma servesTrip_read {X : Type} (tripId : Z) (f : Store -> X) :
  Preserves (servesTrip tripId) (db_call (fun s => Some (f s, s))).
Proof.
  apply Preserves_db_call; [apply servesTrip_refl|].
  intros s x s' H. injection H as _ <-. apply servesTrip_refl.
Qed.

Section RegenerateServes.

Variable StringToNumber : string -> Js.Number.
Variable generateItinerary : list Activity -> Z -> string -> option Plan.

Lemma regenerateBody_serves (now lockUntil tripId userId : Z)
      (incoming : option string) :
  everyAwait (fun _ X op => Preserves (servesTrip tripId) op)
    (regenerateBody generateItinerary now lockUntil tripId userId incoming).
Proof.
  unfold regenerateBody, regenerateLocked. cbn [bind Monad_Prog].
  apply everyAwait_bind.
  { apply everyAwait_await. apply servesTrip_read. }
  intros [base|]; [|exact I].
  destruct (negb (trip_userId base =? userId)); [exact I|].
  apply everyAwait_bind.
  { apply everyAwait_await. apply servesTrip_lock.
    intros t Ht. unfold acquireWhere in Ht.
    apply andb_true_iff in Ht. destruct Ht as [Ht _].
    apply andb_true_iff in Ht. destruct Ht as [Ht _].
    apply Z.eqb_eq, Ht. }
  intros lockResult. destruct (lockResult =? 0); [exact I|].
  apply everyAwait_bind.
  { destruct incoming as [s|]; [destruct (String.eqb (Js.trim s) "")|]; exact I. }
  intros _. apply everyAwait_bind.
  { apply everyAwait_await. apply servesTrip_read. }
  intros acts. apply everyAwait_bind.
  { apply everyAwait_call. }
  intros plan. apply everyAwait_bind; [|intros; exact I].
  apply everyAwait_await. apply servesTrip_replacePlan.
Qed.

Lemma regenerate_serves (clock : Clock) (req : RegenerateRequest) (w : World) :
  servesTrip (Js.toZ (StringToNumber (regenerate_id req)))
             (store w)
             (store (snd (run (regenerate StringToNumber generateItinerary
                                          clock req) w))).
Proof.
  apply run_Preserves; [apply servesTrip_refl | apply servesTrip_trans|].
  unfold regenerate.
  destruct (negb (Js.isInteger _) || Js.le _ _); [exact I|].
  unfold tryCatchFinally.
  apply everyAwait_tryFinally.
  - apply everyAwait_tryCatch; [apply regenerateBody_serves | exact I].
  - unfold unlock. apply everyAwait_tryCatch; [|exact I].
    apply (everyAwait_bind _ (await Unlock _) (fun _ => Pure tt));
      [|intros; exact I].
    apply everyAwait_await. apply servesTrip_lock.
    intros t Ht. unfold unlockWhere in Ht.
    apply andb_true_iff in Ht. destruct Ht as [Ht _]. apply Z.eqb_eq, Ht.
Qed.

End RegenerateServes.

(* ===================================================================== *)
(** ** Isolation of the trips, and the consistency of the keys *)
(* ===================================================================== *)

Lemma tripRows_none (tripId userId : Z) (s : Store) :
  ~ hasTrip tripId s -> tripRows tripId userId s = [].
Proof.
  intros Hno. unfold tripRows. apply filter_none. intros t Ht.
  destruct (unlockWhere tripId userId t) eqn:E; [|reflexivity].
  exfalso. apply Hno. exists t. split; [exact Ht|].
  apply unlockWhere_key in E. inversion E. reflexivity.
Qed.

Lemma hasTrip_dec (tripId : Z) (s : Store) :
  hasTrip tripId s \/ ~ hasTrip tripId s.
Proof.
  destruct (find (fun t => trip_id t =? tripId) (trips s)) as [t|] eqn:E.
  - left. apply hasTrip_find. eauto.
  - right. intros H. apply hasTrip_find in H. destruct H as [t H]. congruence.
Qed.

Section Isolation.

Variable StringToNumber : string -> Js.Number.
Variable generateItinerary : list Activity -> Z -> string -> option Plan.

(** A regeneration on a consistent store: the store stays consistent and
    the other trips are kept. *)
Lemma regenerate_isolated (clock : Clock) (req : RegenerateRequest) (st : Store)
      (fs : Faults) :
  let tripId := Js.toZ (StringToNumber (regenerate_id req)) in
  let s' := store (snd (run (regenerate StringToNumber generateItinerary clock req)
                            (mkWorld st fs []))) in
  consistent st -> consistent s' /\ othersKept tripId st s'.
Proof.
  intros tripId s' Hc. subst s'.
  destruct (hasTrip_dec tripId st) as [Ht | Hno].
  - destruct (regenerate_serves StringToNumber generateItinerary clock req
                                (mkWorld st fs []) Hc Ht) as (Hc' & _ & Hk).
    split; assumption.
  - destruct (regenerate_not_owner StringToNumber generateItinerary clock req st fs
                (tripRows_none (regenerate_userId req) Hno))
      as (r & _ & _ & ->).
    split; [exact Hc | apply othersKept_refl].
Qed.

(** The store a [POST /] leaves: the rows it found, or those with the
    new trip and its plan. *)
Lemma createTrip_store (req : CreateRequest) (st : Store) (fs : Faults) :
  let s' := store (snd (run (createTrip StringToNumber generateItinerary req)
                            (mkWorld st fs []))) in
  sameRows st s' \/
  exists userId destination days bud interests plan,
    s' = planted (nextTripId st) days plan
           (mkStore (activities st)
                    (trips st ++ [mkTrip (nextTripId st) userId destination days
                                         bud interests None])
                    (dayPlans st) (plannedActivities st) (nextTripId st + 1)
                    (nextDayPlanId st) (nextPlannedActivityId st)).
Proof.
  intros s'. subst s'.
  destruct (createTrip_paths StringToNumber generateItinerary req
                             (mkWorld st fs []))
    as (r & w' & Hrun & Hcases).
  rewrite Hrun. cbn [snd].
  destruct Hcases as [[_ ->] | [(_ & Hstore & _) | [(_ & Hrows & _) | Hstatus]]].
  - left. apply sameRows_refl.
  - left. rewrite Hstore. apply sameRows_refl.
  - left. exact Hrows.
  - right.
    destruct (createTrip_ok _ _ _ _ _ Hrun Hstatus)
      as (destination & interests & userId & bud & plan & _ & _ & _ & _ & _
          & _ & _ & Hstore).
    cbv zeta in Hstore. eauto 10.
Qed.

End Isolation.

Lemma consistent_sameRows (s s' : Store) :
  sameRows s s' -> consistent s -> consistent s'.
Proof.
  intros (Ha & Ht & Hd & Hp & Hn1 & Hn2 & Hn3) [C1 C2 C3 C4 C5 C6 C7 C8].
  constructor; rewrite ?Ht, ?Hd, ?Hp; auto.
  - intros t Hin. specialize (C2 t Hin). lia.
  - intros dp Hin. specialize (C4 dp Hin). lia.
  - intros pa Hin. specialize (C6 pa Hin). lia.
Qed.

Lemma tripView_sameRows (s s' : Store) (id : Z) :
  sameRows s s' -> prisma.trip.tripView s' id = prisma.trip.tripView s id.
Proof.
  intros (Ha & Ht & Hd & Hp & _).
  unfold prisma.trip.tripView, prisma.trip.dayPlanView,
    prisma.trip.plannedActivityView.
  rewrite Ha, Ht, Hd, Hp. reflexivity.
Qed.

Lemma consistent_created (t : Trip) (s : Store) :
  consistent s -> trip_id t = nextTripId s ->
  let created := mkStore (activities s) (trips s ++ [t]) (dayPlans s)
                         (plannedActivities s) (nextTripId s + 1)
                         (nextDayPlanId s) (nextPlannedActivityId s) in
  consistent created /\ hasTrip (nextTripId s) created /\
  othersKept (nextTripId s) s created.
Proof.
  intros Hc Hid created. subst created. split; [|split].
  - constructor; cbn.
    + rewrite map_app. cbn [map]. rewrite Hid.
      apply NoDup_app; [apply (trip_ids_distinct Hc) | |].
      * constructor; [intros [] | constructor].
      * intros x Hx [<- | []]. apply in_map_iff in Hx.
        destruct Hx as (t' & E & Ht').
        pose proof (trip_ids_used Hc t' Ht'). lia.
    + intros t' Ht'. apply in_app_iff in Ht'.
      destruct Ht' as [Ht' | [<- | []]];
        [pose proof (trip_ids_used Hc t' Ht') |]; lia.
    + apply (dayPlan_ids_distinct Hc).
    + apply (dayPlan_ids_used Hc).
    + apply (plannedActivity_ids_distinct Hc).
    + apply (plannedActivity_ids_used Hc).
    + intros dp Hdp. destruct (dayPlan_of_trip Hc dp Hdp) as (t' & Ht' & Hid').
      exists t'. split; [apply in_app_iff; left; exact Ht' | exact Hid'].
    + apply (plannedActivity_of_dayPlan Hc).
  - exists t. cbn. split; [apply in_app_iff; right; left; reflexivity | exact Hid].
  - repeat split; cbn.
    intros other Ho. induction (trips s) as [|x l IH]; cbn.
    + rewrite Hid. destruct (Z.eqb_spec (nextTripId s) other); [lia | reflexivity].
    + destruct (trip_id x =? other); [reflexivity | exact IH].
Qed.

(** X14. Regenerating one trip leaves every other trip alone: on a store
    whose keys are consistent, whatever the request, its answer and the
    store calls that failed, every trip with another id is afterwards
    what [GET /:id] showed before: the same row, lock field included,
    with the same days and activities. *)
Theorem regenerate_keeps_other_trips
        (StringToNumber : string -> Js.Number)
        (generateItinerary : list Activity -> Z -> string -> option Plan)
        (clock : Clock) (req : RegenerateRequest) (st : Store) (fs : Faults)
        (other : Z) :
  let s' := store (snd (run (regenerate StringToNumber generateItinerary clock req)
                            (mkWorld st fs []))) in
  consistent st ->
  other <> Js.toZ (StringToNumber (regenerate_id req)) ->
  prisma.trip.tripView s' other = prisma.trip.tripView st other.
Proof.
  intros s' Hc Hother. subst s'.
  destruct (regenerate_isolated StringToNumber generateItinerary clock req fs Hc)
    as [_ Hk].
  apply (othersKept_tripView Hk Hother).
Qed.

Lemma regenerate_keeps_other_trips_witness :
  prisma.trip.tripView
    (store (snd (run (regenerate Sample.StringToNumber Sample.planner
                                 (mkClock 1000 1000) Sample.regenerateOslo)
                     (mkWorld Sample.store1 [] []))))
    1
  = prisma.trip.tripView Sample.store1 1.
Proof.
  apply (@regenerate_keeps_other_trips
           Sample.StringToNumber Sample.planner (mkClock 1000 1000)
           Sample.regenerateOslo Sample.store1 [] 1 consistent_store1).
  vm_compute. discriminate.
Defined.

(** X15. The three handlers that write keep the keys of the store
    consistent: after [POST /], after [regenerate] and after
    [DELETE /:id] on a consistent store, whatever they answered and
    whatever store call failed, ids are still distinct and below their
    sequences, every DayPlan still belongs to a trip and every
    PlannedActivity to a DayPlan. *)
Theorem writes_keep_keys_consistent
        (StringToNumber : string -> Js.Number)
        (generateItinerary : list Activity -> Z -> string -> option Plan)
        (st : Store) (fs : Faults) :
  consistent st ->
  (forall req,
      consistent (store (snd (run (createTrip StringToNumber generateItinerary req)
                                  (mkWorld st fs []))))) /\
  (forall clock req,
      consistent (store (snd (run (regenerate StringToNumber generateItinerary
                                              clock req)
                                  (mkWorld st fs []))))) /\
  (forall cascade userId id,
      consistent (snd (fst (serve serverError
                                  (deleteTrip StringToNumber cascade userId id)
                                  st fs)))).
Proof.
  intros Hc. split; [|split].
  - intros req.
    destruct (createTrip_store StringToNumber generateItinerary req st fs)
      as [Hrows | (userId & destination & days & bud & interests & plan & ->)];
      [exact (consistent_sameRows Hrows Hc)|].
    destruct (@consistent_created
                (mkTrip (nextTripId st) userId destination days bud interests None)
                st Hc eq_refl) as (Hc' & Ht' & _).
    apply consistent_planted; assumption.
  - intros clock req.
    apply (regenerate_isolated StringToNumber generateItinerary clock req fs Hc).
  - intros cascade userId id.
    destruct (deleteTrip_paths StringToNumber cascade userId id st fs)
      as [[_ ->] | (_ & _ & _ & -> & _)]; [exact Hc|].
    apply consistent_without, Hc.
Qed.

Lemma writes_keep_keys_consistent_witness :
  consistent (store (snd (run (createTrip Sample.StringToNumber Sample.planner
                                          Sample.createRome)
                              (mkWorld Sample.store0 [] [])))) /\
  consistent (store (snd (run (regenerate Sample.StringToNumber Sample.planner
                                          (mkClock 1000 1000)
                                          Sample.regenerateParis)
                              (mkWorld Sample.store0 [] [])))) /\
  consistent (snd (fst (serve serverError
                              (deleteTrip Sample.StringToNumber true 7 "1")
                              Sample.store0 []))).
Proof.
  destruct (@writes_keep_keys_consistent
              Sample.StringToNumber Sample.planner Sample.store0 []
              consistent_store0) as (Hcreate & Hregenerate & Hdelete).
  split; [apply Hcreate | split; [apply Hregenerate | apply Hdelete]].
Defined.

(** X16. Creating a trip leaves the existing trips alone: on a consistent
    store, after [POST /], whatever it answered, every trip that existed
    is what [GET /:id] showed before. *)
Theorem createTrip_keeps_existing_trips
        (StringToNumber : string -> Js.Number)
        (generateItinerary : list Activity -> Z -> string -> option Plan)
        (req : CreateRequest) (st : Store) (fs : Faults) (other : Z) :
  let s' := store (snd (run (createTrip StringToNumber generateItinerary req)
                            (mkWorld st fs []))) in
  consistent st ->
  hasTrip other st ->
  prisma.trip.tripView s' other = prisma.trip.tripView st other.
Proof.
  intros s' Hc Hother. subst s'.
  destruct (createTrip_store StringToNumber generateItinerary req st fs)
    as [Hrows | (userId & destination & days & bud & interests & plan & ->)];
    [apply tripView_sameRows, Hrows|].
  destruct (@consistent_created
              (mkTrip (nextTripId st) userId destination days bud interests None)
              st Hc eq_refl) as (Hc' & _ & Hk).
  assert (Hne : other <> nextTripId st).
  { destruct Hother as (t & Ht & <-). pose proof (trip_ids_used Hc t Ht). lia. }
  apply othersKept_tripView with (tripId := nextTripId st); [|exact Hne].
  eapply othersKept_trans; [exact Hk|].
  apply othersKept_planted, Hc'.
Qed.

Lemma createTrip_keeps_existing_trips_witness :
  prisma.trip.tripView
    (store (snd (run (createTrip Sample.StringToNumber Sample.planner
                                 Sample.createRome)
                     (mkWorld Sample.store0 [] []))))
    1
  = prisma.trip.tripView Sample.store0 1.
Proof.
  apply (@createTrip_keeps_existing_trips
           Sample.StringToNumber Sample.planner Sample.createRome
           Sample.store0 [] 1 consistent_store0).
  exists Sample.paris. split; [left; reflexivity | reflexivity].
Defined.

(* ===================================================================== *)
(** ** What [regenerate] answers with *)
(* ===================================================================== *)

Lemma set_interests_same (t : Trip) :
  set_interests (trip_interests t) t = t.
Proof. destruct t; reflexivity. Qed.

Lemma find_samePlan (id : Z) (s s' : Store) :
  samePlan s s' ->
  option_map (set_regenLockUntil None)
             (find (fun t => trip_id t =? id) (trips s'))
  = option_map (set_regenLockUntil None)
               (find (fun t => trip_id t =? id) (trips s)).
Proof.
  intros H. apply samePlan_tables in H.
  destruct H as (_ & _ & _ & _ & _ & _ & Ht).
  rewrite <- !(find_map_trip id (set_regenLockUntil None)) by reflexivity.
  rewrite Ht. reflexivity.
Qed.

Lemma tripView_samePlan (id : Z) (s s' : Store) (v : TripView) :
  samePlan s s' ->
  prisma.trip.tripView s id = Some v ->
  exists v',
    prisma.trip.tripView s' id = Some v' /\
    view_dayPlans v' = view_dayPlans v /\
    set_regenLockUntil None (view_trip v') = set_regenLockUntil None (view_trip v).
Proof.
  intros Hsame Hview. pose proof (@find_samePlan id _ _ Hsame) as Hfind.
  apply samePlan_tables in Hsame.
  destruct Hsame as (Hd & Hp & Ha & _).
  unfold prisma.trip.tripView in *.
  destruct (find (fun t => trip_id t =? id) (trips s)) as [t|] eqn:E;
    [|discriminate].
  destruct (find (fun t => trip_id t =? id) (trips s')) as [t'|] eqn:E';
    [|discriminate].
  cbn [option_map] in *. injection Hview as <-.
  assert (Hrow : set_regenLockUntil None t' = set_regenLockUntil None t)
    by (injection Hfind; intros; unfold set_regenLockUntil; congruence).
  eexists. split; [reflexivity|]. cbn [view_dayPlans view_trip].
  split; [|exact Hrow].
  assert (Hid : trip_id t' = trip_id t).
  { apply (f_equal trip_id) in Hrow. exact Hrow. }
  rewrite Hid, Hd. apply map_ext. intros dp.
  unfold prisma.trip.dayPlanView. rewrite Hp. f_equal.
  apply map_ext. intros pa. unfold prisma.trip.plannedActivityView.
  rewrite Ha. reflexivity.
Qed.

Lemma find_acquired (tripId userId now : Z) (s : Store) (base : Trip) :
  consistent s ->
  find (fun t => trip_id t =? tripId) (trips s) = Some base ->
  prisma.count (acquireWhere tripId userId now) (trips s) <> 0 ->
  acquireWhere tripId userId now base = true.
Proof.
  intros Hc Hfind Hcount. unfold prisma.count in Hcount.
  destruct (filter (acquireWhere tripId userId now) (trips s)) as [|t l] eqn:E;
    [contradiction|].
  assert (Ht : In t (filter (acquireWhere tripId userId now) (trips s)))
    by (rewrite E; left; reflexivity).
  apply filter_In in Ht. destruct Ht as [Hin Hw].
  destruct (find_trip_some _ _ Hfind) as [Hin' Hid'].
  assert (Hid : trip_id t = tripId).
  { unfold acquireWhere in Hw.
    apply andb_true_iff in Hw. destruct Hw as [Hw _].
    apply andb_true_iff in Hw. destruct Hw as [Hw _]. apply Z.eqb_eq, Hw. }
  assert (t = base).
  { apply (NoDup_map_eq trip_id (trips s)); auto.
    - apply (trip_ids_distinct Hc).
    - congruence. }
  subst t. exact Hw.
Qed.


Lemma reinterested_find (tripId : Z) (base : Trip) (interests : string)
      (s : Store) (t : Trip) :
  find (fun t => trip_id t =? tripId) (trips s) = Some t ->
  trip_interests t = trip_interests base ->
  find (fun t => trip_id t =? tripId) (trips (reinterested tripId base interests s))
  = Some (set_interests interests t).
Proof.
  intros Hfind Hsame. unfold reinterested.
  destruct (negb (String.eqb interests (trip_interests base))) eqn:Hdiff.
  - cbn [trips with_trips]. rewrite find_map_trip, Hfind.
    + cbn. destruct (find_trip_some _ _ Hfind) as [_ Hid].
      apply Z.eqb_eq in Hid. rewrite Hid. reflexivity.
    + intros t0. destruct (trip_id t0 =? tripId); reflexivity.
  - rewrite Hfind. apply negb_false_iff, String.eqb_eq in Hdiff.
    rewrite Hdiff, <- Hsame, set_interests_same. reflexivity.
Qed.

(** X17. The body of a 200 of [regenerate] is the trip as it was
    re-planned: on a consistent store, for a request that runs with no
    store call of another request in between, it is the trip of the
    request with the interests in force (the override with the white
    space at its ends trimmed when there is one, the stored interests
    otherwise) and with the lock the request set, which is still set when
    the transaction reads the trip back; its days are numbered
    1..daysCount in order and list the activities of the new plan, day by
    day, in the order of the plan; its warning is the one of the plan.
    The store then holds this trip with the same days, the interests in
    force and every other field but the lock as before. *)
Theorem regenerate_answers_with_plan
        (StringToNumber : string -> Js.Number)
        (generateItinerary : list Activity -> Z -> string -> option Plan)
        (clock : Clock) (req : RegenerateRequest) (st : Store) (fs : Faults)
        (r : Response) (w' : World) :
  let tripId := Js.toZ (StringToNumber (regenerate_id req)) in
  let userId := regenerate_userId req in
  let lockUntil := dateNow clock + lockTtlMs in
  consistent st ->
  run (regenerate StringToNumber generateItinerary clock req) (mkWorld st fs [])
  = (Returned r, w') ->
  status r = 200 ->
  exists base plan v v',
    let interests := effectiveInterestsOf (regenerate_interests req) base in
    find (fun t => trip_id t =? tripId) (trips st) = Some base /\
    trip_userId base = userId /\
    planFor generateItinerary (catalog (trip_destination base) st)
            (trip_daysCount base) interests = Some plan /\
    body r = TripJson (Some v) (plan_warning plan) /\
    view_trip v
    = set_interests interests (set_regenLockUntil (Some lockUntil) base) /\
    shows v (trip_daysCount base) plan /\
    prisma.trip.tripView (store w') tripId = Some v' /\
    view_dayPlans v' = view_dayPlans v /\
    set_regenLockUntil None (view_trip v')
    = set_interests interests (set_regenLockUntil None base).
Proof.
  intros tripId userId lockUntil Hc Hrun Hstatus.
  destruct (regenerate_ok _ _ _ _ _ _ Hrun Hstatus)
    as (base & plan & Hfind & Huser & Hcount & Hplan & Hr & Hsame).
  cbv zeta in *. fold tripId userId lockUntil in Hcount, Hr, Hsame.
  set (interests := effectiveInterestsOf (regenerate_interests req) base) in *.
  set (after := replaced tripId base interests plan
                         (locked tripId userId (newDate clock) lockUntil st)) in *.
  fold tripId in Hfind.
  pose proof (@find_acquired tripId userId (newDate clock) st base Hc Hfind Hcount)
    as Hacq.
  assert (Hrow : find (fun t => trip_id t =? tripId) (trips after)
                 = Some (set_interests interests
                           (set_regenLockUntil (Some lockUntil) base))).
  { unfold after, replaced, planted.
    cbn [trips addPlannedActivities addDayPlans].
    apply reinterested_find; [|reflexivity].
    rewrite trips_cleared. unfold locked. cbn [trips with_trips].
    rewrite find_map_trip, Hfind; [cbn; rewrite Hacq; reflexivity|].
    intros t. destruct (acquireWhere _ _ _ t); reflexivity. }
  assert (Hview : exists days, prisma.trip.tripView after tripId
                               = Some (mkTripView
                                         (set_interests interests
                                            (set_regenLockUntil (Some lockUntil) base))
                                         days)).
  { unfold prisma.trip.tripView. rewrite Hrow. eexists. reflexivity. }
  destruct Hview as [days Hview].
  destruct (@tripView_samePlan tripId _ _ _ Hsame Hview)
    as (v' & Hv' & Hdays & Htrip).
  exists base, plan,
         (mkTripView (set_interests interests
                        (set_regenLockUntil (Some lockUntil) base)) days), v'.
  split; [exact Hfind|]. split; [exact Huser|]. split; [exact Hplan|].
  split; [rewrite Hr, Hview; reflexivity|].
  split; [reflexivity|].
  split.
  { eapply persistedAs_shows; [|exact Hview].
    apply persistedAs_replaced, wellFormed_locked, consistent_wellFormed, Hc. }
  split; [exact Hv'|]. split; [exact Hdays|].
  rewrite Htrip. reflexivity.
Qed.

(** An override that ends in a no-break space is stored without it. *)
Lemma regenerate_answers_with_plan_witness :
  exists r base plan v v',
    fst (run (regenerate Sample.StringToNumber Sample.planner (mkClock 1000 1000)
                         (mkRegenerateRequest 7 "1" (Some ("nature" ++ Sample.noBreakSpace)%string)))
             Sample.world0) = Returned r /\
    find (fun t => trip_id t =? 1) (trips Sample.store0) = Some base /\
    body r = TripJson (Some v) (plan_warning plan) /\
    view_trip v = set_interests "nature" (set_regenLockUntil (Some 121000) base) /\
    shows v (trip_daysCount base) plan /\
    view_dayPlans v' = view_dayPlans v.
Proof.
  destruct (run (regenerate Sample.StringToNumber Sample.planner (mkClock 1000 1000)
                            (mkRegenerateRequest 7 "1" (Some ("nature" ++ Sample.noBreakSpace)%string)))
                Sample.world0) as [c w'] eqn:Hrun.
  assert (Hc : exists r, c = Returned r /\ status r = 200).
  { vm_compute in Hrun. injection Hrun as <- _. eexists. split; reflexivity. }
  destruct Hc as (r & -> & Hstatus).
  destruct (@regenerate_answers_with_plan
              Sample.StringToNumber Sample.planner (mkClock 1000 1000)
              (mkRegenerateRequest 7 "1" (Some ("nature" ++ Sample.noBreakSpace)%string)) Sample.store0 []
              r w' consistent_store0 Hrun Hstatus)
    as (base & plan & v & v' & Hfind & _ & _ & Hbody & Htrip & Hshows & _ & Hdays
        & _).
  exists r, base, plan, v, v'. cbn [fst].
  split; [reflexivity|]. split; [exact Hfind|]. split; [exact Hbody|].
  split; [|split; assumption].
  rewrite Htrip. vm_compute in Hfind. injection Hfind as <-. reflexivity.
Defined.

(* ===================================================================== *)
(** ** The regeneration handler before the lock *)
(* ===================================================================== *)

Lemma inIds_Permutation (ids ids' : list Z) (pa : PlannedActivity) :
  Permutation ids ids' ->
  prisma.plannedActivity.inIds ids pa = prisma.plannedActivity.inIds ids' pa.
Proof.
  intros Hp.
  destruct (prisma.plannedActivity.inIds ids pa) eqn:E,
           (prisma.plannedActivity.inIds ids' pa) eqn:E'; try reflexivity.
  - apply inIds_true in E. apply (Permutation_in _ Hp) in E.
    apply inIds_true in E. congruence.
  - apply inIds_true in E'. apply (Permutation_in _ (Permutation_sym Hp)) in E'.
    apply inIds_true in E'. congruence.
Qed.

Lemma replaced_same_interests (tripId : Z) (base : Trip) (plan : Plan) (s : Store) :
  replaced tripId base (trip_interests base) plan s
  = planted tripId (trip_daysCount base) plan (cleared tripId s).
Proof.
  unfold replaced, reinterested. rewrite String.eqb_refl. reflexivity.
Qed.

Lemma cleared_byDay_Computes (tripId : Z) (s : Store) :
  let dayPlanIds :=
    map dayPlan_id
        (prisma.orderBy dayPlan_dayNumber
           (filter (fun dp => dayPlan_tripId dp =? tripId) (dayPlans s))) in
  Computes
    (if 0 <? Z.of_nat (List.length dayPlanIds)
     then prisma.plannedActivity.deleteMany dayPlanIds ;;
          prisma.dayPlan.deleteMany tripId ;;
          ret tt
     else ret tt)
    s tt (cleared tripId s).
Proof.
  cbv zeta.
  set (mine := filter (fun dp => dayPlan_tripId dp =? tripId) (dayPlans s)).
  pose proof (orderBy_Permutation dayPlan_dayNumber mine) as Hp.
  assert (Hcleared :
            cleared tripId s
            = if 0 <? Z.of_nat (List.length
                                  (map dayPlan_id
                                       (prisma.orderBy dayPlan_dayNumber mine)))
              then with_dayPlans
                     (filter (fun dp => negb (dayPlan_tripId dp =? tripId))
                             (dayPlans s))
                     (with_plannedActivities
                        (filter (fun pa => negb (prisma.plannedActivity.inIds
                                                   (map dayPlan_id
                                                      (prisma.orderBy
                                                         dayPlan_dayNumber mine))
                                                   pa))
                                (plannedActivities s))
                        s)
              else s).
  { unfold cleared. fold mine.
    rewrite !length_map, (Permutation_length Hp).
    destruct (0 <? Z.of_nat (List.length mine)); [|reflexivity].
    f_equal. f_equal. apply filter_ext. intros pa. f_equal.
    apply inIds_Permutation, Permutation_map, Permutation_sym, Hp. }
  rewrite Hcleared.
  destruct (0 <? Z.of_nat (List.length (map dayPlan_id _))).
  - eapply Computes_bind; [apply Computes_db_call; reflexivity|].
    eapply Computes_bind; [apply Computes_db_call; reflexivity|].
    apply Computes_ret.
  - apply Computes_ret.
Qed.

Lemma replacePlan_v1_Computes (tripId : Z) (base : Trip) (plan : Plan) (s : Store) :
  let after := planted tripId (trip_daysCount base) plan (cleared tripId s) in
  Computes (replacePlan_v1 tripId base plan) s
           (prisma.trip.tripView after tripId) after.
Proof.
  cbv zeta. unfold replacePlan_v1.
  eapply Computes_bind; [apply Computes_db_call; reflexivity|].
  eapply Computes_bind; [apply cleared_byDay_Computes|].
  eapply Computes_bind; [apply createDayPlans_Computes|].
  eapply Computes_bind; [apply createPlannedActivities_Computes|].
  apply Computes_db_call. reflexivity.
Qed.

Section EarlierRegeneratePaths.

Variable StringToNumber : string -> Js.Number.
Variable generateItinerary : list Activity -> Z -> string -> option Plan.

Lemma replacePlan_v1_advanced (tripId : Z) (base : Trip) (plan : Plan) :
  Preserves advanced (replacePlan_v1 tripId base plan).
Proof.
  unfold replacePlan_v1.
  apply Preserves_bind; frames. intros existing.
  apply Preserves_bind; frames.
  { destruct (0 <? _).
    - apply Preserves_bind; frames. intros _.
      apply Preserves_bind; frames. intros _.
      apply Preserves_ret; frames.
    - apply Preserves_ret; frames. }
  intros _. apply Preserves_bind; frames.
  { apply createDayPlans_advanced. }
  intros dps. apply Preserves_bind; frames.
  apply createPlannedActivities_advanced.
Qed.

(** The paths of the earlier [regenerate]: the only one that leaves rows
    is the one that answers 200. *)
Lemma regenerate_v1_paths (userId : Z) (id : string) (s : Store) (fs : Faults) :
  let tripId := Js.toZ (StringToNumber id) in
  let result := serve serverError
                      (regenerate_v1 StringToNumber generateItinerary userId id)
                      s fs in
  (status (fst (fst result)) <> 200 /\ snd (fst result) = s)
  \/ (fst (fst result) = serverError /\ sameRows s (snd (fst result)))
  \/ exists base plan,
       let after := planted tripId (trip_daysCount base) plan (cleared tripId s) in
       find (fun t => trip_id t =? tripId) (trips s) = Some base /\
       trip_userId base = userId /\
       generateItinerary (catalog (trip_destination base) s) (trip_daysCount base)
                         (trip_interests base) = Some plan /\
       fst (fst result)
       = mkResponse 200 (TripJson (prisma.trip.tripView after tripId)
                                  (plan_warning plan)) /\
       snd (fst result) = after.
Proof.
  intros tripId result. subst result. unfold serve, regenerate_v1.
  fold tripId.
  destruct (negb (Js.isInteger (StringToNumber id))
            || Js.le (StringToNumber id) (Js.ofZ 0)).
  { simpl. left. split; [discriminate | reflexivity]. }
  unfold prisma.trip.findUnique. rewrite bind_db_call.
  destruct (next_fault fs) as [[|] fs1].
  { simpl. left. split; [discriminate | reflexivity]. }
  destruct (find (fun t => trip_id t =? tripId) (trips s)) as [base|] eqn:Hfind.
  2:{ simpl. left. split; [discriminate | reflexivity]. }
  destruct (trip_userId base =? userId) eqn:Howner; cbn [negb].
  2:{ simpl. left. split; [discriminate | reflexivity]. }
  unfold prisma.activity.findMany. rewrite bind_db_call.
  destruct (next_fault fs1) as [[|] fs2].
  { simpl. left. split; [discriminate | reflexivity]. }
  fold (catalog (trip_destination base) s).
  destruct (generateItinerary (catalog (trip_destination base) s)
                              (trip_daysCount base) (trip_interests base))
    as [plan|] eqn:Hplan.
  2:{ simpl. left. split; [discriminate | reflexivity]. }
  cbn [throwing]. cbn [bind Monad_DB ret].
  destruct (transaction (replacePlan_v1 tripId base plan) s fs2)
    as [[[saved|] s1] fs3] eqn:Htx.
  - destruct (proj1 (Computes_transaction (replacePlan_v1_Computes tripId base plan s))
                    _ _ _ _ Htx) as [-> ->].
    right. right. exists base, plan. cbv zeta. apply Z.eqb_eq in Howner.
    repeat split; auto.
  - pose proof (@rejected_transaction _ (replacePlan_v1 tripId base plan) s fs2
                  (replacePlan_v1_advanced tripId base plan)) as Hrows.
    rewrite Htx in Hrows. right. left. split; [reflexivity|].
    apply Hrows. reflexivity.
Qed.

End EarlierRegeneratePaths.

(** X18. The earlier [regenerate] is all or nothing, and never touches
    the trips: whatever store call fails, the trips table and the catalog
    are the ones from before; on every status but 200 so are the DayPlan
    and PlannedActivity tables, the id sequences being where they were
    or, after a rollback, further on; a 404 or a 403 leaves the very
    store it found; and a 200, which goes to the owner only, leaves on a
    consistent store the trip persisted as the plan the planner gave for
    the stored interests, and shows it in its body. *)
Theorem regenerate_v1_all_or_nothing
        (StringToNumber : string -> Js.Number)
        (generateItinerary : list Activity -> Z -> string -> option Plan)
        (userId : Z) (id : string) (s : Store) (fs : Faults) :
  let tripId := Js.toZ (StringToNumber id) in
  let result := serve serverError
                      (regenerate_v1 StringToNumber generateItinerary userId id)
                      s fs in
  let r := fst (fst result) in
  let s' := snd (fst result) in
  trips s' = trips s /\
  activities s' = activities s /\
  (status r <> 200 ->
   dayPlans s' = dayPlans s /\ plannedActivities s' = plannedActivities s /\
   advanced s s') /\
  (status r = 404 \/ status r = 403 -> s' = s) /\
  (status r = 200 -> consistent s ->
   exists base plan v,
     find (fun t => trip_id t =? tripId) (trips s) = Some base /\
     trip_userId base = userId /\
     generateItinerary (catalog (trip_destination base) s) (trip_daysCount base)
                       (trip_interests base) = Some plan /\
     persistedAs tripId (trip_daysCount base) plan s' /\
     body r = TripJson (Some v) (plan_warning plan) /\
     view_trip v = base /\
     shows v (trip_daysCount base) plan).
Proof.
  intros tripId result r s'. subst r s' result.
  pose proof (regenerate_v1_paths StringToNumber generateItinerary userId id s fs)
    as H.
  cbv zeta in H. fold tripId in H.
  destruct H as [[Hno ->]
                | [[Hr (Ha & Ht & Hd & Hp & Hadv)]
                  | (base & plan & Hfind & Howner & Hplan & Hr & Hs)]].
  { repeat split; try reflexivity; try apply Z.le_refl.
    intros H. contradiction. }
  { rewrite Hr. repeat split; try assumption; try apply Hadv.
    - intros [H | H]; discriminate.
    - intros H. discriminate. }
  rewrite Hr, Hs.
  assert (Htrips : trips (planted tripId (trip_daysCount base) plan
                                  (cleared tripId s)) = trips s).
  { unfold planted. cbn [trips addPlannedActivities addDayPlans].
    apply trips_cleared. }
  split; [exact Htrips|].
  split.
  { unfold planted. cbn [activities addPlannedActivities addDayPlans].
    unfold cleared. destruct (0 <? _); reflexivity. }
  split; [intros H; exfalso; apply H; reflexivity|].
  split; [intros [H | H]; discriminate|].
  intros _ Hc.
  assert (Hrows : persistedAs tripId (trip_daysCount base) plan
                    (planted tripId (trip_daysCount base) plan (cleared tripId s))).
  { rewrite <- replaced_same_interests.
    apply persistedAs_replaced, consistent_wellFormed, Hc. }
  assert (Hview : exists days,
             prisma.trip.tripView
               (planted tripId (trip_daysCount base) plan (cleared tripId s)) tripId
             = Some (mkTripView base days)).
  { unfold prisma.trip.tripView. rewrite Htrips, Hfind. eexists. reflexivity. }
  destruct Hview as [days Hview].
  exists base, plan, (mkTripView base days).
  repeat (split; [assumption|]).
  rewrite Hview. split; [reflexivity|]. split; [reflexivity|].
  eapply persistedAs_shows; [exact Hrows | exact Hview].
Qed.

(** The transaction fails after the deletions and the first new DayPlan:
    the old plan is back, and the id of that DayPlan is spent. *)
Lemma regenerate_v1_all_or_nothing_witness :
  let result := serve serverError
                      (regenerate_v1 Sample.StringToNumber Sample.planner 7 "1")
                      Sample.store0
                      [false; false; false; false; false; false; true] in
  dayPlans (snd (fst result)) = dayPlans Sample.store0 /\
  plannedActivities (snd (fst result)) = plannedActivities Sample.store0 /\
  nextDayPlanId Sample.store0 = 3 /\ nextDayPlanId (snd (fst result)) = 4.
Proof.
  cbv zeta.
  destruct (regenerate_v1_all_or_nothing
              Sample.StringToNumber Sample.planner 7 "1" Sample.store0
              [false; false; false; false; false; false; true])
    as (_ & _ & Hrows & _).
  destruct Hrows as (Hd & Hp & _); [vm_compute; discriminate|].
  split; [exact Hd|]. split; [exact Hp|]. vm_compute. split; reflexivity.
Defined.

(* ===================================================================== *)
(** ** The authentication middleware and the revoked tokens *)
(* ===================================================================== *)

Lemma bind_accounts_call {X Y : Type} (f : Accounts -> option (X * Accounts))
      (k : X -> AccountsDB Y) (a : Accounts) (fs : Faults) :
  bind (accounts_call f) k a fs
  = match next_fault fs with
    | (true, fs') => (None, a, fs')
    | (false, fs') =>
        match f a with
        | Some (x, a') => k x a' fs'
        | None => (None, a, fs')
        end
    end.
Proof.
  simpl. unfold accounts_call. destruct (next_fault fs) as [[|] fs']; [reflexivity|].
  destruct (f a) as [[x a']|]; reflexivity.
Qed.

Lemma find_revoked (tokenHash : string) (a : Accounts) :
  revoked tokenHash a <->
  exists r, find (fun r => String.eqb (revokedToken_tokenHash r) tokenHash)
                 (revokedTokens a) = Some r.
Proof.
  unfold revoked. split.
  - intros (r & Hin & Hhash).
    destruct (find _ (revokedTokens a)) as [r0|] eqn:E; [eauto|].
    exfalso. apply (find_none _ _ E) in Hin.
    rewrite Hhash, String.eqb_refl in Hin. discriminate.
  - intros (r & Hfind). apply find_some in Hfind. destruct Hfind as [Hin Hhash].
    apply String.eqb_eq in Hhash. eauto.
Qed.

Section Middleware.

Variable JWT_SECRET : option string.
Variable verify : string -> string -> option AuthPayload.
Variable hashToken : string -> string.

(** The paths of [requireAuth]. *)
Lemma requireAuth_paths (authorization : option string) (a : Accounts)
      (fs : Faults) :
  let result := requireAuth JWT_SECRET verify hashToken authorization a fs in
  snd (fst result) = a /\
  ((exists r, fst (fst result) = Denied r /\
              (auth_status r = 401 \/ auth_status r = 500))
   \/ exists header secret token user,
        authorization = Some header /\
        Js.startsWith header "Bearer " = true /\
        nth_error (Js.split " " header) 1 = Some token /\
        JWT_SECRET = Some secret /\ secret <> "" /\
        verify token secret = Some user /\
        ~ revoked (hashToken token) a /\
        fst (fst result) = Next user token).
Proof.
  intros result. subst result. unfold requireAuth, answering.
  destruct authorization as [[|c header]|];
    try (cbn; split; [reflexivity|]; left; eexists; split; [reflexivity|]; auto).
  destruct (Js.startsWith (String c header) "Bearer ") eqn:Hprefix; cbn [negb].
  2:{ cbn. split; [reflexivity|]. left. eexists. split; [reflexivity|]. auto. }
  destruct JWT_SECRET as [[|c' secret]|] eqn:Hsecret;
    try (cbn; split; [reflexivity|]; left; eexists; split; [reflexivity|]; auto).
  destruct (nth_error (Js.split " " (String c header)) 1) as [token|] eqn:Htoken.
  2:{ cbn. split; [reflexivity|]. left. eexists. split; [reflexivity|]. auto. }
  destruct (verify token (String c' secret)) as [user|] eqn:Hverify.
  2:{ cbn. split; [reflexivity|]. left. eexists. split; [reflexivity|]. auto. }
  unfold accounts.revokedToken.findUnique. rewrite bind_accounts_call.
  destruct (next_fault fs) as [[|] fs1].
  { cbn. split; [reflexivity|]. left. eexists. split; [reflexivity|]. auto. }
  destruct (find _ (revokedTokens a)) as [row|] eqn:Hfind.
  { cbn. split; [reflexivity|]. left. eexists. split; [reflexivity|]. auto. }
  cbn. split; [reflexivity|]. right.
  exists (String c header), (String c' secret), token, user.
  repeat split; auto; try discriminate.
  intros Hrev. apply find_revoked in Hrev. destruct Hrev as [r Hr]. congruence.
Qed.

End Middleware.

(** X19. [requireAuth] lets a request through only with a valid token
    that is not revoked: whatever store call fails, [next()] is reached
    only when the Authorization header starts with "Bearer ", the secret
    is configured, the second space-separated part of the header passes
    [jwt.verify] and no revoked row has its hash; [req.user] is then the
    verified payload and [req.token] that part.  Every other request is
    answered 401 or 500, and the middleware never writes. *)
Theorem requireAuth_admits_valid_tokens_only
        (JWT_SECRET : option string)
        (verify : string -> string -> option AuthPayload)
        (hashToken : string -> string)
        (authorization : option string) (a : Accounts) (fs : Faults) :
  let result := requireAuth JWT_SECRET verify hashToken authorization a fs in
  snd (fst result) = a /\
  (forall r, fst (fst result) = Denied r ->
             auth_status r = 401 \/ auth_status r = 500) /\
  (forall user token, fst (fst result) = Next user token ->
     exists header secret,
       authorization = Some header /\
       Js.startsWith header "Bearer " = true /\
       nth_error (Js.split " " header) 1 = Some token /\
       JWT_SECRET = Some secret /\ secret <> "" /\
       verify token secret = Some user /\
       ~ revoked (hashToken token) a).
Proof.
  intros result. subst result.
  destruct (requireAuth_paths JWT_SECRET verify hashToken authorization a fs)
    as [Hsame [(r & Hr & Hstatus)
               | (header & secret & token & user & H1 & H2 & H3 & H4 & H5 & H6
                  & H7 & Hr)]];
    (split; [exact Hsame|]); rewrite Hr; split.
  - intros r' E. injection E as <-. exact Hstatus.
  - intros user token E. discriminate.
  - intros r' E. discriminate.
  - intros user' token' E. injection E as <- <-.
    exists header, secret. repeat split; assumption.
Qed.

Lemma requireAuth_admits_valid_tokens_only_witness :
  exists header secret,
    Some "Bearer alice.token" = Some header /\
    Js.startsWith header "Bearer " = true /\
    nth_error (Js.split " " header) 1 = Some "alice.token" /\
    Some SampleAccounts.secret = Some secret /\ secret <> "" /\
    SampleAccounts.verify "alice.token" secret = Some SampleAccounts.alice /\
    ~ revoked (SampleAccounts.hashToken "alice.token") SampleAccounts.accounts0.
Proof.
  apply (proj2 (proj2 (requireAuth_admits_valid_tokens_only
                         (Some SampleAccounts.secret) SampleAccounts.verify
                         SampleAccounts.hashToken (Some "Bearer alice.token")
                         SampleAccounts.accounts0 []))).
  reflexivity.
Defined.

Section Logout.

Variable hashToken : string -> string.

(** The paths of the handler of [logout]: the cleanup and the upsert are
    two writes, and the first one stays when the second one fails. *)
Lemma logoutHandler_paths (now stamp : Z) (user : AuthPayload) (token : string)
      (a : Accounts) (fs : Faults) :
  let result := logoutHandler hashToken now stamp user token a fs in
  (auth_status (fst (fst result)) <> 200 /\
   (snd (fst result) = a \/ snd (fst result) = cleaned now a))
  \/ exists exp,
       payload_exp user = Some exp /\
       fst (fst result) = authJson 200 "Logged out" /\
       snd (fst result)
       = upserted stamp (hashToken token) (exp * 1000) (cleaned now a).
Proof.
  intros result. subst result. unfold logoutHandler, answering.
  destruct token as [|c token].
  { cbn. left. split; [discriminate | left; reflexivity]. }
  destruct (payload_exp user) as [exp|] eqn:Hexp.
  2:{ cbn. left. split; [discriminate | left; reflexivity]. }
  assert (Hgo : exp = 0 \/
                (match exp with
                 | 0 => ret (authJson 400 "Token has no exp")
                 | _ =>
                     accounts.revokedToken.deleteMany now ;;
                     accounts.revokedToken.upsert stamp
                       (hashToken (String c token)) (exp * 1000) ;;
                     ret (authJson 200 "Logged out")
                 end
                 = (accounts.revokedToken.deleteMany now ;;
                    accounts.revokedToken.upsert stamp
                      (hashToken (String c token)) (exp * 1000) ;;
                    ret (authJson 200 "Logged out")) :> AccountsDB AuthResponse)).
  { destruct exp; [left; reflexivity | right; reflexivity | right; reflexivity]. }
  destruct Hgo as [-> | ->].
  { cbn. left. split; [discriminate | left; reflexivity]. }
  unfold accounts.revokedToken.deleteMany. rewrite bind_accounts_call.
  destruct (next_fault fs) as [[|] fs1].
  { cbn. left. split; [discriminate | left; reflexivity]. }
  fold (cleaned now a).
  unfold accounts.revokedToken.upsert. rewrite bind_accounts_call.
  destruct (next_fault fs1) as [[|] fs2].
  { cbn. left. split; [discriminate | right; reflexivity]. }
  right. exists exp. split; [reflexivity|].
  unfold upserted.
  destruct (find _ (revokedTokens (cleaned now a))) as [row|];
    cbn; split; reflexivity.
Qed.

End Logout.

Lemma revoked_upserted (stamp : Z) (tokenHash : string) (expiresAt : Z)
      (a : Accounts) :
  revoked tokenHash (upserted stamp tokenHash expiresAt a).
Proof.
  unfold upserted, revoked.
  destruct (find (fun r => String.eqb (revokedToken_tokenHash r) tokenHash)
                 (revokedTokens a)) as [row|] eqn:Hfind; cbn.
  - apply find_some in Hfind. destruct Hfind as [Hin Hhash].
    exists (accounts.revokedToken.set_expiresAt expiresAt row). split.
    + apply in_map_iff. exists row. rewrite Hhash. auto.
    + apply String.eqb_eq in Hhash. exact Hhash.
  - eexists. split; [apply in_app_iff; right; left; reflexivity | reflexivity].
Qed.

Lemma revoked_upserted_other (stamp : Z) (tokenHash other : string)
      (expiresAt : Z) (a : Accounts) :
  revoked other a -> revoked other (upserted stamp tokenHash expiresAt a).
Proof.
  unfold upserted, revoked. intros (r & Hin & Hhash).
  destruct (find _ (revokedTokens a)) as [row|]; cbn.
  - exists (if String.eqb (revokedToken_tokenHash r) tokenHash
            then accounts.revokedToken.set_expiresAt expiresAt r else r).
    split; [apply in_map_iff; exists r; auto|].
    destruct (String.eqb (revokedToken_tokenHash r) tokenHash); exact Hhash.
  - exists r. split; [apply in_app_iff; left; exact Hin | exact Hhash].
Qed.

Lemma revoked_cleaned (now : Z) (r : RevokedToken) (a : Accounts) :
  In r (revokedTokens a) -> now <= revokedToken_expiresAt r ->
  revoked (revokedToken_tokenHash r) (cleaned now a).
Proof.
  intros Hin Hlive. exists r. split; [|reflexivity].
  apply filter_In. split; [exact Hin|].
  apply negb_true_iff, Z.ltb_ge. exact Hlive.
Qed.

Lemma revoked_before_upserted (stamp : Z) (tokenHash : string) (expiresAt : Z)
      (a : Accounts) (r : RevokedToken) :
  In r (revokedTokens (upserted stamp tokenHash expiresAt a)) ->
  revoked (revokedToken_tokenHash r) a \/ revokedToken_tokenHash r = tokenHash.
Proof.
  unfold upserted.
  destruct (find _ (revokedTokens a)) as [row|]; cbn; intros Hin.
  - apply in_map_iff in Hin. destruct Hin as (r0 & <- & Hin).
    left. exists r0. split; [exact Hin|].
    destruct (String.eqb (revokedToken_tokenHash r0) tokenHash); reflexivity.
  - apply in_app_iff in Hin. destruct Hin as [Hin | [<- | []]].
    + left. exists r. auto.
    + right. reflexivity.
Qed.

Lemma revoked_before_cleaned (now : Z) (a : Accounts) (h : string) :
  revoked h (cleaned now a) -> revoked h a.
Proof.
  intros (r & Hin & Hhash). apply filter_In in Hin. exists r. tauto.
Qed.


Section LogoutRoute.

Variable JWT_SECRET : option string.
Variable verify : string -> string -> option AuthPayload.
Variable hashToken : string -> string.

(** The paths of [POST /logout] behind the middleware. *)
Lemma logout_paths (now stamp : Z) (authorization : option string)
      (a : Accounts) (fs : Faults) :
  let result := logout JWT_SECRET verify hashToken now stamp authorization a fs in
  (auth_status (fst (fst result)) <> 200 /\
   (snd (fst result) = a \/ snd (fst result) = cleaned now a))
  \/ exists user token exp,
       fst (fst (requireAuth JWT_SECRET verify hashToken authorization a fs))
       = Next user token /\
       payload_exp user = Some exp /\
       fst (fst result) = authJson 200 "Logged out" /\
       snd (fst result)
       = upserted stamp (hashToken token) (exp * 1000) (cleaned now a).
Proof.
  intros result. subst result. unfold logout, guarded.
  pose proof (requireAuth_paths JWT_SECRET verify hashToken authorization a fs)
    as [Hsame Hcases].
  destruct (requireAuth JWT_SECRET verify hashToken authorization a fs)
    as [[g a1] fs1].
  cbn [fst snd] in *. subst a1.
  destruct Hcases as [(r & -> & Hstatus) | (header & secret & token & user & H)].
  { cbn [fst snd]. left. split; [|left; reflexivity].
    destruct Hstatus as [-> | ->]; discriminate. }
  destruct H as (_ & _ & _ & _ & _ & _ & _ & ->).
  destruct (logoutHandler_paths hashToken now stamp user token a fs1)
    as [Hno | (exp & Hexp & Hr & Ha)].
  - left. exact Hno.
  - right. exists user, token, exp. auto.
Qed.

End LogoutRoute.

(** X20. A token that was logged out is never let through again: once
    [POST /logout] answered 200, the hash of the token of the request is
    in the revoked tokens, and [requireAuth] never reaches [next()] with
    this token again, whatever the header it comes in and whatever store
    call fails. *)
Theorem logout_revokes_token
        (JWT_SECRET : option string)
        (verify : string -> string -> option AuthPayload)
        (hashToken : string -> string)
        (now stamp : Z) (authorization : option string)
        (a : Accounts) (fs : Faults) :
  let result := logout JWT_SECRET verify hashToken now stamp authorization a fs in
  auth_status (fst (fst result)) = 200 ->
  exists user token,
    fst (fst (requireAuth JWT_SECRET verify hashToken authorization a fs))
    = Next user token /\
    revoked (hashToken token) (snd (fst result)) /\
    forall authorization' fs' user',
      fst (fst (requireAuth JWT_SECRET verify hashToken authorization'
                            (snd (fst result)) fs'))
      <> Next user' token.
Proof.
  intros result Hstatus. subst result.
  destruct (logout_paths JWT_SECRET verify hashToken now stamp authorization a fs)
    as [[Hno _] | (user & token & exp & Hnext & _ & _ & Ha)]; [contradiction|].
  exists user, token. split; [exact Hnext|]. rewrite Ha.
  split; [apply revoked_upserted|].
  intros authorization' fs' user' Hagain.
  destruct (requireAuth_paths JWT_SECRET verify hashToken authorization'
              (upserted stamp (hashToken token) (exp * 1000) (cleaned now a)) fs')
    as [_ [(r & Hr & _) | (h & s & token' & u & _ & _ & _ & _ & _ & _ & Hnot & Hr)]];
    rewrite Hr in Hagain; [discriminate|].
  injection Hagain as _ ->. apply Hnot, revoked_upserted.
Qed.

Lemma logout_revokes_token_witness :
  let result := logout (Some SampleAccounts.secret) SampleAccounts.verify
                       SampleAccounts.hashToken 5000 170
                       (Some "Bearer alice.token") SampleAccounts.accounts0 [] in
  exists user token,
    fst (fst (requireAuth (Some SampleAccounts.secret) SampleAccounts.verify
                          SampleAccounts.hashToken (Some "Bearer alice.token")
                          SampleAccounts.accounts0 []))
    = Next user token /\
    revoked (SampleAccounts.hashToken token) (snd (fst result)) /\
    forall authorization' fs' user',
      fst (fst (requireAuth (Some SampleAccounts.secret) SampleAccounts.verify
                            SampleAccounts.hashToken authorization'
                            (snd (fst result)) fs'))
      <> Next user' token.
Proof.
  apply (logout_revokes_token (Some SampleAccounts.secret) SampleAccounts.verify
                              SampleAccounts.hashToken 5000 170
                              (Some "Bearer alice.token")
                              SampleAccounts.accounts0 []).
  reflexivity.
Defined.

(** X21. The cleanup of [POST /logout] removes expired revocations only,
    and the request revokes nothing but its own token: whatever it
    answers and whatever store call fails, the users are untouched, every
    revoked token that has not expired at the time of the request is
    still revoked, and every token revoked afterwards was revoked before
    or is the token the middleware let through. *)
Theorem logout_removes_expired_only
        (JWT_SECRET : option string)
        (verify : string -> string -> option AuthPayload)
        (hashToken : string -> string)
        (now stamp : Z) (authorization : option string)
        (a : Accounts) (fs : Faults) :
  let result := logout JWT_SECRET verify hashToken now stamp authorization a fs in
  let a' := snd (fst result) in
  users a' = users a /\
  (forall r, In r (revokedTokens a) -> now <= revokedToken_expiresAt r ->
             revoked (revokedToken_tokenHash r) a') /\
  (forall h, revoked h a' ->
             revoked h a \/
             exists user token,
               fst (fst (requireAuth JWT_SECRET verify hashToken authorization
                                     a fs)) = Next user token /\
               h = hashToken token).
Proof.
  intros result a'. subst a' result.
  destruct (logout_paths JWT_SECRET verify hashToken now stamp authorization a fs)
    as [[_ [-> | ->]] | (user & token & exp & Hnext & _ & _ & ->)].
  - split; [reflexivity|]. split; [|auto].
    intros r Hin _. exists r. auto.
  - split; [reflexivity|]. split.
    + intros r Hin Hlive. apply revoked_cleaned; assumption.
    + intros h Hh. left. apply (revoked_before_cleaned Hh).
  - split.
    { unfold upserted. destruct (find _ _); reflexivity. }
    split.
    + intros r Hin Hlive. apply revoked_upserted_other, revoked_cleaned; assumption.
    + intros h (r & Hin & <-).
      destruct (revoked_before_upserted _ _ _ _ _ Hin) as [Hold | Hnew].
      * left. apply (revoked_before_cleaned Hold).
      * right. exists user, token. auto.
Qed.

Lemma logout_removes_expired_only_witness :
  revoked (SampleAccounts.hashToken "bob.token")
          (snd (fst (logout (Some SampleAccounts.secret) SampleAccounts.verify
                            SampleAccounts.hashToken 5000 170
                            (Some "Bearer alice.token")
                            SampleAccounts.accounts0 []))).
Proof.
  apply (proj1 (proj2 (logout_removes_expired_only
                         (Some SampleAccounts.secret) SampleAccounts.verify
                         SampleAccounts.hashToken 5000 170
                         (Some "Bearer alice.token") SampleAccounts.accounts0 []))
               (mkRevokedToken 1 (SampleAccounts.hashToken "bob.token") 3000000 150)).
  - left. reflexivity.
  - simpl. lia.
Defined.

(* ===================================================================== *)
(** ** Registration and login *)
(* ===================================================================== *)

Section Registration.

Variable bcryptHash : string -> string.
Variable defaultRole : string.

(** The paths of [POST /register]: the only one that writes is the one
    that answers 201. *)
Lemma register_paths (stamp : Z) (email password : option string)
      (a : Accounts) (fs : Faults) :
  let result := register bcryptHash defaultRole stamp email password a fs in
  (auth_status (fst (fst result)) <> 201 /\ snd (fst result) = a)
  \/ exists e p,
       let u := mkUser (nextUserId a) e (bcryptHash p) defaultRole stamp in
       email = Some e /\ password = Some p /\ e <> "" /\
       6 <= Js.length p /\
       find (fun u => String.eqb (user_email u) e) (users a) = None /\
       fst (fst result)
       = mkAuthResponse 201 (Registered (nextUserId a) e defaultRole stamp) /\
       snd (fst result)
       = mkAccounts (users a ++ [u]) (revokedTokens a) (nextUserId a + 1)
                    (nextRevokedTokenId a).
Proof.
  intros result. subst result. unfold register, answering.
  destruct email as [[|c e]|];
    try (cbn; left; split; [discriminate | reflexivity]).
  destruct password as [[|c' p]|];
    try (cbn; left; split; [discriminate | reflexivity]).
  destruct (Js.length (String c' p) <? 6) eqn:Hlen.
  { cbn. left. split; [discriminate | reflexivity]. }
  apply Z.ltb_ge in Hlen.
  unfold accounts.user.findUnique. rewrite bind_accounts_call.
  destruct (next_fault fs) as [[|] fs1].
  { cbn. left. split; [discriminate | reflexivity]. }
  destruct (find (fun u => String.eqb (user_email u) (String c e)) (users a))
    as [existing|] eqn:Hfind.
  { cbn. left. split; [discriminate | reflexivity]. }
  unfold accounts.user.create. rewrite bind_accounts_call.
  destruct (next_fault fs1) as [[|] fs2].
  { cbn. left. split; [discriminate | reflexivity]. }
  rewrite Hfind. cbn. right. exists (String c e), (String c' p).
  repeat split; auto. discriminate.
Qed.

End Registration.

Section Login.

Variable JWT_SECRET : option string.
Variable sign : Z -> string -> string -> string.
Variable bcryptCompare : string -> string -> bool.

(** The paths of [POST /login], which never writes. *)
Lemma login_paths (email password : option string) (a : Accounts) (fs : Faults) :
  let result := login JWT_SECRET sign bcryptCompare email password a fs in
  snd (fst result) = a /\
  (auth_status (fst (fst result)) <> 200
   \/ exists e p user secret,
        email = Some e /\ password = Some p /\
        find (fun u => String.eqb (user_email u) e) (users a) = Some user /\
        bcryptCompare p (user_passwordHash user) = true /\
        JWT_SECRET = Some secret /\ secret <> "" /\
        fst (fst result)
        = mkAuthResponse 200
            (LoggedIn (sign (user_id user) (user_role user) secret)
                      (user_id user) (user_email user) (user_role user))).
Proof.
  intros result. subst result. unfold login, answering.
  destruct email as [[|c e]|];
    try (cbn; split; [reflexivity|]; left; discriminate).
  destruct password as [[|c' p]|];
    try (cbn; split; [reflexivity|]; left; discriminate).
  unfold accounts.user.findUnique. rewrite bind_accounts_call.
  destruct (next_fault fs) as [[|] fs1].
  { cbn. split; [reflexivity|]. left. discriminate. }
  destruct (find (fun u => String.eqb (user_email u) (String c e)) (users a))
    as [user|] eqn:Hfind.
  2:{ cbn. split; [reflexivity|]. left. discriminate. }
  destruct (bcryptCompare (String c' p) (user_passwordHash user)) eqn:Hok;
    cbn [negb].
  2:{ cbn. split; [reflexivity|]. left. discriminate. }
  unfold getJwtSecret.
  destruct JWT_SECRET as [[|c'' secret]|] eqn:Hsecret;
    try (cbn; split; [reflexivity|]; left; discriminate).
  cbn. split; [reflexivity|]. right.
  exists (String c e), (String c' p), user, (String c'' secret).
  repeat split; auto. discriminate.
Qed.

End Login.

Lemma find_email_app (e : string) (l : list User) (u : User) :
  find (fun u => String.eqb (user_email u) e) l = None ->
  user_email u = e ->
  find (fun u => String.eqb (user_email u) e) (l ++ [u]) = Some u.
Proof.
  intros Hnone He. induction l as [|x l IH]; simpl in *.
  - rewrite He, String.eqb_refl. reflexivity.
  - destruct (String.eqb (user_email x) e); [discriminate | apply IH, Hnone].
Qed.

(** X22. [POST /register] adds a user only when it answers 201: on every
    other status (400, 409, 500), whatever store call failed, the
    accounts are unchanged; a 201 means the email and the password were
    given, the password has a [length] of at least six (UTF-16 code
    units, as [password.length] counts) and the email was not registered,
    and it adds exactly one user, with the next id, that email, the hash
    of the password and the default role, of which the body shows the
    id, the email, the role and the creation time. *)
Theorem register_adds_one_user
        (bcryptHash : string -> string) (defaultRole : string)
        (stamp : Z) (email password : option string)
        (a : Accounts) (fs : Faults) :
  let result := register bcryptHash defaultRole stamp email password a fs in
  let a' := snd (fst result) in
  (auth_status (fst (fst result)) <> 201 -> a' = a) /\
  (auth_status (fst (fst result)) = 201 ->
   exists e p,
     email = Some e /\ password = Some p /\ e <> "" /\
     6 <= Js.length p /\
     (forall u, In u (users a) -> user_email u <> e) /\
     users a' = users a ++ [mkUser (nextUserId a) e (bcryptHash p) defaultRole stamp] /\
     revokedTokens a' = revokedTokens a /\
     auth_body (fst (fst result)) = Registered (nextUserId a) e defaultRole stamp).
Proof.
  intros result a'. subst a' result.
  destruct (register_paths bcryptHash defaultRole stamp email password a fs)
    as [[Hno Hsame] | (e & p & He & Hp & Hne & Hlen & Hfind & Hr & Ha)].
  - split; [intros _; exact Hsame | intros H; contradiction].
  - cbv zeta in *. rewrite Hr, Ha. split.
    + intros H. exfalso. apply H. reflexivity.
    + intros _. exists e, p. repeat split; auto.
      intros u Hu Heq. apply (find_none _ _ Hfind) in Hu.
      rewrite Heq, String.eqb_refl in Hu. discriminate.
Qed.

(** A password of three euro signs, nine bytes and three code units, is
    too short: nobody is registered. *)
Lemma register_adds_one_user_witness :
  Js.length SampleAccounts.threeEuros = 3 /\
  snd (fst (register SampleAccounts.bcryptHash "USER" 200
                     (Some "carol@example.com")
                     (Some SampleAccounts.threeEuros)
                     SampleAccounts.accounts0 []))
  = SampleAccounts.accounts0.
Proof.
  split; [reflexivity|].
  apply (proj1 (register_adds_one_user SampleAccounts.bcryptHash "USER" 200
                  (Some "carol@example.com") (Some SampleAccounts.threeEuros)
                  SampleAccounts.accounts0 [])).
  vm_compute. discriminate.
Defined.

(** X23. A registered user can log in, with the password of the
    registration and no other: after a 201 of [POST /register], if
    [bcrypt.compare] accepts the password against the hash [bcrypt.hash]
    gave and the secret is configured, [POST /login] with the same email
    and password answers 200 with a token signed for the id and the role
    of the new user; with a password [bcrypt.compare] refuses it answers
    401 "Invalid credentials.", the answer an unknown email gets. *)
Theorem registered_user_can_log_in
        (JWT_SECRET : option string)
        (sign : Z -> string -> string -> string)
        (bcryptHash : string -> string)
        (bcryptCompare : string -> string -> bool)
        (defaultRole : string) (stamp : Z) (email password : option string)
        (a : Accounts) (fs : Faults) (secret : string) :
  let result := register bcryptHash defaultRole stamp email password a fs in
  let a' := snd (fst result) in
  auth_status (fst (fst result)) = 201 ->
  JWT_SECRET = Some secret -> secret <> "" ->
  exists e p,
    email = Some e /\ password = Some p /\
    (bcryptCompare p (bcryptHash p) = true ->
     fst (fst (login JWT_SECRET sign bcryptCompare email password a' []))
     = mkAuthResponse 200
         (LoggedIn (sign (nextUserId a) defaultRole secret)
                   (nextUserId a) e defaultRole)) /\
    (forall wrong, wrong <> "" -> bcryptCompare wrong (bcryptHash p) = false ->
       fst (fst (login JWT_SECRET sign bcryptCompare email (Some wrong) a' []))
       = authJson 401 "Invalid credentials.") /\
    (forall unknown wrong,
       unknown <> "" -> wrong <> "" ->
       find (fun u => String.eqb (user_email u) unknown) (users a') = None ->
       fst (fst (login JWT_SECRET sign bcryptCompare (Some unknown) (Some wrong)
                       a' []))
       = authJson 401 "Invalid credentials.").
Proof.
  intros result a' Hstatus Hsecret Hconfigured. subst a' result.
  destruct (register_paths bcryptHash defaultRole stamp email password a fs)
    as [[Hno _] | (e & p & He & Hp & Hne & Hlen & Hfind & Hr & Ha)];
    [contradiction|].
  cbv zeta in *. exists e, p. split; [exact He|]. split; [exact Hp|].
  rewrite Ha. subst email password.
  set (u := mkUser (nextUserId a) e (bcryptHash p) defaultRole stamp).
  assert (Hu : find (fun u => String.eqb (user_email u) e) (users a ++ [u])
               = Some u) by (apply find_email_app; [exact Hfind | reflexivity]).
  assert (Hp0 : p <> "").
  { intros ->. simpl in Hlen. lia. }
  destruct secret as [|c0 secret]; [contradiction|].
  destruct e as [|c e]; [contradiction|].
  split; [|split].
  - intros Hok. destruct p as [|c' p]; [contradiction|].
    unfold login, answering, accounts.user.findUnique.
    rewrite bind_accounts_call. cbn [next_fault users].
    rewrite Hu. cbn [user_passwordHash u]. unfold u at 1. cbn [user_passwordHash].
    rewrite Hok. cbn [negb]. unfold getJwtSecret. rewrite Hsecret. reflexivity.
  - intros wrong Hwrong Hbad. destruct wrong as [|c' wrong]; [contradiction|].
    unfold login, answering, accounts.user.findUnique.
    rewrite bind_accounts_call. cbn [next_fault users].
    rewrite Hu. unfold u at 1. cbn [user_passwordHash].
    rewrite Hbad. reflexivity.
  - intros unknown wrong Hunknown Hwrong Hnone.
    destruct unknown as [|c1 unknown]; [contradiction|].
    destruct wrong as [|c' wrong]; [contradiction|].
    unfold login, answering, accounts.user.findUnique.
    rewrite bind_accounts_call. cbn [next_fault users] in *.
    rewrite Hnone. reflexivity.
Qed.

Lemma registered_user_can_log_in_witness :
  let a' := snd (fst (register SampleAccounts.bcryptHash "USER" 200
                               (Some "bob@example.com") (Some "builder1")
                               SampleAccounts.accounts0 [])) in
  fst (fst (login (Some SampleAccounts.secret) SampleAccounts.sign
                  SampleAccounts.bcryptCompare
                  (Some "bob@example.com") (Some "builder1") a' []))
  = mkAuthResponse 200 (LoggedIn "bob.token" 8 "bob@example.com" "USER").
Proof.
  destruct (@registered_user_can_log_in
              (Some SampleAccounts.secret) SampleAccounts.sign
              SampleAccounts.bcryptHash SampleAccounts.bcryptCompare
              "USER" 200 (Some "bob@example.com") (Some "builder1")
              SampleAccounts.accounts0 [] SampleAccounts.secret
              eq_refl eq_refl)
    as (e & p & He & Hp & Hok & _).
  - discriminate.
  - injection He as <-. injection Hp as <-. apply Hok. reflexivity.
Defined.

(* ===================================================================== *)
(** ** From login to the guarded routes *)
(* ===================================================================== *)

Lemma split_whole (sep : ascii) (s : string) :
  occurs sep s = false -> Js.split sep s = [s].
Proof.
  induction s as [|c s IH]; intros H; [reflexivity|].
  cbn [occurs] in H. apply orb_false_iff in H. destruct H as [Hc Hs].
  cbn [Js.split]. rewrite Hc, (IH Hs). reflexivity.
Qed.

Lemma bearer_token (token : string) :
  occurs " " token = false ->
  Js.startsWith ("Bearer " ++ token)%string "Bearer " = true /\
  nth_error (Js.split " " ("Bearer " ++ token)%string) 1 = Some token.
Proof.
  intros H. split.
  - unfold Js.startsWith. simpl. destruct token; reflexivity.
  - cbn [append Js.split Ascii.eqb Bool.eqb]. rewrite (split_whole _ _ H).
    reflexivity.
Qed.

(** X24. The token [POST /login] issues opens the guarded routes for the
    user who logged in: when [jwt.verify] accepts the issued token with
    the payload that was signed, the token holds no space and is not
    revoked, a 200 of [POST /login] carries a token with which [GET /me]
    answers 200 and the payload of that very user: the id and the role of
    the user whose email and password were given. *)
Theorem login_token_opens_guarded_routes
        (JWT_SECRET : option string)
        (verify : string -> string -> option AuthPayload)
        (sign : Z -> string -> string -> string)
        (hashToken : string -> string)
        (bcryptCompare : string -> string -> bool)
        (email password : option string) (a : Accounts) (fs : Faults)
        (token : string) (id : Z) (e role : string) (exp : option Z) :
  auth_body (fst (fst (login JWT_SECRET sign bcryptCompare email password a fs)))
  = LoggedIn token id e role ->
  (forall secret, JWT_SECRET = Some secret ->
                  verify token secret = Some (mkAuthPayload id role exp)) ->
  occurs " " token = false ->
  ~ revoked (hashToken token) a ->
  exists user secret,
    In user (users a) /\ email = Some (user_email user) /\
    user_id user = id /\ user_role user = role /\ user_email user = e /\
    JWT_SECRET = Some secret /\
    token = sign id role secret /\
    me JWT_SECRET verify hashToken (Some ("Bearer " ++ token)%string) a []
    = (mkAuthResponse 200 (Me (mkAuthPayload id role exp)), a, []).
Proof.
  intros Hbody Hjwt Hspace Hfresh.
  destruct (login_paths JWT_SECRET sign bcryptCompare email password a fs)
    as [_ [Hno | (e0 & p & user & secret & He & Hp & Hfind & Hok & Hsecret
                  & Hne & Hr)]].
  { exfalso. unfold login, answering in *.
    destruct email as [[|c e1]|]; try discriminate.
    destruct password as [[|c' p1]|]; try discriminate.
    revert Hbody Hno. unfold accounts.user.findUnique.
    rewrite bind_accounts_call.
    destruct (next_fault fs) as [[|] fs1]; [discriminate|].
    destruct (find _ (users a)) as [user|]; [|discriminate].
    destruct (bcryptCompare _ _); cbn [negb]; [|discriminate].
    destruct getJwtSecret; [|discriminate].
    cbn. intros _ H. apply H. reflexivity. }
  rewrite Hr in Hbody. cbn [auth_body] in Hbody.
  injection Hbody as Htoken Hid Hemail Hrole.
  pose proof (Hjwt secret Hsecret) as Hverify.
  apply find_some in Hfind. destruct Hfind as [Hin Hmail].
  apply String.eqb_eq in Hmail.
  exists user, secret. split; [exact Hin|]. split; [congruence|].
  repeat (split; [assumption|]).
  split; [congruence|].
  destruct (@bearer_token token Hspace) as [Hprefix Hpart].
  unfold me, guarded, requireAuth, answering.
  assert (Hheader : exists c header,
             ("Bearer " ++ token)%string = String c header)
    by (eexists _, _; reflexivity).
  destruct Hheader as (c & header & Hheader). rewrite Hheader in *.
  rewrite Hprefix. cbn [negb]. rewrite Hsecret.
  destruct secret as [|c' secret]; [contradiction|].
  rewrite Hpart, Hverify. unfold accounts.revokedToken.findUnique.
  rewrite bind_accounts_call. cbn [next_fault].
  destruct (find _ (revokedTokens a)) as [row|] eqn:Hrow.
  - exfalso. apply Hfresh, find_revoked. eauto.
  - reflexivity.
Qed.

Lemma login_token_opens_guarded_routes_witness :
  me (Some SampleAccounts.secret) SampleAccounts.verify SampleAccounts.hashToken
     (Some "Bearer alice.token") SampleAccounts.accounts0 []
  = (mkAuthResponse 200 (Me SampleAccounts.alice), SampleAccounts.accounts0, []).
Proof.
  destruct (@login_token_opens_guarded_routes
              (Some SampleAccounts.secret) SampleAccounts.verify
              SampleAccounts.sign SampleAccounts.hashToken
              SampleAccounts.bcryptCompare
              (Some "alice@example.com") (Some "wonderland")
              SampleAccounts.accounts0 []
              "alice.token" 7 "alice@example.com" "USER" (Some 2000))
    as (user & secret & _ & _ & _ & _ & _ & _ & _ & H).
  - reflexivity.
  - intros secret E. injection E as <-. reflexivity.
  - reflexivity.
  - intros (r & [<- | [<- | []]] & E); discriminate.
  - exact H.
Defined.

(* ===================================================================== *)
(** ** The unique keys of the accounts *)
(* ===================================================================== *)

Lemma NoDup_snoc {A : Type} (l : list A) (x : A) :
  NoDup l -> ~ In x l -> NoDup (l ++ [x]).
Proof.
  intros Hl Hx. apply NoDup_app; [exact Hl | |].
  - constructor; [intros [] | constructor].
  - intros y Hy [<- | []]. contradiction.
Qed.

Lemma uniqueKeys_cleaned (now : Z) (a : Accounts) :
  uniqueKeys a -> uniqueKeys (cleaned now a).
Proof.
  intros [Hu Hr]. split; [exact Hu|]. cbn. apply NoDup_map_filter, Hr.
Qed.

Lemma uniqueKeys_upserted (stamp : Z) (tokenHash : string) (expiresAt : Z)
      (a : Accounts) :
  uniqueKeys a -> uniqueKeys (upserted stamp tokenHash expiresAt a).
Proof.
  intros [Hu Hr]. unfold upserted.
  destruct (find (fun r => String.eqb (revokedToken_tokenHash r) tokenHash)
                 (revokedTokens a)) as [row|] eqn:Hfind;
    (split; [exact Hu|]); cbn.
  - rewrite map_map. rewrite (map_ext _ revokedToken_tokenHash); [exact Hr|].
    intros r. destruct (String.eqb (revokedToken_tokenHash r) tokenHash);
      reflexivity.
  - rewrite map_app. apply NoDup_snoc; [exact Hr|].
    cbn. intros Hin. apply in_map_iff in Hin. destruct Hin as (r & Hhash & Hin).
    apply (find_none _ _ Hfind) in Hin. rewrite Hhash, String.eqb_refl in Hin.
    discriminate.
Qed.

(** X25. The routes keep the unique keys of the accounts unique: after
    [POST /register], [POST /login] and [POST /logout], whatever they
    answer and whatever store call fails, no two users share an email
    and no two revoked tokens share a hash. *)
Theorem accounts_keys_stay_unique
        (JWT_SECRET : option string)
        (verify : string -> string -> option AuthPayload)
        (sign : Z -> string -> string -> string)
        (hashToken : string -> string)
        (bcryptHash : string -> string)
        (bcryptCompare : string -> string -> bool)
        (defaultRole : string) (a : Accounts) (fs : Faults) :
  uniqueKeys a ->
  (forall stamp email password,
      uniqueKeys (snd (fst (register bcryptHash defaultRole stamp email password
                                     a fs)))) /\
  (forall email password,
      uniqueKeys (snd (fst (login JWT_SECRET sign bcryptCompare email password
                                  a fs)))) /\
  (forall now stamp authorization,
      uniqueKeys (snd (fst (logout JWT_SECRET verify hashToken now stamp
                                   authorization a fs)))).
Proof.
  intros Hk. split; [|split].
  - intros stamp email password.
    destruct (register_paths bcryptHash defaultRole stamp email password a fs)
      as [[_ ->] | (e & p & _ & _ & _ & _ & Hfind & _ & ->)]; [exact Hk|].
    destruct Hk as [Hu Hr]. split; [|exact Hr]. cbn.
    rewrite map_app. apply NoDup_snoc; [exact Hu|].
    cbn. intros Hin. apply in_map_iff in Hin. destruct Hin as (u & Hmail & Hin).
    apply (find_none _ _ Hfind) in Hin. rewrite Hmail, String.eqb_refl in Hin.
    discriminate.
  - intros email password.
    destruct (login_paths JWT_SECRET sign bcryptCompare email password a fs)
      as [-> _]. exact Hk.
  - intros now stamp authorization.
    destruct (logout_paths JWT_SECRET verify hashToken now stamp authorization
                           a fs)
      as [[_ [-> | ->]] | (user & token & exp & _ & _ & _ & ->)].
    + exact Hk.
    + apply uniqueKeys_cleaned, Hk.
    + apply uniqueKeys_upserted, uniqueKeys_cleaned, Hk.
Qed.

Lemma uniqueKeys_accounts0 : uniqueKeys SampleAccounts.accounts0.
Proof. split; simpl; distinct. Qed.

Lemma accounts_keys_stay_unique_witness :
  uniqueKeys (snd (fst (logout (Some SampleAccounts.secret) SampleAccounts.verify
                               SampleAccounts.hashToken 5000 170
                               (Some "Bearer alice.token")
                               SampleAccounts.accounts0 []))).
Proof.
  apply (@accounts_keys_stay_unique
           (Some SampleAccounts.secret) SampleAccounts.verify SampleAccounts.sign
           SampleAccounts.hashToken SampleAccounts.bcryptHash
           SampleAccounts.bcryptCompare "USER" SampleAccounts.accounts0 []
           uniqueKeys_accounts0).
Defined.

(* ===================================================================== *)
(** ** The two revisions of [regenerate] *)
(* ===================================================================== *)

Lemma upToLocks_locked (tripId userId now lockUntil : Z) (s : Store) :
  upToLocks (locked tripId userId now lockUntil s) = upToLocks s.
Proof.
  unfold upToLocks, locked, with_trips. cbn. f_equal.
  rewrite map_map. apply map_ext. intros t.
  destruct (acquireWhere tripId userId now t); reflexivity.
Qed.

Lemma samePlan_planted_cleared (tripId days : Z) (plan : Plan) (s s' : Store) :
  samePlan s s' ->
  samePlan (planted tripId days plan (cleared tripId s))
           (planted tripId days plan (cleared tripId s')).
Proof.
  intros H. apply samePlan_tables in H.
  destruct H as (Hd & Hp & Ha & Hnd & Hnp & Hnt & Ht).
  unfold samePlan, upToLocks, planted. rewrite !cleared_tables.
  unfold dayPlansOf, with_trips, addPlannedActivities, addDayPlans. cbn.
  rewrite Hd, Hp, Ha, Hnd, Hnp, Hnt, Ht. reflexivity.
Qed.

Section Revisions.

Variable StringToNumber : string -> Js.Number.
Variable generateItinerary : list Activity -> Z -> string -> option Plan.

Lemma regenerate_v1_succeeds (userId : Z) (id : string) (s : Store)
      (base : Trip) (plan : Plan) :
  let tripId := Js.toZ (StringToNumber id) in
  let after := planted tripId (trip_daysCount base) plan (cleared tripId s) in
  validTripId (StringToNumber id) = true ->
  find (fun t => trip_id t =? tripId) (trips s) = Some base ->
  trip_userId base = userId ->
  generateItinerary (catalog (trip_destination base) s) (trip_daysCount base)
                    (trip_interests base) = Some plan ->
  serve serverError (regenerate_v1 StringToNumber generateItinerary userId id) s []
  = (mkResponse 200 (TripJson (prisma.trip.tripView after tripId)
                              (plan_warning plan)),
     after, []).
Proof.
  intros tripId after Hvalid Hfind Howner Hplan.
  unfold serve, regenerate_v1. fold tripId.
  unfold validTripId in Hvalid. apply negb_true_iff in Hvalid. rewrite Hvalid.
  unfold prisma.trip.findUnique. rewrite bind_db_call. cbn [next_fault].
  rewrite Hfind. apply Z.eqb_eq in Howner. rewrite Howner. cbn [negb].
  unfold prisma.activity.findMany. rewrite bind_db_call. cbn [next_fault].
  fold (catalog (trip_destination base) s). rewrite Hplan.
  cbn [throwing]. cbn [bind Monad_DB ret].
  rewrite (proj2 (Computes_transaction
                    (replacePlan_v1_Computes tripId base plan s))).
  reflexivity.
Qed.

End Revisions.

(** X26. The lock did not change what a regeneration persists: for the
    owner of a trip whose lock is free, with no interests override, a
    catalog that is not empty, a planner that returns a plan and no
    failing store call, the [regenerate] with the lock and the earlier
    one both answer 200 with the same warning and the same days, and
    leave the same DayPlan and PlannedActivity tables. *)
Theorem regenerate_agrees_with_earlier_revision
        (StringToNumber : string -> Js.Number)
        (generateItinerary : list Activity -> Z -> string -> option Plan)
        (clock : Clock) (userId : Z) (id : string) (st : Store)
        (base : Trip) (plan : Plan) :
  let tripId := Js.toZ (StringToNumber id) in
  let earlier := serve serverError
                       (regenerate_v1 StringToNumber generateItinerary userId id)
                       st [] in
  let later := run (regenerate StringToNumber generateItinerary clock
                               (mkRegenerateRequest userId id None))
                   (mkWorld st [] []) in
  validTripId (StringToNumber id) = true ->
  find (fun t => trip_id t =? tripId) (trips st) = Some base ->
  trip_userId base = userId ->
  lockFree (newDate clock) base = true ->
  catalog (trip_destination base) st <> [] ->
  generateItinerary (catalog (trip_destination base) st) (trip_daysCount base)
                    (trip_interests base) = Some plan ->
  exists r v v0,
    fst later = Returned r /\
    status r = 200 /\ status (fst (fst earlier)) = 200 /\
    body r = TripJson (Some v) (plan_warning plan) /\
    body (fst (fst earlier)) = TripJson (Some v0) (plan_warning plan) /\
    view_dayPlans v = view_dayPlans v0 /\
    dayPlans (store (snd later)) = dayPlans (snd (fst earlier)) /\
    plannedActivities (store (snd later)) = plannedActivities (snd (fst earlier)).
Proof.
  intros tripId earlier later Hvalid Hfind Howner Hfree Hcatalog Hplan.
  subst earlier later.
  rewrite (@regenerate_v1_succeeds StringToNumber generateItinerary userId id st
             base plan Hvalid Hfind Howner Hplan).
  fold tripId. cbn [fst snd status body].
  set (req := mkRegenerateRequest userId id None).
  assert (HplanFor : planFor generateItinerary (catalog (trip_destination base) st)
                             (trip_daysCount base)
                             (effectiveInterestsOf (regenerate_interests req) base)
                     = Some plan).
  { cbn. unfold planFor.
    destruct (catalog (trip_destination base) st); [contradiction | exact Hplan]. }
  destruct (@regenerate_succeeds StringToNumber generateItinerary clock req st
              base plan Hvalid Hfind Howner Hfree I HplanFor)
    as (r & w' & Hrun & Hstatus & Hbody).
  destruct (regenerate_ok _ _ _ _ _ _ Hrun Hstatus)
    as (base' & plan' & Hfind' & _ & _ & Hplan' & _ & Hsame).
  cbv zeta in *. cbn [regenerate_id regenerate_userId regenerate_interests req]
    in *.
  fold tripId in Hfind', Hsame, Hbody.
  assert (base' = base) by congruence. subst base'.
  assert (plan' = plan) by congruence. subst plan'.
  cbn [effectiveInterestsOf] in *.
  rewrite replaced_same_interests in Hsame, Hbody.
  set (later := planted tripId (trip_daysCount base) plan
                        (cleared tripId
                                 (locked tripId userId (newDate clock)
                                         (dateNow clock + lockTtlMs) st))) in *.
  set (earlier := planted tripId (trip_daysCount base) plan (cleared tripId st)).
  assert (Hrev : samePlan earlier later).
  { apply samePlan_planted_cleared. unfold samePlan.
    apply upToLocks_locked. }
  assert (Hview : exists v0, prisma.trip.tripView earlier tripId = Some v0).
  { unfold prisma.trip.tripView, earlier, planted.
    cbn [trips addPlannedActivities addDayPlans].
    rewrite trips_cleared, Hfind. eexists. reflexivity. }
  destruct Hview as [v0 Hview].
  destruct (@tripView_samePlan tripId _ _ _ Hrev Hview) as (v & Hv & Hdays & _).
  exists r, v, v0. rewrite Hrun. cbn [fst snd].
  split; [reflexivity|]. split; [exact Hstatus|]. split; [reflexivity|].
  split; [rewrite Hbody, Hv; reflexivity|].
  split; [rewrite Hview; reflexivity|].
  split; [exact Hdays|].
  apply samePlan_tables in Hsame. destruct Hsame as (Hd & Hp & _).
  apply samePlan_tables in Hrev. destruct Hrev as (Hd' & Hp' & _).
  split; congruence.
Qed.

Lemma regenerate_agrees_with_earlier_revision_witness :
  let earlier := serve serverError
                       (regenerate_v1 Sample.StringToNumber Sample.planner 7 "1")
                       Sample.store0 [] in
  let later := run (regenerate Sample.StringToNumber Sample.planner
                               (mkClock 1000 1000)
                               (mkRegenerateRequest 7 "1" None))
                   (mkWorld Sample.store0 [] []) in
  dayPlans (store (snd later)) = dayPlans (snd (fst earlier)) /\
  plannedActivities (store (snd later)) = plannedActivities (snd (fst earlier)).
Proof.
  intros earlier later.
  assert (Hplan : exists plan,
             Sample.planner (catalog "Paris" Sample.store0) 2 "culture"
             = Some plan) by (eexists; vm_compute; reflexivity).
  destruct Hplan as [plan Hplan].
  destruct (@regenerate_agrees_with_earlier_revision
              Sample.StringToNumber Sample.planner (mkClock 1000 1000) 7 "1"
              Sample.store0 Sample.paris plan)
    as (r & v & v0 & _ & _ & _ & _ & _ & _ & Hd & Hp);
    try reflexivity.
  - discriminate.
  - exact Hplan.
  - split; assumption.
Defined.

(* ===================================================================== *)
(** ** Regenerating again *)
(* ===================================================================== *)

Section RegenerateAlone.

Variable StringToNumber : string -> Js.Number.
Variable generateItinerary : list Activity -> Z -> string -> option Plan.

(** The store a lone regeneration that meets no fault leaves: the plan
    replaced, and the lock it took cleared. *)
Lemma regenerate_succeeds_store (clock : Clock) (req : RegenerateRequest)
      (st : Store) (base : Trip) (plan : Plan) :
  let tripId := Js.toZ (StringToNumber (regenerate_id req)) in
  let userId := regenerate_userId req in
  let after := replaced tripId base
                        (effectiveInterestsOf (regenerate_interests req) base) plan
                        (locked tripId userId (newDate clock)
                                (dateNow clock + lockTtlMs) st) in
  validTripId (StringToNumber (regenerate_id req)) = true ->
  find (fun t => trip_id t =? tripId) (trips st) = Some base ->
  trip_userId base = userId ->
  lockFree (newDate clock) base = true ->
  acceptable (regenerate_interests req) ->
  planFor generateItinerary (catalog (trip_destination base) st)
          (trip_daysCount base)
          (effectiveInterestsOf (regenerate_interests req) base) = Some plan ->
  exists w',
    run (regenerate StringToNumber generateItinerary clock req) (mkWorld st [] [])
    = (Returned (mkResponse 200 (TripJson (prisma.trip.tripView after tripId)
                                          (plan_warning plan))), w') /\
    store w' = unlocked tripId userId after.
Proof.
  intros tripId userId after Hvalid Hfind Huser Hfree Hok Hplan.
  rewrite (run_regenerate _ _ _ _ _ Hvalid). fold tripId userId.
  rewrite run_tryCatch.
  destruct (regenerateBody_succeeds generateItinerary (newDate clock)
              (dateNow clock + lockTtlMs)
              tripId (regenerate_interests req) (mkWorld st [] []) eq_refl
              Hfind Huser Hfree Hok Hplan) as (w1 & Hrun & Hfs).
  destruct (regenerateBody_ok generateItinerary _ _ _ _ _ _ Hrun eq_refl)
    as (base' & plan' & Hfind' & _ & _ & Hplan' & _ & Hstore).
  cbv zeta in Hstore. cbn [store] in *.
  assert (base' = base) by congruence. subst base'.
  assert (plan' = plan) by congruence. subst plan'.
  rewrite Hrun. cbn [fst snd].
  rewrite (perform_no_fault Unlock w1 (updateMany_Computes _ _ (store w1)) Hfs).
  cbn [snd]. eexists. split; [reflexivity|].
  cbn [store]. rewrite Hstore. reflexivity.
Qed.

End RegenerateAlone.

Lemma find_replaced_locked (tripId userId now lockUntil : Z) (base : Trip)
      (interests : string) (plan : Plan) (s : Store) :
  find (fun t => trip_id t =? tripId) (trips s) = Some base ->
  acquireWhere tripId userId now base = true ->
  find (fun t => trip_id t =? tripId)
       (trips (replaced tripId base interests plan
                        (locked tripId userId now lockUntil s)))
  = Some (set_interests interests (set_regenLockUntil (Some lockUntil) base)).
Proof.
  intros Hfind Hacq. unfold replaced, planted.
  cbn [trips addPlannedActivities addDayPlans].
  apply reinterested_find; [|reflexivity].
  rewrite trips_cleared. unfold locked. cbn [trips with_trips].
  rewrite find_map_trip, Hfind; [cbn; rewrite Hacq; reflexivity|].
  intros t. destruct (acquireWhere _ _ _ t); reflexivity.
Qed.

Lemma samePlan_unlocked (tripId userId : Z) (s : Store) :
  samePlan s (unlocked tripId userId s).
Proof.
  unfold samePlan, upToLocks, unlocked, with_trips. cbn. f_equal.
  rewrite map_map. apply map_ext. intros t.
  destruct (unlockWhere tripId userId t); reflexivity.
Qed.

Lemma consistent_samePlan (s s' : Store) :
  samePlan s s' -> consistent s -> consistent s'.
Proof.
  intros H Hc. apply samePlan_tables in H.
  destruct H as (Hd & Hp & Ha & Hnd & Hnp & Hnt & Ht).
  assert (Hids : map trip_id (trips s') = map trip_id (trips s)).
  { apply (f_equal (map trip_id)) in Ht. rewrite !map_map in Ht. exact Ht. }
  constructor.
  - rewrite Hids. apply (trip_ids_distinct Hc).
  - intros t Hin. apply (in_map trip_id) in Hin. rewrite Hids in Hin.
    apply in_map_iff in Hin. destruct Hin as (t0 & <- & Hin).
    rewrite Hnt. apply (trip_ids_used Hc), Hin.
  - rewrite Hd. apply (dayPlan_ids_distinct Hc).
  - rewrite Hd, Hnd. apply (dayPlan_ids_used Hc).
  - rewrite Hp. apply (plannedActivity_ids_distinct Hc).
  - rewrite Hp, Hnp. apply (plannedActivity_ids_used Hc).
  - rewrite Hd. intros dp Hdp.
    destruct (dayPlan_of_trip Hc dp Hdp) as (t & Ht0 & Hid).
    apply (in_map trip_id) in Ht0. rewrite <- Hids in Ht0.
    apply in_map_iff in Ht0. destruct Ht0 as (t' & Hid' & Hin').
    exists t'. split; [exact Hin' | congruence].
  - rewrite Hp, Hd. apply (plannedActivity_of_dayPlan Hc).
Qed.

(** X27. A regeneration that ran to its end does not block the next one:
    on a consistent store, when a lone request of the owner on a trip
    whose lock is free, with a valid id, an interests override that is
    absent or not blank, and a plan the planner does return for it, meets
    no fault, it answers 200 and leaves every row of the trip unlocked;
    the same request sent again, at whatever time, then answers 200 as
    well, with the same plan and warning, and the trip is persisted as
    that plan after the first and after the second. *)
Theorem regenerate_can_be_repeated
        (StringToNumber : string -> Js.Number)
        (generateItinerary : list Activity -> Z -> string -> option Plan)
        (clock again : Clock) (req : RegenerateRequest) (st : Store)
        (base : Trip) (plan : Plan) :
  let tripId := Js.toZ (StringToNumber (regenerate_id req)) in
  let userId := regenerate_userId req in
  let interests := effectiveInterestsOf (regenerate_interests req) base in
  let first := run (regenerate StringToNumber generateItinerary clock req)
                   (mkWorld st [] []) in
  let second := run (regenerate StringToNumber generateItinerary again req)
                    (mkWorld (store (snd first)) [] []) in
  consistent st ->
  validTripId (StringToNumber (regenerate_id req)) = true ->
  find (fun t => trip_id t =? tripId) (trips st) = Some base ->
  trip_userId base = userId ->
  lockFree (newDate clock) base = true ->
  acceptable (regenerate_interests req) ->
  planFor generateItinerary (catalog (trip_destination base) st)
          (trip_daysCount base) interests = Some plan ->
  exists v1 v2,
    fst first = Returned (mkResponse 200 (TripJson (Some v1) (plan_warning plan))) /\
    fst second = Returned (mkResponse 200 (TripJson (Some v2) (plan_warning plan))) /\
    shows v1 (trip_daysCount base) plan /\
    shows v2 (trip_daysCount base) plan /\
    persistedAs tripId (trip_daysCount base) plan (store (snd first)) /\
    persistedAs tripId (trip_daysCount base) plan (store (snd second)) /\
    (forall t, In t (tripRows tripId userId (store (snd first))) ->
               trip_regenLockUntil t = None) /\
    (forall t, In t (tripRows tripId userId (store (snd second))) ->
               trip_regenLockUntil t = None).
Proof.
  intros tripId userId interests first second Hc Hvalid Hfind Huser Hfree Hok Hplan.
  subst first second.
  destruct (find_trip_some _ _ Hfind) as [Hin Hid].
  assert (Hacq : forall now t, trip_id t = tripId -> trip_userId t = userId ->
                               lockFree now t = true ->
                               acquireWhere tripId userId now t = true).
  { intros now t Ht Hu Hf. unfold acquireWhere.
    rewrite Ht, Hu, !Z.eqb_refl, Hf. reflexivity. }
  (* the first request *)
  destruct (regenerate_succeeds_store StringToNumber generateItinerary clock req st
              Hvalid Hfind Huser Hfree Hok Hplan) as (w1 & Hrun1 & Hstore1).
  fold tripId userId interests in Hrun1, Hstore1.
  set (lock1 := dateNow clock + lockTtlMs) in *.
  set (after1 := replaced tripId base interests plan
                          (locked tripId userId (newDate clock) lock1 st)) in *.
  set (base1 := set_interests interests (set_regenLockUntil (Some lock1) base)).
  assert (Hrow1 : find (fun t => trip_id t =? tripId) (trips after1) = Some base1)
    by (apply find_replaced_locked; auto).
  assert (Hc1 : consistent after1).
  { apply servesTrip_replaced.
    - apply consistent_trips_mapped; [|exact Hc].
      intros t. destruct (acquireWhere _ _ _ t); reflexivity.
    - apply hasTrip_trips_mapped.
      + intros t. destruct (acquireWhere _ _ _ t); reflexivity.
      + exists base. auto. }
  assert (Hp1 : persistedAs tripId (trip_daysCount base) plan after1).
  { apply persistedAs_replaced, wellFormed_locked, consistent_wellFormed, Hc. }
  rewrite Hrun1. cbn [fst snd]. rewrite Hstore1.
  set (s1 := unlocked tripId userId after1).
  assert (Hsame1 : samePlan after1 s1) by apply samePlan_unlocked.
  assert (Hcs1 : consistent s1) by (apply (consistent_samePlan Hsame1 Hc1)).
  set (base2 := set_regenLockUntil None base1).
  assert (Hfind2 : find (fun t => trip_id t =? tripId) (trips s1) = Some base2).
  { unfold s1, unlocked. cbn [trips with_trips].
    rewrite find_map_trip, Hrow1.
    - cbn. unfold unlockWhere. cbn. rewrite Hid, Huser, !Z.eqb_refl. reflexivity.
    - intros t. destruct (unlockWhere _ _ t); reflexivity. }
  assert (Hinterests : effectiveInterestsOf (regenerate_interests req) base2
                       = interests).
  { unfold base2, base1, interests, effectiveInterestsOf.
    cbn [trip_interests set_regenLockUntil set_interests].
    destruct (regenerate_interests req) as [s|]; [|reflexivity].
    destruct (String.eqb (Js.trim s) ""); reflexivity. }
  assert (Hplan2 : planFor generateItinerary (catalog (trip_destination base2) s1)
                           (trip_daysCount base2)
                           (effectiveInterestsOf (regenerate_interests req) base2)
                   = Some plan).
  { rewrite Hinterests.
    replace (catalog (trip_destination base2) s1)
      with (catalog (trip_destination base) st); [exact Hplan|].
    unfold catalog. f_equal.
    apply samePlan_tables in Hsame1. destruct Hsame1 as (_ & _ & -> & _).
    unfold after1, replaced, planted, reinterested.
    destruct (negb _); cbn; unfold cleared; destruct (0 <? _); reflexivity. }
  (* the second request *)
  destruct (regenerate_succeeds_store StringToNumber generateItinerary again req s1
              Hvalid Hfind2 Huser eq_refl Hok Hplan2) as (w2 & Hrun2 & Hstore2).
  fold tripId userId in Hrun2, Hstore2. rewrite Hinterests in Hrun2, Hstore2.
  cbn [trip_daysCount base2 base1 set_regenLockUntil set_interests] in Hrun2, Hstore2.
  set (lock2 := dateNow again + lockTtlMs) in *.
  set (after2 := replaced tripId base2 interests plan
                          (locked tripId userId (newDate again) lock2 s1)) in *.
  assert (Hrow2 : exists b, find (fun t => trip_id t =? tripId) (trips after2)
                            = Some b).
  { eexists. apply find_replaced_locked; [exact Hfind2|]. apply Hacq; auto. }
  destruct Hrow2 as [b2 Hrow2].
  assert (Hp2 : persistedAs tripId (trip_daysCount base) plan after2).
  { apply (@persistedAs_replaced tripId base2 interests plan).
    apply wellFormed_locked, consistent_wellFormed, Hcs1. }
  rewrite Hrun2. cbn [fst snd]. rewrite Hstore2.
  assert (Hv1 : exists v1, prisma.trip.tripView after1 tripId = Some v1).
  { unfold prisma.trip.tripView. rewrite Hrow1. eexists. reflexivity. }
  assert (Hv2 : exists v2, prisma.trip.tripView after2 tripId = Some v2).
  { unfold prisma.trip.tripView. rewrite Hrow2. eexists. reflexivity. }
  destruct Hv1 as [v1 Hv1]. destruct Hv2 as [v2 Hv2].
  exists v1, v2. rewrite Hv1, Hv2.
  split; [reflexivity|]. split; [reflexivity|].
  split; [apply (persistedAs_shows Hp1 Hv1)|].
  split; [apply (persistedAs_shows Hp2 Hv2)|].
  split; [apply (persistedAs_samePlan Hsame1 Hp1)|].
  split; [apply (persistedAs_samePlan (samePlan_unlocked tripId userId after2) Hp2)|].
  split; intros t Ht; unfold tripRows, unlocked in Ht; cbn [trips with_trips] in Ht;
    apply (tripRows_unlocked _ _ _ _ Ht).
Qed.

Lemma regenerate_can_be_repeated_witness :
  let first := run (regenerate Sample.StringToNumber Sample.planner
                               (mkClock 1000 1000) Sample.regenerateParis)
                   (mkWorld Sample.store0 [] []) in
  let second := run (regenerate Sample.StringToNumber Sample.planner
                                (mkClock 1001 1001) Sample.regenerateParis)
                    (mkWorld (store (snd first)) [] []) in
  exists plan v1 v2,
    fst first = Returned (mkResponse 200 (TripJson (Some v1) (plan_warning plan))) /\
    fst second = Returned (mkResponse 200 (TripJson (Some v2) (plan_warning plan))) /\
    persistedAs 1 2 plan (store (snd first)) /\
    persistedAs 1 2 plan (store (snd second)).
Proof.
  intros first second.
  assert (Hplan : exists plan,
             planFor Sample.planner (catalog "Paris" Sample.store0) 2 "culture"
             = Some plan) by (eexists; vm_compute; reflexivity).
  destruct Hplan as [plan Hplan].
  destruct (@regenerate_can_be_repeated
              Sample.StringToNumber Sample.planner
              (mkClock 1000 1000) (mkClock 1001 1001) Sample.regenerateParis
              Sample.store0 Sample.paris plan consistent_store0
              eq_refl eq_refl eq_refl eq_refl I Hplan)
    as (v1 & v2 & H1 & H2 & _ & _ & H3 & H4 & _).
  exists plan, v1, v2.
  split; [exact H1|]. split; [exact H2|]. split; [exact H3 | exact H4].
Defined.

(* ===================================================================== *)
(** ** The list and the detail of a trip *)
(* ===================================================================== *)

Lemma totalPlannedActivities_cons (c : Z) (l : list Z) :
  totalPlannedActivities (c :: l) = c + totalPlannedActivities l.
Proof.
  unfold totalPlannedActivities. cbn [fold_left]. rewrite fold_left_add. lia.
Qed.

Lemma totalPlannedActivities_Permutation (l l' : list Z) :
  Permutation l l' -> totalPlannedActivities l = totalPlannedActivities l'.
Proof.
  induction 1 as [| c l l' _ IH | c d l | l1 l2 l3 _ IH1 _ IH2].
  - reflexivity.
  - rewrite !totalPlannedActivities_cons, IH. reflexivity.
  - rewrite !totalPlannedActivities_cons. lia.
  - congruence.
Qed.

Lemma total_of_days (s : Store) (dps : list DayPlan) :
  Z.of_nat (List.length
              (List.concat (map (fun dp => view_plannedActivities
                                        (prisma.trip.dayPlanView s dp)) dps)))
  = totalPlannedActivities
      (map (fun dp => prisma.count
                        (fun pa => plannedActivity_dayPlanId pa =? dayPlan_id dp)
                        (plannedActivities s)) dps).
Proof.
  induction dps as [|dp dps IH]; [reflexivity|].
  cbn [map List.concat]. rewrite length_app, Nat2Z.inj_add, IH,
    totalPlannedActivities_cons.
  f_equal. cbn [prisma.trip.dayPlanView view_plannedActivities].
  rewrite length_map. unfold prisma.count. f_equal.
  apply Permutation_length, orderBy_Permutation.
Qed.

Lemma find_trip_unique (s : Store) (t : Trip) :
  consistent s -> In t (trips s) ->
  find (fun t' => trip_id t' =? trip_id t) (trips s) = Some t.
Proof.
  intros Hc Hin.
  destruct (find (fun t' => trip_id t' =? trip_id t) (trips s)) as [t0|] eqn:E.
  - destruct (find_trip_some _ _ E) as [Hin0 Hid0]. f_equal.
    apply (NoDup_map_eq trip_id (trips s)); auto. apply (trip_ids_distinct Hc).
  - apply (find_none _ _ E) in Hin. rewrite Z.eqb_refl in Hin. discriminate.
Qed.

(** X28. The list and the detail agree: on a store with consistent keys,
    for every row [GET /my] lists, [GET /:id] with the id of the row
    answers the same user with 200 and a trip that has the destination,
    day count, budget and interests of the row, and whose days hold
    together as many activities as the row gives as total. *)
Theorem list_and_detail_agree
        (StringToNumber : string -> Js.Number) (createdAt : Trip -> Z)
        (userId : Z) (id : string) (s : Store)
        (rows : list TripSummary) (row : TripSummary) :
  consistent s ->
  myTrips_body (fst (fst (serve myTripsServerError (listMyTrips createdAt userId)
                                s [])))
  = MyTrips rows ->
  In row rows ->
  validTripId (StringToNumber id) = true ->
  Js.toZ (StringToNumber id) = summary_id row ->
  exists v,
    fst (fst (serve serverError (getTrip StringToNumber userId id) s []))
    = mkResponse 200 (TripJson (Some v) None) /\
    trip_id (view_trip v) = summary_id row /\
    trip_destination (view_trip v) = summary_destination row /\
    trip_daysCount (view_trip v) = summary_daysCount row /\
    trip_budget (view_trip v) = summary_budget row /\
    trip_interests (view_trip v) = summary_interests row /\
    Z.of_nat (List.length (List.concat (map view_plannedActivities (view_dayPlans v))))
    = summary_totalPlannedActivities row.
Proof.
  intros Hc Hlist Hrow Hvalid Hid.
  destruct (listMyTrips_paths createdAt userId s []) as [_ [[_ [fs' Hfs]] | Hr]];
    [discriminate|].
  rewrite Hr in Hlist. cbn [myTrips_body] in Hlist. injection Hlist as <-.
  apply in_map_iff in Hrow. destruct Hrow as (t & <- & Ht).
  apply orderBy_In in Ht. apply filter_In in Ht. destruct Ht as [Hin Howner].
  apply Z.eqb_eq in Howner.
  cbn [summarize summary_id summary_destination summary_daysCount summary_budget
       summary_interests summary_totalPlannedActivities
       prisma.trip.listed prisma.trip.listed_trip prisma.trip.listed_counts] in *.
  pose proof (@find_trip_unique s t Hc Hin) as Hfind. rewrite <- Hid in Hfind.
  pose proof (getTrip_paths StringToNumber userId id s []) as H.
  cbv zeta in H. rewrite Hfind in H.
  destruct H as [_ [[_ Hfs] | [[_ Hc0] | [[_ (t0 & Ht0 & Hne)]
                                         | [_ (t0 & _ & _ & Hr0)]]]]].
  - exfalso. apply Hfs. reflexivity.
  - destruct Hc0; congruence.
  - injection Ht0 as <-. contradiction.
  - unfold prisma.trip.tripView in Hr0. rewrite Hfind in Hr0.
    cbn [option_map] in Hr0. eexists. split; [exact Hr0|].
    cbn [view_trip view_dayPlans]. repeat (split; [reflexivity|]).
    rewrite map_map, total_of_days.
    apply totalPlannedActivities_Permutation, Permutation_map, orderBy_Permutation.
Qed.

Lemma list_and_detail_agree_witness :
  exists v,
    fst (fst (serve serverError (getTrip Sample.StringToNumber 7 "2")
                    Sample.store1 []))
    = mkResponse 200 (TripJson (Some v) None) /\
    trip_daysCount (view_trip v) = 2 /\
    Z.of_nat (List.length (List.concat (map view_plannedActivities (view_dayPlans v))))
    = 1.
Proof.
  destruct (@list_and_detail_agree
              Sample.StringToNumber trip_id 7 "2" Sample.store1
              _ (mkTripSummary 2 "Oslo" 2 None "nature" 2 1)
              consistent_store1 eq_refl)
    as (v & Hr & _ & _ & Hdays & _ & _ & Htotal).
  - left. reflexivity.
  - reflexivity.
  - reflexivity.
  - exists v. auto.
Defined.

(* ===================================================================== *)
(** ** The two revisions of the middleware *)
(* ===================================================================== *)

(** X29. The check of the revoked tokens only tightens the middleware:
    whatever the earlier [requireAuth] answers with, the later one
    answers with too; and a request the earlier one lets through, the
    later one either lets through with the same payload, and with the
    part of the header that was verified as [req.token], or answers 401
    "Invalid or expired token", which it does exactly when the hash of
    the token is revoked or the lookup fails. *)
Theorem requireAuth_tightens_earlier_revision
        (JWT_SECRET : option string)
        (verify : string -> string -> option AuthPayload)
        (hashToken : string -> string)
        (authorization : option string) (a : Accounts) (fs : Faults) :
  let later := fst (fst (requireAuth JWT_SECRET verify hashToken authorization
                                     a fs)) in
  match requireAuth_v1 JWT_SECRET verify authorization with
  | inr r => later = Denied r
  | inl user =>
      exists header token,
        authorization = Some header /\
        nth_error (Js.split " " header) 1 = Some token /\
        ((later = Next user token /\
          ~ revoked (hashToken token) a /\ fst (next_fault fs) = false)
         \/ (later = Denied (authJson 401 "Invalid or expired token") /\
             (revoked (hashToken token) a \/ fst (next_fault fs) = true)))
  end.
Proof.
  intros later. subst later. unfold requireAuth, requireAuth_v1, answering.
  destruct authorization as [[|c header]|]; try reflexivity.
  destruct (Js.startsWith (String c header) "Bearer "); cbn [negb];
    [|reflexivity].
  destruct JWT_SECRET as [[|c' secret]|]; try reflexivity.
  destruct (nth_error (Js.split " " (String c header)) 1) as [token|] eqn:Htoken;
    [|reflexivity].
  destruct (verify token (String c' secret)) as [user|]; [|reflexivity].
  exists (String c header), token. split; [reflexivity|]. split; [exact Htoken|].
  unfold accounts.revokedToken.findUnique. rewrite bind_accounts_call.
  destruct (next_fault fs) as [[|] fs1]; cbn [fst snd].
  { right. split; [reflexivity | right; reflexivity]. }
  destruct (find _ (revokedTokens a)) as [row|] eqn:Hfind; cbn [fst snd].
  - right. split; [reflexivity|]. left. apply find_revoked. eauto.
  - left. split; [reflexivity|]. split; [|reflexivity].
    intros H. apply find_revoked in H. destruct H as [r Hr]. congruence.
Qed.

(* ===================================================================== *)
(** ** Deleting an activity of the catalog *)
(* ===================================================================== *)

Section DeleteActivity.

Variable StringToNumber : string -> Js.Number.
Variable cascade : bool.

(** The paths of [DELETE /:id] of the activities routes. *)
Lemma deleteActivity_paths (id : string) (s : Store) (fs : Faults) :
  let n := Js.toZ (StringToNumber id) in
  let result := serve serverError (deleteActivity StringToNumber cascade id) s fs in
  let used := filter (fun pa => plannedActivity_activityId pa =? n)
                     (plannedActivities s) in
  ((fst (fst result) = json 404 "Activity not found"
    \/ fst (fst result) = serverError) /\ snd (fst result) = s)
  \/ (exists a fs1,
        fst (fst result) = json 409 "Activity is used in planned activities" /\
        snd (fst result) = s /\
        next_fault fs = (false, fs1) /\
        find (fun a => activity_id a =? n) (activities s) = Some a /\
        (fst (next_fault fs1) = true \/ (used <> [] /\ cascade = false)))
  \/ (exists a,
        fst (fst result) = json 200 "Activity deleted" /\
        validTripId (StringToNumber id) = true /\
        find (fun a => activity_id a =? n) (activities s) = Some a /\
        (used = [] \/ cascade = true) /\
        snd (fst result) = prisma.activity.without n s).
Proof.
  intros n result used. subst result. unfold serve, deleteActivity.
  fold n. unfold validTripId.
  destruct (negb (Js.isInteger (StringToNumber id))
            || Js.le (StringToNumber id) (Js.ofZ 0)).
  { simpl. left. auto. }
  unfold prisma.activity.findUnique. rewrite bind_db_call.
  destruct (next_fault fs) as [[|] fs1] eqn:Hfault.
  { simpl. left. auto. }
  destruct (find (fun a => activity_id a =? n) (activities s)) as [a|] eqn:Hfind.
  2:{ simpl. left. auto. }
  unfold awaitOr, prisma.activity.delete, db_call.
  destruct (next_fault fs1) as [[|] fs2] eqn:Hfault1.
  { simpl. right. left. exists a, fs1. rewrite Hfault1. auto 10. }
  rewrite Hfind. fold used.
  destruct used as [|pa pas] eqn:Hused.
  - simpl. right. right. exists a. auto 10.
  - destruct cascade eqn:Hcascade.
    + simpl. right. right. exists a. auto 10.
    + simpl. right. left. exists a, fs1. rewrite Hfault1.
      repeat split; auto. right. split; [discriminate | reflexivity].
Qed.

End DeleteActivity.

(** X30. [DELETE /:id] of the activities routes removes one catalog row
    or nothing: on 404, 409 and 500 the store is unchanged; it answers
    409 "Activity is used in planned activities" exactly when the row
    exists and the delete call fails, for whatever reason, a failing
    store call included; and a 200 means the activity with the id is
    gone, every other catalog row is kept in order, and the trips and
    DayPlans are untouched, as are the PlannedActivity rows, none of
    which referred to the activity, unless the schema cascades. *)
Theorem deleteActivity_removes_one_row
        (StringToNumber : string -> Js.Number) (cascade : bool)
        (id : string) (s : Store) (fs : Faults) :
  let n := Js.toZ (StringToNumber id) in
  let result := serve serverError (deleteActivity StringToNumber cascade id) s fs in
  let r := fst (fst result) in
  let s' := snd (fst result) in
  (status r <> 200 -> s' = s) /\
  (status r = 409 ->
   exists a fs1,
     next_fault fs = (false, fs1) /\
     find (fun a => activity_id a =? n) (activities s) = Some a /\
     (fst (next_fault fs1) = true \/
      (cascade = false /\
       exists pa, In pa (plannedActivities s) /\
                  plannedActivity_activityId pa = n))) /\
  (status r = 200 ->
   (exists a, In a (activities s) /\ activity_id a = n) /\
   activities s' = filter (fun a => negb (activity_id a =? n)) (activities s) /\
   trips s' = trips s /\ dayPlans s' = dayPlans s /\
   (cascade = false ->
    plannedActivities s' = plannedActivities s /\
    forall pa, In pa (plannedActivities s) ->
               plannedActivity_activityId pa <> n)).
Proof.
  intros n result r s'. subst r s' result.
  pose proof (deleteActivity_paths StringToNumber cascade id s fs) as H.
  cbv zeta in H. fold n in H.
  destruct H as [[[Hr | Hr] Hs]
                | [(a & fs1 & Hr & Hs & Hfault & Hfind & Hwhy)
                  | (a & Hr & _ & Hfind & Hfree & Hs)]];
    rewrite Hr, Hs.
  - repeat split; try discriminate; auto.
  - repeat split; try discriminate; auto.
  - split; [auto|]. split; [|discriminate].
    intros _. exists a, fs1. split; [exact Hfault|]. split; [exact Hfind|].
    destruct Hwhy as [Hf | [Hused Hc]]; [left; exact Hf|].
    right. split; [exact Hc|].
    destruct (filter _ (plannedActivities s)) as [|pa pas] eqn:E;
      [contradiction|].
    assert (Hpa : In pa (filter (fun pa => plannedActivity_activityId pa =? n)
                                (plannedActivities s)))
      by (rewrite E; left; reflexivity).
    apply filter_In in Hpa. destruct Hpa as [Hin Hid]. apply Z.eqb_eq in Hid.
    eauto.
  - split; [intros H; exfalso; apply H; reflexivity|].
    split; [discriminate|]. intros _.
    apply find_some in Hfind. destruct Hfind as [Hin Hid]. apply Z.eqb_eq in Hid.
    split; [eauto|]. unfold prisma.activity.without.
    cbn [activities trips dayPlans plannedActivities].
    repeat (split; [reflexivity|]).
    intros Hc. destruct Hfree as [Hfree | Hfree]; [|congruence].
    assert (Hnone : forall pa, In pa (plannedActivities s) ->
                               plannedActivity_activityId pa <> n).
    { intros pa Hpa Heq.
      assert (Hin' : In pa (filter (fun pa => plannedActivity_activityId pa =? n)
                                   (plannedActivities s)))
        by (apply filter_In; split; [exact Hpa | apply Z.eqb_eq, Heq]).
      rewrite Hfree in Hin'. contradiction. }
    split; [|exact Hnone].
    apply filter_all. intros pa Hpa. apply negb_true_iff, Z.eqb_neq, Hnone, Hpa.
Qed.

Lemma deleteActivity_removes_one_row_witness :
  let result := serve serverError
                      (deleteActivity Sample.StringToNumber false "3")
                      Sample.store1 [] in
  status (fst (fst result)) = 200 /\
  map activity_id (activities (snd (fst result))) = [1; 2; 4] /\
  plannedActivities (snd (fst result)) = plannedActivities Sample.store1.
Proof.
  cbv zeta.
  assert (Hstatus : status (fst (fst (serve serverError
                      (deleteActivity Sample.StringToNumber false "3")
                      Sample.store1 []))) = 200) by (vm_compute; reflexivity).
  destruct (deleteActivity_removes_one_row Sample.StringToNumber false "3"
                                           Sample.store1 [])
    as (_ & _ & Hdone).
  destruct (Hdone Hstatus) as (_ & Hactivities & _ & _ & Hplanned).
  split; [exact Hstatus|]. split.
  - rewrite Hactivities. vm_compute. reflexivity.
  - exact (proj1 (Hplanned eq_refl)).
Defined.
